(** * The PDF object model of the pdfi interpreter (pdf_int.c, pdf_array.c)

    A shallow embedding of the token reader, the object allocator, the
    cross-reference table with its object cache, pdfi_dereference and the
    repair pass, followed by the properties established for them.

    Conventions.  A C [int] return code is a [Z]; negative codes are the
    gs_error values.  A byte is a [Z] in [0, 256).  The garbage-collected
    pieces of the C context that the functions read and write are fields of
    [pdf_context]; a C function [int f(pdf_context *ctx, ...)] becomes a Rocq
    function from a context to a return code and the new context.  Pointers
    are indices into a store ([heap] for [pdf_obj], [cache] for
    [pdf_obj_cache_entry]); a freed cell is [None], a NULL pointer is [None]
    in an [option nat].  Allocation is taken to succeed (the VMerror exits of
    the source are not reachable in the model). *)

From Stdlib Require Import ZArith List Bool Lia String Ascii.
From stdpp Require Import base option list.

Local Open Scope Z_scope.

(** ** Return codes *)

(** Modelled from the spec: the gs_error codes come from a header that is not
    part of the sources at hand; they are the customary negative values. *)
Definition gs_error_unknownerror : Z := -1.
Definition gs_error_ioerror : Z := -12.
Definition gs_error_rangecheck : Z := -15.
Definition gs_error_stackunderflow : Z := -17.
Definition gs_error_syntaxerror : Z := -18.
Definition gs_error_typecheck : Z := -20.
Definition gs_error_undefined : Z := -21.
Definition gs_error_unmatchedmark : Z := -24.
Definition gs_error_VMerror : Z := -25.
Definition gs_error_circular_reference : Z := -112.

(** Not a gs code.  The model returns it where the C code would read or
    write through an invalid pointer (an empty stack's [stack_top[-1]], a
    freed cell, an index outside an allocated array) or read the inactive
    member of a union: the behaviour of the program is not defined by its
    source from there on. *)
Definition model_undefined_behaviour : Z := -1000.

(** Not a gs code either: a recursion bound of the model ran out. *)
Definition model_out_of_fuel : Z := -1001.

(** Modelled from the spec: the sticky per-document error bitmask.  The bit
    values are declared in an absent header; each kind is one bit, in the
    order in which the final report enumerates them. *)
Definition E_PDF_NOERROR : Z := 0.
Definition E_PDF_MISSINGENDOBJ : Z := Z.shiftl 1 8.
Definition E_PDF_MISSINGWHITESPACE : Z := Z.shiftl 1 10.
Definition E_PDF_MALFORMEDNUMBER : Z := Z.shiftl 1 11.
Definition E_PDF_UNESCAPEDSTRING : Z := Z.shiftl 1 12.
Definition E_PDF_BADOBJNUMBER : Z := Z.shiftl 1 13.

(** ** Objects *)

Inductive pdf_obj_type : Type :=
  | PDF_NULL | PDF_INT | PDF_REAL | PDF_STRING | PDF_NAME | PDF_ARRAY
  | PDF_DICT | PDF_INDIRECT | PDF_BOOL | PDF_KEYWORD | PDF_XREF_TABLE
  | PDF_ARRAY_MARK | PDF_DICT_MARK | PDF_PROC_MARK.

Definition pdf_obj_type_eqb (a b : pdf_obj_type) : bool :=
  match a, b with
  | PDF_NULL, PDF_NULL | PDF_INT, PDF_INT | PDF_REAL, PDF_REAL
  | PDF_STRING, PDF_STRING | PDF_NAME, PDF_NAME | PDF_ARRAY, PDF_ARRAY
  | PDF_DICT, PDF_DICT | PDF_INDIRECT, PDF_INDIRECT | PDF_BOOL, PDF_BOOL
  | PDF_KEYWORD, PDF_KEYWORD | PDF_XREF_TABLE, PDF_XREF_TABLE
  | PDF_ARRAY_MARK, PDF_ARRAY_MARK | PDF_DICT_MARK, PDF_DICT_MARK
  | PDF_PROC_MARK, PDF_PROC_MARK => true
  | _, _ => false
  end.

Inductive pdf_key : Type :=
  | PDF_NOT_A_KEYWORD | PDF_OBJ | PDF_ENDOBJ | PDF_STREAM | PDF_ENDSTREAM
  | PDF_XREF | PDF_STARTXREF | PDF_TRAILER | PDF_INVALID_KEY.

Definition pdf_key_eqb (a b : pdf_key) : bool :=
  match a, b with
  | PDF_NOT_A_KEYWORD, PDF_NOT_A_KEYWORD | PDF_OBJ, PDF_OBJ
  | PDF_ENDOBJ, PDF_ENDOBJ | PDF_STREAM, PDF_STREAM
  | PDF_ENDSTREAM, PDF_ENDSTREAM | PDF_XREF, PDF_XREF
  | PDF_STARTXREF, PDF_STARTXREF | PDF_TRAILER, PDF_TRAILER
  | PDF_INVALID_KEY, PDF_INVALID_KEY => true
  | _, _ => false
  end.

(** One record stands for the C structs that share the [pdf_obj] header
    (pdf_num, pdf_string, pdf_name, pdf_keyword, pdf_bool, pdf_array,
    pdf_dict, pdf_indirect_ref): the header fields first, then the fields of
    the variants, all zero after [memset].  [data] holds the bytes of a
    string, name or keyword (its [length] is the length of the list) and, for
    a PDF_REAL, the text the source hands to sscanf("%f"). *)
Record pdf_obj : Type := mk_pdf_obj {
  type : pdf_obj_type;
  refcnt : Z;
  object_num : Z;
  generation_num : Z;
  value_i : Z;
  data : list Z;
  key : pdf_key;
  size : Z;
  entries : Z;
  keys : list (option nat);
  values : list (option nat);
  stream_offset : Z;
  ref_object_num : Z;
  ref_generation_num : Z
}.

Definition zero_obj (t : pdf_obj_type) : pdf_obj :=
  mk_pdf_obj t 0 0 0 0 [] PDF_NOT_A_KEYWORD 0 0 [] [] 0 0 0.

Definition set_refcnt (v : Z) (o : pdf_obj) : pdf_obj :=
  mk_pdf_obj (type o) v (object_num o) (generation_num o) (value_i o) (data o)
    (key o) (size o) (entries o) (keys o) (values o) (stream_offset o)
    (ref_object_num o) (ref_generation_num o).

Definition set_object_num (num gen : Z) (o : pdf_obj) : pdf_obj :=
  mk_pdf_obj (type o) (refcnt o) num gen (value_i o) (data o)
    (key o) (size o) (entries o) (keys o) (values o) (stream_offset o)
    (ref_object_num o) (ref_generation_num o).

Definition set_value_i (v : Z) (o : pdf_obj) : pdf_obj :=
  mk_pdf_obj (type o) (refcnt o) (object_num o) (generation_num o) v (data o)
    (key o) (size o) (entries o) (keys o) (values o) (stream_offset o)
    (ref_object_num o) (ref_generation_num o).

Definition set_data (d : list Z) (o : pdf_obj) : pdf_obj :=
  mk_pdf_obj (type o) (refcnt o) (object_num o) (generation_num o) (value_i o) d
    (key o) (size o) (entries o) (keys o) (values o) (stream_offset o)
    (ref_object_num o) (ref_generation_num o).

Definition set_key (k : pdf_key) (o : pdf_obj) : pdf_obj :=
  mk_pdf_obj (type o) (refcnt o) (object_num o) (generation_num o) (value_i o)
    (data o) k (size o) (entries o) (keys o) (values o) (stream_offset o)
    (ref_object_num o) (ref_generation_num o).

Definition set_slots (sz en : Z) (ks vs : list (option nat)) (o : pdf_obj) : pdf_obj :=
  mk_pdf_obj (type o) (refcnt o) (object_num o) (generation_num o) (value_i o)
    (data o) (key o) sz en ks vs (stream_offset o)
    (ref_object_num o) (ref_generation_num o).

Definition set_stream_offset (off : Z) (o : pdf_obj) : pdf_obj :=
  mk_pdf_obj (type o) (refcnt o) (object_num o) (generation_num o) (value_i o)
    (data o) (key o) (size o) (entries o) (keys o) (values o) off
    (ref_object_num o) (ref_generation_num o).

Definition set_ref (num gen : Z) (o : pdf_obj) : pdf_obj :=
  mk_pdf_obj (type o) (refcnt o) (object_num o) (generation_num o) (value_i o)
    (data o) (key o) (size o) (entries o) (keys o) (values o) (stream_offset o)
    num gen.

(** ** Cross-reference entries and cache entries *)

(** [u_offset] and [u_generation_num] are the members of [u.uncompressed];
    [u_compressed_stream_num] and [u_object_index] those of [u.compressed].
    The C union overlays the two pairs in a layout that an absent header
    fixes.  The model keeps them apart, and where the source reads
    [u.uncompressed] in an entry whose [compressed] flag is set, it stops with
    [model_undefined_behaviour]: the value read there depends on the layout. *)
Record xref_entry : Type := mk_xref_entry {
  compressed : bool;
  free : bool;
  xobject_num : Z;
  u_offset : Z;
  u_generation_num : Z;
  u_compressed_stream_num : Z;
  u_object_index : Z;
  cache : option nat
}.

Definition zero_xref_entry : xref_entry :=
  mk_xref_entry false false 0 0 0 0 0 None.

Definition set_xcache (c : option nat) (e : xref_entry) : xref_entry :=
  mk_xref_entry (compressed e) (free e) (xobject_num e) (u_offset e)
    (u_generation_num e) (u_compressed_stream_num e) (u_object_index e) c.

Record pdf_obj_cache_entry : Type := mk_cache_entry {
  next : option nat;
  previous : option nat;
  o : nat
}.

(** ** Streams *)

(** Modelled from the spec: the stream layer (pdf_file.c) is absent.  A
    [pdf_stream] wraps an underlying byte source [s] with a read position, an
    end-of-file flag that a read past the end sets, and the pushed-back bytes
    that the next reads return first ("unread/pushback ... must be
    supported"). *)
Record pdf_stream : Type := mk_pdf_stream {
  s_data : list Z;
  s_pos : Z;
  eof : bool;
  unread_buffer : list Z
}.

Inductive stream_sel : Type := MAIN_STREAM | COMPRESSED_STREAM.

(** ** The interpreter context *)

Record pdf_context : Type := mk_pdf_context {
  pdfstoponerror : bool;
  pdf_errors : Z;
  heap : list (option pdf_obj);
  stack : list nat;
  xref_table : option (list xref_entry);
  cache_store : list (option pdf_obj_cache_entry);
  cache_LRU : option nat;
  cache_MRU : option nat;
  cache_entries : Z;
  loop_detection : option (list Z);
  main_stream : pdf_stream;
  compressed_stream : pdf_stream;
  main_stream_length : Z;
  Root : option nat;
  repaired : bool
}.

Definition set_pdf_errors (v : Z) (c : pdf_context) : pdf_context :=
  mk_pdf_context (pdfstoponerror c) v (heap c) (stack c) (xref_table c)
    (cache_store c) (cache_LRU c) (cache_MRU c) (cache_entries c)
    (loop_detection c) (main_stream c) (compressed_stream c)
    (main_stream_length c) (Root c) (repaired c).

Definition set_heap (v : list (option pdf_obj)) (c : pdf_context) : pdf_context :=
  mk_pdf_context (pdfstoponerror c) (pdf_errors c) v (stack c) (xref_table c)
    (cache_store c) (cache_LRU c) (cache_MRU c) (cache_entries c)
    (loop_detection c) (main_stream c) (compressed_stream c)
    (main_stream_length c) (Root c) (repaired c).

Definition set_stack (v : list nat) (c : pdf_context) : pdf_context :=
  mk_pdf_context (pdfstoponerror c) (pdf_errors c) (heap c) v (xref_table c)
    (cache_store c) (cache_LRU c) (cache_MRU c) (cache_entries c)
    (loop_detection c) (main_stream c) (compressed_stream c)
    (main_stream_length c) (Root c) (repaired c).

Definition set_xref_table (v : option (list xref_entry)) (c : pdf_context) : pdf_context :=
  mk_pdf_context (pdfstoponerror c) (pdf_errors c) (heap c) (stack c) v
    (cache_store c) (cache_LRU c) (cache_MRU c) (cache_entries c)
    (loop_detection c) (main_stream c) (compressed_stream c)
    (main_stream_length c) (Root c) (repaired c).

Definition set_cache_store (v : list (option pdf_obj_cache_entry)) (c : pdf_context) : pdf_context :=
  mk_pdf_context (pdfstoponerror c) (pdf_errors c) (heap c) (stack c) (xref_table c)
    v (cache_LRU c) (cache_MRU c) (cache_entries c)
    (loop_detection c) (main_stream c) (compressed_stream c)
    (main_stream_length c) (Root c) (repaired c).

Definition set_cache_LRU (v : option nat) (c : pdf_context) : pdf_context :=
  mk_pdf_context (pdfstoponerror c) (pdf_errors c) (heap c) (stack c) (xref_table c)
    (cache_store c) v (cache_MRU c) (cache_entries c)
    (loop_detection c) (main_stream c) (compressed_stream c)
    (main_stream_length c) (Root c) (repaired c).

Definition set_cache_MRU (v : option nat) (c : pdf_context) : pdf_context :=
  mk_pdf_context (pdfstoponerror c) (pdf_errors c) (heap c) (stack c) (xref_table c)
    (cache_store c) (cache_LRU c) v (cache_entries c)
    (loop_detection c) (main_stream c) (compressed_stream c)
    (main_stream_length c) (Root c) (repaired c).

Definition set_cache_entries (v : Z) (c : pdf_context) : pdf_context :=
  mk_pdf_context (pdfstoponerror c) (pdf_errors c) (heap c) (stack c) (xref_table c)
    (cache_store c) (cache_LRU c) (cache_MRU c) v
    (loop_detection c) (main_stream c) (compressed_stream c)
    (main_stream_length c) (Root c) (repaired c).

Definition set_loop_detection (v : option (list Z)) (c : pdf_context) : pdf_context :=
  mk_pdf_context (pdfstoponerror c) (pdf_errors c) (heap c) (stack c) (xref_table c)
    (cache_store c) (cache_LRU c) (cache_MRU c) (cache_entries c)
    v (main_stream c) (compressed_stream c)
    (main_stream_length c) (Root c) (repaired c).

Definition set_main_stream (v : pdf_stream) (c : pdf_context) : pdf_context :=
  mk_pdf_context (pdfstoponerror c) (pdf_errors c) (heap c) (stack c) (xref_table c)
    (cache_store c) (cache_LRU c) (cache_MRU c) (cache_entries c)
    (loop_detection c) v (compressed_stream c)
    (main_stream_length c) (Root c) (repaired c).

Definition set_compressed_stream (v : pdf_stream) (c : pdf_context) : pdf_context :=
  mk_pdf_context (pdfstoponerror c) (pdf_errors c) (heap c) (stack c) (xref_table c)
    (cache_store c) (cache_LRU c) (cache_MRU c) (cache_entries c)
    (loop_detection c) (main_stream c) v
    (main_stream_length c) (Root c) (repaired c).

Definition set_Root (v : option nat) (c : pdf_context) : pdf_context :=
  mk_pdf_context (pdfstoponerror c) (pdf_errors c) (heap c) (stack c) (xref_table c)
    (cache_store c) (cache_LRU c) (cache_MRU c) (cache_entries c)
    (loop_detection c) (main_stream c) (compressed_stream c)
    (main_stream_length c) v (repaired c).

Definition set_repaired (v : bool) (c : pdf_context) : pdf_context :=
  mk_pdf_context (pdfstoponerror c) (pdf_errors c) (heap c) (stack c) (xref_table c)
    (cache_store c) (cache_LRU c) (cache_MRU c) (cache_entries c)
    (loop_detection c) (main_stream c) (compressed_stream c)
    (main_stream_length c) (Root c) v.

(** ** Stream primitives *)

Definition get_stream (sel : stream_sel) (c : pdf_context) : pdf_stream :=
  match sel with
  | MAIN_STREAM => main_stream c
  | COMPRESSED_STREAM => compressed_stream c
  end.

Definition put_stream (sel : stream_sel) (st : pdf_stream) (c : pdf_context) : pdf_context :=
  match sel with
  | MAIN_STREAM => set_main_stream st c
  | COMPRESSED_STREAM => set_compressed_stream st c
  end.

(** The bytes that the next reads of a stream deliver, in order. *)
Definition stream_rest (st : pdf_stream) : list Z :=
  unread_buffer st ++ drop (Z.to_nat (s_pos st)) (s_data st).

(** Modelled from the spec: [pdfi_read_bytes(ctx, buf, 1, 1, s)].  The result
    is the count (0 or 1) and the byte read; pushed-back bytes come first; a
    read at the end of the data delivers nothing and sets [eof]. *)
Definition read_byte_stream (st : pdf_stream) : Z * Z * pdf_stream :=
  match unread_buffer st with
  | b :: rest => (1, b, mk_pdf_stream (s_data st) (s_pos st) (eof st) rest)
  | [] =>
      match s_data st !! Z.to_nat (s_pos st) with
      | Some b => (1, b, mk_pdf_stream (s_data st) (s_pos st + 1) (eof st) [])
      | None => (0, 0, mk_pdf_stream (s_data st) (s_pos st) true [])
      end
  end.

Definition pdfi_read_byte (sel : stream_sel) (c : pdf_context) : Z * Z * pdf_context :=
  let '(n, b, st) := read_byte_stream (get_stream sel c) in
  (n, b, put_stream sel st c).

(** Modelled from the spec: [pdfi_unread] pushes bytes back; they are read
    again first, in the order given. *)
Definition pdfi_unread (sel : stream_sel) (bs : list Z) (c : pdf_context) : Z * pdf_context :=
  let st := get_stream sel c in
  (0, put_stream sel
        (mk_pdf_stream (s_data st) (s_pos st) (eof st) (bs ++ unread_buffer st)) c).

(** Modelled from the spec: the position of the main stream as its reader
    sees it, pushed-back bytes discounted. *)
Definition pdfi_unread_tell (c : pdf_context) : Z :=
  s_pos (main_stream c) - Z.of_nat (length (unread_buffer (main_stream c))).

Inductive seek_origin : Type := SEEK_SET | SEEK_CUR.

(** Modelled from the spec: [pdfi_seek] drops the pushed-back bytes and moves
    the read position; a negative target is an I/O error. *)
Definition pdfi_seek (sel : stream_sel) (offset : Z) (origin : seek_origin)
    (c : pdf_context) : Z * pdf_context :=
  let st := get_stream sel c in
  let target :=
    match origin with
    | SEEK_SET => offset
    | SEEK_CUR => s_pos st - Z.of_nat (length (unread_buffer st)) + offset
    end in
  if target <? 0 then (gs_error_ioerror, c)
  else (0, put_stream sel (mk_pdf_stream (s_data st) target (eof st) []) c).

(** ** Allocation and reference counting *)

Definition get_obj (c : pdf_context) (p : nat) : option pdf_obj :=
  match heap c !! p with
  | Some (Some ob) => Some ob
  | _ => None
  end.

Definition put_obj (p : nat) (ob : pdf_obj) (c : pdf_context) : pdf_context :=
  set_heap (<[p := Some ob]> (heap c)) c.

Definition obj_type (c : pdf_context) (p : nat) : option pdf_obj_type :=
  option_map type (get_obj c p).

(** pdfi_alloc_object: the new object has reference count 0; the slots of an
    array or dictionary are NULL pointers (memset to 0); [size] is an
    [unsigned int].  The bytes of a string, name or keyword are not
    initialised by the source; the model has them 0. *)
Definition pdfi_alloc_object (c : pdf_context) (t : pdf_obj_type) (sz : Z)
    : Z * pdf_context * nat :=
  let sz := sz mod 2 ^ 32 in
  let ob0 := zero_obj t in
  let ob :=
    match t with
    | PDF_KEYWORD | PDF_STRING | PDF_NAME =>
        set_data (repeat 0 (Z.to_nat sz)) ob0
    | PDF_ARRAY =>
        set_slots sz 0 [] (repeat None (Z.to_nat sz)) ob0
    | PDF_DICT =>
        set_slots sz 0 (repeat None (Z.to_nat sz)) (repeat None (Z.to_nat sz)) ob0
    | _ => ob0
    end in
  (0, set_heap (heap c ++ [Some ob]) c, length (heap c)).

(** Modelled from the spec: [pdfi_countup] is a macro of an absent header.
    The macros read the object they are given: applied to an object that has
    been freed they read freed memory.  [pdfi_countup] and [pdfi_countdown]
    are stated for live objects; the places of the source that hand them an
    object after a call that may have freed it test the cell first and stop
    there ([countdown_return], [pdfi_array_put]). *)
Definition pdfi_countup (p : nat) (c : pdf_context) : pdf_context :=
  match get_obj c p with
  | Some ob => put_obj p (set_refcnt (refcnt ob + 1) ob) c
  | None => c
  end.

(** Modelled from the spec: [pdfi_countdown] decrements, and on reaching 0
    frees the object and releases the children an array or dictionary owns
    (pdfi_free_object, pdfi_free_array).  The recursion is bounded by [n]. *)
Fixpoint countdown_heap (n : nat) (h : list (option pdf_obj)) (p : nat)
    : list (option pdf_obj) :=
  match n with
  | O => h
  | S n' =>
      match h !! p with
      | Some (Some ob) =>
          if refcnt ob - 1 =? 0 then
            let release := fun hh (v : option nat) =>
              match v with
              | Some q => countdown_heap n' hh q
              | None => hh
              end in
            let h1 := <[p := None]> h in
            match type ob with
            | PDF_ARRAY => fold_left release (values ob) h1
            | PDF_DICT => fold_left release (values ob) (fold_left release (keys ob) h1)
            | _ => h1
            end
          else <[p := Some (set_refcnt (refcnt ob - 1) ob)]> h
      | _ => h
      end
  end.

Definition pdfi_countdown (p : nat) (c : pdf_context) : pdf_context :=
  set_heap (countdown_heap (S (length (heap c))) (heap c) p) c.

(** pdfi_free_object on an object that was never shared. *)
Definition pdfi_free_object (p : nat) (c : pdf_context) : pdf_context :=
  set_heap (<[p := None]> (heap c)) c.

(** ** The interpreter stack (pdf_stack.c is absent) *)

(** Modelled from the spec: pushing counts the object up. *)
Definition pdfi_push (p : nat) (c : pdf_context) : Z * pdf_context :=
  (0, set_stack (p :: stack c) (pdfi_countup p c)).

(** Modelled from the spec: popping counts the object down; popping more
    than the stack holds empties it. *)
Fixpoint pdfi_pop (n : nat) (c : pdf_context) : pdf_context :=
  match n with
  | O => c
  | S n' =>
      match stack c with
      | p :: rest => pdfi_pop n' (pdfi_countdown p (set_stack rest c))
      | [] => c
      end
  end.

Definition pdfi_clearstack (c : pdf_context) : pdf_context :=
  pdfi_pop (length (stack c)) c.

Definition stack_depth (c : pdf_context) : Z := Z.of_nat (length (stack c)).

(** [stack_top[-k]], for k = 1, 2, ... *)
Definition stack_top (c : pdf_context) (k : nat) : option nat :=
  match k with
  | O => None
  | S k' => stack c !! k'
  end.

Definition stack_top_obj (c : pdf_context) (k : nat) : option pdf_obj :=
  match stack_top c k with
  | Some p => get_obj c p
  | None => None
  end.

Definition is_mark (t : pdf_obj_type) : bool :=
  match t with
  | PDF_ARRAY_MARK | PDF_DICT_MARK | PDF_PROC_MARK => true
  | _ => false
  end.

Definition pdfi_mark_stack (t : pdf_obj_type) (c : pdf_context) : Z * pdf_context :=
  let '(code, c1, p) := pdfi_alloc_object c t 0 in
  if code <? 0 then (code, c1) else pdfi_push p c1.

(** Modelled from the spec: the number of entries above the topmost mark. *)
Fixpoint count_to_mark_list (c : pdf_context) (l : list nat) : option nat :=
  match l with
  | [] => None
  | p :: rest =>
      match obj_type c p with
      | Some t =>
          if is_mark t then Some O
          else option_map S (count_to_mark_list c rest)
      | None => None
      end
  end.

Definition pdfi_count_to_mark (c : pdf_context) : Z * nat :=
  match count_to_mark_list c (stack c) with
  | Some n => (0, n)
  | None => (gs_error_unmatchedmark, O)
  end.

Definition pdfi_clear_to_mark (c : pdf_context) : Z * pdf_context :=
  let '(code, n) := pdfi_count_to_mark c in
  if code <? 0 then (code, c) else (0, pdfi_pop (S n) c).

(** ** Characters *)

Definition ch (a : ascii) : Z := Z.of_N (N_of_ascii a).

Definition bytes_of_string (str : string) : list Z :=
  map ch (list_ascii_of_string str).

Definition iswhite (c : Z) : bool :=
  (c =? 0x00) || (c =? 0x09) || (c =? 0x0a) || (c =? 0x0c) || (c =? 0x0d)
  || (c =? 0x20).

Definition isdelimiter (c : Z) : bool :=
  (c =? ch "/") || (c =? ch "(") || (c =? ch ")") || (c =? ch "[")
  || (c =? ch "]") || (c =? ch "<") || (c =? ch ">") || (c =? ch "{")
  || (c =? ch "}") || (c =? ch "%").

Definition ishex (c : Z) : bool :=
  if c <? 0x30 then false
  else if c >? 0x39 then
    if c >? ch "F" then
      if c <? ch "a" then false
      else if c >? ch "f" then false
      else true
    else if c <? ch "A" then false
    else true
  else true.

Definition fromhex (c : Z) : Z :=
  if c >? 0x39 then
    if c >? ch "F" then c - 0x57 else c - 0x37
  else c - 0x30.

(** Storing into a [char] or [byte]. *)
Definition to_byte (v : Z) : Z := v mod 256.

(** An [unsigned short] after [++]. *)
Definition ushort_incr (index : Z) : Z := (index + 1) mod 65536.

(** [Buffer[index] = b] on the bytes written so far. *)
Definition buf_store (buf : list Z) (index : Z) (b : Z) : list Z :=
  if (Z.to_nat index <? length buf)%nat then <[Z.to_nat index := b]> buf
  else buf ++ repeat 0 (Z.to_nat index - length buf)%nat ++ [b].

(** ** White space *)

(** [read += bytes] on a uint32_t. *)
Definition uint32_add (read bytes : Z) : Z := (read + bytes) mod 2 ^ 32.

(** The loop of skip_white and the statement that follows it; [read] is the
    uint32_t count of the bytes read so far.  The byte that ended the loop
    is pushed back only if (read > 0). *)
Fixpoint skip_white_loop (fuel : nat) (read : Z) (sel : stream_sel) (c : pdf_context)
    : Z * pdf_context :=
  match fuel with
  | O => (model_out_of_fuel, c)
  | S fuel' =>
      let '(bytes, b, c1) := pdfi_read_byte sel c in
      if bytes <? 0 then (gs_error_ioerror, c1)
      else if bytes =? 0 then (0, c1)
      else
        let read' := uint32_add read bytes in
        if iswhite b then skip_white_loop fuel' read' sel c1
        else if read' >? 0 then pdfi_unread sel [b] c1
        else (0, c1)
  end.

Definition stream_fuel (sel : stream_sel) (c : pdf_context) : nat :=
  S (S (length (stream_rest (get_stream sel c)))).

Definition skip_white (sel : stream_sel) (c : pdf_context) : Z * pdf_context :=
  skip_white_loop (stream_fuel sel c) 0 sel c.

(** skip_eol is the same loop with the test for a line feed or a carriage
    return. *)
Fixpoint skip_eol_loop (fuel : nat) (read : Z) (sel : stream_sel) (c : pdf_context)
    : Z * pdf_context :=
  match fuel with
  | O => (model_out_of_fuel, c)
  | S fuel' =>
      let '(bytes, b, c1) := pdfi_read_byte sel c in
      if bytes <? 0 then (gs_error_ioerror, c1)
      else if bytes =? 0 then (0, c1)
      else
        let read' := uint32_add read bytes in
        if (b =? 0x0A) || (b =? 0x0D) then skip_eol_loop fuel' read' sel c1
        else if read' >? 0 then pdfi_unread sel [b] c1
        else (0, c1)
  end.

Definition skip_eol (sel : stream_sel) (c : pdf_context) : Z * pdf_context :=
  skip_eol_loop (stream_fuel sel c) 0 sel c.

(** ** Numbers *)

Definition is_digit (b : Z) : bool := (0x30 <=? b) && (b <=? 0x39).

Fixpoint leading_digits (acc : Z) (l : list Z) : Z :=
  match l with
  | d :: rest => if is_digit d then leading_digits (10 * acc + (d - 0x30)) rest else acc
  | [] => acc
  end.

(** The outcomes of sscanf(Buffer, "%d", &tempi): a value is stored and 1
    returned; the text does not start a number and 0 is returned; the text
    ends before any digit and EOF is returned; or the number does not fit
    an [int], which C leaves undefined. *)
Inductive sscanf_result : Type :=
  | SCAN_VALUE (v : Z)
  | SCAN_NO_MATCH
  | SCAN_EOF
  | SCAN_UNDEFINED.

Definition sscanf_d (buf : list Z) : sscanf_result :=
  let '(neg, rest) :=
    match buf with
    | b :: r => if b =? ch "-" then (true, r)
                else if b =? ch "+" then (false, r) else (false, buf)
    | [] => (false, buf)
    end in
  match rest with
  | d :: _ =>
      if is_digit d then
        let v := leading_digits 0 rest in
        let v := if neg then - v else v in
        if (- 2 ^ 31 <=? v) && (v <? 2 ^ 31) then SCAN_VALUE v else SCAN_UNDEFINED
      else SCAN_NO_MATCH
  | [] => SCAN_EOF
  end.

(** sscanf(Buffer, "%f", &tempf) succeeds when the text has a digit.  The
    floating-point value itself is outside the model: a PDF_REAL keeps the
    text in [data]. *)
Definition sscanf_f (buf : list Z) : bool := existsb is_digit buf.

(** The state of the loop of pdfi_read_num: [Buffer], [real], [malformed];
    [index] is the length of [Buffer]. *)
Fixpoint pdfi_read_num_loop (fuel : nat) (sel : stream_sel) (c : pdf_context)
    (Buffer : list Z) (real malformed : bool)
    : Z * pdf_context * list Z * bool * bool :=
  match fuel with
  | O => (model_out_of_fuel, c, Buffer, real, malformed)
  | S fuel' =>
      let index := Z.of_nat (length Buffer) in
      let '(bytes, b, c1) := pdfi_read_byte sel c in
      if (bytes =? 0) && eof (get_stream sel c1) then (0, c1, Buffer, real, malformed)
      else if bytes <=? 0 then (gs_error_ioerror, c1, Buffer, real, malformed)
      else if iswhite b then (0, c1, Buffer, real, malformed)
      else if isdelimiter b then
        let '(_, c2) := pdfi_unread sel [b] c1 in (0, c2, Buffer, real, malformed)
      else
        let continue_ := fun (c' : pdf_context) (real' malformed' : bool) =>
          if index + 1 >? 255 then (gs_error_syntaxerror, c', Buffer ++ [b], real', malformed')
          else pdfi_read_num_loop fuel' sel c' (Buffer ++ [b]) real' malformed' in
        if b =? ch "." then
          if real then
            if pdfstoponerror c1 then (gs_error_syntaxerror, c1, Buffer, real, malformed)
            else continue_ c1 real true
          else continue_ c1 true malformed
        else if (b =? ch "-") || (b =? ch "+") then
          if negb (index =? 0) then
            if pdfstoponerror c1 then (gs_error_syntaxerror, c1, Buffer, real, malformed)
            else continue_ c1 real true
          else continue_ c1 real malformed
        else if (b <? 0x30) || (b >? 0x39) then
          if pdfstoponerror c1 then (gs_error_syntaxerror, c1, Buffer, real, malformed)
          else
            let c2 := set_pdf_errors (Z.lor (pdf_errors c1) E_PDF_MISSINGWHITESPACE) c1 in
            let '(_, c3) := pdfi_unread sel [b] c2 in
            (0, c3, Buffer, real, malformed)
        else continue_ c1 real malformed
  end.

(** The part of pdfi_read_num that follows its loop: the object is
    allocated, given its value and pushed. *)
Definition pdfi_read_num_object (c1 : pdf_context) (Buffer : list Z)
    (real malformed : bool) : Z * pdf_context :=
  let '(code, c2, num) :=
    if real && negb malformed then pdfi_alloc_object c1 PDF_REAL 0
    else pdfi_alloc_object c1 PDF_INT 0 in
  if code <? 0 then (code, c2)
  else
    let finish := fun (c' : pdf_context) =>
      let '(code, c'') := pdfi_push num c' in
      if code <? 0 then (code, pdfi_free_object num c'') else (code, c'') in
    match get_obj c2 num with
    | None => (model_undefined_behaviour, c2)
    | Some ob =>
        if malformed then
          let c3 := set_pdf_errors (Z.lor (pdf_errors c2) E_PDF_MALFORMEDNUMBER) c2 in
          finish (put_obj num (set_value_i 0 ob) c3)
        else if real then
          if negb (sscanf_f Buffer) then
            (gs_error_syntaxerror, pdfi_free_object num c2)
          else finish (put_obj num (set_data Buffer ob) c2)
        else
          match sscanf_d Buffer with
          | SCAN_NO_MATCH => (gs_error_syntaxerror, pdfi_free_object num c2)
          | SCAN_VALUE tempi => finish (put_obj num (set_value_i tempi ob) c2)
          | SCAN_EOF | SCAN_UNDEFINED => (model_undefined_behaviour, c2)
          end
    end.

Definition pdfi_read_num (sel : stream_sel) (c : pdf_context) : Z * pdf_context :=
  let '(_, c0) := skip_white sel c in
  let '(code, c1, Buffer, real, malformed) :=
    pdfi_read_num_loop 257 sel c0 [] false false in
  if code <? 0 then (code, c1)
  else pdfi_read_num_object c1 Buffer real malformed.

(** ** Names and hexadecimal strings *)

(** [pdfi_read_bytes(ctx, buf, 1, 2, s)]. *)
Definition pdfi_read_bytes2 (sel : stream_sel) (c : pdf_context)
    : Z * Z * Z * pdf_context :=
  let '(n0, b0, c1) := pdfi_read_byte sel c in
  if n0 <=? 0 then (n0, 0, 0, c1)
  else
    let '(n1, b1, c2) := pdfi_read_byte sel c1 in
    if n1 <=? 0 then (1, b0, 0, c2) else (2, b0, b1, c2).

(** The loop of pdfi_read_name; [index] is an [unsigned short]. *)
Fixpoint pdfi_read_name_loop (fuel : nat) (sel : stream_sel) (c : pdf_context)
    (Buffer : list Z) (index : Z) : Z * pdf_context * list Z * Z :=
  match fuel with
  | O => (model_out_of_fuel, c, Buffer, index)
  | S fuel' =>
      let '(bytes, b, c1) := pdfi_read_byte sel c in
      if (bytes =? 0) && eof (get_stream sel c1) then (0, c1, Buffer, index)
      else if bytes <=? 0 then (gs_error_ioerror, c1, Buffer, index)
      else if iswhite b then (0, c1, buf_store Buffer index 0, index)
      else if isdelimiter b then
        let '(_, c2) := pdfi_unread sel [b] c1 in
        (0, c2, buf_store Buffer index 0, index)
      else if b =? ch "#" then
        let '(bytes, n0, n1, c2) := pdfi_read_bytes2 sel c1 in
        if bytes <? 2 then (gs_error_ioerror, c2, Buffer, index)
        else if negb (ishex n0) || negb (ishex n1) then
          (gs_error_ioerror, c2, Buffer, index)
        else
          pdfi_read_name_loop fuel' sel c2
            (buf_store Buffer index (to_byte (Z.shiftl (fromhex n0) 4 + fromhex n1)))
            (ushort_incr index)
      else
        pdfi_read_name_loop fuel' sel c1 (buf_store Buffer index b) (ushort_incr index)
  end.

Definition pdfi_read_name (sel : stream_sel) (c : pdf_context) : Z * pdf_context :=
  let '(code, c1, Buffer, index) :=
    pdfi_read_name_loop (stream_fuel sel c) sel c [] 0 in
  if code <? 0 then (code, c1)
  else
    let '(code, c2, name) := pdfi_alloc_object c1 PDF_NAME index in
    if code <? 0 then (code, c2)
    else
      match get_obj c2 name with
      | None => (model_undefined_behaviour, c2)
      | Some ob =>
          let c3 := put_obj name (set_data (take (Z.to_nat index) Buffer) ob) c2 in
          let '(code, c4) := pdfi_push name c3 in
          if code <? 0 then (code, pdfi_free_object name c4) else (code, c4)
      end.

(** do { read a byte } while (iswhite(byte)): the byte, or [None] at the end
    of the data. *)
Fixpoint read_nonwhite (fuel : nat) (sel : stream_sel) (c : pdf_context)
    : Z * option Z * pdf_context :=
  match fuel with
  | O => (model_out_of_fuel, None, c)
  | S fuel' =>
      let '(bytes, b, c1) := pdfi_read_byte sel c in
      if (bytes =? 0) && eof (get_stream sel c1) then (0, None, c1)
      else if bytes <=? 0 then (gs_error_ioerror, None, c1)
      else if iswhite b then read_nonwhite fuel' sel c1
      else (0, Some b, c1)
  end.

Fixpoint pdfi_read_hexstring_loop (fuel : nat) (sel : stream_sel) (c : pdf_context)
    (Buffer : list Z) (index : Z) : Z * pdf_context * list Z * Z :=
  match fuel with
  | O => (model_out_of_fuel, c, Buffer, index)
  | S fuel' =>
      let '(code, h0, c1) := read_nonwhite (stream_fuel sel c) sel c in
      if code <? 0 then (code, c1, Buffer, index)
      else
        match h0 with
        | None => (0, c1, Buffer, index)
        | Some h0 =>
            if h0 =? ch ">" then (0, c1, Buffer, index)
            else
              let '(code, h1, c2) := read_nonwhite (stream_fuel sel c1) sel c1 in
              if code <? 0 then (code, c2, Buffer, index)
              else
                match h1 with
                | None => (0, c2, Buffer, index)
                | Some h1 =>
                    if negb (ishex h0) || negb (ishex h1) then
                      (gs_error_syntaxerror, c2, Buffer, index)
                    else
                      pdfi_read_hexstring_loop fuel' sel c2
                        (buf_store Buffer index
                           (to_byte (Z.shiftl (fromhex h0) 4 + fromhex h1)))
                        (ushort_incr index)
                end
        end
  end.

Definition pdfi_read_hexstring (sel : stream_sel) (c : pdf_context) : Z * pdf_context :=
  let '(code, c1, Buffer, index) :=
    pdfi_read_hexstring_loop (stream_fuel sel c) sel c [] 0 in
  if code <? 0 then (code, c1)
  else
    let '(code, c2, str) := pdfi_alloc_object c1 PDF_STRING index in
    if code <? 0 then (code, c2)
    else
      match get_obj c2 str with
      | None => (model_undefined_behaviour, c2)
      | Some ob =>
          let c3 := put_obj str (set_data (take (Z.to_nat index) Buffer) ob) c2 in
          let '(code, c4) := pdfi_push str c3 in
          if code <? 0 then (code, pdfi_free_object str c4) else (code, c4)
      end.

(** ** Literal strings *)

(** The local variables of pdfi_read_string that live across iterations. *)
Record string_state : Type := mk_string_state {
  rs_Buffer : list Z;
  rs_index : Z;
  rs_octal0 : Z;
  rs_octal1 : Z;
  rs_octal2 : Z;
  rs_octal_index : Z;
  rs_nesting : Z;
  rs_escape : bool;
  rs_skip_eol : bool
}.

Definition string_state0 : string_state :=
  mk_string_state [] 0 0 0 0 0 0 false false.

Inductive loop_exit (A : Type) : Type :=
  | Continue (st : A)
  | Break (st : A)
  | Return (code : Z).
Arguments Continue {A} st.
Arguments Break {A} st.
Arguments Return {A} code.

(** [Buffer[index] = v], the other variables unchanged. *)
Definition rs_store (v : Z) (st : string_state) : string_state :=
  mk_string_state (buf_store (rs_Buffer st) (rs_index st) (to_byte v)) (rs_index st)
    (rs_octal0 st) (rs_octal1 st) (rs_octal2 st) (rs_octal_index st)
    (rs_nesting st) (rs_escape st) (rs_skip_eol st).

Definition rs_set_flags (esc skip : bool) (st : string_state) : string_state :=
  mk_string_state (rs_Buffer st) (rs_index st)
    (rs_octal0 st) (rs_octal1 st) (rs_octal2 st) (rs_octal_index st)
    (rs_nesting st) esc skip.

Definition rs_set_nesting (n : Z) (st : string_state) : string_state :=
  mk_string_state (rs_Buffer st) (rs_index st)
    (rs_octal0 st) (rs_octal1 st) (rs_octal2 st) (rs_octal_index st)
    n (rs_escape st) (rs_skip_eol st).

(** [octal[octal_index] = d; octal_index++]. *)
Definition rs_push_octal (d : Z) (st : string_state) : string_state :=
  let i := rs_octal_index st in
  mk_string_state (rs_Buffer st) (rs_index st)
    (if i =? 0 then d else rs_octal0 st)
    (if i =? 1 then d else rs_octal1 st)
    (if i =? 2 then d else rs_octal2 st)
    (i + 1) (rs_nesting st) (rs_escape st) (rs_skip_eol st).

(** Buffer[index] = octal[0]; if (octal_index == 2) Buffer[index] =
    (Buffer[index] * 8) + octal[1]; octal_index = 0. *)
Definition rs_flush_octal (st : string_state) : string_state :=
  let v := if rs_octal_index st =? 2 then to_byte (rs_octal0 st) * 8 + rs_octal1 st
           else rs_octal0 st in
  let st1 := rs_store v st in
  mk_string_state (rs_Buffer st1) (rs_index st1)
    (rs_octal0 st1) (rs_octal1 st1) (rs_octal2 st1) 0
    (rs_nesting st1) (rs_escape st1) (rs_skip_eol st1).

(** [index++] at the end of an iteration. *)
Definition rs_advance (st : string_state) : string_state :=
  mk_string_state (rs_Buffer st) (ushort_incr (rs_index st))
    (rs_octal0 st) (rs_octal1 st) (rs_octal2 st) (rs_octal_index st)
    (rs_nesting st) (rs_escape st) (rs_skip_eol st).

Definition is_eol (b : Z) : bool := (b =? 0x0a) || (b =? 0x0d).

(** One iteration of the do-while loop of pdfi_read_string. *)
Definition pdfi_read_string_body (sel : stream_sel) (c : pdf_context)
    (st : string_state) : loop_exit string_state * pdf_context :=
  let '(bytes, b, c1) := pdfi_read_byte sel c in
  if (bytes =? 0) && eof (get_stream sel c1) then (Break st, c1)
  else if bytes <=? 0 then (Break (rs_store 0x00 st), c1)
  else
    let st := rs_store b st in
    if rs_skip_eol st && is_eol b then (Continue st, c1)
    else
      let st := rs_set_flags (rs_escape st) false st in
      if rs_escape st then
        let st := rs_set_flags false (rs_skip_eol st) st in
        if is_eol b then (Continue (rs_set_flags false true st), c1)
        else if negb (rs_octal_index st =? 0) then
          let '(code, c2) := pdfi_unread sel [ch "\"; b] c1 in
          if code <? 0 then (Return code, c2)
          else (Continue (rs_advance (rs_flush_octal st)), c2)
        else if b =? ch "n" then (Continue (rs_advance (rs_store 0x0a st)), c1)
        else if b =? ch "r" then (Continue (rs_advance (rs_store 0x0a st)), c1)
        else if b =? ch "t" then (Continue (rs_advance (rs_store 0x09 st)), c1)
        else if b =? ch "b" then (Continue (rs_advance (rs_store 0x07 st)), c1)
        else if b =? ch "f" then (Continue (rs_advance (rs_store 0x0c st)), c1)
        else if (b =? ch "(") || (b =? ch ")") || (b =? ch "\") then
          (Continue (rs_advance st), c1)
        else if (0x30 <=? b) && (b <=? 0x37) then
          (Continue (rs_push_octal (b - 0x30) st), c1)
        else (Return gs_error_syntaxerror, c1)
      else if is_eol b then
        if negb (rs_octal_index st =? 0) then
          let '(code, c2) := pdfi_unread sel [b] c1 in
          if code <? 0 then (Return code, c2)
          else (Continue (rs_advance (rs_flush_octal st)), c2)
        else (Continue (rs_advance (rs_set_flags (rs_escape st) true (rs_store 0x0a st))), c1)
      else if b =? ch ")" then
        if negb (rs_octal_index st =? 0) then
          let '(code, c2) := pdfi_unread sel [b] c1 in
          if code <? 0 then (Return code, c2)
          else (Continue (rs_advance (rs_flush_octal st)), c2)
        else if rs_nesting st =? 0 then (Break (rs_store 0x00 st), c1)
        else (Continue (rs_advance (rs_set_nesting (rs_nesting st - 1) st)), c1)
      else if b =? ch "\" then (Continue (rs_set_flags true (rs_skip_eol st) st), c1)
      else if b =? ch "(" then
        let c2 := set_pdf_errors (Z.lor (pdf_errors c1) E_PDF_UNESCAPEDSTRING) c1 in
        (Continue (rs_advance (rs_set_nesting (rs_nesting st + 1) st)), c2)
      else if negb (rs_octal_index st =? 0) then
        if (0x30 <=? b) && (b <=? 0x37) then
          let st := rs_push_octal (b - 0x30) st in
          if rs_octal_index st <? 3 then (Continue st, c1)
          else
            let st := rs_store (rs_octal0 st * 64 + rs_octal1 st * 8 + rs_octal2 st) st in
            (Continue (rs_advance
               (mk_string_state (rs_Buffer st) (rs_index st) (rs_octal0 st)
                  (rs_octal1 st) (rs_octal2 st) 0 (rs_nesting st) (rs_escape st)
                  (rs_skip_eol st))), c1)
        else
          let '(code, c2) := pdfi_unread sel [b] c1 in
          if code <? 0 then (Return code, c2)
          else (Continue (rs_advance (rs_flush_octal st)), c2)
      else (Continue (rs_advance st), c1).

Fixpoint pdfi_read_string_loop (fuel : nat) (sel : stream_sel) (c : pdf_context)
    (st : string_state) : Z * pdf_context * string_state :=
  match fuel with
  | O => (model_out_of_fuel, c, st)
  | S fuel' =>
      match pdfi_read_string_body sel c st with
      | (Continue st', c') => pdfi_read_string_loop fuel' sel c' st'
      | (Break st', c') => (0, c', st')
      | (Return code, c') => (code, c', st)
      end
  end.

Definition pdfi_read_string (sel : stream_sel) (c : pdf_context) : Z * pdf_context :=
  let fuel := (3 * stream_fuel sel c)%nat in
  let '(code, c1, st) := pdfi_read_string_loop fuel sel c string_state0 in
  if code <? 0 then (code, c1)
  else
    let index := rs_index st in
    let '(code, c2, str) := pdfi_alloc_object c1 PDF_STRING index in
    if code <? 0 then (code, c2)
    else
      match get_obj c2 str with
      | None => (model_undefined_behaviour, c2)
      | Some ob =>
          let c3 := put_obj str (set_data (take (Z.to_nat index) (rs_Buffer st)) ob) c2 in
          let '(code, c4) := pdfi_push str c3 in
          if code <? 0 then (code, pdfi_free_object str c4) else (code, c4)
      end.

(** ** A freshly opened document *)

Definition open_stream (bs : list Z) : pdf_stream := mk_pdf_stream bs 0 false [].

Definition new_context (stoponerror : bool) (file : list Z) : pdf_context :=
  mk_pdf_context stoponerror E_PDF_NOERROR [] [] None [] None None 0 None
    (open_stream file) (open_stream []) (Z.of_nat (length file)) None false.

(** ** Arrays and dictionaries from the stack *)

Definition set_array_value (a : nat) (i : nat) (p : option nat) (c : pdf_context)
    : pdf_context :=
  match get_obj c a with
  | Some ob =>
      put_obj a (set_slots (size ob) (entries ob) (keys ob) (<[i := p]> (values ob)) ob) c
  | None => c
  end.

Definition set_dict_key (d : nat) (i : nat) (p : option nat) (c : pdf_context)
    : pdf_context :=
  match get_obj c d with
  | Some ob =>
      put_obj d (set_slots (size ob) (entries ob) (<[i := p]> (keys ob)) (values ob) ob) c
  | None => c
  end.

Definition set_entries (a : nat) (n : Z) (c : pdf_context) : pdf_context :=
  match get_obj c a with
  | Some ob => put_obj a (set_slots (size ob) n (keys ob) (values ob) ob) c
  | None => c
  end.

(** while (index) { o = stack_top[-1]; a->values[--index] = o;
    pdfi_countup(o); pdfi_pop(ctx, 1); } *)
Fixpoint array_fill_from_stack (index : nat) (a : nat) (c : pdf_context)
    : pdf_context :=
  match index with
  | O => c
  | S index' =>
      match stack c with
      | p :: _ =>
          array_fill_from_stack index' a
            (pdfi_pop 1 (pdfi_countup p (set_array_value a index' (Some p) c)))
      | [] => c
      end
  end.

(** pdfi_array_from_stack of pdf_int.c. *)
Definition pdfi_array_from_stack (c : pdf_context) : Z * pdf_context :=
  let '(code, index) := pdfi_count_to_mark c in
  if code <? 0 then (code, c)
  else
    let '(code, c1, a) := pdfi_alloc_object c PDF_ARRAY (Z.of_nat index) in
    if code <? 0 then (code, c1)
    else
      let c2 := set_entries a (Z.of_nat index) c1 in
      let c3 := array_fill_from_stack index a c2 in
      let '(code, c4) := pdfi_clear_to_mark c3 in
      if code <? 0 then (code, c4)
      else
        let '(code, c5) := pdfi_push a c4 in
        if code <? 0 then (code, pdfi_free_object a c5) else (code, c5).

(** The pairs of a dictionary, taken off the stack from the top. *)
Fixpoint dict_fill_from_stack (pairs : nat) (d : nat) (c : pdf_context)
    : Z * pdf_context :=
  match pairs with
  | O => (0, c)
  | S i =>
      match stack c with
      | v :: k :: _ =>
          match obj_type c k with
          | Some PDF_NAME =>
              let c1 := pdfi_countup k (set_dict_key d i (Some k) c) in
              let c2 := pdfi_countup v (set_array_value d i (Some v) c1) in
              dict_fill_from_stack i d (pdfi_pop 2 c2)
          | _ => (gs_error_typecheck, pdfi_free_object d c)
          end
      | _ => (model_undefined_behaviour, c)
      end
  end.

(** Modelled from the spec: pdfi_dict_from_stack lives in the absent
    pdf_dict.c.  Closing a dictionary mark collapses the span above it into
    alternating key/value pairs; the policy for a dangling key is to fail
    (rangecheck); a key must be a name. *)
Definition pdfi_dict_from_stack (c : pdf_context) : Z * pdf_context :=
  let '(code, index) := pdfi_count_to_mark c in
  if code <? 0 then (code, c)
  else if Nat.odd index then (gs_error_rangecheck, c)
  else
    let pairs := Nat.div2 index in
    let '(code, c1, d) := pdfi_alloc_object c PDF_DICT (Z.of_nat pairs) in
    if code <? 0 then (code, c1)
    else
      let c2 := set_entries d (Z.of_nat pairs) c1 in
      let '(code, c3) := dict_fill_from_stack pairs d c2 in
      if code <? 0 then (code, c3)
      else
        let '(code, c4) := pdfi_clear_to_mark c3 in
        if code <? 0 then (code, c4)
        else
          let '(code, c5) := pdfi_push d c4 in
          if code <? 0 then (code, pdfi_free_object d c5) else (code, c5).

(** ** Comments and keywords *)

Fixpoint pdfi_skip_comment_loop (fuel : nat) (sel : stream_sel) (c : pdf_context)
    : Z * pdf_context :=
  match fuel with
  | O => (model_out_of_fuel, c)
  | S fuel' =>
      let '(bytes, b, c1) := pdfi_read_byte sel c in
      if bytes <? 0 then (gs_error_ioerror, c1)
      else if bytes >? 0 then
        if (b =? 0x0A) || (b =? 0x0D) then (0, c1)
        else pdfi_skip_comment_loop fuel' sel c1
      else (0, c1)
  end.

Definition pdfi_skip_comment (sel : stream_sel) (c : pdf_context) : Z * pdf_context :=
  pdfi_skip_comment_loop (stream_fuel sel c) sel c.

Fixpoint bytes_eqb (a b : list Z) : bool :=
  match a, b with
  | [], [] => true
  | x :: a', y :: b' => (x =? y) && bytes_eqb a' b'
  | _, _ => false
  end.

(** The loop of pdfi_read_keyword; [index] is the length of [Buffer]. *)
Fixpoint pdfi_read_keyword_loop (fuel : nat) (sel : stream_sel) (c : pdf_context)
    (Buffer : list Z) : Z * pdf_context * list Z :=
  match fuel with
  | O => (model_out_of_fuel, c, Buffer)
  | S fuel' =>
      let '(bytes, b, c1) := pdfi_read_byte sel c in
      if bytes <? 0 then (gs_error_ioerror, c1, Buffer)
      else if bytes >? 0 then
        if iswhite b then (0, c1, Buffer)
        else if isdelimiter b then
          let '(_, c2) := pdfi_unread sel [b] c1 in (0, c2, Buffer)
        else
          let Buffer' := Buffer ++ [b] in
          if Z.of_nat (length Buffer') <? 255 then
            pdfi_read_keyword_loop fuel' sel c1 Buffer'
          else (0, c1, Buffer')
      else (0, c1, Buffer)
  end.

Definition is_int_obj (ob : option pdf_obj) : bool :=
  match ob with
  | Some x => pdf_obj_type_eqb (type x) PDF_INT
  | None => false
  end.

(** [pdfi_countdown(keyword); return code;] on an exit that follows an
    earlier pdfi_countdown(keyword): counting down an object that the
    earlier call freed reads freed memory, and the model stops. *)
Definition countdown_return (keyword : nat) (code : Z) (c : pdf_context)
    : Z * pdf_context :=
  match get_obj c keyword with
  | Some _ => (code, pdfi_countdown keyword c)
  | None => (model_undefined_behaviour, c)
  end.

(** The tail of pdfi_read_keyword for the keyword [R]. *)
Definition pdfi_read_keyword_R (keyword : nat) (c : pdf_context) : Z * pdf_context :=
  let c1 := pdfi_countdown keyword c in
  if stack_depth c1 <? 2 then countdown_return keyword gs_error_stackunderflow c1
  else if negb (is_int_obj (stack_top_obj c1 1)) || negb (is_int_obj (stack_top_obj c1 2)) then
    countdown_return keyword gs_error_typecheck c1
  else
    match stack_top_obj c1 1, stack_top_obj c1 2 with
    | Some g, Some n =>
        let gen_num := value_i g mod 2 ^ 32 in
        let obj_num := value_i n mod 2 ^ 64 in
        let c2 := pdfi_pop 1 (pdfi_pop 1 c1) in
        let '(code, c3, r) := pdfi_alloc_object c2 PDF_INDIRECT 0 in
        if code <? 0 then countdown_return keyword code c3
        else
          match get_obj c3 r with
          | Some ob =>
              let c4 := put_obj r (set_ref obj_num gen_num ob) c3 in
              let '(code, c5) := pdfi_push r c4 in
              if code <? 0 then
                let '(code', c6) := countdown_return keyword code c5 in
                (code', pdfi_free_object r c6)
              else (code, c5)
          | None => (model_undefined_behaviour, c3)
          end
    | _, _ => (model_undefined_behaviour, c1)
    end.

(** The tails for [true], [false] and [null]: the keyword object is dropped
    and an object of the given type takes its place. *)
Definition pdfi_read_keyword_const (keyword : nat) (t : pdf_obj_type) (v : Z)
    (c : pdf_context) : Z * pdf_context :=
  let c1 := pdfi_countdown keyword c in
  let '(code, c2, p) := pdfi_alloc_object c1 t 0 in
  if code <? 0 then (code, c2)
  else
    match get_obj c2 p with
    | Some ob =>
        let c3 := put_obj p (set_value_i v ob) c2 in
        let '(code, c4) := pdfi_push p c3 in
        if code <? 0 then (code, pdfi_free_object p c4) else (code, c4)
    | None => (model_undefined_behaviour, c2)
    end.

Definition set_keyword_key (keyword : nat) (k : pdf_key) (c : pdf_context) : pdf_context :=
  match get_obj c keyword with
  | Some ob => put_obj keyword (set_key k ob) c
  | None => c
  end.

Definition pdfi_read_keyword (sel : stream_sel) (c : pdf_context) : Z * pdf_context :=
  let '(_, c0) := skip_white sel c in
  let '(code, c1, Buffer) := pdfi_read_keyword_loop 256 sel c0 [] in
  if code <? 0 then (code, c1)
  else
    let index := Z.of_nat (length Buffer) in
    let too_long := (index >=? 255) || (index =? 0) in
    if too_long && pdfstoponerror c1 then (gs_error_syntaxerror, c1)
    else
      let Buffer := if too_long then bytes_of_string "KEYWORD_TOO_LONG" else Buffer in
      let index := Z.of_nat (length Buffer) in
      let '(code, c2, keyword) := pdfi_alloc_object c1 PDF_KEYWORD index in
      if code <? 0 then (code, c2)
      else
        match get_obj c2 keyword with
        | None => (model_undefined_behaviour, c2)
        | Some ob =>
            let c3 := pdfi_countup keyword (put_obj keyword (set_data Buffer ob) c2) in
            let is_kw := fun (str : string) => bytes_eqb Buffer (bytes_of_string str) in
            let finish := fun (c' : pdf_context) =>
              let '(code, c'') := pdfi_push keyword c' in
              (code, pdfi_countdown keyword c'') in
            if is_kw "KEYWORD_TOO_LONG"%string then finish (set_keyword_key keyword PDF_INVALID_KEY c3)
            else if is_kw "R"%string then pdfi_read_keyword_R keyword c3
            else if is_kw "endstream"%string then finish (set_keyword_key keyword PDF_ENDSTREAM c3)
            else if is_kw "endobj"%string then finish (set_keyword_key keyword PDF_ENDOBJ c3)
            else if is_kw "obj"%string then finish (set_keyword_key keyword PDF_OBJ c3)
            else if is_kw "stream"%string then
              let c4 := set_keyword_key keyword PDF_STREAM c3 in
              let '(code, c5) := skip_eol sel c4 in
              if code <? 0 then (code, pdfi_countdown keyword c5) else finish c5
            else if is_kw "startxref"%string then finish (set_keyword_key keyword PDF_STARTXREF c3)
            else if is_kw "true"%string then pdfi_read_keyword_const keyword PDF_BOOL 1 c3
            else if is_kw "trailer"%string then finish (set_keyword_key keyword PDF_TRAILER c3)
            else if is_kw "false"%string then pdfi_read_keyword_const keyword PDF_BOOL 0 c3
            else if is_kw "null"%string then pdfi_read_keyword_const keyword PDF_NULL 0 c3
            else if is_kw "xref"%string then finish (set_keyword_key keyword PDF_XREF c3)
            else finish c3
        end.

(** ** Tokens *)

Definition starts_number (b : Z) : bool :=
  is_digit b || (b =? ch "+") || (b =? ch "-") || (b =? ch ".").

Fixpoint pdfi_read_token_fuel (fuel : nat) (sel : stream_sel) (c : pdf_context)
    : Z * pdf_context :=
  match fuel with
  | O => (model_out_of_fuel, c)
  | S fuel' =>
      let '(_, c0) := skip_white sel c in
      let '(bytes, b0, c1) := pdfi_read_byte sel c0 in
      if bytes <? 0 then (gs_error_ioerror, c1)
      else if (bytes =? 0) && eof (get_stream sel c1) then (0, c1)
      else if starts_number b0 then
        let '(_, c2) := pdfi_unread sel [b0] c1 in
        let '(code, c3) := pdfi_read_num sel c2 in
        if code <? 0 then (code, c3) else (0, c3)
      else if b0 =? ch "/" then pdfi_read_name sel c1
      else if b0 =? ch "<" then
        let '(bytes, b1, c2) := pdfi_read_byte sel c1 in
        if bytes <=? 0 then (gs_error_ioerror, c2)
        else
          let '(code, b1, c3) :=
            if iswhite b1 then
              let '(code, c2') := skip_white sel c2 in
              if code <? 0 then (code, b1, c2')
              else
                let '(bytes', b1', c2'') := pdfi_read_byte sel c2' in
                (0, (if bytes' >? 0 then b1' else b1), c2'')
            else (0, b1, c2) in
          if code <? 0 then (code, c3)
          else if b1 =? ch "<" then pdfi_mark_stack PDF_DICT_MARK c3
          else if (b1 =? ch ">") || ishex b1 then
            let '(_, c4) := pdfi_unread sel [b1] c3 in
            pdfi_read_hexstring sel c4
          else (gs_error_syntaxerror, c3)
      else if b0 =? ch ">" then
        let '(bytes, b1, c2) := pdfi_read_byte sel c1 in
        if bytes <=? 0 then (gs_error_ioerror, c2)
        else if b1 =? ch ">" then pdfi_dict_from_stack c2
        else (gs_error_syntaxerror, c2)
      else if b0 =? ch "(" then pdfi_read_string sel c1
      else if b0 =? ch "[" then pdfi_mark_stack PDF_ARRAY_MARK c1
      else if b0 =? ch "]" then
        let '(code, c2) := pdfi_array_from_stack c1 in
        if code <? 0 then
          if (code =? gs_error_VMerror) || (code =? gs_error_ioerror) || pdfstoponerror c2
          then (code, c2)
          else pdfi_read_token_fuel fuel' sel (pdfi_clearstack c2)
        else (0, c2)
      else if b0 =? ch "{" then pdfi_mark_stack PDF_PROC_MARK c1
      else if b0 =? ch "}" then
        let '(_, c2) := pdfi_clear_to_mark c1 in
        pdfi_read_token_fuel fuel' sel c2
      else if b0 =? ch "%" then
        let '(_, c2) := pdfi_skip_comment sel c1 in
        pdfi_read_token_fuel fuel' sel c2
      else if isdelimiter b0 then
        if pdfstoponerror c1 then (gs_error_syntaxerror, c1)
        else pdfi_read_token_fuel fuel' sel c1
      else
        let '(_, c2) := pdfi_unread sel [b0] c1 in
        pdfi_read_keyword sel c2
  end.

Definition pdfi_read_token (sel : stream_sel) (c : pdf_context) : Z * pdf_context :=
  pdfi_read_token_fuel (stream_fuel sel c) sel c.

(** ** Dictionary lookup (pdf_dict.c is absent) *)

Fixpoint dict_find (c : pdf_context) (Key : list Z) (ks vs : list (option nat))
    : option nat :=
  match ks, vs with
  | k :: ks', v :: vs' =>
      let hit :=
        match k with
        | Some kp =>
            match get_obj c kp with
            | Some kob => pdf_obj_type_eqb (type kob) PDF_NAME && bytes_eqb (data kob) Key
            | None => false
            end
        | None => false
        end in
      if hit then v else dict_find c Key ks' vs'
  | _, _ => None
  end.

(** Modelled from the spec: [dict_get(Context, Dict, key) -> Object], the
    lookup by byte-exact name; the value comes back counted up for the
    caller.  The callers in pdf_int.c test the result for PDF_INDIRECT
    themselves, so this variant does not resolve references. *)
Definition pdfi_dict_get (c : pdf_context) (d : nat) (Key : list Z)
    : Z * pdf_context * option nat :=
  match get_obj c d with
  | None => (model_undefined_behaviour, c, None)
  | Some dob =>
      match dict_find c Key (keys dob) (values dob) with
      | Some v => (0, pdfi_countup v c, Some v)
      | None => (gs_error_undefined, c, None)
      end
  end.

(** The type of a dereference function: object number, generation number. *)
Definition deref_fn : Type :=
  pdf_context -> Z -> Z -> Z * pdf_context * option nat.

(** Modelled from the spec: the "typed variants that fail with a typecheck
    condition if the resolved value is not the expected variant"; an indirect
    reference found under the key is resolved through [deref] first. *)
Definition pdfi_dict_get_type (deref : deref_fn) (c : pdf_context) (d : nat)
    (Key : list Z) (t : pdf_obj_type) : Z * pdf_context * option nat :=
  let '(code, c1, v) := pdfi_dict_get c d Key in
  if code <? 0 then (code, c1, None)
  else
    match v with
    | None => (model_undefined_behaviour, c1, None)
    | Some p =>
        let '(code, c2, v') :=
          match get_obj c1 p with
          | Some pob =>
              if pdf_obj_type_eqb (type pob) PDF_INDIRECT then
                let '(code, c', r) := deref c1 (ref_object_num pob) (ref_generation_num pob) in
                (code, pdfi_countdown p c', r)
              else (0, c1, Some p)
          | None => (model_undefined_behaviour, c1, None)
          end in
        if code <? 0 then (code, c2, None)
        else
          match v' with
          | None => (model_undefined_behaviour, c2, None)
          | Some q =>
              match obj_type c2 q with
              | Some t' =>
                  if pdf_obj_type_eqb t' t then (0, c2, Some q)
                  else (gs_error_typecheck, pdfi_countdown q c2, None)
              | None => (model_undefined_behaviour, c2, None)
              end
          end
    end.

Definition pdfi_dict_get_int (deref : deref_fn) (c : pdf_context) (d : nat)
    (Key : list Z) : Z * pdf_context * Z :=
  let '(code, c1, v) := pdfi_dict_get_type deref c d Key PDF_INT in
  if code <? 0 then (code, c1, 0)
  else
    match v with
    | Some p =>
        match get_obj c1 p with
        | Some pob => (0, pdfi_countdown p c1, value_i pob)
        | None => (model_undefined_behaviour, c1, 0)
        end
    | None => (model_undefined_behaviour, c1, 0)
    end.

(** ** Loop detection (pdf_loop_detect.c is absent) *)

(** Modelled from the spec: "a dynamically-scoped set of objects currently
    being resolved".  [loop_detection] is NULL ([None]) while no scope is
    active; otherwise it holds the object numbers of the current resolution
    chain, with a 0 entry for each mark that opened a scope. *)
Definition pdfi_loop_detector_mark (c : pdf_context) : Z * pdf_context :=
  (0, set_loop_detection
        (Some (0 :: match loop_detection c with Some l => l | None => [] end)) c).

Definition pdfi_loop_detector_add_object (c : pdf_context) (object : Z)
    : Z * pdf_context :=
  match loop_detection c with
  | Some l => (0, set_loop_detection (Some (object :: l)) c)
  | None => (0, c)
  end.

Definition pdfi_loop_detector_check_object (c : pdf_context) (object : Z) : bool :=
  match loop_detection c with
  | Some l => existsb (Z.eqb object) l
  | None => false
  end.

Fixpoint drop_to_mark (l : list Z) : list Z :=
  match l with
  | [] => []
  | x :: rest => if x =? 0 then rest else drop_to_mark rest
  end.

Definition pdfi_loop_detector_cleartomark (c : pdf_context) : Z * pdf_context :=
  match loop_detection c with
  | Some l =>
      let l' := drop_to_mark l in
      (0, set_loop_detection (match l' with [] => None | _ => Some l' end) c)
  | None => (0, c)
  end.

(** ** Cross-reference table access *)

Definition xref_size (c : pdf_context) : Z :=
  match xref_table c with
  | Some xref => Z.of_nat (length xref)
  | None => 0
  end.

Definition xref_get (c : pdf_context) (i : Z) : option xref_entry :=
  match xref_table c with
  | Some xref => if i <? 0 then None else xref !! Z.to_nat i
  | None => None
  end.

(** [ctx->xref_table->xref[i] = e]; [None] when the index is outside the
    table (the C store is then out of bounds). *)
Definition xref_set (i : Z) (e : xref_entry) (c : pdf_context) : option pdf_context :=
  match xref_table c with
  | Some xref =>
      if (0 <=? i) && (i <? Z.of_nat (length xref)) then
        Some (set_xref_table (Some (<[Z.to_nat i := e]> xref)) c)
      else None
  | None => None
  end.

Definition xref_set_cache (i : Z) (v : option nat) (c : pdf_context) : option pdf_context :=
  match xref_get c i with
  | Some e => xref_set i (set_xcache v e) c
  | None => None
  end.

(** ** The object cache *)

Definition get_entry (c : pdf_context) (p : nat) : option pdf_obj_cache_entry :=
  match cache_store c !! p with
  | Some (Some e) => Some e
  | _ => None
  end.

(** Stores through a cache-entry pointer.  A store through a pointer to a
    freed entry (undefined in C) is dropped. *)
Definition set_entry_next (p : nat) (v : option nat) (c : pdf_context) : pdf_context :=
  match get_entry c p with
  | Some e => set_cache_store (<[p := Some (mk_cache_entry v (previous e) (o e))]> (cache_store c)) c
  | None => c
  end.

Definition set_entry_previous (p : nat) (v : option nat) (c : pdf_context) : pdf_context :=
  match get_entry c p with
  | Some e => set_cache_store (<[p := Some (mk_cache_entry (next e) v (o e))]> (cache_store c)) c
  | None => c
  end.

Section Interpreter.

(** The capacity of the object cache, a constant of an absent header. *)
Variable MAX_OBJECT_CACHE_SIZE : Z.

(** The codecs behind pdfi_filter, "opaque byte-transform collaborators":
    from the stream dictionary and the raw bytes at the stream's offset to
    the decoded bytes, or [None] when the filter cannot be set up. *)
Variable filter_decode : pdf_obj -> list Z -> option (list Z).

(** The part of the eviction that precedes the release of the object: the
    LRU entry is unlinked and the back-pointer of its xref entry is cleared. *)
Definition cache_evict_detach (entry : nat) (e : pdf_obj_cache_entry)
    (c : pdf_context) : option pdf_context :=
  let c1 := set_cache_LRU (next e) c in
  let c2 := match next e with
            | Some n => set_entry_previous n None c1
            | None => c1
            end in
  match get_obj c2 (o e) with
  | Some ob => xref_set_cache (object_num ob) None c2
  | None => None
  end.

(** The part of the eviction that follows: pdfi_countdown(entry->o),
    cache_entries--, and the entry is freed. *)
Definition cache_evict_release (entry : nat) (e : pdf_obj_cache_entry)
    (c : pdf_context) : pdf_context :=
  let c1 := pdfi_countdown (o e) c in
  let c2 := set_cache_entries (cache_entries c1 - 1) c1 in
  set_cache_store (<[entry := None]> (cache_store c2)) c2.

(** The insertion proper, after room has been made. *)
Definition cache_link_MRU (p : nat) (c : pdf_context) : option pdf_context :=
  let entry := length (cache_store c) in
  let c1 := set_cache_store (cache_store c ++ [Some (mk_cache_entry None None p)]) c in
  let c2 := pdfi_countup p c1 in
  let c3 := match cache_MRU c2 with
            | Some m => set_entry_next m (Some entry) (set_entry_previous entry (Some m) c2)
            | None => c2
            end in
  let c4 := set_cache_MRU (Some entry) c3 in
  let c5 := match cache_LRU c4 with
            | None => set_cache_LRU (Some entry) c4
            | Some _ => c4
            end in
  let c6 := set_cache_entries (cache_entries c5 + 1) c5 in
  match get_obj c6 p with
  | Some ob => xref_set_cache (object_num ob) (Some entry) c6
  | None => None
  end.

Definition pdfi_add_to_cache (c : pdf_context) (p : nat) : Z * pdf_context :=
  match get_obj c p, xref_table c with
  | Some ob, Some _ =>
      if object_num ob >? xref_size c then (gs_error_rangecheck, c)
      else
        let evicted :=
          if cache_entries c =? MAX_OBJECT_CACHE_SIZE then
            match cache_LRU c with
            | Some entry =>
                match get_entry c entry with
                | Some e =>
                    match cache_evict_detach entry e c with
                    | Some c1 => (0, cache_evict_release entry e c1)
                    | None => (model_undefined_behaviour, c)
                    end
                | None => (model_undefined_behaviour, c)
                end
            | None => (gs_error_unknownerror, c)
            end
          else (0, c) in
        let '(code, c2) := evicted in
        if code <? 0 then (code, c2)
        else
          match cache_link_MRU p c2 with
          | Some c3 => (0, c3)
          | None => (model_undefined_behaviour, c2)
          end
  | _, _ => (model_undefined_behaviour, c)
  end.

(** The relinking of a cache hit in pdfi_dereference. *)
Definition cache_promote (cache_entry : nat) (c : pdf_context) : pdf_context :=
  match cache_MRU c, get_entry c cache_entry with
  | Some m, Some e =>
      if negb (Nat.eqb cache_entry m) then
        let c1 := match next e with
                  | Some n => set_entry_previous n (previous e) c
                  | None => c
                  end in
        let c2 := match previous e with
                  | Some q => set_entry_next q (next e) c1
                  | None => set_cache_LRU (next e) c1
                  end in
        let c3 := set_entry_next cache_entry None c2 in
        let c4 := set_entry_previous cache_entry (Some m) c3 in
        let c5 := set_entry_next m (Some cache_entry) c4 in
        set_cache_MRU (Some cache_entry) c5
      else c
  | _, _ => c
  end.

(** ** Reading an indirect object *)

Definition top_type (c : pdf_context) (k : nat) : option pdf_obj_type :=
  option_map type (stack_top_obj c k).

Definition top_is (c : pdf_context) (k : nat) (t : pdf_obj_type) : bool :=
  match top_type c k with
  | Some t' => pdf_obj_type_eqb t' t
  | None => false
  end.

Definition top_key_is (c : pdf_context) (k : pdf_key) : bool :=
  match stack_top_obj c 1 with
  | Some ob => pdf_key_eqb (key ob) k
  | None => false
  end.

(** code = pdfi_read_token(ctx, s); the top of the stack must be a PDF_INT;
    its value is taken (as a uint64_t) and the entry popped. *)
Definition read_int_token (sel : stream_sel) (c : pdf_context) : Z * pdf_context * Z :=
  let '(code, c1) := pdfi_read_token sel c in
  if code <? 0 then (code, c1, 0)
  else
    match stack_top_obj c1 1 with
    | None => (model_undefined_behaviour, c1, 0)
    | Some ob =>
        if negb (pdf_obj_type_eqb (type ob) PDF_INT) then
          (gs_error_typecheck, pdfi_pop 1 c1, 0)
        else (0, pdfi_pop 1 c1, value_i ob mod 2 ^ 64)
    end.

(** do { pdfi_read_token; if (s->eof) return syntaxerror; }
    while (stack_top[-1]->type != PDF_KEYWORD); *)
Fixpoint read_until_keyword (fuel : nat) (sel : stream_sel) (c : pdf_context)
    : Z * pdf_context :=
  match fuel with
  | O => (model_out_of_fuel, c)
  | S fuel' =>
      let '(code, c1) := pdfi_read_token sel c in
      if code <? 0 then (code, c1)
      else if eof (get_stream sel c1) then (gs_error_syntaxerror, c1)
      else
        match top_type c1 1 with
        | None => (model_undefined_behaviour, c1)
        | Some t =>
            if pdf_obj_type_eqb t PDF_KEYWORD then (0, c1)
            else read_until_keyword fuel' sel c1
        end
  end.

(** o = stack_top[-2]; pdfi_pop(ctx, 1); o->object_num = objnum;
    o->generation_num = gen; return pdfi_add_to_cache(ctx, o); *)
Definition number_and_cache (objnum gen : Z) (c : pdf_context) : Z * pdf_context :=
  if stack_depth c <? 2 then (gs_error_stackunderflow, c)
  else
    match stack_top c 2 with
    | None => (model_undefined_behaviour, c)
    | Some p =>
        let c1 := pdfi_pop 1 c in
        match get_obj c1 p with
        | None => (model_undefined_behaviour, c1)
        | Some ob => pdfi_add_to_cache (put_obj p (set_object_num objnum gen ob) c1) p
        end
    end.

(** The tail of pdfi_read_object after the keyword [stream]. *)
Definition pdfi_read_object_stream (deref : deref_fn) (sel : stream_sel)
    (objnum gen : Z) (c : pdf_context) : Z * pdf_context :=
  let '(_, c1) := skip_eol MAIN_STREAM c in
  let offset := pdfi_unread_tell c1 in
  let c2 := pdfi_pop 1 c1 in
  if stack_depth c2 <? 1 then (gs_error_stackunderflow, c2)
  else
    match stack_top c2 1 with
    | None => (model_undefined_behaviour, c2)
    | Some d =>
        match get_obj c2 d with
        | None => (model_undefined_behaviour, c2)
        | Some dob =>
            if negb (pdf_obj_type_eqb (type dob) PDF_DICT) then
              (gs_error_syntaxerror, pdfi_pop 1 c2)
            else
              let c3 := put_obj d (set_stream_offset offset (set_object_num objnum gen dob)) c2 in
              let '(code, c4) := pdfi_add_to_cache c3 d in
              if code <? 0 then (code, pdfi_pop 1 c4)
              else
                let '(code, c5, i) := pdfi_dict_get_int deref c4 d (bytes_of_string "Length") in
                if code <? 0 then (0, c5)
                else if (i <? 0) || (i + offset >? main_stream_length c5) then (0, c5)
                else
                  let '(code, c6) := pdfi_seek MAIN_STREAM i SEEK_CUR c5 in
                  if code <? 0 then (code, pdfi_pop 1 c6)
                  else
                    let '(_, c7) := pdfi_read_token sel c6 in
                    if stack_depth c7 <? 2 then (0, c7)
                    else if negb (top_is c7 1 PDF_KEYWORD) then (0, pdfi_pop 1 c7)
                    else if negb (top_key_is c7 PDF_ENDSTREAM) then (0, pdfi_pop 1 c7)
                    else
                      let c8 := pdfi_pop 1 c7 in
                      let '(code, c9) := pdfi_read_token sel c8 in
                      if code <? 0 then
                        if pdfstoponerror c9 then (code, c9) else (0, c9)
                      else if stack_depth c9 <? 2 then (gs_error_stackunderflow, c9)
                      else if negb (top_is c9 1 PDF_KEYWORD) then
                        (gs_error_typecheck, pdfi_pop 2 c9)
                      else if negb (top_key_is c9 PDF_ENDOBJ) then
                        (gs_error_typecheck, pdfi_pop 2 c9)
                      else (0, pdfi_pop 1 c9)
        end
    end.

Definition pdfi_read_object (deref : deref_fn) (sel : stream_sel) (c : pdf_context)
    : Z * pdf_context :=
  let '(code, c1, objnum) := read_int_token sel c in
  if code <? 0 then (code, c1)
  else
    let '(code, c2, gen) := read_int_token sel c1 in
    if code <? 0 then (code, c2)
    else
      let '(code, c3) := pdfi_read_token sel c2 in
      if code <? 0 then (code, c3)
      else
        match top_type c3 1 with
        | None => (model_undefined_behaviour, c3)
        | Some t =>
            if negb (pdf_obj_type_eqb t PDF_KEYWORD) then
              (gs_error_typecheck, pdfi_pop 1 c3)
            else if negb (top_key_is c3 PDF_OBJ) then
              (gs_error_syntaxerror, pdfi_pop 1 c3)
            else
              let c4 := pdfi_pop 1 c3 in
              let '(code, c5) := pdfi_read_token sel c4 in
              if code <? 0 then (code, c5)
              else
                let '(code, c6) := read_until_keyword (stream_fuel sel c5) sel c5 in
                if code <? 0 then (code, c6)
                else if top_key_is c6 PDF_ENDOBJ then number_and_cache objnum gen c6
                else if top_key_is c6 PDF_STREAM then
                  pdfi_read_object_stream deref sel objnum gen c6
                else if negb (pdfstoponerror c6) then
                  number_and_cache objnum gen
                    (set_pdf_errors (Z.lor (pdf_errors c6) E_PDF_MISSINGENDOBJ) c6)
                else (gs_error_syntaxerror, pdfi_pop 2 c6)
        end.

Definition pdfi_read_object_of_type (deref : deref_fn) (sel : stream_sel)
    (t : pdf_obj_type) (c : pdf_context) : Z * pdf_context :=
  let '(code, c1) := pdfi_read_object deref sel c in
  if code <? 0 then (code, c1)
  else
    match top_type c1 1 with
    | None => (model_undefined_behaviour, c1)
    | Some t' =>
        if negb (pdf_obj_type_eqb t' t) then (gs_error_typecheck, pdfi_pop 1 c1)
        else (0, c1)
    end.

(** ** Filters *)

(** Modelled from the spec: pdfi_filter opens, on top of the main stream at
    its current position, a stream that delivers the decoded bytes.  Reads
    of the new stream do not move the position of the main stream in the
    model. *)
Definition pdfi_filter (c : pdf_context) (d : nat) : Z * pdf_context :=
  match get_obj c d with
  | None => (model_undefined_behaviour, c)
  | Some dob =>
      match filter_decode dob (stream_rest (main_stream c)) with
      | Some bs => (0, set_compressed_stream (open_stream bs) c)
      | None => (gs_error_undefined, c)
      end
  end.

Definition pdfi_close_file (c : pdf_context) : pdf_context :=
  set_compressed_stream (open_stream []) c.

(** ** pdfi_dereference *)

(** (void)pdfi_seek(ctx, ctx->main_stream, saved_stream_offset, SEEK_SET); *)
Definition restore_offset (saved : Z) (c : pdf_context) : pdf_context :=
  snd (pdfi_seek MAIN_STREAM saved SEEK_SET c).

(** The branch for an object number outside the table. *)
Definition deref_out_of_range (c : pdf_context) : Z * pdf_context * option nat :=
  let c1 := set_pdf_errors (Z.lor (pdf_errors c) E_PDF_BADOBJNUMBER) c in
  if pdfstoponerror c1 then (gs_error_rangecheck, c1, None)
  else
    let '(code, c2, p) := pdfi_alloc_object c1 PDF_NULL 0 in
    (code, (if code =? 0 then pdfi_countup p c2 else c2), Some p).

(** The branch for a free entry. *)
Definition deref_free_entry (c : pdf_context) : Z * pdf_context * option nat :=
  let '(code, c1, p) := pdfi_alloc_object c PDF_NULL 1 in
  (code, (if code >? 0 then pdfi_countup p c1 else c1), Some p).

(** The branch for a cached object. *)
Definition deref_cached (c : pdf_context) (cache_entry : nat)
    : Z * pdf_context * option nat :=
  match get_entry c cache_entry with
  | None => (model_undefined_behaviour, c, None)
  | Some e => (0, cache_promote cache_entry (pdfi_countup (o e) c), Some (o e))
  end.

(** The branch for a classic (uncompressed) entry. *)
Definition deref_classic (deref : deref_fn) (c : pdf_context) (entry : xref_entry)
    (obj : Z) (saved_stream_offset : Z) : Z * pdf_context * option nat :=
  let '(code, c1) := pdfi_seek MAIN_STREAM (u_offset entry) SEEK_SET c in
  if code <? 0 then (code, restore_offset saved_stream_offset c1, None)
  else
    let '(code, c2) := pdfi_read_object deref MAIN_STREAM c1 in
    if code <? 0 then (code, restore_offset saved_stream_offset c2, None)
    else
      match stack_top c2 1 with
      | None => (model_undefined_behaviour, c2, None)
      | Some p =>
          let c3 := pdfi_pop 1 c2 in
          match get_obj c3 p with
          | None => (model_undefined_behaviour, c3, Some p)
          | Some ob =>
              if object_num ob =? obj then
                (0, restore_offset saved_stream_offset (pdfi_countup p c3), Some p)
              else (gs_error_undefined, c3, Some p)
          end
      end.

(** The first loop of the compressed branch: [n] pairs of integers are read
    from the object stream; the second integer of pair [object_index] is the
    offset of the member.  The counter [i] is an [int]: its increment past
    2^31 - 1 is not defined. *)
Fixpoint read_objstm_pairs (n : nat) (i : Z) (object_index : Z) (offset : Z)
    (c : pdf_context) : Z * pdf_context * Z :=
  match n with
  | O => (0, c, offset)
  | S n' =>
      let '(code, c1) := pdfi_read_token COMPRESSED_STREAM c in
      if code <? 0 then (code, c1, offset)
      else
        match top_type c1 1 with
        | None => (model_undefined_behaviour, c1, offset)
        | Some t =>
            if negb (pdf_obj_type_eqb t PDF_INT) then
              (gs_error_typecheck, pdfi_pop 1 c1, offset)
            else
              let c2 := pdfi_pop 1 c1 in
              let '(code, c3) := pdfi_read_token COMPRESSED_STREAM c2 in
              if code <? 0 then (code, c3, offset)
              else
                match stack_top_obj c3 1 with
                | None => (model_undefined_behaviour, c3, offset)
                | Some ob =>
                    if negb (pdf_obj_type_eqb (type ob) PDF_INT) then
                      (gs_error_typecheck, pdfi_pop 1 c3, offset)
                    else
                      let offset' := if i =? object_index then value_i ob else offset in
                      if i =? 2 ^ 31 - 1 then
                        (model_undefined_behaviour, pdfi_pop 1 c3, offset')
                      else read_objstm_pairs n' (i + 1) object_index offset' (pdfi_pop 1 c3)
                end
        end
  end.

(** for (i=0;i < offset;i++) one byte is read from the object stream; the
    result is the count of the read that ended the loop early, if any.  [i]
    is an [int]: its increment past 2^31 - 1 is not defined. *)
Fixpoint skip_member_offset (n : nat) (i : Z) (c : pdf_context) : Z * pdf_context :=
  match n with
  | O => (1, c)
  | S n' =>
      let '(code, _, c1) := pdfi_read_byte COMPRESSED_STREAM c in
      if code <=? 0 then (code, c1)
      else if i =? 2 ^ 31 - 1 then (model_undefined_behaviour, c1)
      else skip_member_offset n' (i + 1) c1
  end.

(** The do-while that reads the elements of a composite member. *)
Fixpoint read_composite (fuel : nat) (start_depth : Z) (c : pdf_context)
    : Z * pdf_context :=
  match fuel with
  | O => (model_out_of_fuel, c)
  | S fuel' =>
      let '(code, c1) := pdfi_read_token COMPRESSED_STREAM c in
      if code <? 0 then (code, c1)
      else if eof (compressed_stream c1) then (gs_error_ioerror, c1)
      else
        match top_type c1 1 with
        | None => (model_undefined_behaviour, c1)
        | Some t =>
            if (negb (pdf_obj_type_eqb t PDF_ARRAY) && negb (pdf_obj_type_eqb t PDF_DICT))
               || (stack_depth c1 >? start_depth)
            then read_composite fuel' start_depth c1
            else (0, c1)
        end
  end.

(** The object-stream dictionary of a compressed entry: from the cache, or
    read at the offset of its own xref entry. *)
Definition load_objstm (deref : deref_fn) (c : pdf_context)
    (compressed_entry : xref_entry) (saved_stream_offset : Z)
    : Z * pdf_context * option nat :=
  match cache compressed_entry with
  | None =>
      if compressed compressed_entry then (model_undefined_behaviour, c, None) else
      let '(code, c1) := pdfi_seek MAIN_STREAM (u_offset compressed_entry) SEEK_SET c in
      if code <? 0 then (code, restore_offset saved_stream_offset c1, None)
      else
        let '(code, c2) := pdfi_read_object_of_type deref MAIN_STREAM PDF_DICT c1 in
        if code <? 0 then (code, restore_offset saved_stream_offset c2, None)
        else
          match stack_top c2 1 with
          | None => (model_undefined_behaviour, c2, None)
          | Some p => (0, pdfi_pop 1 (pdfi_countup p c2), Some p)
          end
  | Some ce =>
      match get_entry c ce with
      | None => (model_undefined_behaviour, c, None)
      | Some e => (0, pdfi_countup (o e) c, Some (o e))
      end
  end.

(** The branch for an entry in a compressed object stream. *)
Definition deref_compressed (deref : deref_fn) (c : pdf_context) (entry : xref_entry)
    (obj gen : Z) (saved_stream_offset : Z) : Z * pdf_context * option nat :=
  match xref_get c (u_compressed_stream_num entry) with
  | None => (model_undefined_behaviour, c, None)
  | Some compressed_entry =>
      let '(code, c1, co) := load_objstm deref c compressed_entry saved_stream_offset in
      if code <? 0 then (code, c1, None)
      else
        match co with
        | None => (model_undefined_behaviour, c1, None)
        | Some compressed_object =>
            let fail := fun (code : Z) (c' : pdf_context) =>
              (code, restore_offset saved_stream_offset
                       (pdfi_countdown compressed_object c'), @None nat) in
            let '(code, c2, t) :=
              pdfi_dict_get_type deref c1 compressed_object (bytes_of_string "Type") PDF_NAME in
            if code <? 0 then fail code c2
            else
              match t with
              | None => (model_undefined_behaviour, c2, None)
              | Some tp =>
                  match get_obj c2 tp with
                  | None => (model_undefined_behaviour, c2, None)
                  | Some tob =>
                      if negb (bytes_eqb (data tob) (bytes_of_string "ObjStm")) then
                        fail gs_error_syntaxerror (pdfi_countdown tp c2)
                      else
                        let c3 := pdfi_countdown tp c2 in
                        let '(code, c4, num_entries) :=
                          pdfi_dict_get_int deref c3 compressed_object (bytes_of_string "N") in
                        if code <? 0 then fail code c4
                        else if (num_entries <? 0) || (num_entries >? xref_size c4) then
                          fail gs_error_rangecheck c4
                        else
                          match get_obj c4 compressed_object with
                          | None => (model_undefined_behaviour, c4, None)
                          | Some cob =>
                              let '(code, c5) :=
                                pdfi_seek MAIN_STREAM (stream_offset cob) SEEK_SET c4 in
                              if code <? 0 then fail code c5
                              else
                                let '(code, c6) := pdfi_filter c5 compressed_object in
                                if code <? 0 then fail code c6
                                else
                                  let '(code, c7, offset) :=
                                    read_objstm_pairs (Z.to_nat num_entries) 0
                                      (u_object_index entry) 0 c6 in
                                  if code <? 0 then fail code (pdfi_close_file c7)
                                  else
                                    let '(code, c8) :=
                                      skip_member_offset (Z.to_nat offset) 0 c7 in
                                    if code =? model_undefined_behaviour then
                                      (model_undefined_behaviour, c8, None)
                                    else if code <=? 0 then
                                      (gs_error_ioerror, pdfi_close_file c8, None)
                                    else
                                      let '(code, c9) := pdfi_read_token COMPRESSED_STREAM c8 in
                                      if code <? 0 then fail code (pdfi_close_file c9)
                                      else
                                        let '(code, c10) :=
                                          if top_is c9 1 PDF_ARRAY_MARK || top_is c9 1 PDF_DICT_MARK
                                          then read_composite
                                                 (stream_fuel COMPRESSED_STREAM c9)
                                                 (stack_depth c9) c9
                                          else (0, c9) in
                                        if code <? 0 then fail code (pdfi_close_file c10)
                                        else
                                          let c11 := pdfi_close_file c10 in
                                          match stack_top c11 1 with
                                          | None => (model_undefined_behaviour, c11, None)
                                          | Some p =>
                                              match get_obj c11 p with
                                              | None => (model_undefined_behaviour, c11, None)
                                              | Some ob =>
                                                  let c12 := put_obj p (set_object_num obj gen ob) c11 in
                                                  let c13 := pdfi_pop 1 (pdfi_countup p c12) in
                                                  let c14 := pdfi_countdown compressed_object c13 in
                                                  (0, restore_offset saved_stream_offset c14, Some p)
                                              end
                                          end
                          end
                  end
              end
        end
  end.

(** The body of pdfi_dereference; [deref] stands for the function itself in
    the calls made through the typed dictionary lookups.  [obj] and [gen]
    are uint64_t. *)
Definition pdfi_dereference_body (deref : deref_fn) (c : pdf_context) (obj gen : Z)
    : Z * pdf_context * option nat :=
  match xref_table c with
  | None => (model_undefined_behaviour, c, None)
  | Some xref =>
      if obj >=? Z.of_nat (length xref) then deref_out_of_range c
      else
        match xref_get c obj with
        | None => (model_undefined_behaviour, c, None)
        | Some entry =>
            if xobject_num entry =? 0 then (gs_error_undefined, c, None)
            else if free entry then deref_free_entry c
            else if match loop_detection c with Some _ => true | None => false end
                    && pdfi_loop_detector_check_object c obj
            then (gs_error_circular_reference, c, None)
            else
              let '(code, c1, object) :=
                match cache entry with
                | Some cache_entry => deref_cached c cache_entry
                | None =>
                    let saved_stream_offset := pdfi_unread_tell c in
                    if compressed entry then
                      deref_compressed deref c entry obj gen saved_stream_offset
                    else deref_classic deref c entry obj saved_stream_offset
                end in
              if code <? 0 then (code, c1, object)
              else
                match loop_detection c1, object with
                | Some _, Some p =>
                    match get_obj c1 p with
                    | None => (model_undefined_behaviour, c1, object)
                    | Some ob =>
                        let '(code, c2) := pdfi_loop_detector_add_object c1 (object_num ob) in
                        if code <? 0 then (code, c2, object) else (0, c2, object)
                    end
                | Some _, None => (model_undefined_behaviour, c1, object)
                | None, _ => (0, c1, object)
                end
        end
  end.

(** pdfi_dereference with a bound on the depth of the nested calls. *)
Fixpoint pdfi_dereference (fuel : nat) (c : pdf_context) (obj gen : Z)
    : Z * pdf_context * option nat :=
  match fuel with
  | O => (model_out_of_fuel, c, None)
  | S fuel' => pdfi_dereference_body (pdfi_dereference fuel') c obj gen
  end.

(** ** Repair *)

(** sizeof(xref_entry), fixed by the layout of an absent header. *)
Variable sizeof_xref_entry : Z.

Definition pdfi_repair_add_object (c : pdf_context) (obj gen offset : Z)
    : Z * pdf_context :=
  if obj >=? 0x7ffffff / sizeof_xref_entry then (gs_error_rangecheck, c)
  else
    let xref :=
      match xref_table c with
      | None => repeat zero_xref_entry (Z.to_nat (obj + 1))
      | Some xref =>
          if Z.of_nat (length xref) <? obj + 1 then
            xref ++ repeat zero_xref_entry (Z.to_nat (obj + 1) - length xref)%nat
          else xref
      end in
    match xref !! Z.to_nat obj with
    | None => (model_undefined_behaviour, c)
    | Some e =>
        (0, set_xref_table
              (Some (<[Z.to_nat obj :=
                         mk_xref_entry false false obj offset gen
                           (u_compressed_stream_num e) (u_object_index e) (cache e)]> xref)) c)
    end.

(** The byte matcher that the repair pass uses for "%PDF" and "endstream":
    do { read into Buffer[index]; if (Buffer[index] == test[index]) index++;
    else index = 0; } while (index < n && eof == false).  A read at the end
    of the data leaves Buffer[index] as it was. *)
Fixpoint scan_for (fuel : nat) (test : list Z) (Buffer : list Z) (index : nat)
    (c : pdf_context) : Z * pdf_context * list Z * nat :=
  match fuel with
  | O => (model_out_of_fuel, c, Buffer, index)
  | S fuel' =>
      let '(code, b, c1) := pdfi_read_byte MAIN_STREAM c in
      if code <? 0 then (code, c1, Buffer, index)
      else
        let Buffer' := if code >? 0 then <[index := b]> Buffer else Buffer in
        let index' :=
          match Buffer' !! index, test !! index with
          | Some x, Some y => if x =? y then S index else O
          | _, _ => O
          end in
        if (index' <? length test)%nat && negb (eof (main_stream c1)) then
          scan_for fuel' test Buffer' index' c1
        else (0, c1, Buffer', index')
  end.

Definition not_fatal (code : Z) : bool :=
  negb (code =? gs_error_VMerror) && negb (code =? gs_error_ioerror).

(** The token loop that follows the scan for "endstream" in the first pass. *)
Fixpoint repair_after_endstream (fuel : nat) (object_num generation_num offset : Z)
    (c : pdf_context) : Z * pdf_context :=
  match fuel with
  | O => (model_out_of_fuel, c)
  | S fuel' =>
      let again := fun (c' : pdf_context) =>
        if eof (main_stream c') then (0, c')
        else repair_after_endstream fuel' object_num generation_num offset c' in
      let '(code, c1) := pdfi_read_token MAIN_STREAM c in
      if code <? 0 then
        if not_fatal code then again c1 else (code, c1)
      else
        match top_type c1 1 with
        | None => (model_undefined_behaviour, c1)
        | Some t =>
            if pdf_obj_type_eqb t PDF_KEYWORD && top_key_is c1 PDF_ENDOBJ then
              let '(code, c2) := pdfi_repair_add_object c1 object_num generation_num offset in
              if code <? 0 then
                if not_fatal code then again c2 else (code, c2)
              else (0, c2)
            else again c1
        end
  end.

(** The loop of the first pass that follows an "N G obj": tokens are read up
    to the keyword that ends the object. *)
Fixpoint repair_object_body (fuel : nat) (object_num generation_num offset : Z)
    (c : pdf_context) : Z * pdf_context :=
  match fuel with
  | O => (model_out_of_fuel, c)
  | S fuel' =>
      let '(code, c1) := pdfi_read_token MAIN_STREAM c in
      if code <? 0 then
        if not_fatal code then
          repair_object_body fuel' object_num generation_num offset c1
        else (code, c1)
      else if (code =? 0) && eof (main_stream c1) then (0, c1)
      else
        match top_type c1 1 with
        | None => (model_undefined_behaviour, c1)
        | Some t =>
            if pdf_obj_type_eqb t PDF_KEYWORD then
              if top_key_is c1 PDF_ENDOBJ then
                let '(code, c2) := pdfi_repair_add_object c1 object_num generation_num offset in
                if code <? 0 then (code, c2) else (0, pdfi_clearstack c2)
              else if top_key_is c1 PDF_STREAM then
                let '(code, c2, _, _) :=
                  scan_for (stream_fuel MAIN_STREAM c1) (bytes_of_string "endstream")
                    (repeat 0 10) O c1 in
                if code <? 0 then (code, c2)
                else
                  let '(code, c3) :=
                    repair_after_endstream (stream_fuel MAIN_STREAM c2)
                      object_num generation_num offset c2 in
                  if code <? 0 then (code, c3) else (0, pdfi_clearstack c3)
              else (0, pdfi_clearstack c1)
            else repair_object_body fuel' object_num generation_num offset c1
        end
  end.

(** The first pass: one call is one iteration of the inner do-while;
    [offset], [object_num] and [generation_num] are the local variables of
    pdfi_repair_file. *)
Fixpoint repair_first_pass (fuel : nat) (offset object_num generation_num : Z)
    (c : pdf_context) : Z * pdf_context :=
  match fuel with
  | O => (model_out_of_fuel, c)
  | S fuel' =>
      let inner := fun (c' : pdf_context) (offset' : Z) (on gn : Z) =>
        if eof (main_stream c') then (0, c')
        else repair_first_pass fuel' offset' on gn c' in
      let outer := fun (c' : pdf_context) (on gn : Z) =>
        if eof (main_stream c') then (0, c')
        else repair_first_pass fuel' (pdfi_unread_tell c') on gn c' in
      let tail := fun (c' : pdf_context) (offset' : Z) =>
        let c'' := if (stack_depth c' >? 0) && negb (top_is c' 1 PDF_INT)
                   then pdfi_clearstack c' else c' in
        inner c'' offset' object_num generation_num in
      let '(code, c1) := pdfi_read_token MAIN_STREAM c in
      if code <? 0 then
        if not_fatal code then
          let c2 := pdfi_clearstack c1 in
          inner c2 (pdfi_unread_tell c2) object_num generation_num
        else (code, c1)
      else if stack_depth c1 >? 0 then
        if top_is c1 1 PDF_KEYWORD then
          if top_key_is c1 PDF_OBJ then
            if (stack_depth c1 <? 3) || negb (top_is c1 2 PDF_INT) then
              inner (pdfi_clearstack c1) offset object_num generation_num
            else
              match stack_top_obj c1 3, stack_top_obj c1 2 with
              | Some n3, Some n2 =>
                  let on := value_i n3 mod 2 ^ 64 in
                  let gn := value_i n2 mod 2 ^ 64 in
                  let '(code, c2) :=
                    repair_object_body (stream_fuel MAIN_STREAM c1) on gn offset
                      (pdfi_clearstack c1) in
                  if code <? 0 then (code, c2) else outer c2 on gn
              | _, _ => (model_undefined_behaviour, c1)
              end
          else if top_key_is c1 PDF_ENDOBJ then
            let '(code, c2) := pdfi_repair_add_object c1 object_num generation_num offset in
            if code <? 0 then (code, c2) else tail (pdfi_clearstack c2) offset
          else if top_key_is c1 PDF_STARTXREF then
            let '(code, c2) := pdfi_read_token MAIN_STREAM c1 in
            if (code <? 0) && not_fatal code then inner c2 offset object_num generation_num
            else if code <? 0 then (code, c2)
            else tail (pdfi_clearstack c2) (pdfi_unread_tell c2)
          else tail (pdfi_clearstack c1) (pdfi_unread_tell c1)
        else tail c1 offset
      else inner c1 offset object_num generation_num
  end.

Definition name_is (ob : pdf_obj) (str : string) : bool :=
  pdf_obj_type_eqb (type ob) PDF_NAME && bytes_eqb (data ob) (bytes_of_string str).

(** The stores that register member [obj_num] of object stream [i] at index
    [j]; out of the table the C stores are out of bounds. *)
Definition register_member (obj_num i j : Z) (c : pdf_context) : option pdf_context :=
  match xref_get c obj_num with
  | Some e =>
      xref_set obj_num
        (mk_xref_entry true false obj_num (u_offset e) (u_generation_num e) i j (cache e)) c
  | None => None
  end.

(** for (j=0;j < N; j++): the pairs of an object stream are read and each
    member registered.  [Continue code] carries the last [code] out of the
    loop; [Return code] leaves pdfi_repair_file. *)
Fixpoint register_members (n : nat) (j : Z) (i : Z) (code : Z) (c : pdf_context)
    : loop_exit Z * pdf_context :=
  match n with
  | O => (Continue code, c)
  | S n' =>
      let next_j := fun (code' : Z) (c' : pdf_context) =>
        register_members n' (j + 1) i code' c' in
      let '(code, c1) := pdfi_read_token COMPRESSED_STREAM c in
      if code =? 0 then
        match stack_top_obj c1 1 with
        | None => (Return model_undefined_behaviour, c1)
        | Some ob =>
            if pdf_obj_type_eqb (type ob) PDF_INT then
              let obj_num := value_i ob in
              let c2 := pdfi_pop 1 c1 in
              let '(code, c3) := pdfi_read_token COMPRESSED_STREAM c2 in
              if code =? 0 then
                match stack_top_obj c3 1 with
                | None => (Return model_undefined_behaviour, c3)
                | Some ob' =>
                    if pdf_obj_type_eqb (type ob') PDF_INT then
                      if obj_num <? 1 then
                        (Return gs_error_rangecheck, pdfi_clearstack (pdfi_close_file c3))
                      else
                        match register_member obj_num i j c3 with
                        | Some c4 => next_j code c4
                        | None => (Return model_undefined_behaviour, c3)
                        end
                    else next_j code c3
                end
              else next_j code c3
            else next_j code c1
        end
      else next_j code c1
  end.

(** The body of the second pass for an object whose dictionary is followed
    by the keyword [stream]. *)
Definition repair_objstm (deref : deref_fn) (i : Z) (c : pdf_context)
    : loop_exit Z * pdf_context :=
  if stack_depth c <=? 1 then (Break 0, pdfi_clearstack c)
  else
    match stack_top c 2 with
    | None => (Return model_undefined_behaviour, c)
    | Some d =>
        if negb (top_is c 2 PDF_DICT) then (Break 0, pdfi_clearstack c)
        else
          let '(code, c1, n) := pdfi_dict_get c d (bytes_of_string "Type") in
          if code <? 0 then
            if pdfstoponerror c1 || (code =? gs_error_VMerror) then
              (Return code, pdfi_clearstack c1)
            else (Break 0, pdfi_clearstack c1)
          else
            match n with
            | None => (Return model_undefined_behaviour, c1)
            | Some np =>
                match get_obj c1 np with
                | None => (Return model_undefined_behaviour, c1)
                | Some nob =>
                    if name_is nob "ObjStm" then
                      let offset := pdfi_unread_tell c1 in
                      let '(_, c2) := pdfi_seek MAIN_STREAM offset SEEK_SET c1 in
                      let '(code, c3) := pdfi_filter c2 d in
                      let '(res, c4) :=
                        if code =? 0 then
                          let '(code, c3', N) :=
                            pdfi_dict_get_int deref c3 d (bytes_of_string "N") in
                          let '(res, c3'') :=
                            if code =? 0 then register_members (Z.to_nat N) 0 i code c3'
                            else (Continue code, c3') in
                          match res with
                          | Return _ => (res, c3'')
                          | _ => (res, pdfi_close_file c3'')
                          end
                        else (Continue code, c3) in
                      match res with
                      | Return code => (Return code, c4)
                      | Continue code | Break code =>
                          if (code <? 0) && (pdfstoponerror c4 || (code =? gs_error_VMerror))
                          then (Return code, pdfi_clearstack c4)
                          else (Break 0, pdfi_clearstack c4)
                      end
                    else (Break 0, pdfi_clearstack c1)
                end
            end
    end.

(** The body of the second pass at the keyword [endobj]: a dictionary whose
    /Type is the name Catalog becomes the Root. *)
Definition repair_catalog (c : pdf_context) : loop_exit Z * pdf_context :=
  if (stack_depth c >? 1) && top_is c 2 PDF_DICT then
    match stack_top c 2 with
    | None => (Return model_undefined_behaviour, c)
    | Some d =>
        let '(code, c1, t) := pdfi_dict_get c d (bytes_of_string "Type") in
        if (code <? 0) && negb (code =? gs_error_undefined) then
          (Return code, pdfi_clearstack c1)
        else
          let c2 :=
            match t with
            | Some tp =>
                match get_obj c1 tp with
                | Some tob =>
                    if name_is tob "Catalog" then pdfi_countup d (set_Root (Some d) c1)
                    else c1
                | None => c1
                end
            | None => c1
            end in
          (Break 0, pdfi_clearstack c2)
    end
  else (Break 0, pdfi_clearstack c).

(** The do-while of the second pass for the object recorded under [i]. *)
Fixpoint repair_examine_object (fuel : nat) (deref : deref_fn) (i : Z)
    (c : pdf_context) : loop_exit Z * pdf_context :=
  match fuel with
  | O => (Return model_out_of_fuel, c)
  | S fuel' =>
      let '(code, c1) := pdfi_read_token MAIN_STREAM c in
      if eof (main_stream c1)
         || ((code <? 0) && negb (code =? gs_error_ioerror) && negb (code =? gs_error_VMerror))
      then (Break 0, c1)
      else if code <? 0 then (Return code, c1)
      else
        match top_type c1 1 with
        | None => (Return model_undefined_behaviour, c1)
        | Some t =>
            if pdf_obj_type_eqb t PDF_KEYWORD then
              if top_key_is c1 PDF_OBJ then repair_examine_object fuel' deref i c1
              else if top_key_is c1 PDF_ENDOBJ then repair_catalog c1
              else if top_key_is c1 PDF_STREAM then repair_objstm deref i c1
              else repair_examine_object fuel' deref i c1
            else repair_examine_object fuel' deref i c1
        end
  end.

(** for (i=1;i < xref_size;i++), with [n] entries left to visit. *)
Fixpoint repair_second_pass (n : nat) (deref : deref_fn) (i : Z) (c : pdf_context)
    : Z * pdf_context :=
  match n with
  | O => (0, c)
  | S n' =>
      match xref_get c i with
      | None => (0, c)
      | Some e =>
          if negb (xobject_num e =? 0) then
            if compressed e then (model_undefined_behaviour, c)
            else if u_offset e >? main_stream_length c then (gs_error_rangecheck, c)
            else
              let '(_, c1) := pdfi_seek MAIN_STREAM (u_offset e) SEEK_SET c in
              match repair_examine_object (stream_fuel MAIN_STREAM c1) deref i c1 with
              | (Return code, c2) => (code, c2)
              | (_, c2) => repair_second_pass n' deref (i + 1) c2
              end
          else repair_second_pass n' deref (i + 1) c
      end
  end.

(** pdfi_repair_file; [fuel] bounds the nesting of the dereferences made by
    the typed dictionary lookups. *)
Definition pdfi_repair_file (fuel : nat) (c : pdf_context) : Z * pdf_context :=
  let c1 := pdfi_clearstack (set_repaired true c) in
  let '(_, c2) := pdfi_seek MAIN_STREAM 0 SEEK_SET c1 in
  let '(code, c3, Buffer, _) :=
    scan_for (stream_fuel MAIN_STREAM c2) (bytes_of_string "%PDF") (repeat 0 10) O c2 in
  if code <? 0 then (code, c3)
  else if negb (bytes_eqb (take 4 Buffer) (bytes_of_string "%PDF")) then
    (gs_error_undefined, c3)
  else
    let '(_, c4) := pdfi_unread MAIN_STREAM (take 4 Buffer) c3 in
    let '(_, c5) := pdfi_skip_comment MAIN_STREAM c4 in
    if eof (main_stream c5) then (gs_error_ioerror, c5)
    else
      let '(code, c6) :=
        repair_first_pass (stream_fuel MAIN_STREAM c5) (pdfi_unread_tell c5) 0 0 c5 in
      if code <? 0 then (code, c6)
      else
        let c7 :=
          if eof (main_stream c6) then
            set_main_stream
              (mk_pdf_stream (s_data (main_stream c6)) 0 false
                 (unread_buffer (main_stream c6))) c6
          else c6 in
        match xref_table c7 with
        | None => (gs_error_syntaxerror, c7)
        | Some xref =>
            if Z.of_nat (length xref) <? 1 then (gs_error_syntaxerror, c7)
            else
              repair_second_pass (length xref - 1) (pdfi_dereference fuel) 1 c7
        end.

End Interpreter.

(** ** pdf_array.c *)

(** for (i=0;i<size;i++){ values[i] = n; pdfi_countup(n); } with [int i]
    against the uint64_t [size]: [count] slots are left to fill from [i] on,
    and the increment of [i] past 2^31 - 1 is not defined. *)
Fixpoint array_fill_null (count : nat) (i : Z) (a n : nat) (c : pdf_context)
    : Z * pdf_context :=
  match count with
  | O => (0, c)
  | S count' =>
      let c1 := pdfi_countup n (set_array_value a (Z.to_nat i) (Some n) c) in
      if i =? 2 ^ 31 - 1 then (model_undefined_behaviour, c1)
      else array_fill_null count' (i + 1) a n c1
  end.

(** pdfi_array_alloc: [size] is a uint64_t; pdfi_alloc_object takes it as
    an [unsigned int], and the [size] field of the array keeps the full
    value.  Where the loop would store past the slots that were allocated,
    the model stops. *)
Definition pdfi_array_alloc (c : pdf_context) (sz : Z) : Z * pdf_context * option nat :=
  let '(code, c1, a) := pdfi_alloc_object c PDF_ARRAY sz in
  if code <? 0 then (code, c1, None)
  else
    match get_obj c1 a with
    | None => (model_undefined_behaviour, c1, None)
    | Some ob =>
        let c2 := put_obj a (set_slots sz (entries ob) (keys ob) (values ob) ob) c1 in
        if sz >? 0 then
          let '(code, c3, n) := pdfi_alloc_object c2 PDF_NULL 1 in
          if code <? 0 then (code, pdfi_countdown a c3, None)
          else
            if Z.of_nat (length (values ob)) <? sz then
              (model_undefined_behaviour, c3, Some a)
            else
              let '(code, c4) := array_fill_null (Z.to_nat sz) 0 a n c3 in
              (code, c4, Some a)
        else (0, c2, Some a)
    end.

(** * Auxiliary definitions for the statements *)

(** The byte that a backslash escape of pdfi_read_string stores. *)
Definition escape_byte (b : Z) : option Z :=
  if b =? ch "n" then Some 0x0a
  else if b =? ch "r" then Some 0x0a
  else if b =? ch "t" then Some 0x09
  else if b =? ch "b" then Some 0x07
  else if b =? ch "f" then Some 0x0c
  else None.

(** A byte that pdfi_read_string copies as it is: not an end of line, a
    parenthesis or a backslash. *)
Definition plain_byte (b : Z) : bool :=
  (0 <=? b) && (b <? 256) && negb (is_eol b) && negb (b =? ch ")")
  && negb (b =? ch "\") && negb (b =? ch "(").

(** The invariant of the loop of pdfi_read_string between iterations: the
    first [index] bytes of [Buffer] are the output so far; [Buffer] may hold
    one more byte, a scratch copy of the byte read last. *)
Definition string_inv (st : string_state) (out : list Z) : Prop :=
  rs_index st = Z.of_nat (length out)
  /\ take (length out) (rs_Buffer st) = out
  /\ (length (rs_Buffer st) <= S (length out))%nat.

(** The malformed numbers of the token reader, in the words of its
    documentation: a second decimal point, or a sign that is not in the
    first position. *)
Definition is_sign (b : Z) : bool := (b =? ch "+") || (b =? ch "-").

Definition is_point (b : Z) : bool := b =? ch ".".

Definition second_decimal_point (run : list Z) : bool :=
  (2 <=? length (List.filter is_point run))%nat.

Definition sign_after_first (run : list Z) : bool :=
  existsb is_sign (tail run).

Definition malformed_number (run : list Z) : bool :=
  second_decimal_point run || sign_after_first run.

(** What is left of the input after the byte that ended a number: a white
    space byte is consumed, any other byte is pushed back. *)
Definition after_number (rest : list Z) : list Z :=
  match rest with
  | b :: rest' => if iswhite b then rest' else rest
  | [] => []
  end.

(** The byte, if any, that follows a run of number bytes is not one. *)
Definition ends_number (rest : list Z) : bool :=
  match rest with
  | b :: _ => negb (starts_number b)
  | [] => true
  end.

(** The flags of pdfi_read_num as functions of the bytes read so far. *)
Definition has_point (l : list Z) : bool :=
  (1 <=? length (List.filter is_point l))%nat.

(** Whether byte [b], read at [index] with [real] as it stands, makes the
    number malformed. *)
Definition num_malforms (b : Z) (index : nat) (real : bool) : bool :=
  (is_point b && real) || (is_sign b && negb (Nat.eqb index 0)).

(** What the loops of the token reader leave unchanged: they move the stream
    and may set error flags. *)
Definition reader_frame (c c1 : pdf_context) : Prop :=
  heap c1 = heap c /\ stack c1 = stack c /\ pdfstoponerror c1 = pdfstoponerror c.

(** A malformed number of 256 bytes: 1.. followed by 253 zeros. *)
Definition long_malformed_number : list Z :=
  [ch "1"; ch "."; ch "."] ++ repeat (ch "0") 253.

(** ** Example documents *)

(** Streams stored without a filter: the decoded bytes are the raw ones. *)
Definition no_filter (d : pdf_obj) (bs : list Z) : option (list Z) := Some bs.

Definition classic_entry (n offset : Z) : xref_entry :=
  mk_xref_entry false false n offset 0 0 0 None.

Definition free_entry (n : Z) : xref_entry :=
  mk_xref_entry false true n 0 0 0 0 None.

Definition compressed_entry (n stream_num index : Z) : xref_entry :=
  mk_xref_entry true false n 0 0 stream_num index None.

Definition with_xref (xref : list xref_entry) (c : pdf_context) : pdf_context :=
  set_xref_table (Some xref) c.

(** A table of three entries: object 0 never defined, object 1 free,
    object 2 at offset 0 of an empty file. *)
Definition small_table_context (stoponerror : bool) : pdf_context :=
  with_xref [zero_xref_entry; free_entry 1; classic_entry 2 0]
    (new_context stoponerror []).

(** ** The shape of the object cache *)

Definition entry_at (st : list (option pdf_obj_cache_entry)) (p : nat)
    : option pdf_obj_cache_entry :=
  match st !! p with
  | Some (Some e) => Some e
  | _ => None
  end.

(** A segment of the doubly linked list: the entries [l], in order, are
    live, each points back at its predecessor ([prev] for the first) and
    forward at its successor ([nxt] for the last). *)
Fixpoint dseg (st : list (option pdf_obj_cache_entry)) (prev : option nat)
    (l : list nat) (nxt : option nat) : Prop :=
  match l with
  | [] => True
  | p :: rest =>
      (exists e, entry_at st p = Some e
                 /\ previous e = prev
                 /\ next e = match rest with q :: _ => Some q | [] => nxt end)
      /\ dseg st (Some p) rest nxt
  end.

(** The neighbours of a segment seen from the list next to it. *)
Definition head_or (l : list nat) (d : option nat) : option nat :=
  match l with q :: _ => Some q | [] => d end.

Definition last_or (l : list nat) (d : option nat) : option nat :=
  match last l with Some q => Some q | None => d end.

(** The cache of a context holds the entries [l], least recently used
    first: they form the doubly linked list between [cache_LRU] and
    [cache_MRU], and [cache_entries] counts them. *)
Definition cache_list (c : pdf_context) (l : list nat) : Prop :=
  NoDup l
  /\ dseg (cache_store c) None l None
  /\ cache_LRU c = head l
  /\ cache_MRU c = last l
  /\ cache_entries c = Z.of_nat (length l).

(** Two contexts with the same cache. *)
Definition same_cache (c c' : pdf_context) : Prop :=
  cache_store c' = cache_store c /\ cache_LRU c' = cache_LRU c
  /\ cache_MRU c' = cache_MRU c /\ cache_entries c' = cache_entries c.

(** ** A small cache *)

(** A fresh object bound to the object number [n]. *)
Definition numbered_null (n : Z) (c : pdf_context) : pdf_context :=
  let '(_, c1, p) := pdfi_alloc_object c PDF_NULL 0 in
  match get_obj c1 p with
  | Some ob => put_obj p (set_object_num n 0 ob) c1
  | None => c1
  end.

(** Objects 1, 2 and 3 at the heap addresses 0, 1 and 2. *)
Definition three_objects : pdf_context :=
  numbered_null 3 (numbered_null 2 (numbered_null 1
    (with_xref [zero_xref_entry; classic_entry 1 0; classic_entry 2 0; classic_entry 3 0]
       (new_context false [])))).

(** A cache of capacity 2 holding objects 1 and 2, in this order. *)
Definition full_cache : pdf_context :=
  snd (pdfi_add_to_cache 2 (snd (pdfi_add_to_cache 2 three_objects 0)) 1).

(** ** Reference cycles *)

(** A caller that follows the /Next entry of a dictionary. *)
Definition follow_next (deref : deref_fn) (c : pdf_context) (d : nat)
    : Z * pdf_context * option nat :=
  pdfi_dict_get_type deref c d (bytes_of_string "Next") PDF_DICT.

(** Resolve object [obj] inside a fresh detection scope, then follow /Next
    links up to [n] times; the result is the first error met, the chain of
    the detector at that point and the number of links followed. *)
Fixpoint walk_next (n : nat) (deref : deref_fn) (c : pdf_context) (d : nat) (k : Z)
    : Z * option (list Z) * Z :=
  match n with
  | O => (0, loop_detection c, k)
  | S n' =>
      let '(code, c1, q) := follow_next deref c d in
      if code <? 0 then (code, loop_detection c1, k)
      else
        match q with
        | Some d' => walk_next n' deref c1 d' (k + 1)
        | None => (model_undefined_behaviour, loop_detection c1, k)
        end
  end.

Definition resolve_and_walk (n : nat) (deref : deref_fn) (c : pdf_context) (obj : Z)
    : Z * option (list Z) * Z :=
  let '(_, c1) := pdfi_loop_detector_mark c in
  let '(code, c2, p) := deref c1 obj 0 in
  if code <? 0 then (code, loop_detection c2, 0)
  else
    match p with
    | Some d => walk_next n deref c2 d 0
    | None => (model_undefined_behaviour, loop_detection c2, 0)
    end.

Definition cycle_table (offset7 : Z) : list xref_entry :=
  [zero_xref_entry; free_entry 1; free_entry 2; free_entry 3; free_entry 4;
   classic_entry 5 0; free_entry 6; classic_entry 7 offset7].

(** Object 5 refers to itself. *)
Definition self_cycle : pdf_context :=
  with_xref (cycle_table 0)
    (new_context false (bytes_of_string "5 0 obj << /Next 5 0 R >> endobj  ")).

(** Object 5 refers to object 7, which refers to object 5. *)
Definition two_cycle : pdf_context :=
  with_xref (cycle_table 33)
    (new_context false
       (bytes_of_string
          "5 0 obj << /Next 7 0 R >> endobj 7 0 obj << /Next 5 0 R >> endobj  ")).

(** ** Files for the classic and the compressed branch *)

(** The xref entry of object 5 points at an object that calls itself 7. *)
Definition mismatch_context : pdf_context :=
  with_xref (cycle_table 0)
    (new_context false (bytes_of_string "7 0 obj [1 2] endobj  ")).

(** Object 5 is an object stream with one member, object 6, whose offset in
    the stream is [member_offset]; the xref entry of 6 is compressed. *)
Definition objstm_table : list xref_entry :=
  [zero_xref_entry; free_entry 1; free_entry 2; free_entry 3; free_entry 4;
   classic_entry 5 0; compressed_entry 6 5 0].

Definition objstm_file (member_offset : string) : list Z :=
  bytes_of_string "5 0 obj << /Type /ObjStm /N 1 /First 4 >> stream"
  ++ [10] ++ bytes_of_string "6 " ++ bytes_of_string member_offset
  ++ bytes_of_string " (a) endstream endobj  ".

Definition objstm_context (member_offset : string) : pdf_context :=
  with_xref objstm_table (new_context false (objstm_file member_offset)).

(** The return code of a dereference and the position of the main stream
    it leaves behind. *)
Definition exit_position (r : Z * pdf_context * option nat) : Z * Z :=
  let '(code, c, _) := r in (code, pdfi_unread_tell c).

(** The xref entry of object 5 points at bytes that are no object; the
    reader stands at offset 4. *)
Definition garbage_context : pdf_context :=
  snd (pdfi_seek MAIN_STREAM 4 SEEK_SET
         (with_xref (cycle_table 0) (new_context false (bytes_of_string "foo bar baz  ")))).

(** The same object stream with a dictionary as its member, followed by
    further bytes that are not part of it. *)
Definition objstm_composite_context : pdf_context :=
  with_xref objstm_table
    (new_context false
       (bytes_of_string "5 0 obj << /Type /ObjStm /N 1 /First 4 >> stream"
        ++ [10] ++ bytes_of_string "6 0 << /K [1 2] >> (b) endstream endobj  ")).

(** What a caller sees of a dereference of object [obj]: the return code,
    the object returned, the [cache] pointer of the xref entry of [obj]
    afterwards, and the objects held by the cache. *)
Definition resolved_view (obj : Z) (r : Z * pdf_context * option nat)
    : Z * option pdf_obj * option (option nat) * list (option nat) :=
  let '(code, c, p) := r in
  (code,
   match p with Some q => get_obj c q | None => None end,
   option_map cache (xref_get c obj),
   map (option_map o) (cache_store c)).

(** Two dereferences of the same object, one after the other. *)
Definition dereference_twice (deref : deref_fn) (c : pdf_context) (obj : Z)
    : Z * option nat * Z * option nat :=
  let '(code1, c1, p1) := deref c obj 0 in
  let '(code2, _, p2) := deref c1 obj 0 in
  (code1, p1, code2, p2).

(** ** Files for the repair pass *)

(** A file without a usable xref: a catalog, an array that occurs twice
    under the number 4, and an object stream 5 whose members are the
    objects 2 and 3. *)
Definition damaged_file : list Z :=
  bytes_of_string "%PDF-1.4" ++ [10]
  ++ bytes_of_string "1 0 obj << /Type /Catalog /Pages 4 0 R >> endobj" ++ [10]
  ++ bytes_of_string "4 0 obj [1 2] endobj" ++ [10]
  ++ bytes_of_string "5 0 obj << /Type /ObjStm /N 2 /First 8 >> stream" ++ [10]
  ++ bytes_of_string "2 0 3 4 (a) (b) endstream endobj" ++ [10]
  ++ bytes_of_string "4 0 obj [3] endobj" ++ [10]
  ++ bytes_of_string "startxref 0 %%EOF" ++ [10].

(** A file whose only object is an object stream that lists object 7 as
    its member. *)
Definition stray_member_file : list Z :=
  bytes_of_string "%PDF-1.4" ++ [10]
  ++ bytes_of_string "1 0 obj << /Type /ObjStm /N 1 /First 4 >> stream" ++ [10]
  ++ bytes_of_string "7 0 (a) endstream endobj" ++ [10].

(** What the repair leaves: the return code, for each xref entry its
    compressed flag, object number, offset, stream number and index, and the
    /Type of the Root, if one was set. *)
Definition repaired_view (r : Z * pdf_context)
    : Z * option (list (bool * Z * Z * Z * Z)) * option (list Z) :=
  let '(code, c) := r in
  (code,
   option_map
     (map (fun e => (compressed e, xobject_num e, u_offset e,
                     u_compressed_stream_num e, u_object_index e)))
     (xref_table c),
   match Root c with
   | Some d =>
       match pdfi_dict_get c d (bytes_of_string "Type") with
       | (_, c', Some t) => option_map data (get_obj c' t)
       | _ => None
       end
   | None => None
   end).

(** The entries of the xref table, none while there is no table. *)
Definition table_of (c : pdf_context) : list xref_entry :=
  match xref_table c with Some xref => xref | None => [] end.

(** Two arrays with a second [endobj] after the first. *)
Definition stray_endobj_file : list Z :=
  bytes_of_string "%PDF-1.4" ++ [10]
  ++ bytes_of_string "1 0 obj [1] endobj" ++ [10]
  ++ bytes_of_string "endobj" ++ [10]
  ++ bytes_of_string "2 0 obj [2] endobj  ".


(** ** The chain of the loop detector *)

(** [b] is the chain [a] with more numbers on top; nothing is asked while no
    scope is active. *)
Definition chain_ext (a b : option (list Z)) : Prop :=
  match a with
  | Some l => exists more, b = Some (more ++ l)
  | None => True
  end.

(** The chain of a context that a function may not return. *)
Definition ld_opt (x : option pdf_context) (l : option (list Z)) : Prop :=
  match x with
  | Some c' => loop_detection c' = l
  | None => True
  end.

(** Every object of [h'] is an object of [h] with the number it had there:
    objects may have been freed or counted, none was renumbered. *)
Definition numbers_kept (h h' : list (option pdf_obj)) : Prop :=
  forall q ob, h' !! q = Some (Some ob) ->
    exists ob0, h !! q = Some (Some ob0) /\ object_num ob0 = object_num ob.
(** * Further functions of pdf_int.c and pdf_array.c *)

From Stdlib Require Import Floats.SpecFloat.

(** ** Names (pdf_int.c) *)

(** memcmp(a, b, n) on bytes: the sign of the first difference.  The C
    library fixes the sign of the result only; the model returns -1, 0 or 1.
    Reading past the end of a buffer is not defined. *)
Fixpoint memcmp (a b : list Z) (n : nat) : Z :=
  match n with
  | O => 0
  | S n' =>
      match a, b with
      | x :: a', y :: b' =>
          if x <? y then -1 else if y <? x then 1 else memcmp a' b' n'
      | _, _ => model_undefined_behaviour
      end
  end.

(** strlen of a C string given with its terminating NUL left out: the bytes
    before the first 0. *)
Fixpoint strlen (s : list Z) : nat :=
  match s with
  | b :: s' => if b =? 0 then O else S (strlen s')
  | [] => O
  end.

(** pdfi_name_strcmp; [n] is the name object, [s] the C string. *)
Definition pdfi_name_strcmp (n : pdf_obj) (s : list Z) : Z :=
  let len := strlen s in
  if Z.of_nat (length (data n)) =? Z.of_nat len then memcmp (data n) s len
  else -1.

Definition pdfi_name_cmp (n1 n2 : pdf_obj) : Z :=
  if negb (Z.of_nat (length (data n1)) =? Z.of_nat (length (data n2))) then -1
  else memcmp (data n1) (data n2) (length (data n1)).

(** pdfi_make_name: [size] is a uint32_t; memcpy(data, n, size) reads [size]
    bytes of [n], which must be there. *)
Definition pdfi_make_name (c : pdf_context) (n : list Z) (sz : Z)
    : Z * pdf_context * option nat :=
  let '(code, c1, p) := pdfi_alloc_object c PDF_NAME sz in
  if code <? 0 then (code, c1, None)
  else
    let c2 := pdfi_countup p c1 in
    match get_obj c2 p with
    | None => (model_undefined_behaviour, c2, Some p)
    | Some ob =>
        if (Z.to_nat sz <=? length n)%nat then
          (0, put_obj p (set_data (take (Z.to_nat sz) n) ob) c2, Some p)
        else (model_undefined_behaviour, c2, Some p)
    end.

(** ** Rectangles *)

(** A C [double] is a [spec_float]; [a < b] is [SFltb a b], false when
    either side is a NaN. *)
Definition rectangle : Type := (spec_float * spec_float * spec_float * spec_float)%type.

(** normalize_rectangle of pdf_int.c, on d[0..3]. *)
Definition normalize_rectangle (d : rectangle) : rectangle :=
  let '(d0, d1, d2, d3) := d in
  let '(e0, e2) := if SFltb d0 d2 then (d0, d2) else (d2, d0) in
  let '(e1, e3) := if SFltb d1 d3 then (d1, d3) else (d3, d1) in
  (e0, e1, e2, e3).

(** A gs_rect: p.x, p.y, q.x, q.y. *)
Record gs_rect : Type := mk_gs_rect {
  p_x : spec_float;
  p_y : spec_float;
  q_x : spec_float;
  q_y : spec_float
}.

(** pdfi_normalize_rect of pdf_array.c. *)
Definition pdfi_normalize_rect (rect : gs_rect) : gs_rect :=
  let rect1 :=
    if SFltb (q_x rect) (p_x rect)
    then mk_gs_rect (q_x rect) (p_y rect) (p_x rect) (q_y rect)
    else rect in
  if SFltb (q_y rect1) (p_y rect1)
  then mk_gs_rect (p_x rect1) (q_y rect1) (q_x rect1) (p_y rect1)
  else rect1.

(** ** Arrays (pdf_array.c) *)

(** pdfi_countup and pdfi_countdown are macros of an absent header; whether
    they accept a NULL pointer is not known, so where pdf_array.c applies
    them to a slot that holds NULL the model stops.  It stops as well where
    they are applied to an object that has been freed: in pdfi_array_put the
    release of the slot's object comes first, and the array or the object to
    store may be what it frees. *)

(** pdfi_array_put; [index] is a uint64_t. *)
Definition pdfi_array_put (c : pdf_context) (a : nat) (index : Z) (obj : nat)
    : Z * pdf_context :=
  match get_obj c a with
  | None => (model_undefined_behaviour, c)
  | Some aob =>
      if negb (pdf_obj_type_eqb (type aob) PDF_ARRAY) then (gs_error_typecheck, c)
      else if index >=? size aob then (gs_error_rangecheck, c)
      else
        match values aob !! Z.to_nat index with
        | Some (Some old) =>
            let c1 := pdfi_countdown old c in
            match get_obj c1 a, get_obj c1 obj with
            | Some _, Some _ =>
                (0, pdfi_countup obj (set_array_value a (Z.to_nat index) (Some obj) c1))
            | _, _ => (model_undefined_behaviour, c1)
            end
        | _ => (model_undefined_behaviour, c)
        end
  end.

Definition pdfi_array_get_no_deref (c : pdf_context) (a : nat) (index : Z)
    : Z * pdf_context * option nat :=
  match get_obj c a with
  | None => (model_undefined_behaviour, c, None)
  | Some aob =>
      if negb (pdf_obj_type_eqb (type aob) PDF_ARRAY) then (gs_error_typecheck, c, None)
      else if index >=? size aob then (gs_error_rangecheck, c, None)
      else
        match values aob !! Z.to_nat index with
        | Some (Some p) => (0, pdfi_countup p c, Some p)
        | _ => (model_undefined_behaviour, c, None)
        end
  end.

Section ArrayAccess.

(** pdfi_deref_loop_detect of the absent pdf_deref.c: the dereference of an
    indirect reference inside a loop-detection scope. *)
Variable pdfi_deref_loop_detect : deref_fn.

Definition pdfi_array_fetch (c : pdf_context) (a : nat) (index : Z) (setref : bool)
    : Z * pdf_context * option nat :=
  match get_obj c a with
  | None => (model_undefined_behaviour, c, None)
  | Some aob =>
      if negb (pdf_obj_type_eqb (type aob) PDF_ARRAY) then (gs_error_typecheck, c, None)
      else if index >=? size aob then (gs_error_rangecheck, c, None)
      else
        match values aob !! Z.to_nat index with
        | Some (Some p) =>
            match get_obj c p with
            | None => (model_undefined_behaviour, c, None)
            | Some pob =>
                if pdf_obj_type_eqb (type pob) PDF_INDIRECT then
                  let '(code, c1, o1) :=
                    pdfi_deref_loop_detect c (ref_object_num pob) (ref_generation_num pob) in
                  if code <? 0 then (code, c1, None)
                  else
                    match o1 with
                    | None => (model_undefined_behaviour, c1, None)
                    | Some q =>
                        if setref then
                          let '(code_put, c2) := pdfi_array_put c1 a index q in
                          if code_put =? model_undefined_behaviour
                          then (model_undefined_behaviour, c2, None)
                          else (0, c2, Some q)
                        else (0, c1, Some q)
                    end
                else (0, pdfi_countup p c, Some p)
            end
        | _ => (model_undefined_behaviour, c, None)
        end
  end.

Definition pdfi_array_get (c : pdf_context) (a : nat) (index : Z)
    : Z * pdf_context * option nat :=
  let '(code, c1, p) := pdfi_array_fetch c a index true in
  if code <? 0 then (code, c1, p) else (0, c1, p).

Definition pdfi_array_get_no_store_R (c : pdf_context) (a : nat) (index : Z)
    : Z * pdf_context * option nat :=
  let '(code, c1, p) := pdfi_array_fetch c a index false in
  if code <? 0 then (code, c1, p) else (0, c1, p).

Definition pdfi_array_get_type (c : pdf_context) (a : nat) (index : Z)
    (t : pdf_obj_type) : Z * pdf_context * option nat :=
  let '(code, c1, p) := pdfi_array_get c a index in
  if code <? 0 then (code, c1, p)
  else
    match p with
    | None => (model_undefined_behaviour, c1, None)
    | Some q =>
        match get_obj c1 q with
        | None => (model_undefined_behaviour, c1, None)
        | Some qob =>
            if negb (pdf_obj_type_eqb (type qob) t) then
              (gs_error_typecheck, pdfi_countdown q c1, None)
            else (0, c1, Some q)
        end
    end.

(** pdfi_array_get_int: the code and the value stored through [i]; the
    value is left as it was ([None]) on an error. *)
Definition pdfi_array_get_int (c : pdf_context) (a : nat) (index : Z)
    : Z * pdf_context * option Z :=
  let '(code, c1, n) := pdfi_array_get_type c a index PDF_INT in
  if code <? 0 then (code, c1, None)
  else
    match n with
    | None => (model_undefined_behaviour, c1, None)
    | Some q =>
        match get_obj c1 q with
        | None => (model_undefined_behaviour, c1, None)
        | Some qob => (0, pdfi_countdown q c1, Some (value_i qob))
        end
    end.

(** The loop of pdfi_array_known from [i] on, [n] slots left to visit; [i]
    is an [int], which cannot count past 2^31 - 1. *)
Fixpoint pdfi_array_known_loop (n : nat) (i : Z) (c : pdf_context) (a : nat)
    (obj_num : Z) : Z * option Z * pdf_context :=
  match n with
  | O => (0, None, c)
  | S n' =>
      if i >? 2 ^ 31 - 1 then (model_undefined_behaviour, None, c)
      else
        let '(code, c1, val) := pdfi_array_fetch c a i true in
        if (code =? model_undefined_behaviour) || (code =? model_out_of_fuel)
        then (code, None, c1)
        else if code <? 0 then pdfi_array_known_loop n' (i + 1) c1 a obj_num
        else
          match val with
          | None => (model_undefined_behaviour, None, c1)
          | Some v =>
              match get_obj c1 v with
              | None => (model_undefined_behaviour, None, c1)
              | Some vob =>
                  if object_num vob =? obj_num then (1, Some i, pdfi_countdown v c1)
                  else pdfi_array_known_loop n' (i + 1) (pdfi_countdown v c1) a obj_num
              end
          end
  end.

(** pdfi_array_known returns a [bool]: 0 is false, any other value true.
    The value stored through [index], if any, is the second component. *)
Definition pdfi_array_known (c : pdf_context) (a : nat) (obj : nat)
    : Z * option Z * pdf_context :=
  match get_obj c a, get_obj c obj with
  | Some aob, Some oob =>
      if negb (pdf_obj_type_eqb (type aob) PDF_ARRAY) then (gs_error_typecheck, None, c)
      else pdfi_array_known_loop (Z.to_nat (size aob)) 0 c a (object_num oob)
  | _, _ => (model_undefined_behaviour, None, c)
  end.

End ArrayAccess.

(** pdfi_array_put_int: [obj->value.i = val] precedes the test of the code
    of the allocation. *)
Definition pdfi_array_put_int (c : pdf_context) (a : nat) (index : Z) (val : Z)
    : Z * pdf_context :=
  match get_obj c a with
  | None => (model_undefined_behaviour, c)
  | Some aob =>
      if negb (pdf_obj_type_eqb (type aob) PDF_ARRAY) then (gs_error_typecheck, c)
      else
        let '(code, c1, p) := pdfi_alloc_object c PDF_INT 0 in
        match get_obj c1 p with
        | None => (model_undefined_behaviour, c1)
        | Some ob =>
            let c2 := put_obj p (set_value_i val ob) c1 in
            if code <? 0 then (code, c2)
            else pdfi_array_put c2 a index p
        end
  end.

(** * Auxiliary definitions for the further properties *)

(** ** Bytes *)

Definition is_byte (b : Z) : Prop := 0 <= b < 256.

(** The hexadecimal digit of a value below 16, in capitals and in small
    letters. *)
Definition hex_digit_upper (n : Z) : Z := if n <? 10 then 0x30 + n else 0x37 + n.

Definition hex_digit_lower (n : Z) : Z := if n <? 10 then 0x30 + n else 0x57 + n.

(** What is left of a list after its longest prefix of bytes that satisfy
    [f]. *)
Fixpoint drop_leading (f : Z -> bool) (l : list Z) : list Z :=
  match l with
  | b :: rest => if f b then drop_leading f rest else l
  | [] => []
  end.

(** The length of that prefix. *)
Fixpoint leading_run (f : Z -> bool) (l : list Z) : nat :=
  match l with
  | b :: rest => if f b then S (leading_run f rest) else O
  | [] => O
  end.

(** What a loop that reads the bytes satisfying [f] and one more leaves of
    [l], when it has counted [read] bytes before and pushes the last byte
    back unless its count, a uint32_t, is 0. *)
Definition skip_rest (f : Z -> bool) (read : Z) (l : list Z) : list Z :=
  if uint32_add read (Z.of_nat (leading_run f l) + 1) =? 0
  then tail (drop_leading f l)
  else drop_leading f l.

(** ** Numbers *)

(** The value of a run of decimal digits. *)
Definition decimal_value (ds : list Z) : Z :=
  fold_left (fun acc d => 10 * acc + (d - 0x30)) ds 0.

(** The byte, if any, that follows a token ends it properly: it is white
    space or a delimiter. *)
Definition ends_token (rest : list Z) : bool :=
  match rest with
  | b :: _ => iswhite b || isdelimiter b
  | [] => true
  end.

(** The sign of a number: nothing, + or -. *)
Definition is_sign_prefix (sign : list Z) : bool :=
  match sign with
  | [] => true
  | [b] => is_sign b
  | _ => false
  end.

Definition signed_value (sign ds : list Z) : Z :=
  match sign with
  | b :: _ => if b =? ch "-" then - decimal_value ds else decimal_value ds
  | [] => decimal_value ds
  end.

(** ** Floating-point numbers *)

Definition is_nan (x : spec_float) : bool :=
  match x with S754_nan => true | _ => false end.

(** ** Example contexts *)

(** A table of two entries and, at heap address 0, an object numbered 2. *)
Definition boundary_object : pdf_context :=
  numbered_null 2 (with_xref [zero_xref_entry; classic_entry 1 0] (new_context false [])).

(** ** Names as written in a file *)

(** A name is written as a sequence of regular bytes and of escapes: a
    number sign followed by two characters. *)
Inductive name_item : Type :=
  | NPlain (b : Z)
  | NEscape (h0 h1 : Z).

Definition regular_byte (b : Z) : bool :=
  negb (iswhite b) && negb (isdelimiter b).

Definition name_item_ok (it : name_item) : bool :=
  match it with
  | NPlain b => regular_byte b && negb (b =? ch "#")
  | NEscape h0 h1 => ishex h0 && ishex h1
  end.

Definition name_item_text (it : name_item) : list Z :=
  match it with
  | NPlain b => [b]
  | NEscape h0 h1 => [ch "#"; h0; h1]
  end.

Definition name_item_byte (it : name_item) : Z :=
  match it with
  | NPlain b => b
  | NEscape h0 h1 => 16 * fromhex h0 + fromhex h1
  end.

Definition name_text (items : list name_item) : list Z :=
  concat (map name_item_text items).

Definition name_bytes (items : list name_item) : list Z :=
  map name_item_byte items.

(** What may follow a number sign without making an escape: fewer than two
    bytes, or two bytes that are not both hexadecimal digits. *)
Definition bad_escape (tl : list Z) : bool :=
  match tl with
  | h0 :: h1 :: _ => negb (ishex h0 && ishex h1)
  | _ => true
  end.

(** The buffer of a token reader holds [out] in its first bytes and at most
    one byte more. *)
Definition buffer_inv (buf out : list Z) : Prop :=
  take (length out) buf = out /\ (length buf <= S (length out))%nat.

(** ** Hexadecimal strings as written in a file *)

(** A byte of a hexadecimal string: two digits, each of which may have
    white space in front of it. *)
Definition hex_item : Type := (list Z * Z * list Z * Z)%type.

Definition hex_item_ok (it : hex_item) : bool :=
  let '(w0, h0, w1, h1) := it in
  forallb iswhite w0 && ishex h0 && forallb iswhite w1 && ishex h1.

Definition hex_item_text (it : hex_item) : list Z :=
  let '(w0, h0, w1, h1) := it in w0 ++ h0 :: w1 ++ [h1].

Definition hex_item_byte (it : hex_item) : Z :=
  let '(_, h0, _, h1) := it in 16 * fromhex h0 + fromhex h1.

Definition hex_text (items : list hex_item) : list Z :=
  concat (map hex_item_text items).

Definition hex_bytes (items : list hex_item) : list Z :=
  map hex_item_byte items.

(** ** Literal strings as written in a file *)

(** A byte that a literal string takes as it is: a plain byte or a
    parenthesis. *)
Definition string_byte (b : Z) : bool :=
  plain_byte b || (b =? ch "(") || (b =? ch ")").

(** The parentheses of [body] match, [depth] of them being open at its
    start. *)
Fixpoint balanced (depth : nat) (body : list Z) : bool :=
  match body with
  | [] => Nat.eqb depth 0
  | b :: body' =>
      if b =? ch ")" then
        match depth with
        | O => false
        | S d => balanced d body'
        end
      else if b =? ch "(" then balanced (S depth) body'
      else balanced depth body'
  end.

(** The error flags after a string with the bytes [body] has been read. *)
Definition string_errors (body : list Z) (errors : Z) : Z :=
  if existsb (fun b => b =? ch "(") body
  then Z.lor errors E_PDF_UNESCAPEDSTRING else errors.




(** ** Keywords *)

(** The keywords that pdfi_read_keyword marks with a key. *)
Definition keyword_table : list (string * pdf_key) :=
  [("obj"%string, PDF_OBJ); ("endobj"%string, PDF_ENDOBJ);
   ("endstream"%string, PDF_ENDSTREAM); ("xref"%string, PDF_XREF);
   ("startxref"%string, PDF_STARTXREF); ("trailer"%string, PDF_TRAILER);
   ("KEYWORD_TOO_LONG"%string, PDF_INVALID_KEY)].

Definition keyword_key (kw : list Z) : pdf_key :=
  match find (fun e => bytes_eqb kw (bytes_of_string (fst e))) keyword_table with
  | Some e => snd e
  | None => PDF_NOT_A_KEYWORD
  end.

(** The keywords that pdfi_read_keyword replaces by an object or treats in a
    way of their own. *)
Definition object_keyword (kw : list Z) : bool :=
  existsb (fun s => bytes_eqb kw (bytes_of_string s))
    ["R"%string; "true"%string; "false"%string; "null"%string; "stream"%string].

(** The integers 12 and 0 read from a file, with the keyword [R] next. *)
Definition reference_context : pdf_context :=
  snd (pdfi_read_num MAIN_STREAM
         (snd (pdfi_read_num MAIN_STREAM (new_context false (bytes_of_string "12 0 R "))))).

(** The tokens of [[1 2] read up to the closing bracket: a mark and two
    integers on the stack. *)
Definition bracket_context : pdf_context :=
  snd (pdfi_read_token MAIN_STREAM
         (snd (pdfi_read_token MAIN_STREAM
                 (snd (pdfi_read_token MAIN_STREAM
                         (new_context false (bytes_of_string "[1 2]"))))))).

(** The array [[1 2] as the closing bracket leaves it: at heap address 3,
    holding the integers at the addresses 1 and 2. *)
Definition array_context : pdf_context := snd (pdfi_array_from_stack bracket_context).

(** The index of the first of the objects [ps] whose object number is
    [num], counted from [i]. *)
Fixpoint first_numbered (c : pdf_context) (num : Z) (i : Z) (ps : list nat)
    : option Z :=
  match ps with
  | [] => None
  | p :: ps' =>
      match get_obj c p with
      | Some ob =>
          if object_num ob =? num then Some i else first_numbered c num (i + 1) ps'
      | None => None
      end
  end.
(** * Properties *)

(** ** Streams *)

Lemma read_byte_stream_cons (st : pdf_stream) (b : Z) (bs : list Z) :
  0 <= s_pos st ->
  stream_rest st = b :: bs ->
  exists st', read_byte_stream st = (1, b, st') /\ stream_rest st' = bs
     /\ eof st' = eof st /\ 0 <= s_pos st'.
Proof.
  intros Hpos H. unfold read_byte_stream, stream_rest in *.
  destruct (unread_buffer st) as [|u us] eqn:Hu; simpl in *.
  - destruct (s_data st !! Z.to_nat (s_pos st)) as [x|] eqn:Hl.
    + rewrite (drop_S _ _ _ Hl) in H. inversion H; subst.
      eexists; split; [reflexivity|]. simpl.
      repeat split; try lia.
      replace (Z.to_nat (s_pos st + 1)) with (S (Z.to_nat (s_pos st))) by lia.
      reflexivity.
    + apply lookup_ge_None in Hl. rewrite drop_ge in H by lia. discriminate.
  - inversion H; subst. eexists; split; [reflexivity|]. simpl. auto.
Qed.

Lemma read_byte_stream_nil (st : pdf_stream) :
  stream_rest st = [] ->
  exists st', read_byte_stream st = (0, 0, st') /\ stream_rest st' = []
     /\ eof st' = true /\ s_pos st' = s_pos st.
Proof.
  intros H. unfold read_byte_stream, stream_rest in *.
  destruct (unread_buffer st) as [|u us] eqn:Hu; simpl in *; [|discriminate].
  destruct (s_data st !! Z.to_nat (s_pos st)) as [x|] eqn:Hl.
  - rewrite (drop_S _ _ _ Hl) in H. discriminate.
  - eexists; split; [reflexivity|]. simpl. auto.
Qed.

Lemma get_put_stream sel st c : get_stream sel (put_stream sel st c) = st.
Proof. destruct sel; reflexivity. Qed.

Lemma put_put_stream sel st st' c :
  put_stream sel st (put_stream sel st' c) = put_stream sel st c.
Proof. destruct sel; reflexivity. Qed.

Lemma put_get_stream sel c : put_stream sel (get_stream sel c) c = c.
Proof. destruct sel, c; reflexivity. Qed.


(** ** The store of objects *)

Lemma get_obj_set_heap_app c ob :
  get_obj (set_heap (heap c ++ [Some ob]) c) (length (heap c)) = Some ob.
Proof.
  unfold get_obj. cbn [heap set_heap].
  rewrite lookup_app_r by lia. rewrite Nat.sub_diag. reflexivity.
Qed.

Lemma get_obj_lt c p ob : get_obj c p = Some ob -> (p < length (heap c))%nat.
Proof.
  unfold get_obj. destruct (heap c !! p) as [[x|]|] eqn:E; try discriminate.
  intros _. eapply lookup_lt_Some; eauto.
Qed.

Lemma get_obj_put_obj_eq c p ob ob' :
  get_obj c p = Some ob -> get_obj (put_obj p ob' c) p = Some ob'.
Proof.
  intros H. apply get_obj_lt in H. unfold get_obj, put_obj. cbn [heap set_heap].
  rewrite list_lookup_insert_eq by exact H. reflexivity.
Qed.

Lemma get_obj_put_obj_ne c p q ob' :
  p <> q -> get_obj (put_obj p ob' c) q = get_obj c q.
Proof.
  intros H. unfold get_obj, put_obj. cbn [heap set_heap].
  rewrite list_lookup_insert_ne by exact H. reflexivity.
Qed.

Lemma pdfi_countup_get c p ob :
  get_obj c p = Some ob ->
  pdfi_countup p c = put_obj p (set_refcnt (refcnt ob + 1) ob) c.
Proof. intros H. unfold pdfi_countup. rewrite H. reflexivity. Qed.

(** What pdfi_alloc_object returns: a fresh cell at the end of the store. *)
Lemma pdfi_alloc_object_fresh c t sz :
  exists ob,
    pdfi_alloc_object c t sz = (0, set_heap (heap c ++ [Some ob]) c, length (heap c))
    /\ type ob = t /\ refcnt ob = 0 /\ object_num ob = 0 /\ generation_num ob = 0
    /\ value_i ob = 0.
Proof.
  unfold pdfi_alloc_object. eexists. split; [reflexivity|].
  destruct t; cbn; auto.
Qed.

(** Pushing an object that lives in the store. *)
Lemma pdfi_push_spec c p ob :
  get_obj c p = Some ob ->
  exists c',
    pdfi_push p c = (0, c')
    /\ stack c' = p :: stack c
    /\ get_obj c' p = Some (set_refcnt (refcnt ob + 1) ob)
    /\ main_stream c' = main_stream c
    /\ compressed_stream c' = compressed_stream c
    /\ pdf_errors c' = pdf_errors c.
Proof.
  intros H. unfold pdfi_push. eexists. split; [reflexivity|].
  rewrite (pdfi_countup_get _ _ _ H).
  cbn [stack set_stack]. split; [reflexivity|].
  split; [|auto].
  unfold get_obj. cbn [heap set_stack put_obj set_heap].
  rewrite list_lookup_insert_eq by (eapply get_obj_lt; eauto). reflexivity.
Qed.

(** ** Literal strings: the escapes *)

Lemma buf_store_inv (buf out : list Z) (b : Z) :
  take (length out) buf = out ->
  (length buf <= S (length out))%nat ->
  take (length out) (buf_store buf (Z.of_nat (length out)) b) = out
  /\ take (S (length out)) (buf_store buf (Z.of_nat (length out)) b) = out ++ [b]
  /\ length (buf_store buf (Z.of_nat (length out)) b) = S (length out).
Proof.
  intros Ht Hl. unfold buf_store. rewrite Nat2Z.id.
  assert (Hle : (length out <= length buf)%nat).
  { rewrite <- Ht at 1. rewrite length_take. lia. }
  destruct (Nat.ltb_spec (length out) (length buf)) as [Hlt|Hge].
  - assert (Hlen : length buf = S (length out)) by lia.
    rewrite length_insert. split; [|split]; [| |lia].
    + rewrite take_insert_ge by lia. exact Ht.
    + rewrite take_ge by (rewrite length_insert; lia).
      rewrite <- (take_drop (length out) buf) at 1.
      rewrite Ht.
      rewrite insert_app_r_alt by lia.
      rewrite Nat.sub_diag.
      destruct (drop (length out) buf) as [|x [|y r]] eqn:Hd.
      * apply (f_equal length) in Hd. rewrite length_drop in Hd. simpl in Hd. lia.
      * reflexivity.
      * apply (f_equal length) in Hd. rewrite length_drop in Hd. simpl in Hd. lia.
  - assert (Hlen : length buf = length out) by lia.
    replace (length out - length buf)%nat with O by lia. simpl.
    rewrite take_ge in Ht by lia. subst buf.
    split; [|split].
    + rewrite take_app_le by lia. apply take_ge. lia.
    + rewrite take_ge; [reflexivity|]. rewrite length_app. simpl. lia.
    + rewrite length_app. simpl. lia.
Qed.

Lemma pdfi_read_byte_cons sel c b bs :
  0 <= s_pos (get_stream sel c) ->
  stream_rest (get_stream sel c) = b :: bs ->
  exists stm, pdfi_read_byte sel c = (1, b, put_stream sel stm c)
    /\ stream_rest stm = bs /\ eof stm = eof (get_stream sel c) /\ 0 <= s_pos stm.
Proof.
  intros Hp H. destruct (read_byte_stream_cons _ _ _ Hp H) as (stm & Hr & H1 & H2 & H3).
  exists stm. unfold pdfi_read_byte. rewrite Hr. auto.
Qed.

Lemma plain_byte_facts b :
  plain_byte b = true ->
  is_eol b = false /\ (b =? 41) = false /\ (b =? 92) = false /\ (b =? 40) = false
  /\ to_byte b = b.
Proof.
  unfold plain_byte. rewrite !andb_true_iff, !negb_true_iff.
  intros [[[[[H0 H1] H2] H3] H4] H5].
  repeat split; try assumption.
  unfold to_byte. apply Z.mod_small. lia.
Qed.

Lemma ushort_incr_small (n : nat) :
  Z.of_nat n < 65535 -> ushort_incr (Z.of_nat n) = Z.of_nat (S n).
Proof. intros H. unfold ushort_incr. rewrite Z.mod_small; lia. Qed.

Lemma string_inv_store st out v :
  string_inv st out -> 0 <= v < 256 ->
  string_inv (rs_store v st) out
  /\ take (S (length out)) (rs_Buffer (rs_store v st)) = out ++ [v]
  /\ length (rs_Buffer (rs_store v st)) = S (length out).
Proof.
  intros (Hi & Ht & Hl) Hv. unfold rs_store, string_inv; simpl.
  rewrite Hi. unfold to_byte. rewrite (Z.mod_small v) by lia.
  destruct (buf_store_inv (rs_Buffer st) out v Ht Hl) as (A & B & C).
  repeat split; auto. lia.
Qed.

Lemma string_inv_advance st out v :
  string_inv st out ->
  take (S (length out)) (rs_Buffer st) = out ++ [v] ->
  (length (rs_Buffer st) <= S (length out))%nat ->
  Z.of_nat (length out) < 65535 ->
  string_inv (rs_advance st) (out ++ [v]).
Proof.
  intros (Hi & Ht & Hl) H1 H2 H3. unfold rs_advance, string_inv; simpl.
  rewrite Hi, length_app. simpl. rewrite ushort_incr_small by lia.
  replace (length out + 1)%nat with (S (length out)) by lia.
  repeat split; auto; lia.
Qed.

(** Projections of the updated loop state. *)
Lemma rs_Buffer_set_flags e k st : rs_Buffer (rs_set_flags e k st) = rs_Buffer st.
Proof. reflexivity. Qed.

Lemma rs_Buffer_set_nesting n st : rs_Buffer (rs_set_nesting n st) = rs_Buffer st.
Proof. reflexivity. Qed.

Lemma rs_Buffer_advance st : rs_Buffer (rs_advance st) = rs_Buffer st.
Proof. reflexivity. Qed.

Lemma rs_index_store v st : rs_index (rs_store v st) = rs_index st.
Proof. reflexivity. Qed.

Lemma rs_index_set_flags e k st : rs_index (rs_set_flags e k st) = rs_index st.
Proof. reflexivity. Qed.

Lemma rs_index_set_nesting n st : rs_index (rs_set_nesting n st) = rs_index st.
Proof. reflexivity. Qed.

Lemma rs_index_advance st : rs_index (rs_advance st) = ushort_incr (rs_index st).
Proof. reflexivity. Qed.

Lemma rs_octal0_store v st : rs_octal0 (rs_store v st) = rs_octal0 st.
Proof. reflexivity. Qed.

Lemma rs_octal0_set_flags e k st : rs_octal0 (rs_set_flags e k st) = rs_octal0 st.
Proof. reflexivity. Qed.

Lemma rs_octal0_set_nesting n st : rs_octal0 (rs_set_nesting n st) = rs_octal0 st.
Proof. reflexivity. Qed.

Lemma rs_octal0_advance st : rs_octal0 (rs_advance st) = rs_octal0 st.
Proof. reflexivity. Qed.

Lemma rs_octal1_store v st : rs_octal1 (rs_store v st) = rs_octal1 st.
Proof. reflexivity. Qed.

Lemma rs_octal1_set_flags e k st : rs_octal1 (rs_set_flags e k st) = rs_octal1 st.
Proof. reflexivity. Qed.

Lemma rs_octal1_set_nesting n st : rs_octal1 (rs_set_nesting n st) = rs_octal1 st.
Proof. reflexivity. Qed.

Lemma rs_octal1_advance st : rs_octal1 (rs_advance st) = rs_octal1 st.
Proof. reflexivity. Qed.

Lemma rs_octal2_store v st : rs_octal2 (rs_store v st) = rs_octal2 st.
Proof. reflexivity. Qed.

Lemma rs_octal2_set_flags e k st : rs_octal2 (rs_set_flags e k st) = rs_octal2 st.
Proof. reflexivity. Qed.

Lemma rs_octal2_set_nesting n st : rs_octal2 (rs_set_nesting n st) = rs_octal2 st.
Proof. reflexivity. Qed.

Lemma rs_octal2_advance st : rs_octal2 (rs_advance st) = rs_octal2 st.
Proof. reflexivity. Qed.

Lemma rs_octal_index_store v st : rs_octal_index (rs_store v st) = rs_octal_index st.
Proof. reflexivity. Qed.

Lemma rs_octal_index_set_flags e k st : rs_octal_index (rs_set_flags e k st) = rs_octal_index st.
Proof. reflexivity. Qed.

Lemma rs_octal_index_set_nesting n st : rs_octal_index (rs_set_nesting n st) = rs_octal_index st.
Proof. reflexivity. Qed.

Lemma rs_octal_index_advance st : rs_octal_index (rs_advance st) = rs_octal_index st.
Proof. reflexivity. Qed.

Lemma rs_nesting_store v st : rs_nesting (rs_store v st) = rs_nesting st.
Proof. reflexivity. Qed.

Lemma rs_nesting_set_flags e k st : rs_nesting (rs_set_flags e k st) = rs_nesting st.
Proof. reflexivity. Qed.

Lemma rs_nesting_set_nesting n st : rs_nesting (rs_set_nesting n st) = n.
Proof. reflexivity. Qed.

Lemma rs_nesting_advance st : rs_nesting (rs_advance st) = rs_nesting st.
Proof. reflexivity. Qed.

Lemma rs_escape_store v st : rs_escape (rs_store v st) = rs_escape st.
Proof. reflexivity. Qed.

Lemma rs_escape_set_flags e k st : rs_escape (rs_set_flags e k st) = e.
Proof. reflexivity. Qed.

Lemma rs_escape_set_nesting n st : rs_escape (rs_set_nesting n st) = rs_escape st.
Proof. reflexivity. Qed.

Lemma rs_escape_advance st : rs_escape (rs_advance st) = rs_escape st.
Proof. reflexivity. Qed.

Lemma rs_skip_eol_store v st : rs_skip_eol (rs_store v st) = rs_skip_eol st.
Proof. reflexivity. Qed.

Lemma rs_skip_eol_set_flags e k st : rs_skip_eol (rs_set_flags e k st) = k.
Proof. reflexivity. Qed.

Lemma rs_skip_eol_set_nesting n st : rs_skip_eol (rs_set_nesting n st) = rs_skip_eol st.
Proof. reflexivity. Qed.

Lemma rs_skip_eol_advance st : rs_skip_eol (rs_advance st) = rs_skip_eol st.
Proof. reflexivity. Qed.

Create Rewrite HintDb rs.
#[local] Hint Rewrite rs_Buffer_set_flags rs_Buffer_set_nesting rs_Buffer_advance rs_index_store rs_index_set_flags rs_index_set_nesting rs_index_advance rs_octal0_store rs_octal0_set_flags rs_octal0_set_nesting rs_octal0_advance rs_octal1_store rs_octal1_set_flags rs_octal1_set_nesting rs_octal1_advance rs_octal2_store rs_octal2_set_flags rs_octal2_set_nesting rs_octal2_advance rs_octal_index_store rs_octal_index_set_flags rs_octal_index_set_nesting rs_octal_index_advance rs_nesting_store rs_nesting_set_flags rs_nesting_set_nesting rs_nesting_advance rs_escape_store rs_escape_set_flags rs_escape_set_nesting rs_escape_advance rs_skip_eol_store rs_skip_eol_set_flags rs_skip_eol_set_nesting rs_skip_eol_advance : rs.

(** A plain byte is copied. *)
Lemma string_body_plain sel c st out b bs :
  0 <= s_pos (get_stream sel c) ->
  stream_rest (get_stream sel c) = b :: bs ->
  plain_byte b = true ->
  string_inv st out -> rs_escape st = false -> rs_octal_index st = 0 ->
  Z.of_nat (length out) < 65535 ->
  exists st' stm,
    pdfi_read_string_body sel c st = (Continue st', put_stream sel stm c)
    /\ stream_rest stm = bs /\ 0 <= s_pos stm
    /\ string_inv st' (out ++ [b])
    /\ rs_escape st' = false /\ rs_skip_eol st' = false
    /\ rs_octal_index st' = 0 /\ rs_nesting st' = rs_nesting st.
Proof.
  intros Hp Hr Hpl Hinv Hesc Hoct Hlen.
  destruct (pdfi_read_byte_cons _ _ _ _ Hp Hr) as (stm & Hrb & Hrest & Heof & Hpos).
  destruct (plain_byte_facts _ Hpl) as (He & H41 & H92 & H40 & Hb).
  assert (Hrange : 0 <= b < 256).
  { unfold plain_byte in Hpl. rewrite !andb_true_iff in Hpl. lia. }
  destruct (string_inv_store st out b Hinv Hrange) as (Hi1 & Ht1 & Hl1).
  unfold pdfi_read_string_body. rewrite Hrb.
  cbn [Z.eqb Z.leb Z.compare andb].
  rewrite He, andb_false_r.
  autorewrite with rs. rewrite Hesc, Hoct.
  change (ch ")") with 41. change (ch "\") with 92. change (ch "(") with 40.
  rewrite H41, H92, H40. cbn [Z.eqb negb].
  eexists _, stm. split; [reflexivity|].
  split; [exact Hrest|]. split; [exact Hpos|].
  split; [|autorewrite with rs; auto].
  apply string_inv_advance.
  - exact Hi1.
  - exact Ht1.
  - cbn [rs_set_flags rs_Buffer]. rewrite Hl1. lia.
  - exact Hlen.
Qed.

Lemma string_inv_set_flags st out e k :
  string_inv st out -> string_inv (rs_set_flags e k st) out.
Proof. intros H. exact H. Qed.

Ltac string_step Hp Hr :=
  let stm := fresh "stm" in
  destruct (pdfi_read_byte_cons _ _ _ _ Hp Hr) as (stm & Hrb & Hrest & Heof & Hpos);
  unfold pdfi_read_string_body; rewrite Hrb;
  cbn [Z.eqb Z.leb Z.compare andb].

(** A backslash arms the escape and produces nothing. *)
Lemma string_body_backslash sel c st out bs :
  0 <= s_pos (get_stream sel c) ->
  stream_rest (get_stream sel c) = 92 :: bs ->
  string_inv st out -> rs_escape st = false -> rs_octal_index st = 0 ->
  exists st' stm,
    pdfi_read_string_body sel c st = (Continue st', put_stream sel stm c)
    /\ stream_rest stm = bs /\ 0 <= s_pos stm
    /\ string_inv st' out
    /\ rs_escape st' = true /\ rs_skip_eol st' = false
    /\ rs_octal_index st' = 0 /\ rs_nesting st' = rs_nesting st.
Proof.
  intros Hp Hr Hinv Hesc Hoct.
  string_step Hp Hr.
  destruct (string_inv_store st out 92 Hinv ltac:(lia)) as (Hi1 & Ht1 & Hl1).
  change (is_eol 92) with false. rewrite andb_false_r.
  autorewrite with rs. rewrite Hesc.
  change (ch ")") with 41. change (ch "\") with 92. change (ch "(") with 40.
  cbn [Z.eqb Pos.eqb].
  eexists _, stm. split; [reflexivity|].
  split; [exact Hrest|]. split; [exact Hpos|].
  split; [exact Hi1|autorewrite with rs; auto].
Qed.

(** After a backslash, each of n, r, t, b, f stores its byte. *)
Lemma string_body_escape sel c st out b v bs :
  0 <= s_pos (get_stream sel c) ->
  stream_rest (get_stream sel c) = b :: bs ->
  escape_byte b = Some v ->
  string_inv st out -> rs_escape st = true -> rs_octal_index st = 0 ->
  Z.of_nat (length out) < 65535 ->
  exists st' stm,
    pdfi_read_string_body sel c st = (Continue st', put_stream sel stm c)
    /\ stream_rest stm = bs /\ 0 <= s_pos stm
    /\ string_inv st' (out ++ [v])
    /\ rs_escape st' = false /\ rs_skip_eol st' = false
    /\ rs_octal_index st' = 0 /\ rs_nesting st' = rs_nesting st.
Proof.
  intros Hp Hr Hv Hinv Hesc Hoct Hlen.
  string_step Hp Hr.
  assert (Hcases : (b = 110 /\ v = 10) \/ (b = 114 /\ v = 10) \/ (b = 116 /\ v = 9)
                   \/ (b = 98 /\ v = 7) \/ (b = 102 /\ v = 12)).
  { unfold escape_byte in Hv.
    change (ch "n") with 110 in Hv. change (ch "r") with 114 in Hv.
    change (ch "t") with 116 in Hv. change (ch "b") with 98 in Hv.
    change (ch "f") with 102 in Hv.
    repeat match type of Hv with
           | (if ?x =? ?y then _ else _) = _ =>
               destruct (Z.eqb_spec x y); [inversion Hv; subst; tauto|]
           end.
    discriminate. }
  assert (Hb : 0 <= b < 256) by lia.
  assert (Hvr : 0 <= v < 256) by lia.
  destruct (string_inv_store st out b Hinv Hb) as (Hi1 & Ht1 & Hl1).
  destruct (string_inv_store _ out v
              (string_inv_set_flags _ _ false false Hi1) Hvr) as (Hi2 & Ht2 & Hl2).
  assert (Hgoal : exists st',
    (Continue (rs_advance (rs_store v (rs_set_flags false false (rs_store b st)))),
     put_stream sel stm c) = (Continue st', put_stream sel stm c)
    /\ string_inv st' (out ++ [v])
    /\ rs_escape st' = false /\ rs_skip_eol st' = false
    /\ rs_octal_index st' = 0 /\ rs_nesting st' = rs_nesting st).
  { eexists. split; [reflexivity|]. split.
    - apply string_inv_advance; auto. rewrite Hl2. lia.
    - autorewrite with rs. auto. }
  destruct Hgoal as (st' & Heq & Hrest').
  exists st', stm. split; [|tauto].
  rewrite <- Heq.
  assert (He : is_eol b = false).
  { destruct Hcases as [[-> _]|[[-> _]|[[-> _]|[[-> _]|[-> _]]]]]; reflexivity. }
  rewrite He, andb_false_r.
  autorewrite with rs. rewrite Hesc, Hoct.
  change (ch "n") with 110. change (ch "r") with 114.
  change (ch "t") with 116. change (ch "b") with 98. change (ch "f") with 102.
  destruct Hcases as [[-> ->]|[[-> ->]|[[-> ->]|[[-> ->]|[-> ->]]]]]; reflexivity.
Qed.

(** After a backslash, an end of line produces nothing and starts the
    skipping of ends of line. *)
Lemma string_body_escape_eol sel c st out b bs :
  0 <= s_pos (get_stream sel c) ->
  stream_rest (get_stream sel c) = b :: bs ->
  is_eol b = true ->
  string_inv st out -> rs_escape st = true -> rs_skip_eol st = false ->
  exists st' stm,
    pdfi_read_string_body sel c st = (Continue st', put_stream sel stm c)
    /\ stream_rest stm = bs /\ 0 <= s_pos stm
    /\ string_inv st' out
    /\ rs_escape st' = false /\ rs_skip_eol st' = true
    /\ rs_octal_index st' = rs_octal_index st /\ rs_nesting st' = rs_nesting st.
Proof.
  intros Hp Hr He Hinv Hesc Hskip.
  string_step Hp Hr.
  assert (Hb : 0 <= b < 256).
  { unfold is_eol in He. apply orb_true_iff in He. destruct He as [E|E];
      apply Z.eqb_eq in E; lia. }
  destruct (string_inv_store st out b Hinv Hb) as (Hi1 & Ht1 & Hl1).
  autorewrite with rs. rewrite Hskip, Hesc, He. cbn [andb].
  eexists _, stm. split; [reflexivity|].
  split; [exact Hrest|]. split; [exact Hpos|].
  split; [exact Hi1|autorewrite with rs; auto].
Qed.

(** While ends of line are skipped, an end of line produces nothing. *)
Lemma string_body_skip_eol sel c st out b bs :
  0 <= s_pos (get_stream sel c) ->
  stream_rest (get_stream sel c) = b :: bs ->
  is_eol b = true ->
  string_inv st out -> rs_skip_eol st = true ->
  exists st' stm,
    pdfi_read_string_body sel c st = (Continue st', put_stream sel stm c)
    /\ stream_rest stm = bs /\ 0 <= s_pos stm
    /\ string_inv st' out
    /\ rs_escape st' = rs_escape st /\ rs_skip_eol st' = true
    /\ rs_octal_index st' = rs_octal_index st /\ rs_nesting st' = rs_nesting st.
Proof.
  intros Hp Hr He Hinv Hskip.
  string_step Hp Hr.
  assert (Hb : 0 <= b < 256).
  { unfold is_eol in He. apply orb_true_iff in He. destruct He as [E|E];
      apply Z.eqb_eq in E; lia. }
  destruct (string_inv_store st out b Hinv Hb) as (Hi1 & Ht1 & Hl1).
  autorewrite with rs. rewrite Hskip, He. cbn [andb].
  eexists _, stm. split; [reflexivity|].
  split; [exact Hrest|]. split; [exact Hpos|].
  split; [exact Hi1|autorewrite with rs; auto].
Qed.

(** The closing parenthesis ends the loop. *)
Lemma string_body_close sel c st out bs :
  0 <= s_pos (get_stream sel c) ->
  stream_rest (get_stream sel c) = 41 :: bs ->
  string_inv st out -> rs_escape st = false -> rs_octal_index st = 0 ->
  rs_nesting st = 0 ->
  exists st' stm,
    pdfi_read_string_body sel c st = (Break st', put_stream sel stm c)
    /\ stream_rest stm = bs /\ 0 <= s_pos stm
    /\ string_inv st' out.
Proof.
  intros Hp Hr Hinv Hesc Hoct Hnest.
  string_step Hp Hr.
  destruct (string_inv_store st out 41 Hinv ltac:(lia)) as (Hi1 & Ht1 & Hl1).
  destruct (string_inv_store _ out 0
              (string_inv_set_flags _ _ false false Hi1) ltac:(lia)) as (Hi2 & Ht2 & Hl2).
  change (is_eol 41) with false. rewrite andb_false_r.
  autorewrite with rs. rewrite Hesc, Hoct, Hnest.
  change (ch ")") with 41.
  cbn [Z.eqb Pos.eqb negb].
  eexists _, stm. split; [reflexivity|].
  split; [exact Hrest|]. split; [exact Hpos|]. exact Hi2.
Qed.

Lemma string_loop_continue fuel sel c st st' c' :
  pdfi_read_string_body sel c st = (Continue st', c') ->
  pdfi_read_string_loop (S fuel) sel c st = pdfi_read_string_loop fuel sel c' st'.
Proof. intros H. cbn [pdfi_read_string_loop]. rewrite H. reflexivity. Qed.

Lemma string_loop_break fuel sel c st st' c' :
  pdfi_read_string_body sel c st = (Break st', c') ->
  pdfi_read_string_loop (S fuel) sel c st = (0, c', st').
Proof. intros H. cbn [pdfi_read_string_loop]. rewrite H. reflexivity. Qed.

(** A run of plain bytes is copied to the output. *)
Lemma string_loop_plain sel c0 fuel pre :
  forall stm st out bs,
    0 <= s_pos stm ->
    stream_rest stm = pre ++ bs ->
    forallb plain_byte pre = true ->
    string_inv st out -> rs_escape st = false -> rs_octal_index st = 0 ->
    Z.of_nat (length out) + Z.of_nat (length pre) < 65536 ->
    exists st' stm',
      pdfi_read_string_loop (length pre + fuel) sel (put_stream sel stm c0) st
      = pdfi_read_string_loop fuel sel (put_stream sel stm' c0) st'
      /\ stream_rest stm' = bs /\ 0 <= s_pos stm'
      /\ string_inv st' (out ++ pre)
      /\ rs_escape st' = false /\ rs_octal_index st' = 0
      /\ rs_nesting st' = rs_nesting st.
Proof.
  induction pre as [|b pre IH]; intros stm st out bs Hp Hr Hpl Hinv Hesc Hoct Hlen.
  - exists st, stm. rewrite app_nil_r. simpl in Hr. auto 10.
  - simpl in Hpl. apply andb_true_iff in Hpl. destruct Hpl as [Hb Hpl].
    simpl in Hr, Hlen.
    destruct (string_body_plain sel (put_stream sel stm c0) st out b (pre ++ bs))
      as (st1 & stm1 & Hbody & Hr1 & Hp1 & Hi1 & He1 & Hs1 & Ho1 & Hn1);
      rewrite ?get_put_stream; auto; try lia.
    rewrite put_put_stream in Hbody.
    destruct (IH stm1 st1 (out ++ [b]) bs) as (st2 & stm2 & Hloop & Hr2 & Hp2 & Hi2 & He2 & Ho2 & Hn2);
      auto.
    { rewrite length_app. simpl. lia. }
    exists st2, stm2. split.
    + cbn [length Nat.add]. rewrite (string_loop_continue _ _ _ _ _ _ Hbody). exact Hloop.
    + rewrite <- app_assoc in Hi2. simpl in Hi2. rewrite Hn2, Hn1. auto 10.
Qed.

(** While ends of line are skipped, a run of ends of line produces nothing. *)
Lemma string_loop_skip_eols sel c0 fuel eols :
  forall stm st out bs,
    0 <= s_pos stm ->
    stream_rest stm = eols ++ bs ->
    forallb is_eol eols = true ->
    string_inv st out -> rs_skip_eol st = true ->
    exists st' stm',
      pdfi_read_string_loop (length eols + fuel) sel (put_stream sel stm c0) st
      = pdfi_read_string_loop fuel sel (put_stream sel stm' c0) st'
      /\ stream_rest stm' = bs /\ 0 <= s_pos stm'
      /\ string_inv st' out
      /\ rs_escape st' = rs_escape st /\ rs_octal_index st' = rs_octal_index st
      /\ rs_nesting st' = rs_nesting st.
Proof.
  induction eols as [|b eols IH]; intros stm st out bs Hp Hr He Hinv Hskip.
  - exists st, stm. simpl in Hr. auto 10.
  - simpl in He. apply andb_true_iff in He. destruct He as [Hb He].
    simpl in Hr.
    destruct (string_body_skip_eol sel (put_stream sel stm c0) st out b (eols ++ bs))
      as (st1 & stm1 & Hbody & Hr1 & Hp1 & Hi1 & He1 & Hs1 & Ho1 & Hn1);
      rewrite ?get_put_stream; auto.
    rewrite put_put_stream in Hbody.
    destruct (IH stm1 st1 out bs) as (st2 & stm2 & Hloop & Hr2 & Hp2 & Hi2 & He2 & Ho2 & Hn2);
      auto.
    exists st2, stm2. split.
    + cbn [length Nat.add]. rewrite (string_loop_continue _ _ _ _ _ _ Hbody). exact Hloop.
    + rewrite He2, Ho2, Hn2, He1, Ho1, Hn1. auto 10.
Qed.

(** The tail of pdfi_read_string: the string object is created from the
    first [index] bytes of [Buffer] and pushed. *)
Lemma string_object_pushed c index (Buffer : list Z) :
  exists c' ob,
    (let '(code, c2, str) := pdfi_alloc_object c PDF_STRING index in
     if code <? 0 then (code, c2)
     else
       match get_obj c2 str with
       | None => (model_undefined_behaviour, c2)
       | Some ob =>
           let c3 := put_obj str (set_data (take (Z.to_nat index) Buffer) ob) c2 in
           let '(code, c4) := pdfi_push str c3 in
           if code <? 0 then (code, pdfi_free_object str c4) else (code, c4)
       end) = (0, c')
    /\ stack c' = length (heap c) :: stack c
    /\ get_obj c' (length (heap c)) = Some ob
    /\ type ob = PDF_STRING /\ refcnt ob = 1
    /\ data ob = take (Z.to_nat index) Buffer
    /\ main_stream c' = main_stream c
    /\ compressed_stream c' = compressed_stream c
    /\ pdf_errors c' = pdf_errors c.
Proof.
  destruct (pdfi_alloc_object_fresh c PDF_STRING index) as (ob0 & Ha & Ht & Hrc & _).
  rewrite Ha. cbn [Z.ltb Z.compare].
  rewrite get_obj_set_heap_app.
  set (c2 := set_heap (heap c ++ [Some ob0]) c).
  set (ob1 := set_data _ ob0).
  destruct (pdfi_push_spec (put_obj (length (heap c)) ob1 c2) (length (heap c)) ob1)
    as (c4 & Hpush & Hst & Hg & Hm & Hc & He).
  { eapply get_obj_put_obj_eq. apply get_obj_set_heap_app. }
  cbv zeta. rewrite Hpush. cbn [Z.ltb Z.compare].
  exists c4, (set_refcnt (refcnt ob1 + 1) ob1).
  split; [reflexivity|]. split; [exact Hst|]. split; [exact Hg|].
  subst ob1. cbn. rewrite Ht, Hrc. auto 10.
Qed.

Lemma get_stream_eq sel c c' :
  main_stream c' = main_stream c -> compressed_stream c' = compressed_stream c ->
  get_stream sel c' = get_stream sel c.
Proof. intros A B. destruct sel; simpl; auto. Qed.

Lemma stack_put_stream sel stm c : stack (put_stream sel stm c) = stack c.
Proof. destruct sel; reflexivity. Qed.

Lemma heap_put_stream sel stm c : heap (put_stream sel stm c) = heap c.
Proof. destruct sel; reflexivity. Qed.

(** The end of pdfi_read_string once its loop has left [out] in the buffer. *)
Lemma pdfi_read_string_finish sel c stm st out :
  pdfi_read_string_loop (3 * stream_fuel sel c) sel c string_state0
    = (0, put_stream sel stm c, st) ->
  string_inv st out ->
  exists c' p ob,
    pdfi_read_string sel c = (0, c') /\ stack c' = p :: stack c
    /\ get_obj c' p = Some ob /\ type ob = PDF_STRING /\ refcnt ob = 1
    /\ data ob = out /\ get_stream sel c' = stm.
Proof.
  intros Hloop (Hi & Ht & Hl).
  destruct (string_object_pushed (put_stream sel stm c) (rs_index st) (rs_Buffer st))
    as (c' & ob & Heq & Hst & Hg & Hty & Hrc & Hd & Hm & Hcs & He).
  exists c', (length (heap (put_stream sel stm c))), ob.
  split; [unfold pdfi_read_string; cbv zeta; rewrite Hloop; exact Heq|].
  rewrite stack_put_stream in Hst.
  split; [exact Hst|]. split; [exact Hg|]. split; [exact Hty|]. split; [exact Hrc|].
  split.
  - rewrite Hd, Hi, Nat2Z.id. exact Ht.
  - rewrite (get_stream_eq sel (put_stream sel stm c) c' Hm Hcs). apply get_put_stream.
Qed.

Lemma string_inv0 : string_inv string_state0 [].
Proof. unfold string_inv. simpl. repeat split; auto. Qed.

(** C10.  In pdfi_read_string, after any run [pre] of plain bytes, the
    escapes \n, \r, \t, \b and \f store the bytes 0x0A, 0x0A, 0x09, 0x07 and
    0x0C (so \r gives the byte of \n and \b gives BEL), and a backslash
    followed by an end of line (and the ends of line after it) stores
    nothing: the string read from [pre \ b )] is [pre] followed by that one
    byte, the string read from [pre \ eol ... post )] is [pre post]. *)
Theorem pdfi_read_string_escape_bytes (sel : stream_sel) (c : pdf_context)
    (pre rest : list Z) :
  0 <= s_pos (get_stream sel c) ->
  forallb plain_byte pre = true ->
  Z.of_nat (length pre) < 65535 ->
  (forall b v,
      In (b, v) [(ch "n", 0x0A); (ch "r", 0x0A); (ch "t", 0x09);
                 (ch "b", 0x07); (ch "f", 0x0C)] ->
      stream_rest (get_stream sel c) = pre ++ ch "\" :: b :: ch ")" :: rest ->
      exists c' p ob,
        pdfi_read_string sel c = (0, c') /\ stack c' = p :: stack c
        /\ get_obj c' p = Some ob /\ type ob = PDF_STRING
        /\ data ob = pre ++ [v]
        /\ stream_rest (get_stream sel c') = rest)
  /\ (forall e eols post,
      is_eol e = true -> forallb is_eol eols = true ->
      forallb plain_byte post = true ->
      Z.of_nat (length pre) + Z.of_nat (length post) < 65536 ->
      stream_rest (get_stream sel c)
        = pre ++ ch "\" :: e :: eols ++ post ++ ch ")" :: rest ->
      exists c' p ob,
        pdfi_read_string sel c = (0, c') /\ stack c' = p :: stack c
        /\ get_obj c' p = Some ob /\ type ob = PDF_STRING
        /\ data ob = pre ++ post
        /\ stream_rest (get_stream sel c') = rest).
Proof.
  intros Hp Hpre Hlen. change (ch "\") with 92. change (ch ")") with 41.
  split.
  - intros b v Hin Hr.
    assert (Hv : escape_byte b = Some v).
    { simpl in Hin.
      repeat (destruct Hin as [Hin|Hin]; [inversion Hin; subst; reflexivity|]).
      contradiction. }
    assert (Hfuel : exists k,
      (3 * stream_fuel sel c = length pre + S (S (S k)))%nat).
    { unfold stream_fuel. rewrite Hr, length_app. simpl.
      exists (3 * S (S (length pre + S (S (S (length rest))))) - length pre - 3)%nat. lia. }
    destruct Hfuel as [k Hfuel].
    destruct (string_loop_plain sel c (S (S (S k))) pre (get_stream sel c) string_state0 []
                (92 :: b :: 41 :: rest))
      as (st1 & stm1 & Hl1 & Hr1 & Hp1 & Hi1 & He1 & Ho1 & Hn1);
      auto using string_inv0; [simpl; lia|].
    rewrite put_get_stream in Hl1. simpl in Hi1.
    destruct (string_body_backslash sel (put_stream sel stm1 c) st1 pre (b :: 41 :: rest))
      as (st2 & stm2 & Hb2 & Hr2 & Hp2 & Hi2 & He2 & Hs2 & Ho2 & Hn2);
      rewrite ?get_put_stream; auto.
    rewrite put_put_stream in Hb2.
    destruct (string_body_escape sel (put_stream sel stm2 c) st2 pre b v (41 :: rest))
      as (st3 & stm3 & Hb3 & Hr3 & Hp3 & Hi3 & He3 & Hs3 & Ho3 & Hn3);
      rewrite ?get_put_stream; auto.
    rewrite put_put_stream in Hb3.
    destruct (string_body_close sel (put_stream sel stm3 c) st3 (pre ++ [v]) rest)
      as (st4 & stm4 & Hb4 & Hr4 & Hp4 & Hi4);
      rewrite ?get_put_stream; auto.
    { rewrite Hn3, Hn2, Hn1. reflexivity. }
    rewrite put_put_stream in Hb4.
    destruct (pdfi_read_string_finish sel c stm4 st4 (pre ++ [v]))
      as (c' & p & ob & H1 & H2 & H3 & H4 & H5 & H6 & H7); auto.
    { rewrite Hfuel, Hl1.
      rewrite (string_loop_continue _ _ _ _ _ _ Hb2).
      rewrite (string_loop_continue _ _ _ _ _ _ Hb3).
      apply (string_loop_break _ _ _ _ _ _ Hb4). }
    exists c', p, ob. rewrite H7. auto 10.
  - intros e eols post He Heols Hpost Hlen2 Hr.
    assert (Hfuel : exists k,
      (3 * stream_fuel sel c
       = length pre + S (S (length eols + (length post + S k))))%nat).
    { unfold stream_fuel. rewrite Hr. rewrite !length_app. simpl.
      rewrite !length_app. simpl.
      eexists (3 * S (S (length pre + S (S (length eols + (length post + S (length rest))))))
               - length pre - length eols - length post - 3)%nat. lia. }
    destruct Hfuel as [k Hfuel].
    destruct (string_loop_plain sel c (S (S (length eols + (length post + S k)))) pre
                (get_stream sel c) string_state0 []
                (92 :: e :: eols ++ post ++ 41 :: rest))
      as (st1 & stm1 & Hl1 & Hr1 & Hp1 & Hi1 & He1 & Ho1 & Hn1);
      auto using string_inv0; [simpl; lia|].
    rewrite put_get_stream in Hl1. simpl in Hi1.
    destruct (string_body_backslash sel (put_stream sel stm1 c) st1 pre
                (e :: eols ++ post ++ 41 :: rest))
      as (st2 & stm2 & Hb2 & Hr2 & Hp2 & Hi2 & He2 & Hs2 & Ho2 & Hn2);
      rewrite ?get_put_stream; auto.
    rewrite put_put_stream in Hb2.
    destruct (string_body_escape_eol sel (put_stream sel stm2 c) st2 pre e
                (eols ++ post ++ 41 :: rest))
      as (st3 & stm3 & Hb3 & Hr3 & Hp3 & Hi3 & He3 & Hs3 & Ho3 & Hn3);
      rewrite ?get_put_stream; auto.
    rewrite put_put_stream in Hb3.
    destruct (string_loop_skip_eols sel c (length post + S k) eols stm3 st3 pre
                (post ++ 41 :: rest))
      as (st4 & stm4 & Hl4 & Hr4 & Hp4 & Hi4 & He4 & Ho4 & Hn4); auto.
    destruct (string_loop_plain sel c (S k) post stm4 st4 pre (41 :: rest))
      as (st5 & stm5 & Hl5 & Hr5 & Hp5 & Hi5 & He5 & Ho5 & Hn5); auto; try congruence.
    destruct (string_body_close sel (put_stream sel stm5 c) st5 (pre ++ post) rest)
      as (st6 & stm6 & Hb6 & Hr6 & Hp6 & Hi6);
      rewrite ?get_put_stream; auto.
    { rewrite Hn5, Hn4, Hn3, Hn2, Hn1. reflexivity. }
    rewrite put_put_stream in Hb6.
    destruct (pdfi_read_string_finish sel c stm6 st6 (pre ++ post))
      as (c' & p & ob & H1 & H2 & H3 & H4 & H5 & H6 & H7); auto.
    { rewrite Hfuel, Hl1.
      rewrite (string_loop_continue _ _ _ _ _ _ Hb2).
      rewrite (string_loop_continue _ _ _ _ _ _ Hb3).
      rewrite Hl4, Hl5.
      apply (string_loop_break _ _ _ _ _ _ Hb6). }
    exists c', p, ob. rewrite H7. auto 10.
Qed.

Lemma pdfi_read_string_escape_bytes_witness :
  (exists c' p ob,
      pdfi_read_string MAIN_STREAM (new_context false (bytes_of_string "ab\r)x")) = (0, c')
      /\ stack c' = p :: []
      /\ get_obj c' p = Some ob /\ type ob = PDF_STRING
      /\ data ob = [97; 98; 10]
      /\ stream_rest (get_stream MAIN_STREAM c') = [120])
  /\ (exists c' p ob,
      pdfi_read_string MAIN_STREAM
        (new_context false ([97; 98; 92; 13; 10; 99; 41; 120])) = (0, c')
      /\ stack c' = p :: []
      /\ get_obj c' p = Some ob /\ type ob = PDF_STRING
      /\ data ob = [97; 98; 99]
      /\ stream_rest (get_stream MAIN_STREAM c') = [120]).
Proof.
  split.
  - destruct (pdfi_read_string_escape_bytes MAIN_STREAM
                (new_context false (bytes_of_string "ab\r)x")) [97; 98] [120])
      as [A _]; [simpl; lia | reflexivity | simpl; lia |].
    apply (A (ch "r") 10); [simpl; tauto | reflexivity].
  - destruct (pdfi_read_string_escape_bytes MAIN_STREAM
                (new_context false [97; 98; 92; 13; 10; 99; 41; 120]) [97; 98] [120])
      as [_ B]; [simpl; lia | reflexivity | simpl; lia |].
    apply (B 13 [10] [99]); [reflexivity | reflexivity | reflexivity | simpl; lia | reflexivity].
Defined.

(** ** Numbers: the malformed ones *)

Lemma starts_number_cases b :
  starts_number b = true ->
  (48 <= b <= 57) \/ b = 43 \/ b = 45 \/ b = 46.
Proof.
  unfold starts_number, is_digit.
  change (ch "+") with 43. change (ch "-") with 45. change (ch ".") with 46.
  rewrite !orb_true_iff, andb_true_iff. lia.
Qed.

Lemma starts_number_not_white b : starts_number b = true -> iswhite b = false.
Proof.
  intros H. apply starts_number_cases in H. unfold iswhite.
  repeat (apply orb_false_iff; split); apply Z.eqb_neq; lia.
Qed.

Lemma starts_number_not_delimiter b : starts_number b = true -> isdelimiter b = false.
Proof.
  intros H. apply starts_number_cases in H. unfold isdelimiter.
  change (ch "/") with 47. change (ch "(") with 40. change (ch ")") with 41.
  change (ch "[") with 91. change (ch "]") with 93. change (ch "<") with 60.
  change (ch ">") with 62. change (ch "{") with 123. change (ch "}") with 125.
  change (ch "%") with 37.
  repeat (apply orb_false_iff; split); apply Z.eqb_neq; lia.
Qed.

Lemma pdfstoponerror_put_stream sel stm c :
  pdfstoponerror (put_stream sel stm c) = pdfstoponerror c.
Proof. destruct sel; reflexivity. Qed.

Lemma pdf_errors_put_stream sel stm c :
  pdf_errors (put_stream sel stm c) = pdf_errors c.
Proof. destruct sel; reflexivity. Qed.


(** One iteration of the loop of pdfi_read_num on a byte of a number. *)
Lemma pdfi_read_num_loop_step sel c fuel Buffer real malformed b bs :
  0 <= s_pos (get_stream sel c) ->
  stream_rest (get_stream sel c) = b :: bs ->
  starts_number b = true ->
  exists stm,
    stream_rest stm = bs /\ 0 <= s_pos stm
    /\ pdfi_read_num_loop (S fuel) sel c Buffer real malformed
       = if num_malforms b (length Buffer) real && pdfstoponerror c
         then (gs_error_syntaxerror, put_stream sel stm c, Buffer, real, malformed)
         else if Z.of_nat (length Buffer) + 1 >? 255
         then (gs_error_syntaxerror, put_stream sel stm c, Buffer ++ [b],
               real || is_point b, malformed || num_malforms b (length Buffer) real)
         else pdfi_read_num_loop fuel sel (put_stream sel stm c) (Buffer ++ [b])
                (real || is_point b) (malformed || num_malforms b (length Buffer) real).
Proof.
  intros Hp Hr Hn.
  destruct (pdfi_read_byte_cons _ _ _ _ Hp Hr) as (stm & Hrb & Hrest & Heof & Hpos).
  exists stm. split; [exact Hrest|]. split; [exact Hpos|].
  cbn [pdfi_read_num_loop]. rewrite Hrb.
  cbn [Z.eqb Z.leb Z.compare andb].
  rewrite (starts_number_not_white _ Hn), (starts_number_not_delimiter _ Hn).
  rewrite pdfstoponerror_put_stream.
  unfold num_malforms, is_point, is_sign.
  change (ch "+") with 43. change (ch "-") with 45. change (ch ".") with 46.
  assert (Hidx : (Z.of_nat (length Buffer) =? 0) = Nat.eqb (length Buffer) 0).
  { destruct (length Buffer); reflexivity. }
  rewrite Hidx.
  destruct (starts_number_cases _ Hn) as [Hd | [-> | [-> | ->]]].
  - assert (E1 : (b =? 46) = false) by (apply Z.eqb_neq; lia).
    assert (E2 : (b =? 45) = false) by (apply Z.eqb_neq; lia).
    assert (E3 : (b =? 43) = false) by (apply Z.eqb_neq; lia).
    assert (E4 : (b <? 48) = false) by (apply Z.ltb_ge; lia).
    assert (E5 : (b >? 57) = false) by (rewrite Z.gtb_ltb; apply Z.ltb_ge; lia).
    rewrite E1, E2, E3, E4, E5. cbn [orb andb].
    rewrite !orb_false_r. reflexivity.
  - cbn [Z.eqb Pos.eqb orb andb].
    destruct (Nat.eqb (length Buffer) 0); cbn [negb andb orb];
      rewrite ?orb_false_r, ?orb_true_r; [reflexivity|].
    destruct (pdfstoponerror c); reflexivity.
  - cbn [Z.eqb Pos.eqb orb andb].
    destruct (Nat.eqb (length Buffer) 0); cbn [negb andb orb];
      rewrite ?orb_false_r, ?orb_true_r; [reflexivity|].
    destruct (pdfstoponerror c); reflexivity.
  - cbn [Z.eqb Pos.eqb orb andb]. rewrite !orb_false_r, ?orb_true_r.
    destruct real; cbn [negb andb orb]; rewrite ?orb_false_r, ?orb_true_r;
      [|reflexivity].
    destruct (pdfstoponerror c); reflexivity.
Qed.

Lemma pdfi_read_byte_nil sel c :
  stream_rest (get_stream sel c) = [] ->
  exists stm, pdfi_read_byte sel c = (0, 0, put_stream sel stm c)
    /\ stream_rest stm = [] /\ eof stm = true
    /\ s_pos stm = s_pos (get_stream sel c).
Proof.
  intros H. destruct (read_byte_stream_nil _ H) as (stm & Hr & H1 & H2 & H3).
  exists stm. unfold pdfi_read_byte. rewrite Hr. auto.
Qed.


Lemma has_point_app pfx b :
  has_point (pfx ++ [b]) = has_point pfx || is_point b.
Proof.
  unfold has_point. rewrite List.filter_app, length_app. simpl.
  destruct (is_point b); simpl;
    destruct (length (List.filter is_point pfx)) as [|n]; simpl;
    rewrite ?Nat.add_0_r, ?orb_false_r, ?orb_true_r; try reflexivity.
Qed.

Lemma malformed_number_app pfx b :
  malformed_number (pfx ++ [b])
  = malformed_number pfx
    || num_malforms b (length pfx) (has_point pfx).
Proof.
  unfold malformed_number, second_decimal_point, sign_after_first, num_malforms, has_point.
  rewrite List.filter_app, length_app.
  assert (Htl : existsb is_sign (tail (pfx ++ [b]))
                = existsb is_sign (tail pfx) || (is_sign b && negb (Nat.eqb (length pfx) 0))).
  { destruct pfx as [|x pfx]; simpl.
    - rewrite andb_false_r. reflexivity.
    - rewrite existsb_app. simpl. rewrite andb_true_r, orb_false_r. reflexivity. }
  rewrite Htl. simpl.
  destruct (is_point b); simpl.
  - destruct (length (List.filter is_point pfx)) as [|[|n]] eqn:E; simpl.
    + destruct (existsb is_sign (tail pfx)); reflexivity.
    + rewrite !orb_true_r. destruct (existsb is_sign (tail pfx)); reflexivity.
    + replace (n + 1)%nat with (S n) by lia. reflexivity.
  - rewrite Nat.add_0_r.
    destruct (length (List.filter is_point pfx)) as [|[|n]]; simpl;
      destruct (existsb is_sign (tail pfx)); reflexivity.
Qed.


Lemma reader_frame_refl c : reader_frame c c.
Proof. unfold reader_frame. auto. Qed.

Lemma reader_frame_trans c c1 c2 :
  reader_frame c c1 -> reader_frame c1 c2 -> reader_frame c c2.
Proof. unfold reader_frame. intros (A & B & C) (D & E & F). repeat split; congruence. Qed.

Lemma reader_frame_put_stream sel stm c : reader_frame c (put_stream sel stm c).
Proof. unfold reader_frame. destruct sel; auto. Qed.

(** The iteration of pdfi_read_num that meets the end of the number. *)
Lemma pdfi_read_num_loop_end sel c fuel Buffer real malformed rest :
  0 <= s_pos (get_stream sel c) ->
  stream_rest (get_stream sel c) = rest ->
  ends_number rest = true ->
  pdfstoponerror c = false ->
  exists c1,
    pdfi_read_num_loop (S fuel) sel c Buffer real malformed
      = (0, c1, Buffer, real, malformed)
    /\ reader_frame c c1
    /\ stream_rest (get_stream sel c1) = after_number rest.
Proof.
  intros Hp Hr He Hstop.
  destruct rest as [|b bs].
  - destruct (pdfi_read_byte_nil _ _ Hr) as (stm & Hrb & Hrest & Heof & Hpos).
    exists (put_stream sel stm c).
    cbn [pdfi_read_num_loop]. rewrite Hrb.
    cbn [Z.eqb andb]. rewrite get_put_stream, Heof. cbn [Z.eqb andb].
    split; [reflexivity|]. split; [apply reader_frame_put_stream|].
    rewrite ?get_put_stream. exact Hrest.
  - destruct (pdfi_read_byte_cons _ _ _ _ Hp Hr) as (stm & Hrb & Hrest & Heof & Hpos).
    simpl in He. apply negb_true_iff in He.
    cbn [pdfi_read_num_loop]. rewrite Hrb.
    cbn [Z.eqb Z.leb Z.compare andb after_number].
    destruct (iswhite b) eqn:Hw.
    + exists (put_stream sel stm c). split; [reflexivity|].
      split; [apply reader_frame_put_stream|]. rewrite get_put_stream. exact Hrest.
    + assert (Hun : forall c', get_stream sel c' = stm ->
                stream_rest (get_stream sel (snd (pdfi_unread sel [b] c'))) = b :: bs).
      { intros c' Hc'. unfold pdfi_unread. cbn [snd]. rewrite get_put_stream, Hc'.
        unfold stream_rest in *. cbn. rewrite Hrest. reflexivity. }
      destruct (isdelimiter b) eqn:Hd.
      * exists (snd (pdfi_unread sel [b] (put_stream sel stm c))).
        split; [reflexivity|]. split.
        -- unfold pdfi_unread. cbn [snd]. rewrite put_put_stream.
           apply reader_frame_put_stream.
        -- apply Hun. apply get_put_stream.
      * unfold starts_number, is_digit in He.
        change (ch "+") with 43 in *. change (ch "-") with 45 in *.
        change (ch ".") with 46 in *.
        rewrite !orb_false_iff in He. destruct He as [[[Hdig H43] H45] H46].
        rewrite H46, H45, H43. cbn [orb].
        assert (Hout : (b <? 48) || (b >? 57) = true).
        { apply andb_false_iff in Hdig. rewrite Z.gtb_ltb.
          destruct Hdig as [H|H]; [apply orb_true_iff; left; apply Z.ltb_lt
                                  |apply orb_true_iff; right; apply Z.ltb_lt];
            apply Z.leb_gt in H; lia. }
        rewrite Hout, pdfstoponerror_put_stream, Hstop.
        set (c2 := set_pdf_errors _ (put_stream sel stm c)).
        exists (snd (pdfi_unread sel [b] c2)).
        split; [reflexivity|]. split.
        -- unfold pdfi_unread, c2. cbn [snd].
           unfold reader_frame. destruct sel; cbn; auto.
        -- apply Hun. unfold c2. destruct sel; reflexivity.
Qed.

(** A well-terminated run of number bytes that fits the buffer is read to
    its end; the flags are those of the whole run. *)
Lemma pdfi_read_num_loop_run sel rest sfx :
  forall pfx c fuel,
    0 <= s_pos (get_stream sel c) ->
    stream_rest (get_stream sel c) = sfx ++ rest ->
    forallb starts_number sfx = true ->
    ends_number rest = true ->
    pdfstoponerror c = false ->
    Z.of_nat (length pfx) + Z.of_nat (length sfx) <= 255 ->
    (length sfx < fuel)%nat ->
    exists c1,
      pdfi_read_num_loop fuel sel c pfx (has_point pfx) (malformed_number pfx)
        = (0, c1, pfx ++ sfx, has_point (pfx ++ sfx), malformed_number (pfx ++ sfx))
      /\ reader_frame c c1
      /\ stream_rest (get_stream sel c1) = after_number rest.
Proof.
  induction sfx as [|b sfx IH]; intros pfx c fuel Hp Hr Hn He Hstop Hlen Hfuel.
  - destruct fuel as [|fuel]; [simpl in Hfuel; lia|].
    rewrite app_nil_r. simpl in Hr.
    apply pdfi_read_num_loop_end; auto.
  - destruct fuel as [|fuel]; [simpl in Hfuel; lia|].
    simpl in Hn. apply andb_true_iff in Hn. destruct Hn as [Hb Hn].
    simpl in Hr, Hlen, Hfuel.
    destruct (pdfi_read_num_loop_step sel c fuel pfx (has_point pfx)
                (malformed_number pfx) b (sfx ++ rest) Hp Hr Hb)
      as (stm & Hrest & Hpos & Hstep).
    rewrite Hstep, Hstop, andb_false_r.
    assert (Hfit : (Z.of_nat (length pfx) + 1 >? 255) = false).
    { rewrite Z.gtb_ltb. apply Z.ltb_ge. lia. }
    rewrite Hfit.
    rewrite <- has_point_app, <- malformed_number_app.
    destruct (IH (pfx ++ [b]) (put_stream sel stm c) fuel) as (c1 & Hloop & Hfr & Hout);
      rewrite ?get_put_stream, ?pdfstoponerror_put_stream; auto; try lia.
    { rewrite length_app. simpl. lia. }
    exists c1. rewrite <- app_assoc in Hloop. simpl in Hloop.
    split; [exact Hloop|]. split; [|exact Hout].
    eapply reader_frame_trans; [apply reader_frame_put_stream|exact Hfr].
Qed.

(** With stop-on-error set, a malformed run ends in a syntax error. *)
Lemma pdfi_read_num_loop_stop sel rest sfx :
  forall pfx c fuel,
    0 <= s_pos (get_stream sel c) ->
    stream_rest (get_stream sel c) = sfx ++ rest ->
    forallb starts_number sfx = true ->
    pdfstoponerror c = true ->
    malformed_number pfx = false ->
    malformed_number (pfx ++ sfx) = true ->
    Z.of_nat (length pfx) <= 255 ->
    (256 < length pfx + fuel)%nat ->
    exists c1 B r m,
      pdfi_read_num_loop fuel sel c pfx (has_point pfx) false
        = (gs_error_syntaxerror, c1, B, r, m)
      /\ reader_frame c c1.
Proof.
  induction sfx as [|b sfx IH]; intros pfx c fuel Hp Hr Hn Hstop Hm0 Hm Hlen Hfuel.
  - rewrite app_nil_r in Hm. congruence.
  - destruct fuel as [|fuel]; [lia|].
    simpl in Hn. apply andb_true_iff in Hn. destruct Hn as [Hb Hn].
    simpl in Hr.
    destruct (pdfi_read_num_loop_step sel c fuel pfx (has_point pfx) false
                b (sfx ++ rest) Hp Hr Hb)
      as (stm & Hrest & Hpos & Hstep).
    rewrite Hstep, Hstop, andb_true_r. cbn [orb].
    destruct (num_malforms b (length pfx) (has_point pfx)) eqn:Hc.
    + do 4 eexists. split; [reflexivity|apply reader_frame_put_stream].
    + destruct (Z.of_nat (length pfx) + 1 >? 255) eqn:Hfit.
      * do 4 eexists. split; [reflexivity|apply reader_frame_put_stream].
      * rewrite Z.gtb_ltb in Hfit. apply Z.ltb_ge in Hfit.
        rewrite <- has_point_app.
        destruct (IH (pfx ++ [b]) (put_stream sel stm c) fuel)
          as (c1 & B & r & m & Hloop & Hfr);
          rewrite ?get_put_stream, ?pdfstoponerror_put_stream; auto.
        { rewrite malformed_number_app. rewrite Hm0, Hc. reflexivity. }
        { rewrite <- app_assoc. exact Hm. }
        { rewrite length_app. simpl. lia. }
        { rewrite length_app. simpl. lia. }
        exists c1, B, r, m. split; [exact Hloop|].
        eapply reader_frame_trans; [apply reader_frame_put_stream|exact Hfr].
Qed.

(** A run of number bytes longer than the buffer ends in a syntax error. *)
Lemma pdfi_read_num_loop_long sel rest sfx :
  forall pfx real malformed c fuel,
    0 <= s_pos (get_stream sel c) ->
    stream_rest (get_stream sel c) = sfx ++ rest ->
    forallb starts_number sfx = true ->
    pdfstoponerror c = false ->
    Z.of_nat (length pfx) <= 255 ->
    255 < Z.of_nat (length pfx) + Z.of_nat (length sfx) ->
    (256 < length pfx + fuel)%nat ->
    exists c1 B r m,
      pdfi_read_num_loop fuel sel c pfx real malformed
        = (gs_error_syntaxerror, c1, B, r, m)
      /\ reader_frame c c1.
Proof.
  induction sfx as [|b sfx IH]; intros pfx real malformed c fuel Hp Hr Hn Hstop Hlen Hlong Hfuel.
  - simpl in Hlong. lia.
  - destruct fuel as [|fuel]; [lia|].
    simpl in Hn. apply andb_true_iff in Hn. destruct Hn as [Hb Hn].
    simpl in Hr, Hlong.
    destruct (pdfi_read_num_loop_step sel c fuel pfx real malformed
                b (sfx ++ rest) Hp Hr Hb)
      as (stm & Hrest & Hpos & Hstep).
    rewrite Hstep, Hstop, andb_false_r.
    destruct (Z.of_nat (length pfx) + 1 >? 255) eqn:Hfit.
    + do 4 eexists. split; [reflexivity|apply reader_frame_put_stream].
    + rewrite Z.gtb_ltb in Hfit. apply Z.ltb_ge in Hfit.
      destruct (IH (pfx ++ [b]) (real || is_point b)
                  (malformed || num_malforms b (length pfx) real)
                  (put_stream sel stm c) fuel)
        as (c1 & B & r & m & Hloop & Hfr);
        rewrite ?get_put_stream, ?pdfstoponerror_put_stream; auto;
        try (rewrite length_app; simpl; lia).
      exists c1, B, r, m. split; [exact Hloop|].
      eapply reader_frame_trans; [apply reader_frame_put_stream|exact Hfr].
Qed.

(** skip_white in front of a byte that is not white space. *)
Lemma skip_white_not_white sel c b bs :
  0 <= s_pos (get_stream sel c) ->
  stream_rest (get_stream sel c) = b :: bs ->
  iswhite b = false ->
  exists stm,
    skip_white sel c = (0, put_stream sel stm c)
    /\ stream_rest stm = b :: bs /\ 0 <= s_pos stm.
Proof.
  intros Hp Hr Hw.
  destruct (pdfi_read_byte_cons _ _ _ _ Hp Hr) as (stm & Hrb & Hrest & Heof & Hpos).
  unfold skip_white, stream_fuel. cbn [skip_white_loop]. rewrite Hrb.
  cbn [Z.ltb Z.eqb Z.compare]. rewrite Hw.
  unfold pdfi_unread. rewrite get_put_stream, put_put_stream.
  eexists. split; [reflexivity|]. split; [|exact Hpos].
  unfold stream_rest in *. cbn. rewrite Hrest. reflexivity.
Qed.

Lemma Z_land_lor_same a m : Z.land (Z.lor a m) m = m.
Proof.
  apply Z.bits_inj'. intros n _. rewrite Z.land_spec, Z.lor_spec.
  destruct (Z.testbit a n), (Z.testbit m n); reflexivity.
Qed.

(** The object that pdfi_read_num makes of a malformed number. *)
Lemma pdfi_read_num_object_malformed c1 Buffer real :
  exists c' ob,
    pdfi_read_num_object c1 Buffer real true = (0, c')
    /\ stack c' = length (heap c1) :: stack c1
    /\ get_obj c' (length (heap c1)) = Some ob
    /\ type ob = PDF_INT /\ value_i ob = 0 /\ refcnt ob = 1
    /\ pdf_errors c' = Z.lor (pdf_errors c1) E_PDF_MALFORMEDNUMBER
    /\ main_stream c' = main_stream c1
    /\ compressed_stream c' = compressed_stream c1.
Proof.
  unfold pdfi_read_num_object. cbn [negb]. rewrite andb_false_r.
  destruct (pdfi_alloc_object_fresh c1 PDF_INT 0) as (ob0 & Ha & Ht & Hrc & _).
  rewrite Ha. cbn [Z.ltb Z.compare].
  rewrite get_obj_set_heap_app.
  set (c2 := set_heap (heap c1 ++ [Some ob0]) c1).
  set (c3 := set_pdf_errors _ c2).
  set (ob1 := set_value_i 0 ob0).
  destruct (pdfi_push_spec (put_obj (length (heap c1)) ob1 c3) (length (heap c1)) ob1)
    as (c4 & Hpush & Hst & Hg & Hm & Hc & He).
  { eapply get_obj_put_obj_eq. unfold c3. apply get_obj_set_heap_app. }
  cbv zeta. rewrite Hpush. cbn [Z.ltb Z.compare].
  exists c4, (set_refcnt (refcnt ob1 + 1) ob1).
  split; [reflexivity|]. split; [exact Hst|]. split; [exact Hg|].
  subst ob1. cbn. rewrite Ht, Hrc. rewrite He, Hm, Hc. auto 10.
Qed.

Lemma malformed_number_cons run :
  malformed_number run = true -> exists b bs, run = b :: bs.
Proof. destruct run as [|b bs]; [discriminate|eauto]. Qed.

(** C8, as amended.  On a run of number bytes that is malformed (a second
    decimal point, or a sign after the first position) and is followed by the
    end of the data or by a byte that cannot continue a number:
    with stop-on-error set pdfi_read_num fails with a syntax error; without
    it, and when the run is at most 255 bytes long, it pushes a PDF_INT of
    value 0, sets E_PDF_MALFORMEDNUMBER, and leaves the stream after the run
    and after the white-space byte that ended it, if one did; a run longer
    than 255 bytes is a syntax error in either mode. *)
Theorem pdfi_read_num_malformed (sel : stream_sel) (c : pdf_context)
    (run rest : list Z) :
  0 <= s_pos (get_stream sel c) ->
  stream_rest (get_stream sel c) = run ++ rest ->
  forallb starts_number run = true ->
  ends_number rest = true ->
  malformed_number run = true ->
  (pdfstoponerror c = true ->
   exists c', pdfi_read_num sel c = (gs_error_syntaxerror, c') /\ stack c' = stack c)
  /\ (pdfstoponerror c = false -> Z.of_nat (length run) <= 255 ->
      exists c' p ob,
        pdfi_read_num sel c = (0, c') /\ stack c' = p :: stack c
        /\ get_obj c' p = Some ob /\ type ob = PDF_INT /\ value_i ob = 0
        /\ Z.land (pdf_errors c') E_PDF_MALFORMEDNUMBER = E_PDF_MALFORMEDNUMBER
        /\ stream_rest (get_stream sel c') = after_number rest)
  /\ (pdfstoponerror c = false -> 255 < Z.of_nat (length run) ->
      exists c', pdfi_read_num sel c = (gs_error_syntaxerror, c') /\ stack c' = stack c).
Proof.
  intros Hp Hr Hn He Hm.
  destruct (malformed_number_cons _ Hm) as (b & bs & Hrun).
  assert (Hb : starts_number b = true).
  { subst run. simpl in Hn. apply andb_true_iff in Hn. tauto. }
  destruct (skip_white_not_white sel c b (bs ++ rest)) as (stm0 & Hsk & Hr0 & Hp0); auto.
  { rewrite Hr, Hrun. reflexivity. }
  { apply starts_number_not_white. exact Hb. }
  change (b :: bs ++ rest) with ((b :: bs) ++ rest) in Hr0. rewrite <- Hrun in Hr0.
  unfold pdfi_read_num. rewrite Hsk.
  split; [|split].
  - intros Hstop.
    destruct (pdfi_read_num_loop_stop sel rest run [] (put_stream sel stm0 c) 257)
      as (c1 & B & r & m & Hloop & Hfr);
      rewrite ?get_put_stream, ?pdfstoponerror_put_stream; auto; try (cbn [length app]; lia).
    change (has_point []) with false in Hloop. rewrite Hloop.
    exists c1. split; [reflexivity|].
    destruct Hfr as (_ & Hst & _). rewrite Hst. apply stack_put_stream.
  - intros Hstop Hlen.
    destruct (pdfi_read_num_loop_run sel rest run [] (put_stream sel stm0 c) 257)
      as (c1 & Hloop & Hfr & Hout);
      rewrite ?get_put_stream, ?pdfstoponerror_put_stream; auto; try (cbn [length app]; lia).
    change (has_point []) with false in Hloop.
    change (malformed_number []) with false in Hloop.
    simpl app in Hloop. rewrite Hm in Hloop. rewrite Hloop.
    cbn [Z.ltb Z.compare].
    destruct (pdfi_read_num_object_malformed c1 run (has_point run))
      as (c' & ob & Hobj & Hst & Hg & Hty & Hv & Hrc & Herr & Hms & Hcs).
    rewrite Hobj. exists c', (length (heap c1)), ob.
    split; [reflexivity|].
    destruct Hfr as (Hh & Hst1 & _). rewrite stack_put_stream in Hst1.
    split; [rewrite Hst, Hst1; reflexivity|].
    split; [exact Hg|]. split; [exact Hty|]. split; [exact Hv|].
    split; [rewrite Herr; apply Z_land_lor_same|].
    rewrite (get_stream_eq sel c1 c' Hms Hcs). exact Hout.
  - intros Hstop Hlen.
    destruct (pdfi_read_num_loop_long sel rest run [] false false (put_stream sel stm0 c) 257)
      as (c1 & B & r & m & Hloop & Hfr);
      rewrite ?get_put_stream, ?pdfstoponerror_put_stream; auto; try (cbn [length app]; lia).
    rewrite Hloop. exists c1. split; [reflexivity|].
    destruct Hfr as (_ & Hst & _). rewrite Hst. apply stack_put_stream.
Qed.

Lemma pdfi_read_num_malformed_witness :
  (exists c',
      pdfi_read_num MAIN_STREAM (new_context true (bytes_of_string "12.5.3"))
        = (gs_error_syntaxerror, c') /\ stack c' = [])
  /\ (exists c' p ob,
        pdfi_read_num MAIN_STREAM (new_context false (bytes_of_string "12.5.3 x")) = (0, c')
        /\ stack c' = p :: []
        /\ get_obj c' p = Some ob /\ type ob = PDF_INT /\ value_i ob = 0
        /\ Z.land (pdf_errors c') E_PDF_MALFORMEDNUMBER = E_PDF_MALFORMEDNUMBER
        /\ stream_rest (get_stream MAIN_STREAM c') = [120])
  /\ (exists c',
        pdfi_read_num MAIN_STREAM (new_context false (long_malformed_number ++ [ch "2"]))
          = (gs_error_syntaxerror, c') /\ stack c' = []).
Proof.
  split; [|split].
  - apply (proj1 (pdfi_read_num_malformed MAIN_STREAM
                    (new_context true (bytes_of_string "12.5.3"))
                    (bytes_of_string "12.5.3") []
                    ltac:(simpl; lia) eq_refl eq_refl eq_refl eq_refl)).
    reflexivity.
  - apply (proj1 (proj2 (pdfi_read_num_malformed MAIN_STREAM
                    (new_context false (bytes_of_string "12.5.3 x"))
                    (bytes_of_string "12.5.3") [32; 120]
                    ltac:(simpl; lia) eq_refl eq_refl eq_refl eq_refl))).
    + reflexivity.
    + simpl. lia.
  - apply (proj2 (proj2 (pdfi_read_num_malformed MAIN_STREAM
                    (new_context false (long_malformed_number ++ [ch "2"]))
                    (long_malformed_number ++ [ch "2"]) []
                    ltac:(simpl; lia) ltac:(vm_compute; reflexivity) eq_refl eq_refl
                    ltac:(vm_compute; reflexivity)))).
    + reflexivity.
    + vm_compute. reflexivity.
Defined.

(** C8 as stated fails where the run does not fit the 256-byte buffer of
    pdfi_read_num: with stop-on-error not set, the malformed number of 256
    bytes is not turned into an Int 0 but ends in a syntax error; and a white
    space byte after a malformed number is consumed, so the stream is one
    byte past the run. *)
Lemma pdfi_read_num_malformed_counterexample :
  malformed_number long_malformed_number = true
  /\ length long_malformed_number = 256%nat
  /\ fst (pdfi_read_num MAIN_STREAM (new_context false long_malformed_number))
     = gs_error_syntaxerror
  /\ stack (snd (pdfi_read_num MAIN_STREAM (new_context false long_malformed_number))) = []
  /\ stream_rest (main_stream (snd (pdfi_read_num MAIN_STREAM
                    (new_context false (bytes_of_string "12.5.3 x")))))
     = bytes_of_string "x".
Proof. vm_compute. repeat split; reflexivity. Qed.

(** ** pdfi_dereference: validation of the object number *)

Section Dereference.

Variable MAX_OBJECT_CACHE_SIZE : Z.
Variable filter_decode : pdf_obj -> list Z -> option (list Z).

Local Abbreviation deref := (pdfi_dereference MAX_OBJECT_CACHE_SIZE filter_decode).

Lemma pdfi_dereference_S fuel c obj gen :
  deref (S fuel) c obj gen
  = pdfi_dereference_body MAX_OBJECT_CACHE_SIZE filter_decode (deref fuel) c obj gen.
Proof. reflexivity. Qed.

(** The tolerant branch for an object number outside the table. *)
Lemma deref_out_of_range_tolerant c :
  pdfstoponerror c = false ->
  exists c' ob,
    deref_out_of_range c = (0, c', Some (length (heap c)))
    /\ get_obj c' (length (heap c)) = Some ob
    /\ type ob = PDF_NULL /\ refcnt ob = 1
    /\ pdf_errors c' = Z.lor (pdf_errors c) E_PDF_BADOBJNUMBER.
Proof.
  intros Hstop. unfold deref_out_of_range. cbn [pdfstoponerror set_pdf_errors].
  rewrite Hstop.
  set (c1 := set_pdf_errors _ c).
  destruct (pdfi_alloc_object_fresh c1 PDF_NULL 0) as (ob & Ha & Ht & Hrc & _).
  rewrite Ha. cbn [Z.eqb].
  rewrite (pdfi_countup_get _ _ ob) by apply get_obj_set_heap_app.
  eexists _, _. split; [reflexivity|].
  split; [eapply (get_obj_put_obj_eq _ (length (heap c1))); apply get_obj_set_heap_app|].
  cbn. rewrite Ht, Hrc. auto.
Qed.

(** The branch for a free entry: the Null object comes back as it was
    allocated, with reference count 0. *)
Lemma deref_free_entry_uncounted c :
  exists ob,
    deref_free_entry c
      = (0, set_heap (heap c ++ [Some ob]) c, Some (length (heap c)))
    /\ type ob = PDF_NULL /\ refcnt ob = 0.
Proof.
  unfold deref_free_entry.
  destruct (pdfi_alloc_object_fresh c PDF_NULL 1) as (ob & Ha & Ht & Hrc & _).
  rewrite Ha. cbn [Z.gtb Z.compare]. exists ob. auto.
Qed.

Lemma pdfi_dereference_body_in_table d c obj gen xref entry :
  xref_table c = Some xref ->
  0 <= obj < Z.of_nat (length xref) ->
  xref !! Z.to_nat obj = Some entry ->
  pdfi_dereference_body MAX_OBJECT_CACHE_SIZE filter_decode d c obj gen
  = if xobject_num entry =? 0 then (gs_error_undefined, c, None)
    else if free entry then deref_free_entry c
    else if match loop_detection c with Some _ => true | None => false end
            && pdfi_loop_detector_check_object c obj
    then (gs_error_circular_reference, c, None)
    else
      let '(code, c1, object) :=
        match cache entry with
        | Some cache_entry => deref_cached c cache_entry
        | None =>
            let saved_stream_offset := pdfi_unread_tell c in
            if compressed entry then
              deref_compressed MAX_OBJECT_CACHE_SIZE filter_decode d c entry obj gen
                saved_stream_offset
            else deref_classic MAX_OBJECT_CACHE_SIZE d c entry obj saved_stream_offset
        end in
      if code <? 0 then (code, c1, object)
      else
        match loop_detection c1, object with
        | Some _, Some p =>
            match get_obj c1 p with
            | None => (model_undefined_behaviour, c1, object)
            | Some ob =>
                let '(code, c2) := pdfi_loop_detector_add_object c1 (object_num ob) in
                if code <? 0 then (code, c2, object) else (0, c2, object)
            end
        | Some _, None => (model_undefined_behaviour, c1, object)
        | None, _ => (0, c1, object)
        end.
Proof.
  intros Hx Hr He. unfold pdfi_dereference_body, xref_get. rewrite Hx.
  assert (H1 : (obj >=? Z.of_nat (length xref)) = false).
  { rewrite Z.geb_leb. apply Z.leb_gt. lia. }
  assert (H2 : (obj <? 0) = false) by (apply Z.ltb_ge; lia).
  rewrite H1, H2, He. reflexivity.
Qed.

(** C3, as amended.  An object number at or beyond the size of the xref
    table sets the bad-object-number flag and is a range error only when
    stop-on-error is set; otherwise it resolves to a fresh Null object,
    counted for the caller.  Inside the table, an entry that was never
    defined (object number 0) is an "undefined" error and a free entry
    resolves to a Null object. *)
Theorem pdfi_dereference_validation (fuel : nat) (c : pdf_context)
    (obj gen : Z) (xref : list xref_entry) :
  xref_table c = Some xref ->
  0 <= obj ->
  (Z.of_nat (length xref) <= obj ->
     (pdfstoponerror c = true ->
        deref (S fuel) c obj gen
        = (gs_error_rangecheck,
           set_pdf_errors (Z.lor (pdf_errors c) E_PDF_BADOBJNUMBER) c, None))
     /\ (pdfstoponerror c = false ->
        exists c' p ob,
          deref (S fuel) c obj gen = (0, c', Some p)
          /\ get_obj c' p = Some ob /\ type ob = PDF_NULL /\ refcnt ob = 1
          /\ pdf_errors c' = Z.lor (pdf_errors c) E_PDF_BADOBJNUMBER))
  /\ (forall entry,
       obj < Z.of_nat (length xref) ->
       xref !! Z.to_nat obj = Some entry ->
       (xobject_num entry = 0 ->
          deref (S fuel) c obj gen = (gs_error_undefined, c, None))
       /\ (xobject_num entry <> 0 -> free entry = true ->
          exists c' p ob,
            deref (S fuel) c obj gen = (0, c', Some p)
            /\ get_obj c' p = Some ob /\ type ob = PDF_NULL)).
Proof.
  intros Hx Hobj. split.
  - intros Hout.
    assert (Hbody : deref (S fuel) c obj gen = deref_out_of_range c).
    { rewrite pdfi_dereference_S. unfold pdfi_dereference_body. rewrite Hx.
      replace (obj >=? Z.of_nat (length xref)) with true; [reflexivity|].
      symmetry. rewrite Z.geb_leb. apply Z.leb_le. lia. }
    rewrite Hbody. split.
    + intros Hstop. unfold deref_out_of_range. cbn [pdfstoponerror set_pdf_errors].
      rewrite Hstop. reflexivity.
    + intros Hstop.
      destruct (deref_out_of_range_tolerant c Hstop) as (c' & ob & H1 & H2 & H3 & H4 & H5).
      exists c', (length (heap c)), ob. auto.
  - intros entry Hin He.
    rewrite pdfi_dereference_S.
    rewrite (pdfi_dereference_body_in_table _ c obj gen xref entry Hx) by (auto; lia).
    split.
    + intros H0. rewrite H0. reflexivity.
    + intros Hn Hf. apply Z.eqb_neq in Hn. rewrite Hn, Hf.
      destruct (deref_free_entry_uncounted c) as (ob & H1 & H2 & H3).
      exists (set_heap (heap c ++ [Some ob]) c), (length (heap c)), ob.
      split; [exact H1|]. split; [apply get_obj_set_heap_app|exact H2].
Qed.

(** C1, where the code departs from it.  When the entry of the requested
    object is free, pdfi_dereference returns 0 and stores a Null object
    whose reference count is still 0: the count-up is guarded by [code > 0],
    which pdfi_alloc_object never returns. *)
Theorem pdfi_dereference_free_entry_refcnt (fuel : nat) (c : pdf_context)
    (obj gen : Z) (xref : list xref_entry) (entry : xref_entry) :
  xref_table c = Some xref ->
  0 <= obj < Z.of_nat (length xref) ->
  xref !! Z.to_nat obj = Some entry ->
  xobject_num entry <> 0 ->
  free entry = true ->
  exists c' p ob,
    deref (S fuel) c obj gen = (0, c', Some p)
    /\ get_obj c' p = Some ob /\ type ob = PDF_NULL /\ refcnt ob = 0.
Proof.
  intros Hx Hobj He Hn Hf.
  rewrite pdfi_dereference_S.
  rewrite (pdfi_dereference_body_in_table _ c obj gen xref entry Hx Hobj He).
  apply Z.eqb_neq in Hn. rewrite Hn, Hf.
  destruct (deref_free_entry_uncounted c) as (ob & H1 & H2 & H3).
  exists (set_heap (heap c ++ [Some ob]) c), (length (heap c)), ob.
  split; [exact H1|]. split; [apply get_obj_set_heap_app|auto].
Qed.

End Dereference.

Lemma pdfi_dereference_validation_witness :
  (pdfi_dereference 200 no_filter 1 (small_table_context true) 3 0
   = (gs_error_rangecheck,
      set_pdf_errors E_PDF_BADOBJNUMBER (small_table_context true), None))
  /\ (pdfi_dereference 200 no_filter 1 (small_table_context false) 0 0
      = (gs_error_undefined, small_table_context false, None))
  /\ (exists c' p ob,
        pdfi_dereference 200 no_filter 1 (small_table_context false) 1 0 = (0, c', Some p)
        /\ get_obj c' p = Some ob /\ type ob = PDF_NULL).
Proof.
  split; [|split].
  - apply (proj1 (pdfi_dereference_validation 200 no_filter 0 (small_table_context true) 3 0
                    [zero_xref_entry; free_entry 1; classic_entry 2 0]
                    eq_refl ltac:(lia))).
    + simpl. lia.
    + reflexivity.
  - apply (proj2 (pdfi_dereference_validation 200 no_filter 0 (small_table_context false) 0 0
                    [zero_xref_entry; free_entry 1; classic_entry 2 0]
                    eq_refl ltac:(lia)) zero_xref_entry).
    + simpl. lia.
    + reflexivity.
    + reflexivity.
  - apply (proj2 (pdfi_dereference_validation 200 no_filter 0 (small_table_context false) 1 0
                    [zero_xref_entry; free_entry 1; classic_entry 2 0]
                    eq_refl ltac:(lia)) (free_entry 1)).
    + simpl. lia.
    + reflexivity.
    + simpl. lia.
    + reflexivity.
Defined.

(** C3 as stated fails beyond the table when stop-on-error is not set:
    object 3 of a table of 3 entries does not end in a range error, it
    resolves to a Null object with return code 0. *)
Lemma pdfi_dereference_validation_counterexample :
  pdfstoponerror (small_table_context false) = false
  /\ xref_size (small_table_context false) = 3
  /\ exists c' p,
       pdfi_dereference 200 no_filter 1 (small_table_context false) 3 0 = (0, c', Some p)
       /\ obj_type c' p = Some PDF_NULL.
Proof.
  split; [reflexivity|]. split; [reflexivity|].
  eexists _, _. split; vm_compute; reflexivity.
Qed.

Lemma pdfi_dereference_free_entry_refcnt_witness :
  exists c' p ob,
    pdfi_dereference 200 no_filter 1 (small_table_context false) 1 0 = (0, c', Some p)
    /\ get_obj c' p = Some ob /\ type ob = PDF_NULL /\ refcnt ob = 0.
Proof.
  apply (pdfi_dereference_free_entry_refcnt 200 no_filter 0 (small_table_context false) 1 0
           [zero_xref_entry; free_entry 1; classic_entry 2 0] (free_entry 1)).
  - reflexivity.
  - simpl. lia.
  - reflexivity.
  - simpl. lia.
  - reflexivity.
Defined.

(** ** Allocation of arrays and dictionaries *)

Lemma insert_repeat_boundary {A} (x y : A) (i count : nat) :
  <[i := x]> (repeat x i ++ repeat y (S count)) = repeat x (S i) ++ repeat y count.
Proof.
  induction i as [|i IH]; [reflexivity|].
  cbn [repeat app]. cbn [repeat app] in IH.
  change (<[S i:=x]> (x :: repeat x i ++ y :: repeat y count))
    with (x :: <[i:=x]> (repeat x i ++ y :: repeat y count)).
  rewrite IH. reflexivity.
Qed.

(** The loop of pdfi_array_alloc: every slot it visits is pointed at the
    Null object [n], whose count goes up by one per slot, as long as the
    counter stays an [int]. *)
Lemma array_fill_null_spec a n (Hne : a <> n) :
  forall count i c aob nob,
    0 <= i -> i + Z.of_nat count < 2 ^ 31 ->
    get_obj c a = Some aob ->
    get_obj c n = Some nob ->
    values aob = repeat (Some n) (Z.to_nat i) ++ repeat None count ->
    exists c' aob' nob',
      array_fill_null count i a n c = (0, c')
      /\ get_obj c' a = Some aob'
      /\ get_obj c' n = Some nob'
      /\ values aob' = repeat (Some n) (Z.to_nat i + count)
      /\ type aob' = type aob /\ size aob' = size aob
      /\ type nob' = type nob
      /\ refcnt nob' = refcnt nob + Z.of_nat count.
Proof.
  induction count as [|count IH]; intros i c aob nob Hi Hlim Ha Hn Hv.
  - exists c, aob, nob. simpl. rewrite Nat.add_0_r, Z.add_0_r.
    simpl in Hv. rewrite app_nil_r in Hv. auto 10.
  - cbn [array_fill_null].
    destruct (Z.eqb_spec i (2 ^ 31 - 1)) as [E|_]; [lia|].
    set (c1 := set_array_value a (Z.to_nat i) (Some n) c).
    assert (Ha1 : get_obj c1 a
                  = Some (set_slots (size aob) (entries aob) (keys aob)
                            (<[Z.to_nat i := Some n]> (values aob)) aob)).
    { unfold c1, set_array_value. rewrite Ha. eapply get_obj_put_obj_eq; eauto. }
    assert (Hn1 : get_obj c1 n = Some nob).
    { unfold c1, set_array_value. rewrite Ha. rewrite get_obj_put_obj_ne; auto. }
    set (c2 := pdfi_countup n c1).
    assert (Hn2 : get_obj c2 n = Some (set_refcnt (refcnt nob + 1) nob)).
    { unfold c2. rewrite (pdfi_countup_get _ _ _ Hn1). eapply get_obj_put_obj_eq; eauto. }
    assert (Ha2 : get_obj c2 a
                  = Some (set_slots (size aob) (entries aob) (keys aob)
                            (<[Z.to_nat i := Some n]> (values aob)) aob)).
    { unfold c2. rewrite (pdfi_countup_get _ _ _ Hn1).
      rewrite get_obj_put_obj_ne; auto. }
    destruct (IH (i + 1) c2 _ _ ltac:(lia) ltac:(lia) Ha2 Hn2)
      as (c' & aob' & nob' & H0 & H1 & H2 & H3 & H4 & H5 & H6 & H7).
    { cbn [values set_slots]. rewrite Hv.
      replace (Z.to_nat (i + 1)) with (S (Z.to_nat i)) by lia.
      apply insert_repeat_boundary. }
    exists c', aob', nob'. split; [exact H0|]. split; [exact H1|]. split; [exact H2|].
    split; [rewrite H3; f_equal; lia|].
    split; [rewrite H4; reflexivity|]. split; [rewrite H5; reflexivity|].
    split; [rewrite H6; reflexivity|].
    rewrite H7. cbn [refcnt set_refcnt]. lia.
Qed.

(** From 2^31 slots on the counter of the loop leaves the range of [int]. *)
Lemma array_fill_null_overflow a n :
  forall count i c,
    0 <= i < 2 ^ 31 -> 2 ^ 31 <= i + Z.of_nat count ->
    fst (array_fill_null count i a n c) = model_undefined_behaviour.
Proof.
  induction count as [|count IH]; intros i c Hi Hlim; [simpl in Hlim; lia|].
  cbn [array_fill_null].
  destruct (Z.eqb_spec i (2 ^ 31 - 1)) as [E|E]; [reflexivity|].
  apply IH; lia.
Qed.

(** C7, as amended.  pdfi_alloc_object leaves every slot of a new array or
    dictionary a NULL pointer; it is pdfi_array_alloc that, for an array of
    [size] slots (0 < size < 2^31, the range of the [int] that counts the
    slots), points every slot at one shared Null object whose reference
    count is [size]. *)
Theorem pdfi_array_alloc_prefilled (c : pdf_context) (sz : Z) :
  (0 < sz < 2 ^ 31 ->
   exists c' a n aob nob,
      pdfi_array_alloc c sz = (0, c', Some a)
      /\ get_obj c' a = Some aob /\ type aob = PDF_ARRAY /\ size aob = sz
      /\ values aob = repeat (Some n) (Z.to_nat sz)
      /\ get_obj c' n = Some nob /\ type nob = PDF_NULL /\ refcnt nob = sz)
  /\ (0 <= sz < 2 ^ 32 ->
      exists c1 a aob,
      pdfi_alloc_object c PDF_ARRAY sz = (0, c1, a)
      /\ get_obj c1 a = Some aob /\ values aob = repeat None (Z.to_nat sz))
  /\ (0 <= sz < 2 ^ 32 ->
      exists c1 d dob,
      pdfi_alloc_object c PDF_DICT sz = (0, c1, d)
      /\ get_obj c1 d = Some dob
      /\ keys dob = repeat None (Z.to_nat sz)
      /\ values dob = repeat None (Z.to_nat sz)).
Proof.
  split; [|split].
  - intros Hsz.
    assert (Hmod : sz mod 2 ^ 32 = sz) by (apply Z.mod_small; lia).
    unfold pdfi_array_alloc, pdfi_alloc_object. rewrite Hmod.
    cbn [Z.ltb Z.compare].
    rewrite get_obj_set_heap_app.
    set (aob0 := set_slots sz 0 [] (repeat None (Z.to_nat sz)) (zero_obj PDF_ARRAY)).
    set (c1 := set_heap (heap c ++ [Some aob0]) c).
    set (aob1 := set_slots sz (entries aob0) (keys aob0) (values aob0) aob0).
    set (c2 := put_obj (length (heap c)) aob1 c1).
    assert (Hgt : (sz >? 0) = true) by (rewrite Z.gtb_ltb; apply Z.ltb_lt; lia).
    rewrite Hgt.
    set (c3 := set_heap (heap c2 ++ [Some (zero_obj PDF_NULL)]) c2).
    assert (Hfit : (Z.of_nat (length (values aob0)) <? sz) = false).
    { apply Z.ltb_ge. unfold aob0. cbn [values set_slots]. rewrite repeat_length. lia. }
    rewrite Hfit.
    assert (Hlen2 : length (heap c2) = S (length (heap c))).
    { unfold c2, put_obj, c1. cbn [heap set_heap]. rewrite length_insert, length_app.
      simpl. lia. }
    assert (Ha3 : get_obj c3 (length (heap c)) = Some aob1).
    { unfold c3, get_obj. cbn [heap set_heap]. rewrite lookup_app_l by lia.
      unfold c2, put_obj, c1. cbn [heap set_heap].
      rewrite list_lookup_insert_eq; [reflexivity|]. rewrite length_app. simpl. lia. }
    assert (Hn3 : get_obj c3 (length (heap c2)) = Some (zero_obj PDF_NULL)).
    { apply get_obj_set_heap_app. }
    destruct (array_fill_null_spec (length (heap c)) (length (heap c2)) ltac:(lia)
                (Z.to_nat sz) 0 c3 aob1 (zero_obj PDF_NULL) ltac:(lia) ltac:(lia) Ha3 Hn3)
      as (c4 & aob' & nob' & H0 & H1 & H2 & H3 & H4 & H5 & H6 & H7).
    { reflexivity. }
    rewrite H0.
    exists c4, (length (heap c)), (length (heap c2)), aob', nob'.
    split; [reflexivity|]. split; [exact H1|]. split; [rewrite H4; reflexivity|].
    split; [rewrite H5; reflexivity|]. split; [exact H3|]. split; [exact H2|].
    split; [rewrite H6; reflexivity|]. rewrite H7. cbn. lia.
  - intros Hsz.
    assert (Hmod : sz mod 2 ^ 32 = sz) by (apply Z.mod_small; lia).
    unfold pdfi_alloc_object. rewrite Hmod.
    eexists _, _, _. split; [reflexivity|].
    split; [apply get_obj_set_heap_app|reflexivity].
  - intros Hsz.
    assert (Hmod : sz mod 2 ^ 32 = sz) by (apply Z.mod_small; lia).
    unfold pdfi_alloc_object. rewrite Hmod.
    eexists _, _, _. split; [reflexivity|].
    split; [apply get_obj_set_heap_app|]. split; reflexivity.
Qed.

Lemma pdfi_array_alloc_prefilled_witness :
  (exists c' a n aob nob,
      pdfi_array_alloc (new_context false []) 3 = (0, c', Some a)
      /\ get_obj c' a = Some aob /\ type aob = PDF_ARRAY /\ size aob = 3
      /\ values aob = [Some n; Some n; Some n]
      /\ get_obj c' n = Some nob /\ type nob = PDF_NULL /\ refcnt nob = 3)
  /\ (exists c1 d dob,
      pdfi_alloc_object (new_context false []) PDF_DICT 3 = (0, c1, d)
      /\ get_obj c1 d = Some dob
      /\ keys dob = [None; None; None]
      /\ values dob = [None; None; None]).
Proof.
  destruct (pdfi_array_alloc_prefilled (new_context false []) 3) as (A & _ & B).
  split; [exact (A ltac:(lia))|exact (B ltac:(lia))].
Defined.

(** C7 as stated fails for the allocator itself: the slots of a dictionary
    (and of an array) that pdfi_alloc_object creates are NULL pointers, not
    references to a Null object. *)
Lemma pdfi_alloc_object_slots_counterexample :
  exists c1 d dob,
    pdfi_alloc_object (new_context false []) PDF_DICT 2 = (0, c1, d)
    /\ get_obj c1 d = Some dob
    /\ keys dob = [None; None] /\ values dob = [None; None]
    /\ heap c1 = [Some dob].
Proof. eexists _, _, _. repeat split; reflexivity. Qed.
(** ** The object cache *)

(** ** Entries of the cache store *)

Lemma get_entry_entry_at c p : get_entry c p = entry_at (cache_store c) p.
Proof. reflexivity. Qed.

Lemma entry_at_lt st p e : entry_at st p = Some e -> (p < length st)%nat.
Proof.
  unfold entry_at. destruct (st !! p) as [[x|]|] eqn:E; try discriminate.
  intros _. eapply lookup_lt_Some; eauto.
Qed.

Lemma entry_at_insert_eq st p e :
  (p < length st)%nat -> entry_at (<[p := Some e]> st) p = Some e.
Proof. intros H. unfold entry_at. rewrite list_lookup_insert_eq by exact H. reflexivity. Qed.

Lemma entry_at_insert_ne st p q v :
  p <> q -> entry_at (<[p := v]> st) q = entry_at st q.
Proof. intros H. unfold entry_at. rewrite list_lookup_insert_ne by exact H. reflexivity. Qed.

Lemma entry_at_app_l st st' p :
  (p < length st)%nat -> entry_at (st ++ st') p = entry_at st p.
Proof. intros H. unfold entry_at. rewrite lookup_app_l by exact H. reflexivity. Qed.

Lemma entry_at_app_new st e : entry_at (st ++ [Some e]) (length st) = Some e.
Proof.
  unfold entry_at. rewrite lookup_app_r by lia. rewrite Nat.sub_diag. reflexivity.
Qed.

(** ** Segments *)

Lemma dseg_frame st st' l :
  (forall p, In p l -> entry_at st' p = entry_at st p) ->
  forall prev nxt, dseg st prev l nxt -> dseg st' prev l nxt.
Proof.
  induction l as [|p rest IH]; intros Hsame prev nxt H; [exact I|].
  destruct H as [(e & He & Hp & Hn) Hrest]. split.
  - exists e. rewrite Hsame by (left; reflexivity). auto.
  - apply IH; auto. intros q Hq. apply Hsame. right. exact Hq.
Qed.

Lemma dseg_live st l :
  forall prev nxt p, dseg st prev l nxt -> In p l -> exists e, entry_at st p = Some e.
Proof.
  induction l as [|q rest IH]; intros prev nxt p H Hin; [contradiction|].
  destruct H as [(e & He & _) Hrest]. destruct Hin as [->|Hin]; eauto.
Qed.

Lemma last_or_cons p l d : last_or (p :: l) d = last_or l (Some p).
Proof.
  unfold last_or. destruct l as [|q l]; [reflexivity|].
  change (last (p :: q :: l)) with (last (q :: l)).
  destruct (last (q :: l)) eqn:E; [reflexivity|].
  apply last_None in E. discriminate.
Qed.

Lemma dseg_app st l1 :
  forall prev l2 nxt,
    dseg st prev (l1 ++ l2) nxt
    <-> dseg st prev l1 (head_or l2 nxt) /\ dseg st (last_or l1 prev) l2 nxt.
Proof.
  induction l1 as [|p l1 IH]; intros prev l2 nxt.
  - simpl. unfold last_or. simpl. tauto.
  - cbn [app dseg]. rewrite IH. rewrite last_or_cons.
    assert (Hh : match l1 ++ l2 with q :: _ => Some q | [] => nxt end
                 = match l1 with q :: _ => Some q | [] => head_or l2 nxt end).
    { destruct l1; reflexivity. }
    rewrite Hh. tauto.
Qed.

(** ** Contexts with the same cache *)

Lemma cache_list_same c c' l : same_cache c c' -> cache_list c l -> cache_list c' l.
Proof.
  intros (A & B & C & D) (H1 & H2 & H3 & H4 & H5).
  unfold cache_list. rewrite A, B, C, D. auto.
Qed.

Lemma same_cache_refl c : same_cache c c.
Proof. unfold same_cache. auto. Qed.

Lemma same_cache_trans c c1 c2 : same_cache c c1 -> same_cache c1 c2 -> same_cache c c2.
Proof.
  unfold same_cache. intros (A & B & C & D) (E & F & G & H).
  repeat split; congruence.
Qed.

Lemma same_cache_set_heap h c : same_cache c (set_heap h c).
Proof. unfold same_cache. auto. Qed.

Lemma same_cache_countup p c : same_cache c (pdfi_countup p c).
Proof.
  unfold pdfi_countup. destruct (get_obj c p); [apply same_cache_set_heap|apply same_cache_refl].
Qed.

Lemma same_cache_countdown p c : same_cache c (pdfi_countdown p c).
Proof. apply same_cache_set_heap. Qed.

Lemma same_cache_xref_set_cache i v c c' :
  xref_set_cache i v c = Some c' -> same_cache c c'.
Proof.
  unfold xref_set_cache, xref_set. destruct (xref_get c i); [|discriminate].
  destruct (xref_table c); [|discriminate].
  destruct ((0 <=? i) && (i <? Z.of_nat (length l))); [|discriminate].
  intros H. inversion H. unfold same_cache. auto.
Qed.

Lemma same_cache_loop_add c obj :
  same_cache c (snd (pdfi_loop_detector_add_object c obj)).
Proof.
  unfold pdfi_loop_detector_add_object. destruct (loop_detection c); simpl;
    unfold same_cache; auto.
Qed.

(** ** Stores through cache-entry pointers *)

Lemma entry_at_set_entry_next p v c q :
  entry_at (cache_store (set_entry_next p v c)) q
  = if Nat.eqb q p
    then option_map (fun e => mk_cache_entry v (previous e) (o e)) (get_entry c p)
    else get_entry c q.
Proof.
  unfold set_entry_next, get_entry.
  destruct (Nat.eqb_spec q p) as [->|Hne].
  - destruct (cache_store c !! p) as [[e|]|] eqn:E; cbn; unfold entry_at.
    + rewrite list_lookup_insert_eq by (eapply lookup_lt_Some; eauto). reflexivity.
    + rewrite E. reflexivity.
    + rewrite E. reflexivity.
  - destruct (cache_store c !! p) as [[e|]|] eqn:E; cbn; unfold entry_at; try reflexivity.
    rewrite list_lookup_insert_ne by congruence. reflexivity.
Qed.

Lemma entry_at_set_entry_previous p v c q :
  entry_at (cache_store (set_entry_previous p v c)) q
  = if Nat.eqb q p
    then option_map (fun e => mk_cache_entry (next e) v (o e)) (get_entry c p)
    else get_entry c q.
Proof.
  unfold set_entry_previous, get_entry.
  destruct (Nat.eqb_spec q p) as [->|Hne].
  - destruct (cache_store c !! p) as [[e|]|] eqn:E; cbn; unfold entry_at.
    + rewrite list_lookup_insert_eq by (eapply lookup_lt_Some; eauto). reflexivity.
    + rewrite E. reflexivity.
    + rewrite E. reflexivity.
  - destruct (cache_store c !! p) as [[e|]|] eqn:E; cbn; unfold entry_at; try reflexivity.
    rewrite list_lookup_insert_ne by congruence. reflexivity.
Qed.

Lemma set_entry_next_fields p v c :
  cache_LRU (set_entry_next p v c) = cache_LRU c
  /\ cache_MRU (set_entry_next p v c) = cache_MRU c
  /\ cache_entries (set_entry_next p v c) = cache_entries c
  /\ heap (set_entry_next p v c) = heap c
  /\ xref_table (set_entry_next p v c) = xref_table c.
Proof. unfold set_entry_next. destruct (get_entry c p); cbn; auto. Qed.

Lemma set_entry_previous_fields p v c :
  cache_LRU (set_entry_previous p v c) = cache_LRU c
  /\ cache_MRU (set_entry_previous p v c) = cache_MRU c
  /\ cache_entries (set_entry_previous p v c) = cache_entries c
  /\ heap (set_entry_previous p v c) = heap c
  /\ xref_table (set_entry_previous p v c) = xref_table c.
Proof. unfold set_entry_previous. destruct (get_entry c p); cbn; auto. Qed.

Lemma xref_set_cache_fields i v c c' :
  xref_set_cache i v c = Some c' ->
  heap c' = heap c
  /\ exists x, xref_get c' i = Some x /\ cache x = v.
Proof.
  unfold xref_set_cache, xref_set, xref_get.
  destruct (xref_table c) as [xref|] eqn:Ex; [|discriminate].
  destruct (i <? 0) eqn:Ei; [discriminate|].
  destruct (xref !! Z.to_nat i) as [x|] eqn:El; [|discriminate].
  destruct ((0 <=? i) && (i <? Z.of_nat (length xref))) eqn:Eb; [|discriminate].
  intros H. inversion H; subst c'. split; [reflexivity|].
  exists (set_xcache v x). split; [|reflexivity].
  unfold xref_get, set_xref_table. cbn [xref_table]. rewrite ?Ei.
  apply list_lookup_insert_eq. eapply lookup_lt_Some; eauto.
Qed.

(** ** Lists without repetition *)

Lemma NoDup_app_last (l : list nat) m : NoDup (l ++ [m]) -> ~ In m l /\ NoDup l.
Proof.
  intros H. apply NoDup_app in H as (H1 & H2 & _). split; [|exact H1].
  intros Hin. apply (H2 m).
  - apply list_elem_of_In. exact Hin.
  - apply list_elem_of_In. left. reflexivity.
Qed.

Lemma list_last_cases (l : list nat) : l = [] \/ exists l' m, l = l' ++ [m].
Proof.
  induction l as [|x l _] using rev_ind; [left; reflexivity|right; eauto].
Qed.

Lemma last_or_snoc l m d : last_or (l ++ [m]) d = Some m.
Proof. unfold last_or. rewrite last_snoc. reflexivity. Qed.

Lemma dseg_single st prev p nxt :
  dseg st prev [p] nxt
  <-> exists e, entry_at st p = Some e /\ previous e = prev /\ next e = nxt.
Proof. cbn. tauto. Qed.

(** Redirecting the forward link of the last entry of a segment. *)
Lemma dseg_retarget_next st st' prev l m nxt nxt' em :
  ~ In m l ->
  dseg st prev (l ++ [m]) nxt ->
  entry_at st m = Some em ->
  (forall p, In p l -> entry_at st' p = entry_at st p) ->
  entry_at st' m = Some (mk_cache_entry nxt' (previous em) (o em)) ->
  dseg st' prev (l ++ [m]) nxt'.
Proof.
  intros Hm H Hem Hsame Hm'.
  apply dseg_app in H as [H1 H2]. apply dseg_app. split.
  - eapply dseg_frame; eauto.
  - apply dseg_single in H2 as (e & He & Hp & Hn).
    apply dseg_single. eexists. split; [exact Hm'|]. cbn.
    split; [congruence|reflexivity].
Qed.

(** Redirecting the backward link of the first entry of a segment. *)
Lemma dseg_retarget_previous st st' prev prev' n l nxt en :
  dseg st prev (n :: l) nxt ->
  entry_at st n = Some en ->
  (forall p, In p l -> entry_at st' p = entry_at st p) ->
  entry_at st' n = Some (mk_cache_entry (next en) prev' (o en)) ->
  dseg st' prev' (n :: l) nxt.
Proof.
  intros [(e & He & Hp & Hn) Hrest] Hen Hsame Hn'. split.
  - eexists. split; [exact Hn'|]. cbn. split; [reflexivity|congruence].
  - eapply dseg_frame; eauto.
Qed.

Lemma cache_list_lt c l p :
  cache_list c l -> In p l -> (p < length (cache_store c))%nat.
Proof.
  intros (_ & H & _) Hin. destruct (dseg_live _ _ _ _ _ H Hin) as [e He].
  eapply entry_at_lt; eauto.
Qed.

Ltac eqb_ne :=
  match goal with
  | |- context [Nat.eqb ?a ?b] =>
      let E := fresh in
      destruct (Nat.eqb_spec a b) as [E|E];
      [exfalso; first [lia | subst; contradiction | congruence]|]
  end.

Ltac entry_simpl :=
  repeat first
    [ rewrite get_entry_entry_at
    | rewrite entry_at_set_entry_next
    | rewrite entry_at_set_entry_previous
    | rewrite Nat.eqb_refl
    | eqb_ne ].

(** ** Insertion at the most recently used end *)

Lemma cache_link_MRU_list p c l c' :
  cache_list c l -> cache_link_MRU p c = Some c' ->
  cache_list c' (l ++ [length (cache_store c)]).
Proof.
  intros Hl. pose proof (fun q => cache_list_lt c l q Hl) as Hlt.
  destruct Hl as (Hnd & Hseg & HL & HM & HE).
  unfold cache_link_MRU. cbv zeta.
  set (entry := length (cache_store c)) in *.
  set (new := mk_cache_entry None None p).
  destruct (same_cache_countup p (set_cache_store (cache_store c ++ [Some new]) c))
    as (S1 & S2 & S3 & S4).
  set (c2 := pdfi_countup p (set_cache_store (cache_store c ++ [Some new]) c)) in *.
  cbn in S1, S2, S3, S4. clearbody c2.
  destruct (get_obj _ p) as [ob|]; [|discriminate].
  intros H. apply same_cache_xref_set_cache in H.
  eapply cache_list_same; [exact H|]. clear H c'.
  assert (Hfresh : ~ In entry l).
  { intros Hin. apply Hlt in Hin. lia. }
  assert (Hnd' : NoDup (l ++ [entry])).
  { apply NoDup_app. split; [exact Hnd|]. split; [|apply NoDup_singleton].
    intros x Hx Hx'. apply list_elem_of_In in Hx. apply list_elem_of_In in Hx'.
    destruct Hx' as [<-|[]]. contradiction. }
  destruct (list_last_cases l) as [->|(l' & m & ->)].
  - cbn in HL, HM. rewrite S3, HM. cbn. rewrite S2, HL. cbn.
    unfold cache_list. cbn. rewrite S1, S4, HE. cbn.
    split; [exact Hnd'|]. split; [|auto].
    split; [|exact I]. exists new. split; [|auto].
    apply entry_at_app_new.
  - rewrite last_snoc in HM. rewrite S3, HM.
    destruct (set_entry_previous_fields entry (Some m) c2) as (P1 & P2 & P3 & _).
    destruct (set_entry_next_fields m (Some entry) (set_entry_previous entry (Some m) c2))
      as (N1 & N2 & N3 & _).
    set (c3 := set_entry_next m (Some entry) (set_entry_previous entry (Some m) c2)) in *.
    assert (Hm : In m (l' ++ [m])) by (apply in_or_app; right; left; reflexivity).
    destruct (dseg_live _ _ _ _ _ Hseg Hm) as [em Hem].
    apply NoDup_app_last in Hnd as [Hml' Hnd].
    assert (Hme : m <> entry) by (intros ->; contradiction).
    assert (Hst : forall q, (q < entry)%nat ->
                            entry_at (cache_store c3) q
                            = if Nat.eqb q m
                              then Some (mk_cache_entry (Some entry) (previous em) (o em))
                              else entry_at (cache_store c) q).
    { intros q Hq. unfold c3. entry_simpl. rewrite S1.
      rewrite !entry_at_app_l by (first [exact Hq | apply Hlt; exact Hm]).
      rewrite Hem. reflexivity. }
    assert (Hnew : entry_at (cache_store c3) entry
                   = Some (mk_cache_entry None (Some m) p)).
    { unfold c3. entry_simpl. rewrite S1. unfold entry. rewrite entry_at_app_new.
      reflexivity. }
    assert (HLRU : exists x, cache_LRU c3 = Some x /\ head (l' ++ [m]) = Some x).
    { rewrite N1, P1, S2, HL. destruct l'; cbn; eauto. }
    destruct HLRU as (x & Hx & Hhx).
    unfold cache_list. cbn [cache_LRU set_cache_MRU]. rewrite Hx.
    cbn [cache_LRU cache_MRU cache_entries cache_store set_cache_MRU set_cache_entries].
    split; [exact Hnd'|]. split; [|].
    + apply dseg_app. split.
      * cbn [head_or].
        apply (dseg_retarget_next (cache_store c) (cache_store c3) None l' m None
                 (Some entry) em); auto.
        -- intros q Hq. rewrite Hst by (apply Hlt; apply in_or_app; left; exact Hq).
           eqb_ne. reflexivity.
        -- rewrite Hst by (apply Hlt; exact Hm). rewrite Nat.eqb_refl. reflexivity.
      * rewrite last_or_snoc. apply dseg_single. eexists. split; [exact Hnew|]. auto.
    + rewrite Hx, N3, P3, S4, HE, last_snoc, !length_app. cbn [length].
      split; [|split; [reflexivity|lia]].
      rewrite <- Hhx. destruct l'; reflexivity.
Qed.

(** ** Eviction of the least recently used entry *)

Lemma cache_evict_list e0 rest c e c1 :
  cache_list c (e0 :: rest) -> rest <> [] -> get_entry c e0 = Some e ->
  cache_evict_detach e0 e c = Some c1 ->
  cache_list (cache_evict_release e0 e c1) rest
  /\ heap c1 = heap c
  /\ (exists ob x, get_obj c (o e) = Some ob
                   /\ xref_get c1 (object_num ob) = Some x /\ cache x = None)
  /\ heap (cache_evict_release e0 e c1) = heap (pdfi_countdown (o e) c1).
Proof.
  intros (Hnd & Hseg & HL & HM & HE) Hrest He.
  destruct rest as [|n rest']; [congruence|]. clear Hrest.
  destruct Hseg as [(e' & He' & Hp & Hn) Hseg].
  rewrite get_entry_entry_at in He. assert (e' = e) by congruence. subst e'.
  unfold cache_evict_detach. cbv zeta. rewrite Hn.
  destruct (set_entry_previous_fields n None (set_cache_LRU (Some n) c))
    as (P1 & P2 & P3 & P4 & _).
  assert (Hst2 : forall q, entry_at (cache_store
                                       (set_entry_previous n None (set_cache_LRU (Some n) c))) q
                           = if Nat.eqb q n
                             then option_map (fun e => mk_cache_entry (next e) None (o e))
                                    (entry_at (cache_store c) n)
                             else entry_at (cache_store c) q).
  { intros q. rewrite entry_at_set_entry_previous. reflexivity. }
  set (c2 := set_entry_previous n None (set_cache_LRU (Some n) c)) in *.
  cbn in P1, P2, P3, P4.
  assert (Hobj : get_obj c2 (o e) = get_obj c (o e)).
  { unfold get_obj. rewrite P4. reflexivity. }
  rewrite Hobj. destruct (get_obj c (o e)) as [ob|] eqn:Eob; [|discriminate].
  intros Hset. pose proof (same_cache_xref_set_cache _ _ _ _ Hset) as (X1 & X2 & X3 & X4).
  apply xref_set_cache_fields in Hset as (Hheap & x & Hx & Hcx).
  split; [|split; [congruence|split; [eauto|reflexivity]]].
  unfold cache_evict_release. cbv zeta.
  destruct (same_cache_countdown (o e) c1) as (D1 & D2 & D3 & D4).
  set (c3 := pdfi_countdown (o e) c1) in *. clearbody c3.
  unfold cache_list.
  cbn [cache_LRU cache_MRU cache_entries cache_store set_cache_entries set_cache_store].
  apply NoDup_cons in Hnd as [Hfresh Hnd].
  rewrite list_elem_of_In in Hfresh.
  assert (Hne : n <> e0) by (intros ->; apply Hfresh; left; reflexivity).
  destruct (dseg_live _ _ _ _ n Hseg (or_introl eq_refl)) as [en Hen].
  split; [exact Hnd|]. split; [|].
  - rewrite D1, X1.
    apply (dseg_retarget_previous (cache_store c) _ (Some e0) None n rest' None en);
      auto.
    + intros q Hq. rewrite entry_at_insert_ne
        by (intros ->; apply Hfresh; right; exact Hq).
      rewrite Hst2. apply NoDup_cons in Hnd as [Hn' _].
      rewrite list_elem_of_In in Hn'. eqb_ne. reflexivity.
    + rewrite entry_at_insert_ne by congruence.
      rewrite Hst2, Nat.eqb_refl, Hen. reflexivity.
  - rewrite D2, D3, D4, X2, X3, X4, P1, P2, P3, HM, HE.
    split; [reflexivity|]. split; [reflexivity|]. cbn [length]. lia.
Qed.

(** ** Promotion of a cache hit *)

Lemma remove_middle (x : nat) l1 l2 :
  ~ In x l1 -> ~ In x l2 -> remove Nat.eq_dec x (l1 ++ x :: l2) = l1 ++ l2.
Proof.
  intros H1 H2. rewrite remove_app, remove_cons, !notin_remove by assumption.
  reflexivity.
Qed.

Lemma NoDup_middle (x : nat) l1 l2 :
  NoDup (l1 ++ x :: l2) ->
  ~ In x l1 /\ ~ In x l2 /\ NoDup l1 /\ NoDup l2
  /\ (forall y, In y l1 -> In y l2 -> False)
  /\ NoDup (l1 ++ l2 ++ [x]).
Proof.
  intros H.
  assert (Hp : NoDup (l1 ++ l2 ++ [x])).
  { assert (Hperm : l1 ++ l2 ++ [x] ≡ₚ l1 ++ x :: l2).
    { apply Permutation_app_head. symmetry. apply Permutation_cons_append. }
    rewrite Hperm. exact H. }
  apply NoDup_app in H as (H1 & H2 & H3). apply NoDup_cons in H3 as [H3 H4].
  rewrite list_elem_of_In in H3.
  repeat split; auto.
  - intros Hin. apply (H2 x); [apply list_elem_of_In; exact Hin|left].
  - intros y Hy1 Hy2. apply (H2 y); [apply list_elem_of_In; exact Hy1|].
    right. apply list_elem_of_In. exact Hy2.
Qed.

Lemma cache_promote_list ce c l :
  cache_list c l -> In ce l ->
  cache_list (cache_promote ce c) (remove Nat.eq_dec ce l ++ [ce]).
Proof.
  intros Hl Hin. pose proof Hl as (Hnd & Hseg & HL & HM & HE).
  apply in_split in Hin as (l1 & l2 & ->).
  destruct (NoDup_middle _ _ _ Hnd) as (Hc1 & Hc2 & Hnd1 & Hnd2 & Hdisj & Hnd').
  rewrite remove_middle by assumption. rewrite <- app_assoc.
  apply dseg_app in Hseg as [Hs1 Hs2]. cbn [head_or] in Hs1.
  destruct Hs2 as [(e & He & Hp & Hn) Hs2].
  unfold cache_promote. rewrite get_entry_entry_at, He.
  destruct (list_last_cases l2) as [->|(l2' & m & ->)].
  - (* the hit entry is already the most recently used one *)
    rewrite HM, last_snoc, Nat.eqb_refl. cbn [negb app]. exact Hl.
  - assert (HMm : cache_MRU c = Some m).
    { rewrite HM. change (ce :: l2' ++ [m]) with ([ce] ++ l2' ++ [m]).
      rewrite !app_assoc. apply last_snoc. }
    assert (Hcm : ce <> m).
    { intros ->. apply Hc2. apply in_or_app. right. left. reflexivity. }
    rewrite HMm. rewrite (proj2 (Nat.eqb_neq ce m) Hcm). cbn [negb].
    assert (Hhead : exists n l2r, l2' ++ [m] = n :: l2r).
    { destruct l2'; cbn; eauto. }
    destruct Hhead as (n & l2r & Hl2). rewrite Hl2 in Hn. rewrite Hn.
    pose proof Hnd2 as Hnd2n. rewrite Hl2 in Hnd2n.
    apply NoDup_cons in Hnd2n as [Hnl2r _]. rewrite list_elem_of_In in Hnl2r.
    apply NoDup_app_last in Hnd2 as [Hml2 Hnd2].
    assert (Hnl2 : In n (l2' ++ [m])) by (rewrite Hl2; left; reflexivity).
    assert (Hml : In m (l2' ++ [m])) by (apply in_or_app; right; left; reflexivity).
    assert (Hnc : n <> ce) by (intros ->; contradiction).
    destruct (dseg_live _ _ _ _ n Hs2 Hnl2) as [en Hen].
    (* the store after the first assignment *)
    set (c1 := set_entry_previous n (previous e) c).
    assert (Hst1 : forall x, entry_at (cache_store c1) x
                             = if Nat.eqb x n
                               then Some (mk_cache_entry (next en) (previous e) (o en))
                               else entry_at (cache_store c) x).
    { intros x. unfold c1. rewrite entry_at_set_entry_previous, get_entry_entry_at, Hen.
      reflexivity. }
    assert (Hseg1 : dseg (cache_store c1) (previous e) (l2' ++ [m]) None).
    { rewrite Hl2 in *.
      apply (dseg_retarget_previous (cache_store c) _ (Some ce) (previous e) n l2r None en);
        auto.
      - intros x Hx. rewrite Hst1.
        assert (x <> n) by (intros ->; contradiction).
        eqb_ne. reflexivity.
      - rewrite Hst1, Nat.eqb_refl. reflexivity. }
    destruct (dseg_live _ _ _ _ m Hseg1 Hml) as [em1 Hem1].
    destruct (set_entry_previous_fields n (previous e) c) as (A1 & A2 & A3 & _).
    fold c1 in A1, A2, A3.
    (* the second assignment depends on the position of the hit *)
    set (c2 := match previous e with
               | Some q => set_entry_next q (Some n) c1
               | None => set_cache_LRU (Some n) c1
               end).
    set (c5 := set_entry_next m (Some ce)
                 (set_entry_previous ce (Some m) (set_entry_next ce None c2))).
    assert (Hfields : cache_entries c5 = cache_entries c
                      /\ cache_LRU c5 = cache_LRU c2
                      /\ cache_entries c2 = cache_entries c).
    { unfold c5.
      destruct (set_entry_next_fields m (Some ce)
                  (set_entry_previous ce (Some m) (set_entry_next ce None c2)))
        as (B1 & _ & B3 & _).
      destruct (set_entry_previous_fields ce (Some m) (set_entry_next ce None c2))
        as (C1 & _ & C3 & _).
      destruct (set_entry_next_fields ce None c2) as (D1 & _ & D3 & _).
      assert (cache_entries c2 = cache_entries c).
      { unfold c2. destruct (previous e) as [q|]; [|exact A3].
        destruct (set_entry_next_fields q (Some n) c1) as (_ & _ & E3 & _). congruence. }
      repeat split; congruence. }
    destruct Hfields as (F1 & F2 & F3).
    unfold cache_list.
    cbn [cache_LRU cache_MRU cache_entries cache_store set_cache_MRU].
    fold c1. fold c2. fold c5.
    split; [exact Hnd'|].
    destruct (list_last_cases l1) as [->|(l1' & q & ->)].
    + (* the hit entry was the least recently used one *)
      unfold last_or in Hp. cbn in Hp.
      assert (Ec2 : c2 = set_cache_LRU (Some n) c1) by (unfold c2; rewrite Hp; reflexivity).
      assert (Hst5 : forall x, entry_at (cache_store c5) x
                               = if Nat.eqb x m
                                 then Some (mk_cache_entry (Some ce) (previous em1) (o em1))
                                 else if Nat.eqb x ce
                                 then Some (mk_cache_entry None (Some m) (o e))
                                 else entry_at (cache_store c1) x).
      { intros x. unfold c5. rewrite Ec2. entry_simpl.
        cbn [cache_store set_cache_LRU]. rewrite Hem1.
        destruct (Nat.eqb_spec x m); [reflexivity|].
        entry_simpl. cbn [cache_store set_cache_LRU].
        destruct (Nat.eqb_spec x ce); [|reflexivity].
        rewrite Hst1. eqb_ne. rewrite He. reflexivity. }
      cbn [app]. split; [|].
      * apply dseg_app. split.
        -- cbn [head_or]. rewrite Hp in Hseg1.
           apply (dseg_retarget_next (cache_store c1) _ None l2' m None (Some ce) em1);
             auto.
           ++ intros x Hx. rewrite Hst5. eqb_ne.
              assert (x <> ce).
              { intros ->. apply Hc2. apply in_or_app. left. exact Hx. }
              eqb_ne. reflexivity.
           ++ rewrite Hst5, Nat.eqb_refl. reflexivity.
        -- rewrite last_or_snoc. apply dseg_single. eexists.
           split; [rewrite Hst5; eqb_ne; rewrite Nat.eqb_refl; reflexivity|]. auto.
      * rewrite F1, F2, Ec2, HE. cbn [cache_LRU set_cache_LRU].
        rewrite last_snoc.
        split; [rewrite Hl2; reflexivity|]. split; [reflexivity|].
        cbn [app length]. rewrite !length_app. cbn [length]. lia.
    + rewrite last_or_snoc in Hp.
      assert (Ec2 : c2 = set_entry_next q (Some n) c1) by (unfold c2; rewrite Hp; reflexivity).
      apply NoDup_app_last in Hnd1 as [Hql1 Hnd1].
      assert (Hq1 : In q (l1' ++ [q])) by (apply in_or_app; right; left; reflexivity).
      assert (Hqc : q <> ce) by (intros ->; contradiction).
      assert (Hqm : q <> m) by (intros ->; eapply Hdisj; eauto).
      assert (Hqn : q <> n) by (intros ->; eapply Hdisj; eauto).
      destruct (dseg_live _ _ _ _ q Hs1 Hq1) as [eq Heq].
      assert (Hst5 : forall x, entry_at (cache_store c5) x
                               = if Nat.eqb x m
                                 then Some (mk_cache_entry (Some ce) (previous em1) (o em1))
                                 else if Nat.eqb x ce
                                 then Some (mk_cache_entry None (Some m) (o e))
                                 else if Nat.eqb x q
                                 then Some (mk_cache_entry (Some n) (previous eq) (o eq))
                                 else entry_at (cache_store c1) x).
      { intros x. unfold c5. rewrite Ec2. entry_simpl. rewrite Hem1.
        destruct (Nat.eqb_spec x m); [reflexivity|].
        entry_simpl.
        destruct (Nat.eqb_spec x ce).
        - rewrite Hst1. eqb_ne. rewrite He. reflexivity.
        - entry_simpl. destruct (Nat.eqb_spec x q); [|reflexivity].
          rewrite Hst1. eqb_ne. rewrite Heq. reflexivity. }
      split; [|].
      * apply dseg_app. split; [|apply dseg_app; split].
        -- assert (Hh : head_or ((l2' ++ [m]) ++ [ce]) None = Some n)
             by (rewrite Hl2; reflexivity).
           rewrite Hh.
           apply (dseg_retarget_next (cache_store c) _ None l1' q (Some ce) (Some n) eq);
             auto.
           ++ intros x Hx. rewrite Hst5.
              assert (Hx1 : In x (l1' ++ [q])) by (apply in_or_app; left; exact Hx).
              assert (x <> m) by (intros ->; eapply Hdisj; eauto).
              assert (x <> ce) by (intros ->; contradiction).
              assert (x <> q) by (intros ->; contradiction).
              assert (x <> n) by (intros ->; eapply Hdisj; eauto).
              do 3 eqb_ne. rewrite Hst1. eqb_ne. reflexivity.
           ++ rewrite Hst5. do 2 eqb_ne. rewrite Nat.eqb_refl. reflexivity.
        -- cbn [head_or]. rewrite last_or_snoc. rewrite Hp in Hseg1.
           apply (dseg_retarget_next (cache_store c1) _ (Some q) l2' m None (Some ce) em1);
             auto.
           ++ intros x Hx. rewrite Hst5.
              assert (Hx2 : In x (l2' ++ [m])) by (apply in_or_app; left; exact Hx).
              assert (x <> m) by (intros ->; contradiction).
              assert (x <> ce) by (intros ->; contradiction).
              assert (x <> q) by (intros ->; eapply Hdisj; eauto).
              do 3 eqb_ne. reflexivity.
           ++ rewrite Hst5, Nat.eqb_refl. reflexivity.
        -- rewrite last_or_snoc. apply dseg_single. eexists.
           split; [rewrite Hst5; eqb_ne; rewrite Nat.eqb_refl; reflexivity|]. auto.
      * rewrite F1, F2, Ec2, HE.
        destruct (set_entry_next_fields q (Some n) c1) as (G1 & _).
        rewrite G1, A1, HL.
        rewrite !app_assoc, last_snoc.
        split; [destruct l1'; reflexivity|]. split; [reflexivity|].
        rewrite !length_app. cbn [length]. rewrite !length_app. cbn [length]. lia.
Qed.

Lemma cache_promote_heap ce c : heap (cache_promote ce c) = heap c.
Proof.
  unfold cache_promote.
  destruct (cache_MRU c) as [m|]; [|reflexivity].
  destruct (get_entry c ce) as [e|]; [|reflexivity].
  destruct (negb (Nat.eqb ce m)); [|reflexivity].
  cbn [heap set_cache_MRU].
  repeat match goal with
         | |- context [heap (set_entry_next ?p ?v ?c)] =>
             rewrite (proj1 (proj2 (proj2 (proj2 (set_entry_next_fields p v c)))))
         | |- context [heap (set_entry_previous ?p ?v ?c)] =>
             rewrite (proj1 (proj2 (proj2 (proj2 (set_entry_previous_fields p v c)))))
         end.
  destruct (next e), (previous e); cbn [heap set_cache_LRU];
  repeat match goal with
         | |- context [heap (set_entry_next ?p ?v ?c)] =>
             rewrite (proj1 (proj2 (proj2 (proj2 (set_entry_next_fields p v c)))))
         | |- context [heap (set_entry_previous ?p ?v ?c)] =>
             rewrite (proj1 (proj2 (proj2 (proj2 (set_entry_previous_fields p v c)))))
         end; reflexivity.
Qed.

Lemma pdfi_countup_live p c ob :
  get_obj c p = Some ob -> exists ob', get_obj (pdfi_countup p c) p = Some ob'.
Proof.
  intros H. unfold pdfi_countup. rewrite H.
  destruct (get_obj (put_obj p (set_refcnt (refcnt ob + 1) ob) c) p) eqn:E; eauto.
  exfalso. revert E. unfold get_obj, put_obj in *. cbn.
  destruct (heap c !! p) as [[x|]|] eqn:Eh; try discriminate.
  rewrite list_lookup_insert_eq by (eapply lookup_lt_Some; eauto). discriminate.
Qed.

(** The cache-hit branch followed by the registration of the object with
    the loop detector. *)
Lemma deref_cached_promotes c l ce e :
  cache_list c l -> In ce l -> get_entry c ce = Some e -> get_obj c (o e) <> None ->
  exists c',
    (let '(code, c1, object) := deref_cached c ce in
     if code <? 0 then (code, c1, object)
     else
       match loop_detection c1, object with
       | Some _, Some p =>
           match get_obj c1 p with
           | None => (model_undefined_behaviour, c1, object)
           | Some ob =>
               let '(code, c2) := pdfi_loop_detector_add_object c1 (object_num ob) in
               if code <? 0 then (code, c2, object) else (0, c2, object)
           end
       | Some _, None => (model_undefined_behaviour, c1, object)
       | None, _ => (0, c1, object)
       end) = (0, c', Some (o e))
    /\ cache_list c' (remove Nat.eq_dec ce l ++ [ce]).
Proof.
  intros Hl Hin Hent Hlive.
  unfold deref_cached. rewrite Hent.
  set (c1 := cache_promote ce (pdfi_countup (o e) c)).
  assert (Hl1 : cache_list c1 (remove Nat.eq_dec ce l ++ [ce])).
  { apply cache_promote_list; [|exact Hin].
    eapply cache_list_same; [apply same_cache_countup|exact Hl]. }
  cbn [Z.ltb Z.compare].
  destruct (loop_detection c1) as [chain|] eqn:Echain; [|eauto].
  destruct (get_obj c (o e)) as [ob|] eqn:Eob; [|congruence].
  destruct (pdfi_countup_live _ _ _ Eob) as [ob' Hob'].
  assert (Hob1 : get_obj c1 (o e) = Some ob').
  { unfold get_obj, c1. rewrite cache_promote_heap. exact Hob'. }
  rewrite Hob1.
  pose proof (same_cache_loop_add c1 (object_num ob')) as Hsame.
  unfold pdfi_loop_detector_add_object in *. rewrite Echain in *.
  cbn [Z.ltb Z.compare snd] in *.
  eexists. split; [reflexivity|]. eapply cache_list_same; eauto.
Qed.

Lemma cache_evict_store_length entry e c c1 :
  cache_evict_detach entry e c = Some c1 ->
  length (cache_store (cache_evict_release entry e c1)) = length (cache_store c).
Proof.
  intros Ed.
  unfold cache_evict_release. cbn [cache_store set_cache_store set_cache_entries].
  rewrite length_insert.
  destruct (same_cache_countdown (o e) c1) as (-> & _).
  unfold cache_evict_detach in Ed. cbv zeta in Ed.
  destruct (get_obj _ (o e)); [|discriminate].
  apply same_cache_xref_set_cache in Ed as (-> & _).
  destruct (next e) as [n|]; [|reflexivity].
  unfold set_entry_previous. destruct (get_entry _ n); [|reflexivity].
  cbn [cache_store set_cache_store set_cache_LRU]. apply length_insert.
Qed.

Lemma pdfi_add_to_cache_full MAX c p ob xref entry e c1 :
  get_obj c p = Some ob -> xref_table c = Some xref ->
  (object_num ob >? xref_size c) = false ->
  cache_entries c = MAX -> cache_LRU c = Some entry ->
  get_entry c entry = Some e -> cache_evict_detach entry e c = Some c1 ->
  pdfi_add_to_cache MAX c p
  = match cache_link_MRU p (cache_evict_release entry e c1) with
    | Some c3 => (0, c3)
    | None => (model_undefined_behaviour, cache_evict_release entry e c1)
    end.
Proof.
  intros H1 H2 H3 H4 H5 H6 H7. unfold pdfi_add_to_cache.
  rewrite H1, H2, H3, H4, Z.eqb_refl, H5, H6, H7.
  reflexivity.
Qed.

Lemma pdfi_add_to_cache_room MAX c p ob xref :
  get_obj c p = Some ob -> xref_table c = Some xref ->
  (object_num ob >? xref_size c) = false ->
  cache_entries c <> MAX ->
  pdfi_add_to_cache MAX c p
  = match cache_link_MRU p c with
    | Some c3 => (0, c3)
    | None => (model_undefined_behaviour, c)
    end.
Proof.
  intros H1 H2 H3 H4. unfold pdfi_add_to_cache.
  rewrite H1, H2, H3. apply Z.eqb_neq in H4. rewrite H4.
  reflexivity.
Qed.

Lemma pdfi_add_to_cache_undefined MAX c p :
  get_obj c p = None \/ xref_table c = None ->
  pdfi_add_to_cache MAX c p = (model_undefined_behaviour, c).
Proof.
  intros H. unfold pdfi_add_to_cache.
  destruct H as [H|H]; rewrite H; [reflexivity|].
  destruct (get_obj c p); reflexivity.
Qed.

Lemma pdfi_add_to_cache_rangecheck MAX c p ob xref :
  get_obj c p = Some ob -> xref_table c = Some xref ->
  (object_num ob >? xref_size c) = true ->
  pdfi_add_to_cache MAX c p = (gs_error_rangecheck, c).
Proof.
  intros H1 H2 H3. unfold pdfi_add_to_cache. rewrite H1, H2, H3. reflexivity.
Qed.

(** A new context has an empty cache. *)
Lemma cache_list_new_context stoponerror file :
  cache_list (new_context stoponerror file) [].
Proof.
  unfold cache_list. split; [apply NoDup_nil_2|]. cbn. auto.
Qed.

(** C6.  Let the cache of [c] be the doubly linked list [l], least recently
    used entry first, of at most MAX_OBJECT_CACHE_SIZE entries (a capacity
    of at least 2).  Whatever pdfi_add_to_cache returns, where its behaviour
    is defined, the cache is again such a list of at most
    MAX_OBJECT_CACHE_SIZE entries.  A successful
    insertion below capacity appends the new entry; at capacity the entry
    at the head of [l] is evicted first: the xref entry of its object has
    its [cache] pointer cleared in a state where the heap is still the one
    of [c], then the object is counted down, and then the new entry is
    linked at the MRU end of the rest of the list.  A cache hit in
    pdfi_dereference returns the cached object and moves the hit entry to
    the MRU end. *)
Theorem pdfi_cache_bounded_LRU (MAX : Z) (fd : pdf_obj -> list Z -> option (list Z))
    (c : pdf_context) (l : list nat) :
  2 <= MAX ->
  cache_list c l ->
  Z.of_nat (length l) <= MAX ->
  (forall p code c',
      pdfi_add_to_cache MAX c p = (code, c') ->
      code <> model_undefined_behaviour ->
      (exists l', cache_list c' l' /\ Z.of_nat (length l') <= MAX)
      /\ (code = 0 -> Z.of_nat (length l) < MAX ->
          cache_list c' (l ++ [length (cache_store c)]))
      /\ (code = 0 -> Z.of_nat (length l) = MAX ->
          exists entry rest e c1,
            l = entry :: rest
            /\ cache_LRU c = Some entry
            /\ get_entry c entry = Some e
            /\ cache_evict_detach entry e c = Some c1
            /\ heap c1 = heap c
            /\ (exists ob x, get_obj c (o e) = Some ob
                             /\ xref_get c1 (object_num ob) = Some x
                             /\ cache x = None)
            /\ heap (cache_evict_release entry e c1) = heap (pdfi_countdown (o e) c1)
            /\ cache_link_MRU p (cache_evict_release entry e c1) = Some c'
            /\ cache_list c' (rest ++ [length (cache_store c)])))
  /\ (forall fuel obj gen entry ce e,
         xref_get c obj = Some entry ->
         xobject_num entry <> 0 ->
         free entry = false ->
         pdfi_loop_detector_check_object c obj = false ->
         cache entry = Some ce ->
         In ce l ->
         get_entry c ce = Some e ->
         get_obj c (o e) <> None ->
         exists c',
           pdfi_dereference MAX fd (S fuel) c obj gen = (0, c', Some (o e))
           /\ cache_list c' (remove Nat.eq_dec ce l ++ [ce])).
Proof.
  intros HMAX Hl Hlen. split.
  - intros p code c' Hadd Hcode.
    pose proof Hl as (Hnd & Hseg & HL & HM & HE).
    destruct (get_obj c p) as [ob|] eqn:Eob;
      [|rewrite pdfi_add_to_cache_undefined in Hadd by auto;
        exfalso; apply Hcode; inversion Hadd; reflexivity].
    destruct (xref_table c) as [xref|] eqn:Ex;
      [|rewrite pdfi_add_to_cache_undefined in Hadd by auto;
        exfalso; apply Hcode; inversion Hadd; reflexivity].
    destruct (object_num ob >? xref_size c) eqn:Erange.
    { rewrite (pdfi_add_to_cache_rangecheck MAX c p ob xref) in Hadd by assumption.
      inversion Hadd; subst. split; [eauto|]. split; intros; discriminate. }
    destruct (Z.eq_dec (cache_entries c) MAX) as [Hfull|Hroom].
    + destruct l as [|entry rest]; [cbn in HE; lia|].
      assert (Hrest : rest <> []) by (intros ->; cbn in HE; lia).
      cbn [head] in HL.
      destruct (dseg_live _ _ _ _ entry Hseg (or_introl eq_refl)) as [e Ee].
      rewrite <- get_entry_entry_at in Ee.
      destruct (cache_evict_detach entry e c) as [c1|] eqn:Ed.
      2:{ exfalso. apply Hcode. unfold pdfi_add_to_cache in Hadd.
          rewrite Eob, Ex, Erange, Hfull, Z.eqb_refl, HL, Ee, Ed in Hadd.
          inversion Hadd. reflexivity. }
      rewrite (pdfi_add_to_cache_full MAX c p ob xref entry e c1) in Hadd by assumption.
      destruct (cache_evict_list entry rest c e c1 Hl Hrest Ee Ed)
        as (Hl1 & Hheap & Hback & Hrel).
      pose proof (cache_evict_store_length _ _ _ _ Ed) as Hstore.
      destruct (cache_link_MRU p (cache_evict_release entry e c1)) as [c3|] eqn:Elink;
        [|exfalso; apply Hcode; inversion Hadd; reflexivity].
      inversion Hadd; subst code c'. clear Hadd.
      pose proof (cache_link_MRU_list _ _ _ _ Hl1 Elink) as Hl3.
      rewrite Hstore in Hl3.
      split; [|split].
      * eexists. split; [exact Hl3|]. rewrite length_app. cbn [length] in Hlen |- *. lia.
      * intros _ Hlt. lia.
      * intros _ _. exists entry, rest, e, c1.
        split; [reflexivity|]. split; [exact HL|]. split; [exact Ee|].
        split; [exact Ed|]. split; [exact Hheap|]. split; [exact Hback|].
        split; [exact Hrel|]. split; [exact Elink|exact Hl3].
    + rewrite (pdfi_add_to_cache_room MAX c p ob xref) in Hadd by assumption.
      destruct (cache_link_MRU p c) as [c3|] eqn:Elink;
        [|exfalso; apply Hcode; inversion Hadd; reflexivity].
      inversion Hadd; subst code c'. clear Hadd.
      pose proof (cache_link_MRU_list _ _ _ _ Hl Elink) as Hl3.
      split; [|split].
      * eexists. split; [exact Hl3|]. rewrite length_app. cbn [length]. lia.
      * intros _ _. exact Hl3.
      * intros _ Hfull. lia.
  - intros fuel obj gen entry ce e Hget Hnum Hfree Hloop Hcache Hin Hent Hlive.
    pose proof Hget as Hget'. unfold xref_get in Hget'.
    destruct (xref_table c) as [xref|] eqn:Ex; [|discriminate].
    destruct (obj <? 0) eqn:Eneg; [discriminate|].
    pose proof (lookup_lt_Some _ _ _ Hget') as Hlt.
    rewrite pdfi_dereference_S.
    rewrite (pdfi_dereference_body_in_table MAX fd _ c obj gen xref entry Ex)
      by (try lia; exact Hget').
    destruct (Z.eqb_spec (xobject_num entry) 0) as [|_]; [contradiction|].
    rewrite Hfree, Hloop, andb_false_r, Hcache.
    exact (deref_cached_promotes c l ce e Hl Hin Hent Hlive).
Qed.

(** A cache of capacity 2 holding objects 1 and 2: inserting object 3
    evicts the entry of object 1, and a hit on object 1 moves its entry
    behind the one of object 2. *)
Lemma pdfi_cache_bounded_LRU_witness :
  (exists c', pdfi_add_to_cache 2 full_cache 2 = (0, c')
              /\ cache_list c' [1%nat; 2%nat])
  /\ (exists c', pdfi_dereference 2 no_filter 1 full_cache 1 0 = (0, c', Some 0%nat)
                 /\ cache_list c' [1%nat; 0%nat]).
Proof.
  assert (Hl : cache_list full_cache [0%nat; 1%nat]).
  { unfold cache_list. split; [apply (bool_decide_unpack _); vm_compute; exact I|].
    split; [|vm_compute; auto].
    split; [eexists; vm_compute; eauto|].
    split; [eexists; vm_compute; eauto|exact I]. }
  destruct (pdfi_cache_bounded_LRU 2 no_filter full_cache [0%nat; 1%nat]
              ltac:(lia) Hl ltac:(simpl; lia)) as [Hadd Hhit].
  split.
  - destruct (Hadd 2%nat 0 (snd (pdfi_add_to_cache 2 full_cache 2))
                ltac:(vm_compute; reflexivity) ltac:(discriminate))
      as (_ & _ & Hfull).
    destruct (Hfull eq_refl eq_refl)
      as (entry & rest & e & c1 & Heq & _ & _ & _ & _ & _ & _ & _ & Hlist).
    inversion Heq; subst entry rest.
    eexists. split; [vm_compute; reflexivity|exact Hlist].
  - destruct (Hhit 0%nat 1 0 (set_xcache (Some 0%nat) (classic_entry 1 0)) 0%nat
                (mk_cache_entry (Some 1%nat) None 0%nat))
      as (c' & Hd & Hlist).
    + reflexivity.
    + discriminate.
    + reflexivity.
    + reflexivity.
    + reflexivity.
    + left. reflexivity.
    + reflexivity.
    + discriminate.
    + exists c'. split; [exact Hd|exact Hlist].
Defined.

(** ** The chain of the loop detector across the functions of the reader *)

Create Rewrite HintDb ld.
Create HintDb ldopt discriminated.

Ltac ld_norm :=
  repeat first
    [ progress autorewrite with ld
    | progress cbn [fst snd]
    | progress cbv beta zeta
    | match goal with
      | H : loop_detection ?x = _ |- context [loop_detection ?x] => rewrite H
      | H : forall _, loop_detection _ = _ |- _ => rewrite H
      | H : forall _ _, loop_detection _ = _ |- _ => rewrite H
      | H : forall _ _ _, loop_detection _ = _ |- _ => rewrite H
      | H : forall _ _ _ _, loop_detection _ = _ |- _ => rewrite H
      | H : forall _ _ _ _ _, loop_detection _ = _ |- _ => rewrite H
      end ].

Ltac ld_fact x :=
  lazymatch type of x with
  | (_ * pdf_context * _ * _ * _)%type =>
      eassert (loop_detection (snd (fst (fst (fst x)))) = _)
        by (progress ld_norm; reflexivity)
  | (_ * pdf_context * _ * _)%type =>
      eassert (loop_detection (snd (fst (fst x))) = _) by (progress ld_norm; reflexivity)
  | (_ * pdf_context * _)%type =>
      eassert (loop_detection (snd (fst x)) = _) by (progress ld_norm; reflexivity)
  | (_ * pdf_context)%type =>
      eassert (loop_detection (snd x) = _) by (progress ld_norm; reflexivity)
  | (_ * _ * pdf_context)%type =>
      eassert (loop_detection (snd x) = _) by (progress ld_norm; reflexivity)
  | option pdf_context =>
      eassert (ld_opt x _) by (solve [eauto with ldopt])
  end.

Ltac ld_walk :=
  repeat first
    [ reflexivity
    | progress ld_norm
    | match goal with
      | |- context [match ?x with _ => _ end] =>
          lazymatch x with
          | context [match _ with _ => _ end] => fail
          | _ => idtac
          end;
          first [ ld_fact x; destruct x as [[[[? ?] ?] ?] ?]
                | ld_fact x; destruct x as [[[? ?] ?] ?]
                | ld_fact x; destruct x as [[? ?] ?]
                | ld_fact x; destruct x as [? ?]
                | ld_fact x; destruct x as [?|]
                | destruct x eqn:? ];
          cbn [fst snd ld_opt] in *
      end ].

Lemma ld_set_pdf_errors e c : loop_detection (set_pdf_errors e c) = loop_detection c.
Proof. reflexivity. Qed.
Lemma ld_set_heap h c : loop_detection (set_heap h c) = loop_detection c.
Proof. reflexivity. Qed.
Lemma ld_set_stack s c : loop_detection (set_stack s c) = loop_detection c.
Proof. reflexivity. Qed.
Lemma ld_set_xref_table x c : loop_detection (set_xref_table x c) = loop_detection c.
Proof. reflexivity. Qed.
Lemma ld_set_cache_store x c : loop_detection (set_cache_store x c) = loop_detection c.
Proof. reflexivity. Qed.
Lemma ld_set_cache_LRU x c : loop_detection (set_cache_LRU x c) = loop_detection c.
Proof. reflexivity. Qed.
Lemma ld_set_cache_MRU x c : loop_detection (set_cache_MRU x c) = loop_detection c.
Proof. reflexivity. Qed.
Lemma ld_set_cache_entries x c : loop_detection (set_cache_entries x c) = loop_detection c.
Proof. reflexivity. Qed.
Lemma ld_set_main_stream x c : loop_detection (set_main_stream x c) = loop_detection c.
Proof. reflexivity. Qed.
Lemma ld_set_compressed_stream x c :
  loop_detection (set_compressed_stream x c) = loop_detection c.
Proof. reflexivity. Qed.
Lemma ld_put_stream sel stm c : loop_detection (put_stream sel stm c) = loop_detection c.
Proof. destruct sel; reflexivity. Qed.
Lemma ld_put_obj p ob c : loop_detection (put_obj p ob c) = loop_detection c.
Proof. reflexivity. Qed.
Lemma ld_pdfi_countdown p c : loop_detection (pdfi_countdown p c) = loop_detection c.
Proof. reflexivity. Qed.
Lemma ld_pdfi_free_object p c : loop_detection (pdfi_free_object p c) = loop_detection c.
Proof. reflexivity. Qed.

#[local] Hint Rewrite ld_set_pdf_errors ld_set_heap ld_set_stack ld_set_xref_table
  ld_set_cache_store ld_set_cache_LRU ld_set_cache_MRU ld_set_cache_entries
  ld_set_main_stream ld_set_compressed_stream ld_put_stream ld_put_obj
  ld_pdfi_countdown ld_pdfi_free_object : ld.

Lemma ld_pdfi_countup p c : loop_detection (pdfi_countup p c) = loop_detection c.
Proof. unfold pdfi_countup. ld_walk. Qed.
#[local] Hint Rewrite ld_pdfi_countup : ld.

Lemma ld_pdfi_read_byte sel c :
  loop_detection (snd (pdfi_read_byte sel c)) = loop_detection c.
Proof. unfold pdfi_read_byte. destruct (read_byte_stream _) as [[n b] st]. ld_walk. Qed.
#[local] Hint Rewrite ld_pdfi_read_byte : ld.

Lemma ld_pdfi_unread sel bs c :
  loop_detection (snd (pdfi_unread sel bs c)) = loop_detection c.
Proof. unfold pdfi_unread. ld_walk. Qed.
#[local] Hint Rewrite ld_pdfi_unread : ld.

Lemma ld_pdfi_seek sel off o c :
  loop_detection (snd (pdfi_seek sel off o c)) = loop_detection c.
Proof. unfold pdfi_seek. ld_walk. Qed.
#[local] Hint Rewrite ld_pdfi_seek : ld.

Lemma ld_restore_offset saved c :
  loop_detection (restore_offset saved c) = loop_detection c.
Proof. unfold restore_offset. ld_walk. Qed.
#[local] Hint Rewrite ld_restore_offset : ld.

Lemma ld_pdfi_close_file c : loop_detection (pdfi_close_file c) = loop_detection c.
Proof. reflexivity. Qed.
#[local] Hint Rewrite ld_pdfi_close_file : ld.

Lemma ld_pdfi_alloc_object c t sz :
  loop_detection (snd (fst (pdfi_alloc_object c t sz))) = loop_detection c.
Proof. reflexivity. Qed.
#[local] Hint Rewrite ld_pdfi_alloc_object : ld.

Lemma ld_pdfi_push p c : loop_detection (snd (pdfi_push p c)) = loop_detection c.
Proof. unfold pdfi_push. ld_walk. Qed.
#[local] Hint Rewrite ld_pdfi_push : ld.

Lemma ld_pdfi_pop n : forall c, loop_detection (pdfi_pop n c) = loop_detection c.
Proof. induction n as [|n IH]; intros c; cbn [pdfi_pop]; ld_walk. Qed.
#[local] Hint Rewrite ld_pdfi_pop : ld.

Lemma ld_pdfi_clearstack c : loop_detection (pdfi_clearstack c) = loop_detection c.
Proof. unfold pdfi_clearstack. ld_walk. Qed.
#[local] Hint Rewrite ld_pdfi_clearstack : ld.

Lemma ld_pdfi_mark_stack t c :
  loop_detection (snd (pdfi_mark_stack t c)) = loop_detection c.
Proof. unfold pdfi_mark_stack. ld_walk. Qed.
#[local] Hint Rewrite ld_pdfi_mark_stack : ld.

Lemma ld_pdfi_clear_to_mark c :
  loop_detection (snd (pdfi_clear_to_mark c)) = loop_detection c.
Proof. unfold pdfi_clear_to_mark. ld_walk. Qed.
#[local] Hint Rewrite ld_pdfi_clear_to_mark : ld.

Lemma ld_skip_white_loop sel fuel :
  forall read c, loop_detection (snd (skip_white_loop fuel read sel c)) = loop_detection c.
Proof. induction fuel as [|fuel IH]; intros read c; cbn [skip_white_loop]; ld_walk. Qed.
#[local] Hint Rewrite ld_skip_white_loop : ld.

Lemma ld_skip_white sel c : loop_detection (snd (skip_white sel c)) = loop_detection c.
Proof. unfold skip_white. ld_walk. Qed.
#[local] Hint Rewrite ld_skip_white : ld.

Lemma ld_skip_eol_loop sel fuel :
  forall read c, loop_detection (snd (skip_eol_loop fuel read sel c)) = loop_detection c.
Proof. induction fuel as [|fuel IH]; intros read c; cbn [skip_eol_loop]; ld_walk. Qed.
#[local] Hint Rewrite ld_skip_eol_loop : ld.

Lemma ld_skip_eol sel c : loop_detection (snd (skip_eol sel c)) = loop_detection c.
Proof. unfold skip_eol. ld_walk. Qed.
#[local] Hint Rewrite ld_skip_eol : ld.

Lemma ld_pdfi_read_num_loop sel fuel :
  forall c Buffer real malformed,
    loop_detection (snd (fst (fst (fst (pdfi_read_num_loop fuel sel c Buffer real malformed)))))
    = loop_detection c.
Proof.
  induction fuel as [|fuel IH]; intros c Buffer real malformed;
    cbn [pdfi_read_num_loop]; ld_walk.
Qed.
#[local] Hint Rewrite ld_pdfi_read_num_loop : ld.

Lemma ld_pdfi_read_num_object c Buffer real malformed :
  loop_detection (snd (pdfi_read_num_object c Buffer real malformed)) = loop_detection c.
Proof. unfold pdfi_read_num_object. ld_walk. Qed.
#[local] Hint Rewrite ld_pdfi_read_num_object : ld.

Lemma ld_pdfi_read_num sel c :
  loop_detection (snd (pdfi_read_num sel c)) = loop_detection c.
Proof. unfold pdfi_read_num. ld_walk. Qed.
#[local] Hint Rewrite ld_pdfi_read_num : ld.

Lemma ld_pdfi_read_bytes2 sel c :
  loop_detection (snd (pdfi_read_bytes2 sel c)) = loop_detection c.
Proof. unfold pdfi_read_bytes2. ld_walk. Qed.
#[local] Hint Rewrite ld_pdfi_read_bytes2 : ld.

Lemma ld_pdfi_read_name_loop sel fuel :
  forall c Buffer index,
    loop_detection (snd (fst (fst (pdfi_read_name_loop fuel sel c Buffer index))))
    = loop_detection c.
Proof.
  induction fuel as [|fuel IH]; intros c Buffer index; cbn [pdfi_read_name_loop]; ld_walk.
Qed.
#[local] Hint Rewrite ld_pdfi_read_name_loop : ld.

Lemma ld_pdfi_read_name sel c :
  loop_detection (snd (pdfi_read_name sel c)) = loop_detection c.
Proof. unfold pdfi_read_name. ld_walk. Qed.
#[local] Hint Rewrite ld_pdfi_read_name : ld.

Lemma ld_read_nonwhite sel fuel :
  forall c, loop_detection (snd (read_nonwhite fuel sel c)) = loop_detection c.
Proof. induction fuel as [|fuel IH]; intros c; cbn [read_nonwhite]; ld_walk. Qed.
#[local] Hint Rewrite ld_read_nonwhite : ld.

Lemma ld_pdfi_read_hexstring_loop sel fuel :
  forall c Buffer index,
    loop_detection (snd (fst (fst (pdfi_read_hexstring_loop fuel sel c Buffer index))))
    = loop_detection c.
Proof.
  induction fuel as [|fuel IH]; intros c Buffer index;
    cbn [pdfi_read_hexstring_loop]; ld_walk.
Qed.
#[local] Hint Rewrite ld_pdfi_read_hexstring_loop : ld.

Lemma ld_pdfi_read_hexstring sel c :
  loop_detection (snd (pdfi_read_hexstring sel c)) = loop_detection c.
Proof. unfold pdfi_read_hexstring. ld_walk. Qed.
#[local] Hint Rewrite ld_pdfi_read_hexstring : ld.

Lemma ld_pdfi_read_string_body sel c st :
  loop_detection (snd (pdfi_read_string_body sel c st)) = loop_detection c.
Proof. unfold pdfi_read_string_body. ld_walk. Qed.
#[local] Hint Rewrite ld_pdfi_read_string_body : ld.

Lemma ld_pdfi_read_string_loop sel fuel :
  forall c st,
    loop_detection (snd (fst (pdfi_read_string_loop fuel sel c st))) = loop_detection c.
Proof.
  induction fuel as [|fuel IH]; intros c st; cbn [pdfi_read_string_loop]; ld_walk.
Qed.
#[local] Hint Rewrite ld_pdfi_read_string_loop : ld.

Lemma ld_pdfi_read_string sel c :
  loop_detection (snd (pdfi_read_string sel c)) = loop_detection c.
Proof. unfold pdfi_read_string. ld_walk. Qed.
#[local] Hint Rewrite ld_pdfi_read_string : ld.

Lemma ld_set_array_value a i p c :
  loop_detection (set_array_value a i p c) = loop_detection c.
Proof. unfold set_array_value. ld_walk. Qed.
Lemma ld_set_dict_key a i p c :
  loop_detection (set_dict_key a i p c) = loop_detection c.
Proof. unfold set_dict_key. ld_walk. Qed.
Lemma ld_set_entries a n c : loop_detection (set_entries a n c) = loop_detection c.
Proof. unfold set_entries. ld_walk. Qed.
Lemma ld_set_keyword_key k K c : loop_detection (set_keyword_key k K c) = loop_detection c.
Proof. unfold set_keyword_key. ld_walk. Qed.
#[local] Hint Rewrite ld_set_array_value ld_set_dict_key ld_set_entries
  ld_set_keyword_key : ld.

Lemma ld_array_fill_from_stack a n :
  forall c, loop_detection (array_fill_from_stack n a c) = loop_detection c.
Proof. induction n as [|n IH]; intros c; cbn [array_fill_from_stack]; ld_walk. Qed.
#[local] Hint Rewrite ld_array_fill_from_stack : ld.

Lemma ld_pdfi_array_from_stack c :
  loop_detection (snd (pdfi_array_from_stack c)) = loop_detection c.
Proof. unfold pdfi_array_from_stack. ld_walk. Qed.
#[local] Hint Rewrite ld_pdfi_array_from_stack : ld.

Lemma ld_dict_fill_from_stack d n :
  forall c, loop_detection (snd (dict_fill_from_stack n d c)) = loop_detection c.
Proof. induction n as [|n IH]; intros c; cbn [dict_fill_from_stack]; ld_walk. Qed.
#[local] Hint Rewrite ld_dict_fill_from_stack : ld.

Lemma ld_pdfi_dict_from_stack c :
  loop_detection (snd (pdfi_dict_from_stack c)) = loop_detection c.
Proof. unfold pdfi_dict_from_stack. ld_walk. Qed.
#[local] Hint Rewrite ld_pdfi_dict_from_stack : ld.

Lemma ld_pdfi_skip_comment_loop sel fuel :
  forall c, loop_detection (snd (pdfi_skip_comment_loop fuel sel c)) = loop_detection c.
Proof. induction fuel as [|fuel IH]; intros c; cbn [pdfi_skip_comment_loop]; ld_walk. Qed.
#[local] Hint Rewrite ld_pdfi_skip_comment_loop : ld.

Lemma ld_pdfi_skip_comment sel c :
  loop_detection (snd (pdfi_skip_comment sel c)) = loop_detection c.
Proof. unfold pdfi_skip_comment. ld_walk. Qed.
#[local] Hint Rewrite ld_pdfi_skip_comment : ld.

Lemma ld_pdfi_read_keyword_loop sel fuel :
  forall c Buffer,
    loop_detection (snd (fst (pdfi_read_keyword_loop fuel sel c Buffer))) = loop_detection c.
Proof.
  induction fuel as [|fuel IH]; intros c Buffer; cbn [pdfi_read_keyword_loop]; ld_walk.
Qed.
#[local] Hint Rewrite ld_pdfi_read_keyword_loop : ld.

Lemma ld_countdown_return k code c :
  loop_detection (snd (countdown_return k code c)) = loop_detection c.
Proof. unfold countdown_return. ld_walk. Qed.
#[local] Hint Rewrite ld_countdown_return : ld.

Lemma ld_pdfi_read_keyword_R k c :
  loop_detection (snd (pdfi_read_keyword_R k c)) = loop_detection c.
Proof. unfold pdfi_read_keyword_R. ld_walk. Qed.
#[local] Hint Rewrite ld_pdfi_read_keyword_R : ld.

Lemma ld_pdfi_read_keyword_const k t v c :
  loop_detection (snd (pdfi_read_keyword_const k t v c)) = loop_detection c.
Proof. unfold pdfi_read_keyword_const. ld_walk. Qed.
#[local] Hint Rewrite ld_pdfi_read_keyword_const : ld.

Lemma ld_pdfi_read_keyword sel c :
  loop_detection (snd (pdfi_read_keyword sel c)) = loop_detection c.
Proof. unfold pdfi_read_keyword. ld_walk. Qed.
#[local] Hint Rewrite ld_pdfi_read_keyword : ld.

Lemma ld_pdfi_read_token_fuel sel fuel :
  forall c, loop_detection (snd (pdfi_read_token_fuel fuel sel c)) = loop_detection c.
Proof. induction fuel as [|fuel IH]; intros c; cbn [pdfi_read_token_fuel]; ld_walk. Qed.
#[local] Hint Rewrite ld_pdfi_read_token_fuel : ld.

Lemma ld_pdfi_read_token sel c :
  loop_detection (snd (pdfi_read_token sel c)) = loop_detection c.
Proof. unfold pdfi_read_token. ld_walk. Qed.
#[local] Hint Rewrite ld_pdfi_read_token : ld.

Lemma ld_pdfi_dict_get c d Key :
  loop_detection (snd (fst (pdfi_dict_get c d Key))) = loop_detection c.
Proof. unfold pdfi_dict_get. ld_walk. Qed.
#[local] Hint Rewrite ld_pdfi_dict_get : ld.

Lemma ld_read_int_token sel c :
  loop_detection (snd (fst (read_int_token sel c))) = loop_detection c.
Proof. unfold read_int_token. ld_walk. Qed.
#[local] Hint Rewrite ld_read_int_token : ld.

Lemma ld_read_until_keyword sel fuel :
  forall c, loop_detection (snd (read_until_keyword fuel sel c)) = loop_detection c.
Proof. induction fuel as [|fuel IH]; intros c; cbn [read_until_keyword]; ld_walk. Qed.
#[local] Hint Rewrite ld_read_until_keyword : ld.

(** The cache. *)
Lemma ld_set_entry_next p v c : loop_detection (set_entry_next p v c) = loop_detection c.
Proof. unfold set_entry_next. ld_walk. Qed.
Lemma ld_set_entry_previous p v c :
  loop_detection (set_entry_previous p v c) = loop_detection c.
Proof. unfold set_entry_previous. ld_walk. Qed.
#[local] Hint Rewrite ld_set_entry_next ld_set_entry_previous : ld.

Lemma ld_xref_set i e c : ld_opt (xref_set i e c) (loop_detection c).
Proof.
  unfold xref_set. destruct (xref_table c); [|exact I].
  destruct (_ && _); [reflexivity|exact I].
Qed.
Lemma ld_xref_set_cache i v c : ld_opt (xref_set_cache i v c) (loop_detection c).
Proof. unfold xref_set_cache. destruct (xref_get c i); [apply ld_xref_set|exact I]. Qed.
#[local] Hint Resolve ld_xref_set ld_xref_set_cache : ldopt.

Lemma ld_opt_eq x l l' : ld_opt x l -> l = l' -> ld_opt x l'.
Proof. intros H <-. exact H. Qed.

Lemma ld_cache_evict_detach entry e c :
  ld_opt (cache_evict_detach entry e c) (loop_detection c).
Proof.
  unfold cache_evict_detach. cbv zeta.
  destruct (get_obj _ (o e)); [|exact I].
  eapply ld_opt_eq; [apply ld_xref_set_cache|].
  destruct (next e); ld_walk.
Qed.
#[local] Hint Resolve ld_cache_evict_detach : ldopt.

Lemma ld_cache_evict_release entry e c :
  loop_detection (cache_evict_release entry e c) = loop_detection c.
Proof. reflexivity. Qed.
#[local] Hint Rewrite ld_cache_evict_release : ld.

Lemma ld_cache_link_MRU p c : ld_opt (cache_link_MRU p c) (loop_detection c).
Proof.
  unfold cache_link_MRU. cbv zeta.
  destruct (get_obj _ p); [|exact I].
  eapply ld_opt_eq; [apply ld_xref_set_cache|].
  ld_walk.
Qed.
#[local] Hint Resolve ld_cache_link_MRU : ldopt.

Lemma ld_pdfi_add_to_cache MAX c p :
  loop_detection (snd (pdfi_add_to_cache MAX c p)) = loop_detection c.
Proof. unfold pdfi_add_to_cache. ld_walk. Qed.
#[local] Hint Rewrite ld_pdfi_add_to_cache : ld.

Lemma ld_cache_promote ce c : loop_detection (cache_promote ce c) = loop_detection c.
Proof. unfold cache_promote. ld_walk. Qed.
#[local] Hint Rewrite ld_cache_promote : ld.

Lemma ld_number_and_cache MAX objnum gen c :
  loop_detection (snd (number_and_cache MAX objnum gen c)) = loop_detection c.
Proof. unfold number_and_cache. ld_walk. Qed.
#[local] Hint Rewrite ld_number_and_cache : ld.

Lemma ld_pdfi_filter fd c d : loop_detection (snd (pdfi_filter fd c d)) = loop_detection c.
Proof. unfold pdfi_filter. ld_walk. Qed.
#[local] Hint Rewrite ld_pdfi_filter : ld.

Lemma ld_read_objstm_pairs n :
  forall i oi off c,
    loop_detection (snd (fst (read_objstm_pairs n i oi off c))) = loop_detection c.
Proof. induction n as [|n IH]; intros i oi off c; cbn [read_objstm_pairs]; ld_walk. Qed.
#[local] Hint Rewrite ld_read_objstm_pairs : ld.

Lemma ld_skip_member_offset n :
  forall i c, loop_detection (snd (skip_member_offset n i c)) = loop_detection c.
Proof. induction n as [|n IH]; intros i c; cbn [skip_member_offset]; ld_walk. Qed.
#[local] Hint Rewrite ld_skip_member_offset : ld.

Lemma ld_read_composite fuel :
  forall d c, loop_detection (snd (read_composite fuel d c)) = loop_detection c.
Proof. induction fuel as [|fuel IH]; intros d c; cbn [read_composite]; ld_walk. Qed.
#[local] Hint Rewrite ld_read_composite : ld.

Lemma ld_deref_out_of_range c :
  loop_detection (snd (fst (deref_out_of_range c))) = loop_detection c.
Proof. unfold deref_out_of_range. ld_walk. Qed.
Lemma ld_deref_free_entry c :
  loop_detection (snd (fst (deref_free_entry c))) = loop_detection c.
Proof. unfold deref_free_entry. ld_walk. Qed.
Lemma ld_deref_cached c ce :
  loop_detection (snd (fst (deref_cached c ce))) = loop_detection c.
Proof. unfold deref_cached. ld_walk. Qed.
#[local] Hint Rewrite ld_deref_out_of_range ld_deref_free_entry ld_deref_cached : ld.

(** *** Functions that resolve references *)

Lemma chain_ext_refl a : chain_ext a a.
Proof. destruct a as [l|]; [exists []; reflexivity|exact I]. Qed.

Lemma chain_ext_trans a b c : chain_ext a b -> chain_ext b c -> chain_ext a c.
Proof.
  destruct a as [l|]; [|intros; exact I].
  intros [m1 ->] [m2 ->]. exists (m2 ++ m1). rewrite app_assoc. reflexivity.
Qed.

Lemma chain_ext_add_object c n :
  chain_ext (loop_detection c)
    (loop_detection (snd (pdfi_loop_detector_add_object c n))).
Proof.
  unfold pdfi_loop_detector_add_object.
  destruct (loop_detection c) as [l|] eqn:E; cbn [snd]; [|exact I].
  exists [n]. reflexivity.
Qed.

Create HintDb ldext discriminated.
#[local] Hint Resolve chain_ext_add_object : ldext.

Ltac ext_fact c x :=
  lazymatch type of x with
  | (_ * pdf_context * _)%type =>
      assert (chain_ext (loop_detection c) (loop_detection (snd (fst x))))
        by (eapply chain_ext_trans; [|solve [eauto with ldext]];
            ld_norm; first [apply chain_ext_refl | assumption])
  | (_ * pdf_context)%type =>
      assert (chain_ext (loop_detection c) (loop_detection (snd x)))
        by (eapply chain_ext_trans; [|solve [eauto with ldext]];
            ld_norm; first [apply chain_ext_refl | assumption])
  end.

Ltac ext_walk c :=
  repeat first
    [ apply chain_ext_refl
    | assumption
    | progress ld_norm
    | match goal with
      | |- context [match ?x with _ => _ end] =>
          lazymatch x with
          | context [match _ with _ => _ end] => fail
          | _ => idtac
          end;
          first [ ld_fact x; destruct x as [[[[? ?] ?] ?] ?]
                | ld_fact x; destruct x as [[[? ?] ?] ?]
                | ld_fact x; destruct x as [[? ?] ?]
                | ld_fact x; destruct x as [? ?]
                | ld_fact x; destruct x as [?|]
                | ext_fact c x; destruct x as [[? ?] ?]
                | ext_fact c x; destruct x as [? ?]
                | destruct x eqn:? ];
          cbn [fst snd ld_opt] in *
      end
    | eapply chain_ext_trans; [|solve [eauto with ldext]] ].

Section ChainOfNestedCalls.

Variable MAX : Z.
Variable fd : pdf_obj -> list Z -> option (list Z).
Variable deref : deref_fn.
Hypothesis Hderef : forall c obj gen,
  chain_ext (loop_detection c) (loop_detection (snd (fst (deref c obj gen)))).

#[local] Hint Resolve Hderef : ldext.

Lemma ext_pdfi_dict_get_type c d Key t :
  chain_ext (loop_detection c)
    (loop_detection (snd (fst (pdfi_dict_get_type deref c d Key t)))).
Proof. unfold pdfi_dict_get_type. ext_walk c. Qed.
#[local] Hint Resolve ext_pdfi_dict_get_type : ldext.

Lemma ext_pdfi_dict_get_int c d Key :
  chain_ext (loop_detection c)
    (loop_detection (snd (fst (pdfi_dict_get_int deref c d Key)))).
Proof. unfold pdfi_dict_get_int. ext_walk c. Qed.
#[local] Hint Resolve ext_pdfi_dict_get_int : ldext.

Lemma ext_pdfi_read_object_stream sel objnum gen c :
  chain_ext (loop_detection c)
    (loop_detection (snd (pdfi_read_object_stream MAX deref sel objnum gen c))).
Proof. unfold pdfi_read_object_stream. ext_walk c. Qed.
#[local] Hint Resolve ext_pdfi_read_object_stream : ldext.

Lemma ext_pdfi_read_object sel c :
  chain_ext (loop_detection c)
    (loop_detection (snd (pdfi_read_object MAX deref sel c))).
Proof. unfold pdfi_read_object. ext_walk c. Qed.
#[local] Hint Resolve ext_pdfi_read_object : ldext.

Lemma ext_pdfi_read_object_of_type sel t c :
  chain_ext (loop_detection c)
    (loop_detection (snd (pdfi_read_object_of_type MAX deref sel t c))).
Proof. unfold pdfi_read_object_of_type. ext_walk c. Qed.
#[local] Hint Resolve ext_pdfi_read_object_of_type : ldext.

Lemma ext_load_objstm c ce saved :
  chain_ext (loop_detection c)
    (loop_detection (snd (fst (load_objstm MAX deref c ce saved)))).
Proof. unfold load_objstm. ext_walk c. Qed.
#[local] Hint Resolve ext_load_objstm : ldext.

Lemma ext_deref_classic c entry obj saved :
  chain_ext (loop_detection c)
    (loop_detection (snd (fst (deref_classic MAX deref c entry obj saved)))).
Proof. unfold deref_classic. ext_walk c. Qed.
#[local] Hint Resolve ext_deref_classic : ldext.

Lemma ext_deref_compressed c entry obj gen saved :
  chain_ext (loop_detection c)
    (loop_detection (snd (fst (deref_compressed MAX fd deref c entry obj gen saved)))).
Proof. unfold deref_compressed. ext_walk c. Qed.
#[local] Hint Resolve ext_deref_compressed : ldext.

(** The three ways pdfi_dereference fetches the object of an entry in use. *)
Lemma ext_deref_fetch c entry obj gen :
  chain_ext (loop_detection c)
    (loop_detection
       (snd (fst (match cache entry with
                  | Some cache_entry => deref_cached c cache_entry
                  | None =>
                      if compressed entry then
                        deref_compressed MAX fd deref c entry obj gen (pdfi_unread_tell c)
                      else deref_classic MAX deref c entry obj (pdfi_unread_tell c)
                  end)))).
Proof. ext_walk c. Qed.

Lemma ext_pdfi_dereference_body c obj gen :
  chain_ext (loop_detection c)
    (loop_detection (snd (fst (pdfi_dereference_body MAX fd deref c obj gen)))).
Proof.
  unfold pdfi_dereference_body.
  destruct (xref_table c) as [xref|]; [|apply chain_ext_refl].
  destruct (obj >=? Z.of_nat (length xref)); [ext_walk c|].
  destruct (xref_get c obj) as [entry|]; [|apply chain_ext_refl].
  destruct (xobject_num entry =? 0); [apply chain_ext_refl|].
  destruct (free entry); [ext_walk c|].
  destruct (_ && _); [apply chain_ext_refl|].
  set (branch := match cache entry with Some ce => _ | None => _ end).
  assert (Hb : chain_ext (loop_detection c) (loop_detection (snd (fst branch))))
    by (unfold branch; ext_walk c).
  clearbody branch. destruct branch as [[code c1] object]. cbn [fst snd] in Hb.
  destruct (code <? 0); [exact Hb|].
  eapply chain_ext_trans; [exact Hb|]. clear Hb.
  destruct (loop_detection c1) as [l|] eqn:E1.
  - destruct object as [p|]; cbn [fst snd]; [|rewrite E1; apply chain_ext_refl].
    destruct (get_obj c1 p) as [ob|]; cbn [fst snd]; [|rewrite E1; apply chain_ext_refl].
    unfold pdfi_loop_detector_add_object. rewrite E1. cbn [Z.ltb Z.compare fst snd].
    exists [object_num ob]. reflexivity.
  - exact I.
Qed.

End ChainOfNestedCalls.

Lemma ext_pdfi_dereference MAX fd fuel :
  forall c obj gen,
    chain_ext (loop_detection c)
      (loop_detection (snd (fst (pdfi_dereference MAX fd fuel c obj gen)))).
Proof.
  induction fuel as [|fuel IH]; intros c obj gen.
  - apply chain_ext_refl.
  - cbn [pdfi_dereference]. apply ext_pdfi_dereference_body. exact IH.
Qed.
(** *** Object numbers across reference counting *)

Lemma numbers_kept_refl h : numbers_kept h h.
Proof. intros q ob H. exists ob. split; [exact H|reflexivity]. Qed.

Lemma numbers_kept_trans h1 h2 h3 :
  numbers_kept h1 h2 -> numbers_kept h2 h3 -> numbers_kept h1 h3.
Proof.
  intros H12 H23 q ob H. destruct (H23 q ob H) as (ob2 & H2 & E2).
  destruct (H12 q ob2 H2) as (ob1 & H1 & E1). exists ob1. split; [exact H1|congruence].
Qed.

Lemma numbers_kept_free h p : numbers_kept h (<[p := None]> h).
Proof.
  intros q ob H. apply list_lookup_insert_Some in H.
  destruct H as [(_ & E & _)|(_ & H)]; [discriminate|].
  exists ob. split; [exact H|reflexivity].
Qed.

Lemma numbers_kept_refcnt h p ob v :
  h !! p = Some (Some ob) -> numbers_kept h (<[p := Some (set_refcnt v ob)]> h).
Proof.
  intros Hp q ob' H. apply list_lookup_insert_Some in H.
  destruct H as [(-> & E & _)|(_ & H)].
  - inversion E; subst ob'. exists ob. split; [exact Hp|reflexivity].
  - exists ob'. split; [exact H|reflexivity].
Qed.

Lemma countdown_heap_numbers n : forall h p, numbers_kept h (countdown_heap n h p).
Proof.
  induction n as [|n IH]; intros h p; [apply numbers_kept_refl|].
  cbn [countdown_heap].
  destruct (h !! p) as [[ob|]|] eqn:Ep; try apply numbers_kept_refl.
  destruct (refcnt ob - 1 =? 0); [|apply numbers_kept_refcnt; exact Ep].
  assert (Hfold : forall l h0,
             numbers_kept h0
               (fold_left (fun hh (v : option nat) =>
                             match v with
                             | Some q => countdown_heap n hh q
                             | None => hh
                             end) l h0)).
  { induction l as [|v l IHl]; intros h0; [apply numbers_kept_refl|].
    cbn [fold_left]. eapply numbers_kept_trans; [|apply IHl].
    destruct v as [q|]; [apply IH|apply numbers_kept_refl]. }
  destruct (type ob); try apply numbers_kept_free.
  - eapply numbers_kept_trans; [apply numbers_kept_free|apply Hfold].
  - eapply numbers_kept_trans; [apply numbers_kept_free|].
    eapply numbers_kept_trans; apply Hfold.
Qed.

Lemma pdfi_countdown_numbers p c : numbers_kept (heap c) (heap (pdfi_countdown p c)).
Proof. unfold pdfi_countdown. cbn [heap set_heap]. apply countdown_heap_numbers. Qed.

Lemma pdfi_countup_numbers p c : numbers_kept (heap c) (heap (pdfi_countup p c)).
Proof.
  unfold pdfi_countup, get_obj.
  destruct (heap c !! p) as [[ob|]|] eqn:Ep; try apply numbers_kept_refl.
  unfold put_obj. cbn [heap set_heap]. apply numbers_kept_refcnt. exact Ep.
Qed.

Lemma pdfi_pop_numbers n : forall c, numbers_kept (heap c) (heap (pdfi_pop n c)).
Proof.
  induction n as [|n IH]; intros c; [apply numbers_kept_refl|].
  cbn [pdfi_pop]. destruct (stack c) as [|p rest]; [apply numbers_kept_refl|].
  eapply numbers_kept_trans; [|apply IH].
  apply (pdfi_countdown_numbers p (set_stack rest c)).
Qed.

Lemma numbers_kept_get_obj c c' p ob :
  numbers_kept (heap c) (heap c') -> get_obj c' p = Some ob ->
  exists ob0, get_obj c p = Some ob0 /\ object_num ob0 = object_num ob.
Proof.
  intros Hk Hp. unfold get_obj in *.
  destruct (heap c' !! p) as [[ob'|]|] eqn:E; try discriminate.
  inversion Hp; subst ob'. destruct (Hk p ob E) as (ob0 & H0 & En).
  exists ob0. rewrite H0. split; [reflexivity|exact En].
Qed.
(** ** pdfi_dereference: loop detection *)

Lemma heap_restore_offset saved c : heap (restore_offset saved c) = heap c.
Proof.
  unfold restore_offset, pdfi_seek. cbv zeta.
  destruct (_ <? 0); [reflexivity|]. cbn [snd]. apply heap_put_stream.
Qed.

Lemma get_obj_restore_offset saved c p :
  get_obj (restore_offset saved c) p = get_obj c p.
Proof. unfold get_obj. rewrite heap_restore_offset. reflexivity. Qed.

Lemma pdfi_loop_detector_check_In c obj chain :
  loop_detection c = Some chain -> In obj chain ->
  pdfi_loop_detector_check_object c obj = true.
Proof.
  intros Hc Hin. unfold pdfi_loop_detector_check_object. rewrite Hc.
  apply existsb_exists. exists obj. split; [exact Hin|apply Z.eqb_refl].
Qed.

(** A successful classic dereference returns an object that carries the
    requested number. *)
Lemma deref_classic_success MAX d c entry obj saved code c1 p :
  deref_classic MAX d c entry obj saved = (code, c1, Some p) ->
  (code <? 0) = false ->
  exists ob, get_obj c1 p = Some ob /\ object_num ob = obj.
Proof.
  unfold deref_classic.
  destruct (pdfi_seek MAIN_STREAM (u_offset entry) SEEK_SET c) as [code1 c2].
  destruct (code1 <? 0); [discriminate|].
  destruct (pdfi_read_object MAX d MAIN_STREAM c2) as [code2 c3].
  destruct (code2 <? 0); [discriminate|].
  destruct (stack_top c3 1) as [q|]; [|discriminate].
  generalize (pdfi_pop 1 c3). intros c4.
  destruct (get_obj c4 q) as [ob|] eqn:Eob.
  - destruct (Z.eqb_spec (object_num ob) obj) as [Hnum|Hnum].
    + intros H _. inversion H; subst code c1 q. clear H.
      rewrite get_obj_restore_offset, (pdfi_countup_get _ _ _ Eob).
      rewrite (get_obj_put_obj_eq _ _ _ _ Eob). eexists. split; [reflexivity|].
      exact Hnum.
    + intros H Hc. inversion H; subst code. discriminate.
  - intros H Hc. inversion H; subst code. discriminate.
Qed.

Lemma object_num_set_object_num n g ob : object_num (set_object_num n g ob) = n.
Proof. reflexivity. Qed.

(** The object a compressed entry resolves to, after the bookkeeping that
    ends the branch. *)
Lemma compressed_result_number saved co p obj gen ob c ob' :
  get_obj c p = Some ob ->
  get_obj (restore_offset saved
             (pdfi_countdown co
                (pdfi_pop 1 (pdfi_countup p (put_obj p (set_object_num obj gen ob) c))))) p
  = Some ob' ->
  object_num ob' = obj.
Proof.
  intros Hob Hp. rewrite get_obj_restore_offset in Hp.
  set (c0 := put_obj p (set_object_num obj gen ob) c) in *.
  destruct (numbers_kept_get_obj c0 _ _ _
              (numbers_kept_trans _ _ _ (pdfi_countup_numbers p c0)
                 (numbers_kept_trans _ _ _ (pdfi_pop_numbers 1 _)
                    (pdfi_countdown_numbers co _))) Hp) as (ob0 & H0 & En).
  unfold c0 in H0. rewrite (get_obj_put_obj_eq _ _ _ _ Hob) in H0.
  inversion H0; subst ob0. rewrite <- En. reflexivity.
Qed.

(** A successful dereference through an object stream returns an object
    that was given the requested number. *)
Lemma deref_compressed_success MAX fd d c entry obj gen saved code c1 p ob :
  deref_compressed MAX fd d c entry obj gen saved = (code, c1, Some p) ->
  get_obj c1 p = Some ob -> object_num ob = obj.
Proof.
  unfold deref_compressed. cbv zeta.
  repeat match goal with
         | |- (_, _, None) = (_, _, Some _) -> _ => discriminate
         | |- context [match ?x with _ => _ end] =>
             lazymatch x with
             | context [match _ with _ => _ end] => fail
             | _ => idtac
             end;
             destruct x eqn:?
         end.
  all: intros H Hp; injection H as _ <- <-.
  all: eapply compressed_result_number; [|exact Hp]; eassumption.
Qed.

(** A cached object comes back as it is in the cache, counted once more. *)
Lemma deref_cached_success c ce e code c1 p ob :
  get_entry c ce = Some e ->
  deref_cached c ce = (code, c1, Some p) ->
  get_obj c1 p = Some ob ->
  p = o e /\ exists cob, get_obj c (o e) = Some cob /\ object_num cob = object_num ob.
Proof.
  intros He. unfold deref_cached. rewrite He. intros H Hp.
  inversion H; subst. clear H. split; [reflexivity|].
  unfold get_obj in Hp. rewrite cache_promote_heap in Hp.
  apply (numbers_kept_get_obj c (pdfi_countup (o e) c) (o e) ob
           (pdfi_countup_numbers (o e) c)). exact Hp.
Qed.

(** The end of pdfi_dereference: with a scope active, a call that does not
    fail returns an object, and the number of that object goes on top of the
    chain, above the numbers the nested resolutions left there. *)
Lemma pdfi_dereference_body_registers MAX fd d c obj gen xref entry chain code c' object :
  (forall c0 obj0 gen0,
      chain_ext (loop_detection c0) (loop_detection (snd (fst (d c0 obj0 gen0))))) ->
  xref_table c = Some xref -> 0 <= obj < Z.of_nat (length xref) ->
  xref !! Z.to_nat obj = Some entry ->
  xobject_num entry <> 0 -> free entry = false ->
  loop_detection c = Some chain ->
  pdfi_dereference_body MAX fd d c obj gen = (code, c', object) ->
  0 <= code ->
  exists p ob more,
    code = 0 /\ object = Some p
    /\ get_obj c' p = Some ob
    /\ loop_detection c' = Some (object_num ob :: more ++ chain)
    /\ (cache entry = None -> object_num ob = obj)
    /\ (forall ce e, cache entry = Some ce -> get_entry c ce = Some e ->
          p = o e
          /\ exists cob, get_obj c (o e) = Some cob /\ object_num cob = object_num ob).
Proof.
  intros Hd Ex Hobj Hent Hnum Hfree Hchain.
  rewrite (pdfi_dereference_body_in_table MAX fd d c obj gen xref entry Ex Hobj Hent).
  destruct (Z.eqb_spec (xobject_num entry) 0) as [|_]; [contradiction|].
  rewrite Hfree.
  destruct (_ && _).
  { intros H Hge. inversion H; subst code. exfalso. apply Hge. reflexivity. }
  pose proof (ext_deref_fetch MAX fd d Hd c entry obj gen) as Hext.
  set (branch := match cache entry with Some ce => _ | None => _ end) in *.
  assert (Hfresh : forall code1 c1 q ob,
             branch = (code1, c1, Some q) -> (code1 <? 0) = false ->
             get_obj c1 q = Some ob -> cache entry = None -> object_num ob = obj).
  { intros code1 c1 q ob Hb Hc Hq Hcache. unfold branch in Hb. rewrite Hcache in Hb.
    destruct (compressed entry).
    - eapply deref_compressed_success; eauto.
    - destruct (deref_classic_success _ _ _ _ _ _ _ _ _ Hb Hc) as (ob' & Hob' & Hn).
      congruence. }
  assert (Hcached : forall code1 c1 q ob ce e,
             branch = (code1, c1, Some q) -> get_obj c1 q = Some ob ->
             cache entry = Some ce -> get_entry c ce = Some e ->
             q = o e
             /\ exists cob, get_obj c (o e) = Some cob /\ object_num cob = object_num ob).
  { intros code1 c1 q ob ce e Hb Hq Hcache He. unfold branch in Hb. rewrite Hcache in Hb.
    eapply deref_cached_success; eauto. }
  clearbody branch. destruct branch as [[code1 c1] object1]. cbn [fst snd] in Hext.
  rewrite Hchain in Hext. destruct Hext as [more Hl].
  destruct (code1 <? 0) eqn:Ecode.
  { intros H Hge. inversion H; subst code. apply Z.ltb_lt in Ecode. lia. }
  rewrite Hl.
  destruct object1 as [q|].
  2: { intros H Hge. inversion H; subst code. exfalso. apply Hge. reflexivity. }
  destruct (get_obj c1 q) as [ob|] eqn:Eob.
  2: { intros H Hge. inversion H; subst code. exfalso. apply Hge. reflexivity. }
  unfold pdfi_loop_detector_add_object. rewrite Hl. cbn [Z.ltb Z.compare].
  intros H _. inversion H; subst code c' object. clear H.
  exists q, ob, more. split; [reflexivity|]. split; [reflexivity|].
  split; [exact Eob|]. split; [reflexivity|]. split.
  - intros Hcache. exact (Hfresh code1 c1 q ob eq_refl Ecode Eob Hcache).
  - intros ce e Hcache He. exact (Hcached code1 c1 q ob ce e eq_refl Eob Hcache He).
Qed.

(** The check of the chain, made before anything is read or resolved. *)
Lemma pdfi_dereference_body_circular MAX fd d c obj gen xref entry chain :
  xref_table c = Some xref -> 0 <= obj < Z.of_nat (length xref) ->
  xref !! Z.to_nat obj = Some entry ->
  xobject_num entry <> 0 -> free entry = false ->
  loop_detection c = Some chain -> In obj chain ->
  pdfi_dereference_body MAX fd d c obj gen = (gs_error_circular_reference, c, None).
Proof.
  intros Ex Hobj Hent Hnum Hfree Hchain Hin.
  rewrite (pdfi_dereference_body_in_table MAX fd d c obj gen xref entry Ex Hobj Hent).
  destruct (Z.eqb_spec (xobject_num entry) 0) as [|_]; [contradiction|].
  rewrite Hfree, Hchain, (pdfi_loop_detector_check_In c obj chain Hchain Hin).
  reflexivity.
Qed.

(** C2, as amended.  For an object number whose xref entry is in the table,
    defined and in use: if a detection scope is active and the number is on
    its chain, pdfi_dereference returns gs_error_circular_reference whatever
    the depth allowed to nested dereferences, and leaves the context as it
    was; and when the call is made with a scope active and does not fail, it
    returns an object whose number is then the newest element of the chain,
    on top of the numbers that nested resolutions added to the chain the
    call started with.  That number is the requested one whenever the object
    was read from the file, from a classic or from a compressed entry; an
    object taken from the cache is the cached object, with the number it
    carries there.  A caller that resolves object 5 in a fresh scope and
    then follows the /Next references meets the circular-reference error at
    the reference that closes the cycle, for 5 -> 5 and for 5 -> 7 -> 5,
    however many links it is prepared to follow. *)
Theorem pdfi_dereference_loop_detection (MAX : Z)
    (fd : pdf_obj -> list Z -> option (list Z)) :
  (forall fuel c obj gen xref entry chain,
      xref_table c = Some xref -> 0 <= obj < Z.of_nat (length xref) ->
      xref !! Z.to_nat obj = Some entry ->
      xobject_num entry <> 0 -> free entry = false ->
      loop_detection c = Some chain -> In obj chain ->
      pdfi_dereference MAX fd (S fuel) c obj gen
      = (gs_error_circular_reference, c, None))
  /\ (forall fuel c obj gen xref entry chain code c' object,
         xref_table c = Some xref -> 0 <= obj < Z.of_nat (length xref) ->
         xref !! Z.to_nat obj = Some entry ->
         xobject_num entry <> 0 -> free entry = false ->
         loop_detection c = Some chain ->
         pdfi_dereference MAX fd (S fuel) c obj gen = (code, c', object) ->
         0 <= code ->
         exists p ob more,
           code = 0 /\ object = Some p
           /\ get_obj c' p = Some ob
           /\ loop_detection c' = Some (object_num ob :: more ++ chain)
           /\ (cache entry = None -> object_num ob = obj)
           /\ (forall ce e, cache entry = Some ce -> get_entry c ce = Some e ->
                 p = o e
                 /\ exists cob, get_obj c (o e) = Some cob
                                /\ object_num cob = object_num ob))
  /\ (forall n fuel,
         resolve_and_walk (S n) (pdfi_dereference 200 no_filter (S fuel)) self_cycle 5
         = (gs_error_circular_reference, Some [5; 0], 0))
  /\ (forall n fuel,
         resolve_and_walk (S (S n)) (pdfi_dereference 200 no_filter (S fuel)) two_cycle 5
         = (gs_error_circular_reference, Some [7; 5; 0], 1)).
Proof.
  split; [|split; [|split]].
  - intros fuel c obj gen xref entry chain. rewrite pdfi_dereference_S.
    apply pdfi_dereference_body_circular.
  - intros fuel c obj gen xref entry chain code c' object. rewrite pdfi_dereference_S.
    apply pdfi_dereference_body_registers. apply ext_pdfi_dereference.
  - intros n fuel. vm_compute. reflexivity.
  - intros n fuel. vm_compute. reflexivity.
Qed.

(** Object 5 of the first file, requested while 5 is on the chain; and
    object 6 of an object stream, resolved in a scope that has just been
    opened. *)
Lemma pdfi_dereference_loop_detection_witness :
  pdfi_dereference 200 no_filter 1 (set_loop_detection (Some [5; 0]) self_cycle) 5 0
  = (gs_error_circular_reference, set_loop_detection (Some [5; 0]) self_cycle, None)
  /\ (exists c' p ob,
         pdfi_dereference 200 no_filter 2
           (set_loop_detection (Some [0]) (objstm_context "0")) 6 0 = (0, c', Some p)
         /\ get_obj c' p = Some ob /\ object_num ob = 6
         /\ exists more, loop_detection c' = Some (6 :: more ++ [0])).
Proof.
  split.
  - apply (proj1 (pdfi_dereference_loop_detection 200 no_filter) 0%nat
             (set_loop_detection (Some [5; 0]) self_cycle) 5 0
             (cycle_table 0) (classic_entry 5 0) [5; 0]).
    + reflexivity.
    + simpl. lia.
    + reflexivity.
    + simpl. lia.
    + reflexivity.
    + reflexivity.
    + left. reflexivity.
  - set (c := set_loop_detection (Some [0]) (objstm_context "0")).
    destruct (pdfi_dereference 200 no_filter 2 c 6 0) as [[code c'] object] eqn:E.
    assert (Hcode : 0 <= code).
    { replace code with (fst (fst (pdfi_dereference 200 no_filter 2 c 6 0)))
        by (rewrite E; reflexivity).
      vm_compute. intros X. discriminate X. }
    destruct (proj1 (proj2 (pdfi_dereference_loop_detection 200 no_filter)) 1%nat
                c 6 0 objstm_table (compressed_entry 6 5 0) [0] code c' object)
      as (p & ob & more & -> & -> & Hp & Hl & Hnum & _).
    + reflexivity.
    + simpl. lia.
    + reflexivity.
    + simpl. lia.
    + reflexivity.
    + reflexivity.
    + exact E.
    + exact Hcode.
    + exists c', p, ob. split; [reflexivity|]. split; [exact Hp|].
      assert (En : object_num ob = 6) by (apply Hnum; reflexivity).
      split; [exact En|]. exists more. rewrite <- En. exact Hl.
Defined.

(** C2 as stated fails for a number whose entry is free, or that lies
    outside the table: such a number is answered with a Null object before
    the chain is looked at.  With 1 (a free entry) on the chain, and with 9
    (beyond a table of three entries) on the chain, the call returns 0 and
    leaves the chain as it was: no circular-reference error, and nothing
    added on success. *)
Lemma pdfi_dereference_loop_detection_counterexample :
  (exists c' p ob,
      pdfi_dereference 200 no_filter 1
        (set_loop_detection (Some [1; 0]) (small_table_context false)) 1 0
      = (0, c', Some p)
      /\ get_obj c' p = Some ob /\ type ob = PDF_NULL
      /\ loop_detection c' = Some [1; 0])
  /\ (exists c' p ob,
         pdfi_dereference 200 no_filter 1
           (set_loop_detection (Some [9; 0]) (small_table_context false)) 9 0
         = (0, c', Some p)
         /\ get_obj c' p = Some ob /\ type ob = PDF_NULL
         /\ loop_detection c' = Some [9; 0]).
Proof.
  split; eexists _, _, _.
  - split; [vm_compute; reflexivity|].
    split; [vm_compute; reflexivity|]. split; reflexivity.
  - split; [vm_compute; reflexivity|].
    split; [vm_compute; reflexivity|]. split; reflexivity.
Qed.
(** ** pdfi_dereference: the position of the main stream on error exits *)

Lemma pdfi_unread_tell_restore_offset saved c :
  0 <= saved -> pdfi_unread_tell (restore_offset saved c) = saved.
Proof.
  intros H. unfold restore_offset, pdfi_seek. cbv zeta.
  destruct (Z.ltb_spec saved 0) as [|_]; [lia|].
  cbn [snd]. unfold pdfi_unread_tell. cbn. lia.
Qed.

Ltac exit_case Hsaved :=
  let H := fresh in let Hneg := fresh in let Hub := fresh in
  intros H Hneg Hub; inversion H; subst;
  first [ left; apply pdfi_unread_tell_restore_offset; exact Hsaved
        | right; reflexivity
        | exfalso; apply Hub; reflexivity
        | discriminate Hneg ].

Lemma load_objstm_error_position MAX d c ce saved code c' r :
  0 <= saved ->
  load_objstm MAX d c ce saved = (code, c', r) ->
  (code <? 0) = true -> code <> model_undefined_behaviour ->
  pdfi_unread_tell c' = saved \/ code = gs_error_ioerror.
Proof.
  intros Hsaved. unfold load_objstm.
  destruct (cache ce) as [e|].
  - destruct (get_entry c e); exit_case Hsaved.
  - destruct (compressed ce); [exit_case Hsaved|].
    destruct (pdfi_seek MAIN_STREAM (u_offset ce) SEEK_SET c) as [code1 c1].
    destruct (code1 <? 0); [exit_case Hsaved|].
    destruct (pdfi_read_object_of_type MAX d MAIN_STREAM PDF_DICT c1) as [code2 c2].
    destruct (code2 <? 0); [exit_case Hsaved|].
    destruct (stack_top c2 1); exit_case Hsaved.
Qed.

(** In the compressed branch every error exit puts the saved offset back,
    except the one of the loop that skips to the member, which returns
    gs_error_ioerror. *)
Lemma deref_compressed_error_position MAX fd d c entry obj gen saved code c' r :
  0 <= saved ->
  deref_compressed MAX fd d c entry obj gen saved = (code, c', r) ->
  (code <? 0) = true -> code <> model_undefined_behaviour ->
  pdfi_unread_tell c' = saved \/ code = gs_error_ioerror.
Proof.
  intros Hsaved. unfold deref_compressed.
  destruct (xref_get c (u_compressed_stream_num entry)) as [ce|]; [|exit_case Hsaved].
  destruct (load_objstm MAX d c ce saved) as [[code1 c1] co] eqn:Eload.
  destruct (code1 <? 0) eqn:E1.
  { intros H Hneg Hub. inversion H; subst.
    eapply load_objstm_error_position; eauto. }
  destruct co as [co|]; [|exit_case Hsaved].
  cbv zeta.
  destruct (pdfi_dict_get_type d c1 co (bytes_of_string "Type") PDF_NAME)
    as [[code2 c2] t].
  destruct (code2 <? 0); [exit_case Hsaved|].
  destruct t as [tp|]; [|exit_case Hsaved].
  destruct (get_obj c2 tp) as [tob|]; [|exit_case Hsaved].
  destruct (negb _); [exit_case Hsaved|].
  destruct (pdfi_dict_get_int d (pdfi_countdown tp c2) co (bytes_of_string "N"))
    as [[code3 c4] num_entries].
  destruct (code3 <? 0); [exit_case Hsaved|].
  destruct (_ || _); [exit_case Hsaved|].
  destruct (get_obj c4 co) as [cob|]; [|exit_case Hsaved].
  destruct (pdfi_seek MAIN_STREAM (stream_offset cob) SEEK_SET c4) as [code4 c5].
  destruct (code4 <? 0); [exit_case Hsaved|].
  destruct (pdfi_filter fd c5 co) as [code5 c6].
  destruct (code5 <? 0); [exit_case Hsaved|].
  destruct (read_objstm_pairs (Z.to_nat num_entries) 0 (u_object_index entry) 0 c6)
    as [[code6 c7] offset].
  destruct (code6 <? 0); [exit_case Hsaved|].
  destruct (skip_member_offset (Z.to_nat offset) 0 c7) as [code7 c8].
  destruct (code7 =? model_undefined_behaviour); [exit_case Hsaved|].
  destruct (code7 <=? 0); [exit_case Hsaved|].
  destruct (pdfi_read_token COMPRESSED_STREAM c8) as [code8 c9].
  destruct (code8 <? 0); [exit_case Hsaved|].
  destruct (if _ || _ then _ else _) as [code9 c10].
  destruct (code9 <? 0); [exit_case Hsaved|].
  destruct (stack_top _ 1) as [p|]; [|exit_case Hsaved].
  destruct (get_obj _ p); exit_case Hsaved.
Qed.

(** The classic branch: every error exit puts the saved offset back, except
    the one for an object that carries another number. *)
Lemma deref_classic_error_position MAX d c entry obj saved code c' r :
  0 <= saved ->
  deref_classic MAX d c entry obj saved = (code, c', r) ->
  (code <? 0) = true -> code <> model_undefined_behaviour ->
  pdfi_unread_tell c' = saved \/ (code = gs_error_undefined /\ r <> None).
Proof.
  intros Hsaved. unfold deref_classic.
  destruct (pdfi_seek MAIN_STREAM (u_offset entry) SEEK_SET c) as [code1 c1].
  destruct (code1 <? 0); [exit_case Hsaved|].
  destruct (pdfi_read_object MAX d MAIN_STREAM c1) as [code2 c2].
  destruct (code2 <? 0); [exit_case Hsaved|].
  destruct (stack_top c2 1) as [q|]; [|exit_case Hsaved].
  generalize (pdfi_pop 1 c2). intros c3.
  destruct (get_obj c3 q); [|exit_case Hsaved].
  destruct (object_num _ =? obj); [exit_case Hsaved|].
  intros H _ _. inversion H; subst. right. split; [reflexivity|discriminate].
Qed.

(** All error exits of pdfi_dereference: the main stream is where it was at
    the start of the call, unless the call returns gs_error_ioerror, or
    gs_error_undefined together with an object. *)
Lemma pdfi_dereference_body_error_position MAX fd d c obj gen code c' r :
  0 <= pdfi_unread_tell c ->
  pdfi_dereference_body MAX fd d c obj gen = (code, c', r) ->
  (code <? 0) = true -> code <> model_undefined_behaviour ->
  pdfi_unread_tell c' = pdfi_unread_tell c
  \/ code = gs_error_ioerror
  \/ (code = gs_error_undefined /\ r <> None).
Proof.
  intros Hsaved. unfold pdfi_dereference_body.
  destruct (xref_table c) as [xref|].
  2:{ intros H _ Hub. inversion H; subst. contradiction. }
  destruct (obj >=? Z.of_nat (length xref)).
  { unfold deref_out_of_range. cbv zeta.
    destruct (pdfstoponerror _).
    - intros H _ _. inversion H. left. reflexivity.
    - destruct (pdfi_alloc_object_fresh
                  (set_pdf_errors (Z.lor (pdf_errors c) E_PDF_BADOBJNUMBER) c) PDF_NULL 0)
        as (ob & -> & _).
      intros H Hneg _. inversion H; subst. discriminate Hneg. }
  destruct (xref_get c obj) as [entry|].
  2:{ intros H _ Hub. inversion H; subst. contradiction. }
  destruct (xobject_num entry =? 0).
  { intros H _ _. inversion H. left. reflexivity. }
  destruct (free entry).
  { unfold deref_free_entry.
    destruct (pdfi_alloc_object_fresh c PDF_NULL 1) as (ob & -> & _).
    intros H Hneg _. inversion H; subst. discriminate Hneg. }
  destruct (_ && _).
  { intros H _ _. inversion H. left. reflexivity. }
  set (branch := match cache entry with Some ce => _ | None => _ end).
  assert (Hbranch : forall code1 c1 r1,
             branch = (code1, c1, r1) -> (code1 <? 0) = true ->
             code1 <> model_undefined_behaviour ->
             pdfi_unread_tell c1 = pdfi_unread_tell c
             \/ code1 = gs_error_ioerror
             \/ (code1 = gs_error_undefined /\ r1 <> None)).
  { intros code1 c1 r1 Hb Hneg Hub. unfold branch in Hb.
    destruct (cache entry) as [ce|].
    - unfold deref_cached in Hb. destruct (get_entry c ce).
      + inversion Hb; subst. discriminate Hneg.
      + inversion Hb; subst. contradiction.
    - cbv zeta in Hb. destruct (compressed entry).
      + destruct (deref_compressed_error_position _ _ _ _ _ _ _ _ _ _ _ Hsaved Hb Hneg Hub);
          auto.
      + destruct (deref_classic_error_position _ _ _ _ _ _ _ _ _ Hsaved Hb Hneg Hub);
          auto. }
  clearbody branch. destruct branch as [[code1 c1] r1].
  destruct (code1 <? 0) eqn:E1.
  { intros H Hneg Hub. inversion H; subst. eapply Hbranch; eauto. }
  destruct (loop_detection c1) as [l|] eqn:El.
  - destruct r1 as [p|].
    + destruct (get_obj c1 p).
      * unfold pdfi_loop_detector_add_object. rewrite El. cbn [Z.ltb Z.compare].
        intros H Hneg _. inversion H; subst. discriminate Hneg.
      * intros H _ Hub. inversion H; subst. contradiction.
    + intros H _ Hub. inversion H; subst. contradiction.
  - intros H Hneg _. inversion H; subst. discriminate Hneg.
Qed.

(** C4 fails at two exits.  An error exit of pdfi_dereference leaves the
    main stream at the position it had at the start of the call, unless the
    call returns gs_error_ioerror, or gs_error_undefined together with an
    object; and these two cases do go wrong.  In the classic branch the exit
    for an object that carries another number than the one requested does
    not restore: dereferencing object 5, whose xref entry points at an
    object numbered 7, returns gs_error_undefined with the main stream left
    at offset 21 instead of 0.  In the compressed branch the loop that skips
    to the offset of the member returns gs_error_ioerror without restoring:
    for a member offset of 99 in a shorter object stream the main stream is
    left at the offset of the stream data, 49, instead of 0. *)
Theorem pdfi_dereference_error_position :
  (forall MAX fd fuel c obj gen code c' r,
      0 <= pdfi_unread_tell c ->
      pdfi_dereference MAX fd (S fuel) c obj gen = (code, c', r) ->
      code < 0 -> code <> model_undefined_behaviour ->
      pdfi_unread_tell c' = pdfi_unread_tell c
      \/ code = gs_error_ioerror
      \/ (code = gs_error_undefined /\ r <> None))
  /\ pdfi_unread_tell mismatch_context = 0
  /\ (forall fuel,
         exit_position (pdfi_dereference 200 no_filter (S fuel) mismatch_context 5 0)
         = (gs_error_undefined, 21))
  /\ pdfi_unread_tell (objstm_context "99") = 0
  /\ (forall fuel,
         exit_position (pdfi_dereference 200 no_filter (S fuel) (objstm_context "99") 6 0)
         = (gs_error_ioerror, 49)).
Proof.
  split; [|split; [|split; [|split]]].
  - intros MAX fd fuel c obj gen code c' r Hpos Hd Hneg Hub.
    rewrite pdfi_dereference_S in Hd.
    eapply pdfi_dereference_body_error_position; eauto.
    apply Z.ltb_lt. exact Hneg.
  - reflexivity.
  - intros fuel. vm_compute. reflexivity.
  - reflexivity.
  - intros fuel. vm_compute. reflexivity.
Qed.

(** A failed read in the classic branch: the reader is back at offset 4. *)
Lemma pdfi_dereference_error_position_witness :
  pdfi_unread_tell (snd (fst (pdfi_dereference 200 no_filter 1 garbage_context 5 0))) = 4.
Proof.
  destruct (proj1 pdfi_dereference_error_position 200 no_filter 0%nat garbage_context 5 0
              gs_error_typecheck
              (snd (fst (pdfi_dereference 200 no_filter 1 garbage_context 5 0))) None
              ltac:(vm_compute; discriminate) ltac:(vm_compute; reflexivity)
              ltac:(vm_compute; reflexivity) ltac:(discriminate))
    as [H|[H|[H _]]]; [exact H|discriminate H|discriminate H].
Defined.
(** ** pdfi_dereference: members of object streams *)

(** C5 holds up to its last clause.  Object 6, the only member of the object
    stream 5, resolves to the one value found at its offset (a string, or a
    whole dictionary when the value opens one) and is given the requested
    object and generation numbers; but the compressed branch never calls
    pdfi_add_to_cache on it: afterwards the [cache] pointer of its xref
    entry is still NULL and the cache holds the stream dictionary only, so
    a second dereference parses the member again into a new object, whereas
    the classic object 5 is served from the cache. *)
Theorem pdfi_dereference_compressed_member :
  (forall fuel,
      exists ob,
        resolved_view 6
          (pdfi_dereference 200 no_filter (S fuel) (objstm_context "0") 6 0)
        = (0, Some ob, Some None, [Some 10%nat])
        /\ type ob = PDF_STRING /\ data ob = bytes_of_string "a"
        /\ object_num ob = 6 /\ generation_num ob = 0)
  /\ (forall fuel,
         exists ob,
           resolved_view 6
             (pdfi_dereference 200 no_filter (S fuel) objstm_composite_context 6 0)
           = (0, Some ob, Some None, [Some 10%nat])
           /\ type ob = PDF_DICT /\ entries ob = 1
           /\ object_num ob = 6 /\ generation_num ob = 0)
  /\ (forall fuel,
         dereference_twice (pdfi_dereference 200 no_filter (S fuel)) (objstm_context "0") 6
         = (0, Some 14%nat, 0, Some 17%nat))
  /\ (forall fuel,
         dereference_twice (pdfi_dereference 200 no_filter (S fuel)) (objstm_context "0") 5
         = (0, Some 10%nat, 0, Some 10%nat)).
Proof.
  split; [|split; [|split]].
  - intros fuel. eexists. split; [vm_compute; reflexivity|].
    repeat split; reflexivity.
  - intros fuel. eexists. split; [vm_compute; reflexivity|].
    repeat split; reflexivity.
  - intros fuel. vm_compute. reflexivity.
  - intros fuel. vm_compute. reflexivity.
Qed.
(** ** Repair *)

Lemma lookup_repeat_lt {A} (x : A) n i :
  (i < n)%nat -> repeat x n !! i = Some x.
Proof.
  revert i. induction n as [|n IH]; intros i Hi; [lia|].
  destruct i as [|i]; [reflexivity|]. cbn. apply IH. lia.
Qed.

(** pdfi_repair_add_object: the table grows to hold entry [obj], which
    becomes a classic entry for [offset]; nothing else changes, and the
    slots added by the growth are zero. *)
Lemma pdfi_repair_add_object_spec sizeof c obj gen offset :
  0 <= obj < 0x7ffffff / sizeof ->
  exists xref' e,
    pdfi_repair_add_object sizeof c obj gen offset = (0, set_xref_table (Some xref') c)
    /\ length xref' = Nat.max (length (table_of c)) (Z.to_nat obj + 1)
    /\ xref' !! Z.to_nat obj = Some e
    /\ compressed e = false /\ free e = false /\ xobject_num e = obj
    /\ u_offset e = offset /\ u_generation_num e = gen
    /\ (forall i, i <> Z.to_nat obj -> (i < length (table_of c))%nat ->
                  xref' !! i = table_of c !! i)
    /\ (forall i, i <> Z.to_nat obj ->
                  (length (table_of c) <= i < length xref')%nat ->
                  xref' !! i = Some zero_xref_entry).
Proof.
  intros Hobj. unfold pdfi_repair_add_object.
  destruct (Z.geb_spec obj (0x7ffffff / sizeof)) as [|_]; [lia|].
  cbv zeta.
  set (old := table_of c).
  set (grown := match xref_table c with
                | Some xref =>
                    if Z.of_nat (length xref) <? obj + 1
                    then xref ++ repeat zero_xref_entry (Z.to_nat (obj + 1) - length xref)
                    else xref
                | None => repeat zero_xref_entry (Z.to_nat (obj + 1))
                end).
  assert (Hgrown : grown = old ++ repeat zero_xref_entry (Z.to_nat (obj + 1) - length old)).
  { unfold grown, old, table_of. destruct (xref_table c) as [xref|].
    - destruct (Z.ltb_spec (Z.of_nat (length xref)) (obj + 1)); [reflexivity|].
      replace (Z.to_nat (obj + 1) - length xref)%nat with 0%nat by lia.
      cbn [repeat]. rewrite app_nil_r. reflexivity.
    - cbn [length app]. rewrite Nat.sub_0_r. reflexivity. }
  assert (Hlen : length grown = Nat.max (length old) (Z.to_nat obj + 1)).
  { rewrite Hgrown, length_app, repeat_length. lia. }
  clearbody grown.
  assert (Hlt : (Z.to_nat obj < length grown)%nat) by lia.
  destruct (lookup_lt_is_Some_2 grown (Z.to_nat obj) Hlt) as [e0 He0].
  rewrite He0. eexists _, _. split; [reflexivity|].
  split; [rewrite length_insert; exact Hlen|].
  split; [apply list_lookup_insert_eq; exact Hlt|].
  cbn [compressed free xobject_num u_offset u_generation_num].
  repeat (split; [reflexivity|]).
  split.
  - intros i Hne Hi. rewrite list_lookup_insert_ne by congruence.
    rewrite Hgrown. apply lookup_app_l. exact Hi.
  - intros i Hne Hi. rewrite length_insert in Hi.
    rewrite list_lookup_insert_ne by congruence.
    rewrite Hgrown, lookup_app_r by lia.
    apply lookup_repeat_lt. rewrite Hlen in Hi. lia.
Qed.

(** C9, as far as it holds.  pdfi_repair_add_object records a classic entry
    for the offset it is given and grows the table as needed, so of two
    records for one object number the later one stays.  On a file with a
    catalog 1, an array 4 that occurs twice and an object stream 5 with the
    members 2 and 3, pdfi_repair_file returns 0 with the classic entries 1,
    4 (at its second occurrence) and 5, the compressed entries 2 and 3 of
    stream 5, and the catalog as Root.  But the second pass stores the entry
    of a member without looking at the size of the table: an object stream
    that lists object 7 in a file whose table has the two entries 0 and 1
    makes it store outside the table.  And in the first pass an [endobj]
    that follows a complete object records the number of that object once
    more, at the offset where the previous object ended, which is also the
    offset then recorded for the next object. *)
Theorem pdfi_repair_file_tables :
  (forall sizeof c obj gen1 offset1 gen2 offset2,
      0 <= obj < 0x7ffffff / sizeof ->
      exists c1 c2 e,
        pdfi_repair_add_object sizeof c obj gen1 offset1 = (0, c1)
        /\ pdfi_repair_add_object sizeof c1 obj gen2 offset2 = (0, c2)
        /\ xref_size c2 = Z.max (xref_size c) (obj + 1)
        /\ xref_get c2 obj = Some e
        /\ compressed e = false /\ free e = false /\ xobject_num e = obj
        /\ u_offset e = offset2 /\ u_generation_num e = gen2)
  /\ (forall fuel,
         repaired_view
           (pdfi_repair_file 200 no_filter 40 fuel (new_context false damaged_file))
         = (0,
            Some [(false, 0, 0, 0, 0); (false, 1, 9, 0, 0); (true, 2, 0, 5, 0);
                  (true, 3, 0, 5, 1); (false, 4, 161, 0, 0); (false, 5, 79, 0, 0)],
            Some (bytes_of_string "Catalog")))
  /\ (forall fuel,
         repaired_view
           (pdfi_repair_file 200 no_filter 40 fuel (new_context false stray_member_file))
         = (model_undefined_behaviour,
            Some [(false, 0, 0, 0, 0); (false, 1, 9, 0, 0)], None))
  /\ (forall fuel,
         repaired_view
           (pdfi_repair_file 200 no_filter 40 fuel (new_context false stray_endobj_file))
         = (0, Some [(false, 0, 0, 0, 0); (false, 1, 28, 0, 0); (false, 2, 28, 0, 0)],
            None)).
Proof.
  split; [|split; [|split]].
  - intros sizeof c obj gen1 offset1 gen2 offset2 Hobj.
    destruct (pdfi_repair_add_object_spec sizeof c obj gen1 offset1 Hobj)
      as (xref1 & e1 & H1 & Hlen1 & _).
    set (c1 := set_xref_table (Some xref1) c) in *.
    destruct (pdfi_repair_add_object_spec sizeof c1 obj gen2 offset2 Hobj)
      as (xref2 & e2 & H2 & Hlen2 & Hlk & Hc & Hf & Hn & Ho & Hg & _).
    exists c1, (set_xref_table (Some xref2) c1), e2.
    split; [exact H1|]. split; [exact H2|].
    assert (Hsize : xref_size c = Z.of_nat (length (table_of c))).
    { unfold xref_size, table_of. destruct (xref_table c); reflexivity. }
    split.
    { rewrite Hsize. unfold xref_size. cbn [xref_table set_xref_table]. rewrite Hlen2.
      unfold c1 at 1. unfold table_of at 1. cbn [xref_table set_xref_table].
      rewrite Hlen1. lia. }
    split.
    { unfold xref_get. cbn [xref_table set_xref_table].
      destruct (Z.ltb_spec obj 0); [lia|exact Hlk]. }
    auto.
  - intros fuel. vm_compute. reflexivity.
  - intros fuel. vm_compute. reflexivity.
  - intros fuel. vm_compute. reflexivity.
Qed.

(** Object 3 recorded twice in an empty context. *)
Lemma pdfi_repair_file_tables_witness :
  exists c1 c2 e,
    pdfi_repair_add_object 40 (new_context false []) 3 0 10 = (0, c1)
    /\ pdfi_repair_add_object 40 c1 3 0 77 = (0, c2)
    /\ xref_size c2 = 4
    /\ xref_get c2 3 = Some e /\ u_offset e = 77.
Proof.
  destruct (proj1 pdfi_repair_file_tables 40 (new_context false []) 3 0 10 0 77
              ltac:(vm_compute; split; [discriminate|reflexivity]))
    as (c1 & c2 & e & H1 & H2 & Hs & He & _ & _ & _ & Ho & _).
  exists c1, c2, e. split; [exact H1|]. split; [exact H2|].
  split; [exact Hs|]. split; [exact He|exact Ho].
Defined.
(** * Further properties *)

(** ** Hexadecimal digits *)

(** ishex accepts the digits 0-9, A-F and a-f and nothing else, and fromhex
    gives each of them its value, whatever the case of the letter. *)
Theorem fromhex_digit_value :
  (forall c, ishex c = true ->
             exists n, 0 <= n < 16 /\ fromhex c = n
                       /\ (c = hex_digit_upper n \/ c = hex_digit_lower n))
  /\ (forall n, 0 <= n < 16 ->
                ishex (hex_digit_upper n) = true /\ fromhex (hex_digit_upper n) = n
                /\ ishex (hex_digit_lower n) = true /\ fromhex (hex_digit_lower n) = n).
Proof.
  split.
  - intros c. unfold ishex, fromhex.
    change (ch "F") with 70. change (ch "a") with 97. change (ch "A") with 65.
    change (ch "f") with 102.
    destruct (Z.ltb_spec c 48); [discriminate|].
    destruct (Z.gtb_spec c 57).
    + destruct (Z.gtb_spec c 70).
      * destruct (Z.ltb_spec c 97); [discriminate|].
        destruct (Z.gtb_spec c 102); [discriminate|]. intros _.
        exists (c - 87). split; [lia|]. split; [reflexivity|]. right.
        unfold hex_digit_lower. destruct (Z.ltb_spec (c - 87) 10); lia.
      * destruct (Z.ltb_spec c 65); [discriminate|]. intros _.
        exists (c - 55). split; [lia|]. split; [reflexivity|]. left.
        unfold hex_digit_upper. destruct (Z.ltb_spec (c - 55) 10); lia.
    + intros _. exists (c - 48). split; [lia|]. split; [reflexivity|]. left.
      unfold hex_digit_upper. destruct (Z.ltb_spec (c - 48) 10); lia.
  - intros n Hn. unfold ishex, fromhex, hex_digit_upper, hex_digit_lower.
    change (ch "F") with 70. change (ch "a") with 97. change (ch "A") with 65.
    change (ch "f") with 102.
    destruct (Z.ltb_spec n 10).
    + destruct (Z.ltb_spec (48 + n) 48); [lia|].
      destruct (Z.gtb_spec (48 + n) 57); [lia|]. repeat split; lia.
    + destruct (Z.ltb_spec (55 + n) 48); [lia|].
      destruct (Z.gtb_spec (55 + n) 57); [|lia].
      destruct (Z.gtb_spec (55 + n) 70); [lia|].
      destruct (Z.ltb_spec (55 + n) 65); [lia|].
      destruct (Z.ltb_spec (87 + n) 48); [lia|].
      destruct (Z.gtb_spec (87 + n) 57); [|lia].
      destruct (Z.gtb_spec (87 + n) 70); [|lia].
      destruct (Z.ltb_spec (87 + n) 97); [lia|].
      destruct (Z.gtb_spec (87 + n) 102); [lia|].
      repeat split; lia.
Qed.

Lemma fromhex_digit_value_witness :
  ishex (ch "B") = true /\ fromhex (ch "B") = 11
  /\ ishex (ch "b") = true /\ fromhex (ch "b") = 11.
Proof.
  apply (proj2 fromhex_digit_value 11). lia.
Defined.

(** ** White space, ends of line and comments *)

Lemma stream_rest_unread stm b :
  stream_rest (mk_pdf_stream (s_data stm) (s_pos stm) (eof stm) ([b] ++ unread_buffer stm))
  = b :: stream_rest stm.
Proof. reflexivity. Qed.

(** The count of bytes read by skip_white and skip_eol. *)
Lemma uint32_add_step read k :
  uint32_add (uint32_add read 1) k = uint32_add read (k + 1).
Proof.
  unfold uint32_add. rewrite Zplus_mod_idemp_l. f_equal. lia.
Qed.

Lemma uint32_add_pos read k : (uint32_add read k >? 0) = negb (uint32_add read k =? 0).
Proof.
  unfold uint32_add.
  pose proof (Z.mod_pos_bound (read + k) (2 ^ 32) ltac:(lia)) as H.
  destruct (Z.eqb_spec ((read + k) mod 2 ^ 32) 0) as [E|E]; cbn [negb].
  - rewrite E. reflexivity.
  - rewrite Z.gtb_ltb. apply Z.ltb_lt. lia.
Qed.

Lemma skip_rest_short f l :
  Z.of_nat (leading_run f l) < 2 ^ 32 - 1 -> skip_rest f 0 l = drop_leading f l.
Proof.
  intros H. unfold skip_rest, uint32_add. rewrite Z.add_0_l.
  rewrite Z.mod_small by lia.
  destruct (Z.eqb_spec (Z.of_nat (leading_run f l) + 1) 0); [lia|reflexivity].
Qed.

Lemma skip_rest_length f read l : (length (skip_rest f read l) <= length l)%nat.
Proof.
  assert (H : (length (drop_leading f l) <= length l)%nat).
  { induction l as [|x l IH]; cbn [drop_leading length]; [lia|].
    destruct (f x); cbn [length]; lia. }
  unfold skip_rest. destruct (_ =? 0); [|exact H].
  destruct (drop_leading f l); cbn [tail length] in *; lia.
Qed.

Lemma leading_run_app f w b rest :
  forallb f w = true -> f b = false ->
  leading_run f (w ++ b :: rest) = length w
  /\ drop_leading f (w ++ b :: rest) = b :: rest.
Proof.
  intros Hw Hb. induction w as [|x w IH]; cbn [app leading_run drop_leading length].
  - rewrite Hb. auto.
  - cbn [forallb] in Hw. apply andb_true_iff in Hw. destruct Hw as [Hx Hw].
    rewrite Hx. destruct (IH Hw) as [-> ->]. auto.
Qed.

Lemma leading_run_all f w :
  forallb f w = true -> drop_leading f w = [].
Proof.
  induction w as [|x w IH]; [reflexivity|].
  cbn [forallb drop_leading]. intros Hw. apply andb_true_iff in Hw.
  destruct Hw as [-> Hw]. auto.
Qed.

(** The loops that read bytes while a test holds and push the first other
    byte back if their count of bytes is not 0: skip_white and skip_eol. *)
Lemma skip_white_loop_spec sel :
  forall rest c fuel read,
    0 <= s_pos (get_stream sel c) ->
    stream_rest (get_stream sel c) = rest ->
    (length rest + 2 <= fuel)%nat ->
    exists stm,
      skip_white_loop fuel read sel c = (0, put_stream sel stm c)
      /\ stream_rest stm = skip_rest iswhite read rest /\ 0 <= s_pos stm.
Proof.
  induction rest as [|b bs IH]; intros c fuel read Hp Hr Hf.
  - destruct fuel as [|fuel]; [simpl in Hf; lia|].
    destruct (pdfi_read_byte_nil sel c Hr) as (stm & Hrb & Hrest & _ & Hpos).
    cbn [skip_white_loop]. rewrite Hrb. cbn [Z.ltb Z.eqb Z.compare].
    exists stm. split; [reflexivity|]. split; [|lia].
    rewrite Hrest. unfold skip_rest. cbn [drop_leading tail].
    destruct (_ =? 0); reflexivity.
  - destruct fuel as [|fuel]; [simpl in Hf; lia|].
    destruct (pdfi_read_byte_cons sel c b bs Hp Hr) as (stm & Hrb & Hrest & _ & Hpos).
    cbn [skip_white_loop]. rewrite Hrb. cbn [Z.ltb Z.eqb Z.compare].
    unfold skip_rest. cbn [drop_leading leading_run].
    destruct (iswhite b).
    + destruct (IH (put_stream sel stm c) fuel (uint32_add read 1))
        as (stm' & Hl & Hrest' & Hpos').
      * rewrite get_put_stream. exact Hpos.
      * rewrite get_put_stream. exact Hrest.
      * simpl in Hf. lia.
      * exists stm'. rewrite Hl, put_put_stream. split; [reflexivity|].
        split; [|exact Hpos']. rewrite Hrest'. unfold skip_rest.
        rewrite uint32_add_step.
        replace (Z.of_nat (S (leading_run iswhite bs)) + 1)
          with (Z.of_nat (leading_run iswhite bs) + 1 + 1) by lia.
        reflexivity.
    + change (Z.of_nat 0 + 1) with 1. rewrite uint32_add_pos.
      destruct (uint32_add read 1 =? 0); cbn [negb tail].
      * exists stm. auto.
      * unfold pdfi_unread. rewrite get_put_stream, put_put_stream.
        eexists. split; [reflexivity|]. rewrite stream_rest_unread, Hrest. auto.
Qed.

Lemma skip_eol_loop_spec sel :
  forall rest c fuel read,
    0 <= s_pos (get_stream sel c) ->
    stream_rest (get_stream sel c) = rest ->
    (length rest + 2 <= fuel)%nat ->
    exists stm,
      skip_eol_loop fuel read sel c = (0, put_stream sel stm c)
      /\ stream_rest stm = skip_rest is_eol read rest /\ 0 <= s_pos stm.
Proof.
  induction rest as [|b bs IH]; intros c fuel read Hp Hr Hf.
  - destruct fuel as [|fuel]; [simpl in Hf; lia|].
    destruct (pdfi_read_byte_nil sel c Hr) as (stm & Hrb & Hrest & _ & Hpos).
    cbn [skip_eol_loop]. rewrite Hrb. cbn [Z.ltb Z.eqb Z.compare].
    exists stm. split; [reflexivity|]. split; [|lia].
    rewrite Hrest. unfold skip_rest. cbn [drop_leading tail].
    destruct (_ =? 0); reflexivity.
  - destruct fuel as [|fuel]; [simpl in Hf; lia|].
    destruct (pdfi_read_byte_cons sel c b bs Hp Hr) as (stm & Hrb & Hrest & _ & Hpos).
    cbn [skip_eol_loop]. rewrite Hrb. cbn [Z.ltb Z.eqb Z.compare].
    unfold skip_rest. cbn [drop_leading leading_run].
    change ((b =? 10) || (b =? 13)) with (is_eol b).
    destruct (is_eol b).
    + destruct (IH (put_stream sel stm c) fuel (uint32_add read 1))
        as (stm' & Hl & Hrest' & Hpos').
      * rewrite get_put_stream. exact Hpos.
      * rewrite get_put_stream. exact Hrest.
      * simpl in Hf. lia.
      * exists stm'. rewrite Hl, put_put_stream. split; [reflexivity|].
        split; [|exact Hpos']. rewrite Hrest'. unfold skip_rest.
        rewrite uint32_add_step.
        replace (Z.of_nat (S (leading_run is_eol bs)) + 1)
          with (Z.of_nat (leading_run is_eol bs) + 1 + 1) by lia.
        reflexivity.
    + change (Z.of_nat 0 + 1) with 1. rewrite uint32_add_pos.
      destruct (uint32_add read 1 =? 0); cbn [negb tail].
      * exists stm. auto.
      * unfold pdfi_unread. rewrite get_put_stream, put_put_stream.
        eexists. split; [reflexivity|]. rewrite stream_rest_unread, Hrest. auto.
Qed.

(** With fewer than 2^32 - 1 bytes to skip the count does not come back to
    0, and the loops leave the stream at the first byte they do not skip. *)
Lemma skip_white_short sel c :
  0 <= s_pos (get_stream sel c) ->
  Z.of_nat (leading_run iswhite (stream_rest (get_stream sel c))) < 2 ^ 32 - 1 ->
  exists stm,
    skip_white sel c = (0, put_stream sel stm c)
    /\ stream_rest stm = drop_leading iswhite (stream_rest (get_stream sel c))
    /\ 0 <= s_pos stm.
Proof.
  intros Hp Hn.
  destruct (skip_white_loop_spec sel _ c (stream_fuel sel c) 0 Hp eq_refl)
    as (stm & H & Hr & Hpos); [unfold stream_fuel; lia|].
  exists stm. split; [exact H|]. split; [|exact Hpos].
  rewrite Hr. apply skip_rest_short. exact Hn.
Qed.

Lemma skip_eol_short sel c :
  0 <= s_pos (get_stream sel c) ->
  Z.of_nat (leading_run is_eol (stream_rest (get_stream sel c))) < 2 ^ 32 - 1 ->
  exists stm,
    skip_eol sel c = (0, put_stream sel stm c)
    /\ stream_rest stm = drop_leading is_eol (stream_rest (get_stream sel c))
    /\ 0 <= s_pos stm.
Proof.
  intros Hp Hn.
  destruct (skip_eol_loop_spec sel _ c (stream_fuel sel c) 0 Hp eq_refl)
    as (stm & H & Hr & Hpos); [unfold stream_fuel; lia|].
  exists stm. split; [exact H|]. split; [|exact Hpos].
  rewrite Hr. apply skip_rest_short. exact Hn.
Qed.

Lemma pdfi_skip_comment_loop_spec sel :
  forall rest c fuel,
    0 <= s_pos (get_stream sel c) ->
    stream_rest (get_stream sel c) = rest ->
    (length rest + 2 <= fuel)%nat ->
    exists stm,
      pdfi_skip_comment_loop fuel sel c = (0, put_stream sel stm c)
      /\ stream_rest stm = tail (drop_leading (fun b => negb (is_eol b)) rest)
      /\ 0 <= s_pos stm.
Proof.
  induction rest as [|b bs IH]; intros c fuel Hp Hr Hf.
  - destruct fuel as [|fuel]; [simpl in Hf; lia|].
    destruct (pdfi_read_byte_nil sel c Hr) as (stm & Hrb & Hrest & _ & Hpos).
    cbn [pdfi_skip_comment_loop]. rewrite Hrb. cbn [Z.ltb Z.gtb Z.compare].
    exists stm. split; [reflexivity|]. split; [exact Hrest|lia].
  - destruct fuel as [|fuel]; [simpl in Hf; lia|].
    destruct (pdfi_read_byte_cons sel c b bs Hp Hr) as (stm & Hrb & Hrest & _ & Hpos).
    cbn [pdfi_skip_comment_loop]. rewrite Hrb. cbn [Z.ltb Z.gtb Z.compare drop_leading].
    change ((b =? 10) || (b =? 13)) with (is_eol b).
    destruct (is_eol b); cbn [negb tail].
    + exists stm. auto.
    + destruct (IH (put_stream sel stm c) fuel) as (stm' & Hl & Hrest' & Hpos').
      * rewrite get_put_stream. exact Hpos.
      * rewrite get_put_stream. exact Hrest.
      * simpl in Hf. lia.
      * exists stm'. rewrite Hl, put_put_stream. auto.
Qed.

(** skip_white returns 0 and changes nothing but the stream.  It reads the
    white space at the head of the stream and one byte more, and pushes that
    byte back if its count of the bytes read, a uint32_t, is not 0: the
    stream is left at its first byte that is not white space (at its end, if
    there is none) unless the count has come back to 0, as it does after
    2^32 - 1 bytes of white space, when that byte is lost.  With fewer than
    2^32 - 1 bytes of white space the count is never 0. *)
Theorem skip_white_leading (sel : stream_sel) (c : pdf_context) :
  0 <= s_pos (get_stream sel c) ->
  exists stm,
    skip_white sel c = (0, put_stream sel stm c)
    /\ 0 <= s_pos stm
    /\ (let rest := stream_rest (get_stream sel c) in
        let read := (Z.of_nat (leading_run iswhite rest) + 1) mod 2 ^ 32 in
        (read <> 0 -> stream_rest stm = drop_leading iswhite rest)
        /\ (read = 0 -> stream_rest stm = tail (drop_leading iswhite rest))
        /\ (Z.of_nat (leading_run iswhite rest) < 2 ^ 32 - 1 -> read <> 0)).
Proof.
  intros Hp.
  destruct (skip_white_loop_spec sel _ c (stream_fuel sel c) 0 Hp eq_refl)
    as (stm & H & Hr & Hpos); [unfold stream_fuel; lia|].
  exists stm. split; [exact H|]. split; [exact Hpos|].
  cbv zeta. unfold skip_rest, uint32_add in Hr. rewrite Z.add_0_l in Hr.
  split; [|split].
  - intros Hn. apply Z.eqb_neq in Hn. rewrite Hn in Hr. exact Hr.
  - intros Hn. apply Z.eqb_eq in Hn. rewrite Hn in Hr. exact Hr.
  - intros Hn. rewrite Z.mod_small by lia. lia.
Qed.

(** skip_eol is the same loop for line feeds and carriage returns: it
    returns 0 and leaves the stream at its first byte that is neither,
    unless its uint32_t count of the bytes read has come back to 0, when
    that byte is lost; with fewer than 2^32 - 1 line ends the count is
    never 0. *)
Theorem skip_eol_leading (sel : stream_sel) (c : pdf_context) :
  0 <= s_pos (get_stream sel c) ->
  exists stm,
    skip_eol sel c = (0, put_stream sel stm c)
    /\ 0 <= s_pos stm
    /\ (let rest := stream_rest (get_stream sel c) in
        let read := (Z.of_nat (leading_run is_eol rest) + 1) mod 2 ^ 32 in
        (read <> 0 -> stream_rest stm = drop_leading is_eol rest)
        /\ (read = 0 -> stream_rest stm = tail (drop_leading is_eol rest))
        /\ (Z.of_nat (leading_run is_eol rest) < 2 ^ 32 - 1 -> read <> 0)).
Proof.
  intros Hp.
  destruct (skip_eol_loop_spec sel _ c (stream_fuel sel c) 0 Hp eq_refl)
    as (stm & H & Hr & Hpos); [unfold stream_fuel; lia|].
  exists stm. split; [exact H|]. split; [exact Hpos|].
  cbv zeta. unfold skip_rest, uint32_add in Hr. rewrite Z.add_0_l in Hr.
  split; [|split].
  - intros Hn. apply Z.eqb_neq in Hn. rewrite Hn in Hr. exact Hr.
  - intros Hn. apply Z.eqb_eq in Hn. rewrite Hn in Hr. exact Hr.
  - intros Hn. rewrite Z.mod_small by lia. lia.
Qed.

(** pdfi_skip_comment reads up to and including the first line feed or
    carriage return, and no further: of a CR LF pair the line feed is left
    in the stream. *)
Theorem pdfi_skip_comment_to_eol (sel : stream_sel) (c : pdf_context) :
  0 <= s_pos (get_stream sel c) ->
  exists stm,
    pdfi_skip_comment sel c = (0, put_stream sel stm c)
    /\ stream_rest stm
       = tail (drop_leading (fun b => negb (is_eol b)) (stream_rest (get_stream sel c)))
    /\ 0 <= s_pos stm.
Proof.
  intros Hp. apply pdfi_skip_comment_loop_spec; auto. unfold stream_fuel. lia.
Qed.

Lemma skip_white_leading_witness :
  exists stm,
    skip_white MAIN_STREAM (new_context false (bytes_of_string "  obj")) 
    = (0, put_stream MAIN_STREAM stm (new_context false (bytes_of_string "  obj")))
    /\ stream_rest stm = bytes_of_string "obj".
Proof.
  destruct (skip_white_leading MAIN_STREAM (new_context false (bytes_of_string "  obj"))
              ltac:(simpl; lia)) as (stm & H & _ & Hr & _).
  exists stm. split; [exact H|]. apply Hr. vm_compute. intros X. discriminate X.
Defined.

Lemma skip_eol_leading_witness :
  exists stm,
    skip_eol MAIN_STREAM (new_context false [13; 10; 65])
    = (0, put_stream MAIN_STREAM stm (new_context false [13; 10; 65]))
    /\ stream_rest stm = [65].
Proof.
  destruct (skip_eol_leading MAIN_STREAM (new_context false [13; 10; 65])
              ltac:(simpl; lia)) as (stm & H & _ & Hr & _).
  exists stm. split; [exact H|]. apply Hr. vm_compute. intros X. discriminate X.
Defined.

Lemma pdfi_skip_comment_to_eol_witness :
  exists stm,
    pdfi_skip_comment MAIN_STREAM (new_context false [65; 66; 13; 10; 67])
    = (0, put_stream MAIN_STREAM stm (new_context false [65; 66; 13; 10; 67]))
    /\ stream_rest stm = [10; 67].
Proof.
  destruct (pdfi_skip_comment_to_eol MAIN_STREAM (new_context false [65; 66; 13; 10; 67])
              ltac:(simpl; lia)) as (stm & H & Hr & _).
  exists stm. split; [exact H|exact Hr].
Defined.
(** ** Names *)

Lemma memcmp_zero_iff :
  forall (n : nat) (a b : list Z),
    length a = n -> length b = n -> (memcmp a b n = 0 <-> a = b).
Proof.
  induction n as [|n IH]; intros a b Ha Hb.
  - destruct a; [|discriminate]. destruct b; [|discriminate]. simpl. tauto.
  - destruct a as [|x a]; [discriminate|]. destruct b as [|y b]; [discriminate|].
    cbn [memcmp]. injection Ha as Ha. injection Hb as Hb.
    destruct (Z.ltb_spec x y).
    + split; [discriminate|]. intros E. inversion E. lia.
    + destruct (Z.ltb_spec y x).
      * split; [discriminate|]. intros E. inversion E. lia.
      * rewrite (IH a b Ha Hb). assert (x = y) by lia. subst.
        split; [intros ->; reflexivity|]. intros E. inversion E. reflexivity.
Qed.

Lemma strlen_no_zero s : Forall (fun b => b <> 0) s -> strlen s = length s.
Proof.
  induction 1 as [|b s Hb _ IH]; [reflexivity|].
  cbn [strlen length]. destruct (Z.eqb_spec b 0); [contradiction|]. rewrite IH. reflexivity.
Qed.

Lemma pdfi_name_strcmp_zero_iff (n : pdf_obj) (s : list Z) :
  Forall (fun b => b <> 0) s -> (pdfi_name_strcmp n s = 0 <-> data n = s).
Proof.
  intros Hs. unfold pdfi_name_strcmp. rewrite (strlen_no_zero s Hs).
  destruct (Z.eqb_spec (Z.of_nat (length (data n))) (Z.of_nat (length s))) as [E|E].
  - apply memcmp_zero_iff; lia.
  - split; [discriminate|]. intros H. rewrite H in E. contradiction.
Qed.

(** pdfi_name_cmp returns 0 exactly for names with the same bytes, and -1
    for names of different lengths whichever comes first, so it orders
    nothing; pdfi_name_strcmp returns 0 exactly for the name whose bytes are
    those of the C string. *)
Theorem pdfi_name_cmp_equal (n1 n2 : pdf_obj) (s : list Z) :
  (pdfi_name_cmp n1 n2 = 0 <-> data n1 = data n2)
  /\ (length (data n1) <> length (data n2) ->
      pdfi_name_cmp n1 n2 = -1 /\ pdfi_name_cmp n2 n1 = -1)
  /\ (Forall (fun b => b <> 0) s -> Z.of_nat (length s) < 2 ^ 31 ->
      (pdfi_name_strcmp n1 s = 0 <-> data n1 = s)).
Proof.
  split; [|split].
  - unfold pdfi_name_cmp.
    destruct (Z.eqb_spec (Z.of_nat (length (data n1))) (Z.of_nat (length (data n2))))
      as [E|E]; cbn [negb].
    + apply memcmp_zero_iff; lia.
    + split; [discriminate|]. intros H. rewrite H in E. contradiction.
  - intros Hne. unfold pdfi_name_cmp.
    destruct (Z.eqb_spec (Z.of_nat (length (data n1))) (Z.of_nat (length (data n2))));
      [lia|].
    destruct (Z.eqb_spec (Z.of_nat (length (data n2))) (Z.of_nat (length (data n1))));
      [lia|].
    split; reflexivity.
  - intros Hs _. apply pdfi_name_strcmp_zero_iff. exact Hs.
Qed.

Lemma pdfi_name_cmp_equal_witness :
  pdfi_name_cmp (set_data (bytes_of_string "Type") (zero_obj PDF_NAME))
    (set_data (bytes_of_string "Pages") (zero_obj PDF_NAME)) = -1
  /\ pdfi_name_cmp (set_data (bytes_of_string "Pages") (zero_obj PDF_NAME))
       (set_data (bytes_of_string "Type") (zero_obj PDF_NAME)) = -1.
Proof.
  apply (proj1 (proj2 (pdfi_name_cmp_equal
                         (set_data (bytes_of_string "Type") (zero_obj PDF_NAME))
                         (set_data (bytes_of_string "Pages") (zero_obj PDF_NAME)) []))).
  simpl. lia.
Defined.

(** pdfi_make_name gives a name with reference count 1 that holds the first
    [size] bytes it was given, and pdfi_name_strcmp finds it equal to them. *)
Theorem pdfi_make_name_compares_equal (c : pdf_context) (s : list Z) :
  Z.of_nat (length s) < 2 ^ 31 ->
  Forall (fun b => b <> 0) s ->
  exists c' ob,
    pdfi_make_name c s (Z.of_nat (length s)) = (0, c', Some (length (heap c)))
    /\ get_obj c' (length (heap c)) = Some ob
    /\ type ob = PDF_NAME /\ refcnt ob = 1 /\ data ob = s
    /\ pdfi_name_strcmp ob s = 0
    /\ (forall q ob', get_obj c q = Some ob' -> get_obj c' q = Some ob').
Proof.
  intros Hlen Hs. unfold pdfi_make_name.
  destruct (pdfi_alloc_object_fresh c PDF_NAME (Z.of_nat (length s)))
    as (ob & Ha & Ht & Hrc & Hn & Hg & Hv).
  rewrite Ha. cbn [Z.ltb Z.compare].
  set (c1 := set_heap (heap c ++ [Some ob]) c).
  assert (H1 : get_obj c1 (length (heap c)) = Some ob) by apply get_obj_set_heap_app.
  rewrite (pdfi_countup_get _ _ _ H1).
  rewrite (get_obj_put_obj_eq _ _ _ _ H1).
  rewrite Nat2Z.id. rewrite Nat.leb_refl. rewrite firstn_all.
  eexists _, _. split; [reflexivity|].
  split; [eapply get_obj_put_obj_eq, get_obj_put_obj_eq; exact H1|].
  cbn [type refcnt data set_data set_refcnt].
  split; [exact Ht|]. split; [lia|]. split; [reflexivity|].
  split.
  - apply pdfi_name_strcmp_zero_iff; auto.
  - intros q ob' Hq. pose proof (get_obj_lt _ _ _ Hq) as Hlt.
    rewrite !get_obj_put_obj_ne by lia.
    unfold get_obj, c1 in *. cbn [heap set_heap]. rewrite lookup_app_l by exact Hlt.
    exact Hq.
Qed.

Lemma pdfi_make_name_compares_equal_witness :
  exists c' ob,
    pdfi_make_name (new_context false []) (bytes_of_string "Type") 4 = (0, c', Some 0%nat)
    /\ get_obj c' 0 = Some ob
    /\ type ob = PDF_NAME /\ refcnt ob = 1 /\ data ob = bytes_of_string "Type"
    /\ pdfi_name_strcmp ob (bytes_of_string "Type") = 0.
Proof.
  destruct (pdfi_make_name_compares_equal (new_context false []) (bytes_of_string "Type"))
    as (c' & ob & H1 & H2 & H3 & H4 & H5 & H6 & _).
  - simpl. lia.
  - repeat (constructor; [discriminate|]). constructor.
  - exists c', ob. repeat split; assumption.
Defined.
(** ** Rectangles *)

Lemma SFcompare_antisym (a b : spec_float) :
  SFcompare b a = option_map CompOpp (SFcompare a b).
Proof.
  destruct a as [sa|sa| |sa ma ea], b as [sb|sb| |sb mb eb];
    try reflexivity;
    try (destruct sa; reflexivity); try (destruct sb; reflexivity);
    try (destruct sa, sb; reflexivity).
  cbn [SFcompare].
  rewrite (Z.compare_antisym ea eb).
  assert (Hm : PosDef.Pos.compare_cont Eq mb ma
               = CompOpp (PosDef.Pos.compare_cont Eq ma mb))
    by (symmetry; exact (Pos.compare_cont_antisym ma mb Eq)).
  rewrite Hm.
  destruct sa, sb; cbn [option_map CompOpp]; try reflexivity;
    destruct (ea ?= eb)%Z; cbn [CompOpp]; try reflexivity;
    destruct (Pos.compare_cont Eq ma mb); reflexivity.
Qed.

Lemma SFltb_asym (a b : spec_float) : SFltb a b = true -> SFltb b a = false.
Proof.
  unfold SFltb. rewrite (SFcompare_antisym a b).
  destruct (SFcompare a b) as [[]|]; cbn; congruence.
Qed.

Lemma SFltb_false_SFleb (a b : spec_float) :
  is_nan a = false -> is_nan b = false -> SFltb a b = false -> SFleb b a = true.
Proof.
  unfold SFltb, SFleb. rewrite (SFcompare_antisym a b).
  destruct a, b; try discriminate; intros _ _;
    destruct (SFcompare _ _) as [[]|] eqn:E; cbn; try congruence;
    cbn in E; try discriminate;
    repeat match type of E with context [if ?s then _ else _] => destruct s end;
    discriminate.
Qed.

Lemma SFltb_SFleb (a b : spec_float) : SFltb a b = true -> SFleb a b = true.
Proof.
  unfold SFltb, SFleb. destruct (SFcompare a b) as [[]|]; congruence.
Qed.

(** normalize_rectangle keeps the two numbers of each axis and never leaves
    the upper one below the lower one; when neither is a NaN the lower one
    comes first. *)
Theorem normalize_rectangle_ordered (d0 d1 d2 d3 : spec_float) :
  exists e0 e1 e2 e3,
    normalize_rectangle (d0, d1, d2, d3) = (e0, e1, e2, e3)
    /\ ((e0, e2) = (d0, d2) \/ (e0, e2) = (d2, d0))
    /\ ((e1, e3) = (d1, d3) \/ (e1, e3) = (d3, d1))
    /\ SFltb e2 e0 = false /\ SFltb e3 e1 = false
    /\ (is_nan d0 = false -> is_nan d2 = false -> SFleb e0 e2 = true)
    /\ (is_nan d1 = false -> is_nan d3 = false -> SFleb e1 e3 = true).
Proof.
  unfold normalize_rectangle.
  destruct (SFltb d0 d2) eqn:Ex, (SFltb d1 d3) eqn:Ey;
    do 4 eexists; (split; [reflexivity|]);
    repeat split; auto using SFltb_asym, SFltb_SFleb, SFltb_false_SFleb.
Qed.

(** pdfi_normalize_rect exchanges the two corners' coordinates of an axis
    only when the first is greater, so that the result never has p above q
    and normalizing again changes nothing.  Axis by axis it agrees with
    normalize_rectangle where the two numbers of the axis differ in order;
    where they compare equal or one is a NaN, normalize_rectangle exchanges
    them and pdfi_normalize_rect does not. *)
Theorem pdfi_normalize_rect_idempotent (r : gs_rect) :
  let r' := pdfi_normalize_rect r in
  SFltb (q_x r') (p_x r') = false /\ SFltb (q_y r') (p_y r') = false
  /\ pdfi_normalize_rect r' = r'
  /\ ((p_x r', q_x r') = (p_x r, q_x r) \/ (p_x r', q_x r') = (q_x r, p_x r))
  /\ ((p_y r', q_y r') = (p_y r, q_y r) \/ (p_y r', q_y r') = (q_y r, p_y r))
  /\ exists e0 e1 e2 e3,
       normalize_rectangle (p_x r, p_y r, q_x r, q_y r) = (e0, e1, e2, e3)
       /\ (SFltb (p_x r) (q_x r) || SFltb (q_x r) (p_x r) = true ->
           (e0, e2) = (p_x r', q_x r'))
       /\ (SFltb (p_y r) (q_y r) || SFltb (q_y r) (p_y r) = true ->
           (e1, e3) = (p_y r', q_y r'))
       /\ (SFltb (p_x r) (q_x r) = false -> SFltb (q_x r) (p_x r) = false ->
           (p_x r', q_x r') = (p_x r, q_x r) /\ (e0, e2) = (q_x r, p_x r))
       /\ (SFltb (p_y r) (q_y r) = false -> SFltb (q_y r) (p_y r) = false ->
           (p_y r', q_y r') = (p_y r, q_y r) /\ (e1, e3) = (q_y r, p_y r)).
Proof.
  destruct r as [px py qx qy]. cbn zeta. unfold pdfi_normalize_rect, normalize_rectangle.
  cbn [p_x p_y q_x q_y].
  destruct (SFltb qx px) eqn:Ex; destruct (SFltb px qx) eqn:Ex';
    try (rewrite (SFltb_asym _ _ Ex) in Ex'; discriminate Ex');
    destruct (SFltb qy py) eqn:Ey; destruct (SFltb py qy) eqn:Ey';
    try (rewrite (SFltb_asym _ _ Ey) in Ey'; discriminate Ey');
    repeat (progress (cbn [p_x p_y q_x q_y]; rewrite ?Ex, ?Ey, ?Ex', ?Ey'));
    (split; [reflexivity|]); (split; [reflexivity|]); (split; [reflexivity|]);
    (split; [auto|]); (split; [auto|]);
    do 4 eexists; (split; [reflexivity|]);
    cbn [orb]; repeat split; intros; try reflexivity; try discriminate.
Qed.

Lemma pdfi_normalize_rect_idempotent_witness :
  exists e0 e1 e2 e3,
    normalize_rectangle
      (S754_zero false, S754_zero true, S754_infinity false, S754_zero false)
    = (e0, e1, e2, e3)
    /\ (e0, e2) = (S754_zero false, S754_infinity false)
    /\ (e1, e3) = (S754_zero false, S754_zero true)
    /\ pdfi_normalize_rect
         (mk_gs_rect (S754_zero false) (S754_zero true)
            (S754_infinity false) (S754_zero false))
       = mk_gs_rect (S754_zero false) (S754_zero true)
           (S754_infinity false) (S754_zero false).
Proof.
  pose proof (pdfi_normalize_rect_idempotent
                (mk_gs_rect (S754_zero false) (S754_zero true)
                   (S754_infinity false) (S754_zero false))) as H.
  cbn zeta in H.
  destruct H as (_ & _ & _ & _ & _ & e0 & e1 & e2 & e3 & E & Hx & _ & _ & Hy).
  exists e0, e1, e2, e3. split; [exact E|].
  split; [exact (Hx eq_refl)|].
  split; [exact (proj2 (Hy eq_refl eq_refl))|reflexivity].
Defined.

Lemma normalize_rectangle_ordered_witness :
  SFleb (S754_zero false) (S754_infinity false) = true.
Proof.
  destruct (normalize_rectangle_ordered (S754_infinity false) (S754_zero false)
              (S754_zero false) (S754_zero false))
    as (e0 & e1 & e2 & e3 & E & _ & _ & _ & _ & H & _).
  vm_compute in E. injection E as <- <- <- <-.
  exact (H eq_refl eq_refl).
Defined.
(** ** The range check of the object cache *)

Lemma set_entry_next_store m v c :
  heap (set_entry_next m v c) = heap c
  /\ xref_table (set_entry_next m v c) = xref_table c
  /\ cache_MRU (set_entry_next m v c) = cache_MRU c
  /\ cache_LRU (set_entry_next m v c) = cache_LRU c
  /\ cache_entries (set_entry_next m v c) = cache_entries c.
Proof. unfold set_entry_next. destruct (get_entry c m); repeat split. Qed.

Lemma set_entry_previous_store m v c :
  heap (set_entry_previous m v c) = heap c
  /\ xref_table (set_entry_previous m v c) = xref_table c
  /\ cache_MRU (set_entry_previous m v c) = cache_MRU c
  /\ cache_LRU (set_entry_previous m v c) = cache_LRU c
  /\ cache_entries (set_entry_previous m v c) = cache_entries c.
Proof. unfold set_entry_previous. destruct (get_entry c m); repeat split. Qed.

Lemma cache_link_MRU_bounds p c ob xref :
  get_obj c p = Some ob -> xref_table c = Some xref ->
  (0 <= object_num ob < Z.of_nat (length xref) ->
   exists c' e,
     cache_link_MRU p c = Some c'
     /\ get_obj c' p = Some (set_refcnt (refcnt ob + 1) ob)
     /\ xref_get c' (object_num ob) = Some e
     /\ cache e = Some (length (cache_store c))
     /\ xref_size c' = xref_size c
     /\ cache_MRU c' = Some (length (cache_store c))
     /\ cache_entries c' = cache_entries c + 1)
  /\ (object_num ob = Z.of_nat (length xref) -> cache_link_MRU p c = None).
Proof.
  intros Hob Hx. unfold cache_link_MRU. cbv zeta.
  set (c1 := set_cache_store _ c).
  assert (H1 : get_obj c1 p = Some ob) by exact Hob.
  set (c2 := pdfi_countup p c1).
  assert (Hh2 : get_obj c2 p = Some (set_refcnt (refcnt ob + 1) ob)).
  { unfold c2. rewrite (pdfi_countup_get _ _ _ H1).
    apply (get_obj_put_obj_eq _ _ _ _ H1). }
  assert (Hx2 : xref_table c2 = Some xref).
  { unfold c2. rewrite (pdfi_countup_get _ _ _ H1). exact Hx. }
  assert (Hm2 : cache_MRU c2 = cache_MRU c).
  { unfold c2. rewrite (pdfi_countup_get _ _ _ H1). reflexivity. }
  assert (He2 : cache_entries c2 = cache_entries c).
  { unfold c2. rewrite (pdfi_countup_get _ _ _ H1). reflexivity. }
  clearbody c2. clear H1. clearbody c1.
  set (c3 := match cache_MRU c2 with Some m => _ | None => c2 end).
  assert (H3 : heap c3 = heap c2 /\ xref_table c3 = xref_table c2
               /\ cache_entries c3 = cache_entries c2).
  { unfold c3. destruct (cache_MRU c2) as [m|]; [|auto].
    destruct (set_entry_next_store m (Some (length (cache_store c)))
                (set_entry_previous (length (cache_store c)) (Some m) c2))
      as (-> & -> & _ & _ & ->).
    destruct (set_entry_previous_store (length (cache_store c)) (Some m) c2)
      as (-> & -> & _ & _ & ->). auto. }
  destruct H3 as (Hh3 & Hx3 & He3). clearbody c3.
  set (c4 := set_cache_MRU _ c3).
  set (c5 := match cache_LRU c4 with None => _ | Some _ => c4 end).
  assert (H5 : heap c5 = heap c3 /\ xref_table c5 = xref_table c3
               /\ cache_entries c5 = cache_entries c3
               /\ cache_MRU c5 = Some (length (cache_store c))).
  { unfold c5. destruct (cache_LRU c4); repeat split. }
  destruct H5 as (Hh5 & Hx5 & He5 & Hm5). clearbody c5. clear c4.
  set (c6 := set_cache_entries _ c5).
  assert (Hg6 : get_obj c6 p = Some (set_refcnt (refcnt ob + 1) ob)).
  { unfold get_obj, c6. cbn [heap set_cache_entries]. rewrite Hh5, Hh3. exact Hh2. }
  assert (Hx6 : xref_table c6 = Some xref).
  { unfold c6. cbn [xref_table set_cache_entries]. rewrite Hx5, Hx3. exact Hx2. }
  assert (Hm6 : cache_MRU c6 = Some (length (cache_store c))) by exact Hm5.
  assert (He6 : cache_entries c6 = cache_entries c + 1).
  { unfold c6. cbn [cache_entries set_cache_entries]. rewrite He5, He3, He2. reflexivity. }
  clearbody c6. rewrite Hg6. cbn [object_num set_refcnt].
  unfold xref_set_cache, xref_get, xref_set. rewrite Hx6.
  split.
  - intros Hr.
    destruct (Z.ltb_spec (object_num ob) 0); [lia|].
    destruct (lookup_lt_is_Some_2 xref (Z.to_nat (object_num ob))) as [e He]; [lia|].
    rewrite He.
    destruct (Z.leb_spec 0 (object_num ob)); [|lia].
    destruct (Z.ltb_spec (object_num ob) (Z.of_nat (length xref))); [|lia].
    cbn [andb].
    eexists _, _. split; [reflexivity|].
    unfold get_obj, xref_size. cbn [heap xref_table set_xref_table cache_MRU cache_entries].
    split; [exact Hg6|].
    destruct (Z.ltb_spec (object_num ob) 0); [lia|].
    rewrite list_lookup_insert_eq by lia.
    split; [reflexivity|]. split; [reflexivity|].
    rewrite length_insert, Hx. auto.
  - intros Heq.
    destruct (Z.ltb_spec (object_num ob) 0); [reflexivity|].
    rewrite lookup_ge_None_2 by lia. reflexivity.
Qed.

(** pdfi_add_to_cache tests the object number against the size of the
    cross-reference table with [>]: a number above the size is refused with
    a range-check error and the context is left as it was; a number below
    the size is accepted, and with room in the cache the object gets a new
    most-recently-used entry, one more reference, and the back-pointer of
    its table entry; a number equal to the size also passes the test, and
    the back-pointer is then stored one entry past the end of the table. *)
Theorem pdfi_add_to_cache_range (MAX : Z) (c : pdf_context) (p : nat)
    (ob : pdf_obj) (xref : list xref_entry) :
  get_obj c p = Some ob -> xref_table c = Some xref ->
  (xref_size c < object_num ob ->
   pdfi_add_to_cache MAX c p = (gs_error_rangecheck, c))
  /\ (0 <= object_num ob < xref_size c -> cache_entries c <> MAX ->
      exists c' e,
        pdfi_add_to_cache MAX c p = (0, c')
        /\ get_obj c' p = Some (set_refcnt (refcnt ob + 1) ob)
        /\ xref_get c' (object_num ob) = Some e
        /\ cache e = Some (length (cache_store c))
        /\ cache_MRU c' = Some (length (cache_store c))
        /\ cache_entries c' = cache_entries c + 1)
  /\ (object_num ob = xref_size c -> cache_entries c <> MAX ->
      pdfi_add_to_cache MAX c p = (model_undefined_behaviour, c)).
Proof.
  intros Hob Hx.
  assert (Hs : xref_size c = Z.of_nat (length xref)) by (unfold xref_size; rewrite Hx; auto).
  destruct (cache_link_MRU_bounds p c ob xref Hob Hx) as [Hin Hout].
  split; [|split].
  - intros H. apply (pdfi_add_to_cache_rangecheck MAX c p ob xref Hob Hx). lia.
  - intros H Hroom.
    rewrite (pdfi_add_to_cache_room MAX c p ob xref Hob Hx) by (auto; lia).
    destruct Hin as (c' & e & -> & H1 & H2 & H3 & _ & H4 & H5); [lia|].
    exists c', e. repeat split; assumption.
  - intros H Hroom.
    rewrite (pdfi_add_to_cache_room MAX c p ob xref Hob Hx) by (auto; lia).
    rewrite Hout by lia. reflexivity.
Qed.

Lemma pdfi_add_to_cache_range_witness :
  pdfi_add_to_cache 4 boundary_object 0 = (model_undefined_behaviour, boundary_object).
Proof.
  destruct (pdfi_add_to_cache_range 4 boundary_object 0 _ _ eq_refl eq_refl)
    as (_ & _ & H).
  apply H; vm_compute; congruence.
Defined.
(** ** Well-formed numbers *)

Lemma is_digit_starts_number b : is_digit b = true -> starts_number b = true.
Proof. unfold starts_number. intros ->. reflexivity. Qed.

Lemma is_sign_starts_number b : is_sign b = true -> starts_number b = true.
Proof.
  unfold starts_number, is_sign. rewrite !orb_true_iff. tauto.
Qed.

Lemma ends_token_ends_number rest : ends_token rest = true -> ends_number rest = true.
Proof.
  destruct rest as [|b bs]; [reflexivity|]. cbn [ends_token ends_number].
  intros H. apply negb_true_iff.
  destruct (starts_number b) eqn:E; [|reflexivity].
  rewrite (starts_number_not_white _ E), (starts_number_not_delimiter _ E) in H.
  discriminate.
Qed.

(** The iteration of pdfi_read_num that meets a proper end of the token. *)
Lemma pdfi_read_num_loop_end_token sel c fuel Buffer real malformed rest :
  0 <= s_pos (get_stream sel c) ->
  stream_rest (get_stream sel c) = rest ->
  ends_token rest = true ->
  exists c1,
    pdfi_read_num_loop (S fuel) sel c Buffer real malformed
      = (0, c1, Buffer, real, malformed)
    /\ reader_frame c c1 /\ pdf_errors c1 = pdf_errors c
    /\ stream_rest (get_stream sel c1) = after_number rest.
Proof.
  intros Hp Hr He.
  destruct rest as [|b bs].
  - destruct (pdfi_read_byte_nil _ _ Hr) as (stm & Hrb & Hrest & Heof & Hpos).
    exists (put_stream sel stm c).
    cbn [pdfi_read_num_loop]. rewrite Hrb.
    cbn [Z.eqb andb]. rewrite get_put_stream, Heof. cbn [Z.eqb andb].
    split; [reflexivity|]. split; [apply reader_frame_put_stream|].
    split; [apply pdf_errors_put_stream|].
    rewrite ?get_put_stream. exact Hrest.
  - destruct (pdfi_read_byte_cons _ _ _ _ Hp Hr) as (stm & Hrb & Hrest & Heof & Hpos).
    cbn [ends_token] in He.
    cbn [pdfi_read_num_loop]. rewrite Hrb.
    cbn [Z.eqb Z.leb Z.compare andb after_number].
    destruct (iswhite b) eqn:Hw.
    + exists (put_stream sel stm c). split; [reflexivity|].
      split; [apply reader_frame_put_stream|].
      split; [apply pdf_errors_put_stream|].
      rewrite get_put_stream. exact Hrest.
    + cbn [orb] in He. rewrite He.
      exists (snd (pdfi_unread sel [b] (put_stream sel stm c))).
      split; [reflexivity|].
      unfold pdfi_unread. cbn [snd]. rewrite put_put_stream, !get_put_stream.
      split; [apply reader_frame_put_stream|].
      split; [apply pdf_errors_put_stream|].
      unfold stream_rest in *. cbn. rewrite Hrest. reflexivity.
Qed.

(** A run of number bytes that is not malformed, fits the buffer and ends
    properly is read to its end, whatever the error mode. *)
Lemma pdfi_read_num_loop_wellformed sel rest sfx :
  forall pfx c fuel,
    0 <= s_pos (get_stream sel c) ->
    stream_rest (get_stream sel c) = sfx ++ rest ->
    forallb starts_number sfx = true ->
    ends_token rest = true ->
    malformed_number (pfx ++ sfx) = false ->
    Z.of_nat (length pfx) + Z.of_nat (length sfx) <= 255 ->
    (length sfx < fuel)%nat ->
    exists c1,
      pdfi_read_num_loop fuel sel c pfx (has_point pfx) false
        = (0, c1, pfx ++ sfx, has_point (pfx ++ sfx), false)
      /\ reader_frame c c1 /\ pdf_errors c1 = pdf_errors c
      /\ stream_rest (get_stream sel c1) = after_number rest.
Proof.
  induction sfx as [|b sfx IH]; intros pfx c fuel Hp Hr Hn He Hm Hlen Hfuel.
  - destruct fuel as [|fuel]; [simpl in Hfuel; lia|].
    rewrite app_nil_r. simpl in Hr.
    apply pdfi_read_num_loop_end_token; auto.
  - destruct fuel as [|fuel]; [simpl in Hfuel; lia|].
    simpl in Hn. apply andb_true_iff in Hn. destruct Hn as [Hb Hn].
    simpl in Hr, Hlen, Hfuel.
    destruct (pdfi_read_num_loop_step sel c fuel pfx (has_point pfx) false
                b (sfx ++ rest) Hp Hr Hb)
      as (stm & Hrest & Hpos & Hstep).
    assert (Hm1 : malformed_number (pfx ++ [b]) = false).
    { destruct (malformed_number (pfx ++ [b])) eqn:E; [|reflexivity].
      exfalso. revert Hm. change (b :: sfx) with ([b] ++ sfx). rewrite app_assoc.
      clear - E. revert E. generalize (pfx ++ [b]). intros l E.
      induction sfx as [|x sfx IHs] using rev_ind.
      - rewrite app_nil_r. congruence.
      - rewrite app_assoc, malformed_number_app.
        destruct (malformed_number (l ++ sfx)); [discriminate|]. tauto. }
    rewrite malformed_number_app in Hm1. apply orb_false_iff in Hm1.
    destruct Hm1 as [_ Hm1].
    rewrite Hstep, Hm1. cbn [andb orb].
    assert (Hfit : (Z.of_nat (length pfx) + 1 >? 255) = false).
    { rewrite Z.gtb_ltb. apply Z.ltb_ge. lia. }
    rewrite Hfit.
    rewrite <- has_point_app.
    destruct (IH (pfx ++ [b]) (put_stream sel stm c) fuel)
      as (c1 & Hloop & Hfr & Herr & Hout);
      rewrite ?get_put_stream; auto; try lia.
    { rewrite <- app_assoc. exact Hm. }
    { rewrite length_app. simpl. lia. }
    exists c1. rewrite <- app_assoc in Hloop. simpl in Hloop.
    split; [exact Hloop|].
    split; [eapply reader_frame_trans; [apply reader_frame_put_stream|exact Hfr]|].
    split; [rewrite Herr; apply pdf_errors_put_stream|exact Hout].
Qed.

Lemma leading_digits_decimal ds :
  forall acc, forallb is_digit ds = true ->
    leading_digits acc ds = fold_left (fun a d => 10 * a + (d - 0x30)) ds acc.
Proof.
  induction ds as [|d ds IH]; intros acc H; [reflexivity|].
  simpl in H. apply andb_true_iff in H. destruct H as [Hd H].
  cbn [leading_digits fold_left]. rewrite Hd. apply IH. exact H.
Qed.

Lemma int_range_test v :
  - 2 ^ 31 <= v < 2 ^ 31 -> (- 2 ^ 31 <=? v) && (v <? 2 ^ 31) = true.
Proof.
  intros H. apply andb_true_iff. split; [apply Z.leb_le|apply Z.ltb_lt]; lia.
Qed.

Lemma sscanf_d_signed sign ds :
  is_sign_prefix sign = true -> ds <> [] -> forallb is_digit ds = true ->
  - 2 ^ 31 <= signed_value sign ds < 2 ^ 31 ->
  sscanf_d (sign ++ ds) = SCAN_VALUE (signed_value sign ds).
Proof.
  intros Hs Hne Hd Hv.
  destruct ds as [|d ds']; [congruence|]. clear Hne.
  assert (Hd0 : is_digit d = true) by (simpl in Hd; apply andb_true_iff in Hd; tauto).
  pose proof (leading_digits_decimal (d :: ds') 0 Hd) as Hl.
  fold (decimal_value (d :: ds')) in Hl.
  destruct sign as [|s [|]]; try discriminate.
  - cbn [app signed_value] in *. unfold sscanf_d.
    assert (E1 : (d =? ch "-") = false).
    { unfold is_digit in Hd0. change (ch "-") with 45. apply Z.eqb_neq. lia. }
    assert (E2 : (d =? ch "+") = false).
    { unfold is_digit in Hd0. change (ch "+") with 43. apply Z.eqb_neq. lia. }
    rewrite E1, E2, Hd0, Hl, int_range_test by exact Hv. reflexivity.
  - cbn [app signed_value is_sign_prefix] in *. unfold sscanf_d.
    unfold is_sign in Hs.
    destruct (s =? ch "-") eqn:Em.
    + rewrite Hd0, Hl, int_range_test by exact Hv. reflexivity.
    + rewrite orb_false_r in Hs. rewrite Hs, Hd0, Hl, int_range_test by exact Hv.
      reflexivity.
Qed.

Lemma signed_run_wellformed sign ds :
  is_sign_prefix sign = true -> forallb is_digit ds = true ->
  forallb starts_number (sign ++ ds) = true
  /\ malformed_number (sign ++ ds) = false
  /\ has_point (sign ++ ds) = false.
Proof.
  intros Hs Hd.
  assert (Hn : forallb starts_number ds = true).
  { apply forallb_forall. intros x Hx. apply is_digit_starts_number.
    rewrite forallb_forall in Hd. auto. }
  assert (Hp : List.filter is_point ds = []).
  { clear Hn. induction ds as [|d ds IH]; [reflexivity|].
    simpl in Hd. apply andb_true_iff in Hd. destruct Hd as [Hd0 Hd].
    cbn [List.filter]. unfold is_point at 1. unfold is_digit in Hd0.
    change (ch ".") with 46.
    destruct (Z.eqb_spec d 46); [lia|]. auto. }
  assert (Hg : existsb is_sign ds = false).
  { clear Hn Hp. induction ds as [|d ds IH]; [reflexivity|].
    simpl in Hd. apply andb_true_iff in Hd. destruct Hd as [Hd0 Hd].
    cbn [existsb]. rewrite (IH Hd), orb_false_r.
    unfold is_sign, is_digit in *. change (ch "+") with 43. change (ch "-") with 45.
    apply orb_false_iff. split; apply Z.eqb_neq; lia. }
  destruct sign as [|s [|]]; try discriminate.
  - cbn [app]. split; [exact Hn|].
    unfold malformed_number, second_decimal_point, sign_after_first, has_point.
    rewrite Hp. cbn [length Nat.leb orb].
    split; [|reflexivity].
    destruct ds as [|d ds]; [reflexivity|]. cbn [tail].
    simpl in Hg. apply orb_false_iff in Hg. tauto.
  - cbn [app is_sign_prefix] in *.
    split; [cbn [forallb]; rewrite (is_sign_starts_number _ Hs), Hn; reflexivity|].
    unfold malformed_number, second_decimal_point, sign_after_first, has_point.
    cbn [List.filter tail].
    assert (Hsp : is_point s = false).
    { unfold is_point, is_sign in *. change (ch "+") with 43 in Hs.
      change (ch "-") with 45 in Hs. change (ch ".") with 46.
      apply orb_true_iff in Hs. apply Z.eqb_neq.
      destruct Hs as [H|H]; apply Z.eqb_eq in H; lia. }
    rewrite Hsp, Hp, Hg. cbn. auto.
Qed.

(** The object that pdfi_read_num makes of the text of an integer. *)
Lemma pdfi_read_num_object_int c1 Buffer v :
  sscanf_d Buffer = SCAN_VALUE v ->
  exists c' ob,
    pdfi_read_num_object c1 Buffer false false = (0, c')
    /\ stack c' = length (heap c1) :: stack c1
    /\ get_obj c' (length (heap c1)) = Some ob
    /\ type ob = PDF_INT /\ value_i ob = v /\ refcnt ob = 1
    /\ pdf_errors c' = pdf_errors c1
    /\ main_stream c' = main_stream c1
    /\ compressed_stream c' = compressed_stream c1.
Proof.
  intros Hv. unfold pdfi_read_num_object. cbn [negb andb].
  destruct (pdfi_alloc_object_fresh c1 PDF_INT 0) as (ob0 & Ha & Ht & Hrc & _).
  rewrite Ha. cbn [Z.ltb Z.compare].
  rewrite get_obj_set_heap_app. rewrite Hv.
  set (c2 := set_heap (heap c1 ++ [Some ob0]) c1).
  set (ob1 := set_value_i v ob0).
  destruct (pdfi_push_spec (put_obj (length (heap c1)) ob1 c2) (length (heap c1)) ob1)
    as (c4 & Hpush & Hst & Hg & Hm & Hc & He).
  { eapply get_obj_put_obj_eq. unfold c2. apply get_obj_set_heap_app. }
  cbv zeta. rewrite Hpush. cbn [Z.ltb Z.compare].
  exists c4, (set_refcnt (refcnt ob1 + 1) ob1).
  split; [reflexivity|]. split; [exact Hst|]. split; [exact Hg|].
  subst ob1. cbn. rewrite Ht, Hrc. rewrite He, Hm, Hc. auto 10.
Qed.

(** pdfi_read_num reads an integer written as an optional sign and decimal
    digits, of at most 255 bytes and with a value that fits an [int], when
    white space, a delimiter or the end of the data follows it: it pushes a
    PDF_INT of that value with reference count 1, sets no error flag, and
    leaves the stream after the number and after the white-space byte that
    ended it, if one did. *)
Theorem pdfi_read_num_integer (sel : stream_sel) (c : pdf_context)
    (sign ds rest : list Z) :
  0 <= s_pos (get_stream sel c) ->
  stream_rest (get_stream sel c) = sign ++ ds ++ rest ->
  is_sign_prefix sign = true ->
  ds <> [] -> forallb is_digit ds = true ->
  ends_token rest = true ->
  Z.of_nat (length (sign ++ ds)) <= 255 ->
  - 2 ^ 31 <= signed_value sign ds < 2 ^ 31 ->
  exists c' p ob,
    pdfi_read_num sel c = (0, c') /\ stack c' = p :: stack c
    /\ get_obj c' p = Some ob /\ type ob = PDF_INT
    /\ value_i ob = signed_value sign ds /\ refcnt ob = 1
    /\ pdf_errors c' = pdf_errors c
    /\ stream_rest (get_stream sel c') = after_number rest.
Proof.
  intros Hp Hr Hs Hne Hd He Hlen Hv.
  destruct (signed_run_wellformed sign ds Hs Hd) as (Hn & Hm & Hpt).
  rewrite app_assoc in Hr.
  destruct (sign ++ ds) as [|b bs] eqn:Hrun.
  { destruct sign; [|discriminate]. simpl in Hrun. congruence. }
  assert (Hb : starts_number b = true).
  { simpl in Hn. apply andb_true_iff in Hn. tauto. }
  destruct (skip_white_not_white sel c b (bs ++ rest)) as (stm0 & Hsk & Hr0 & Hp0); auto.
  { apply starts_number_not_white. exact Hb. }
  unfold pdfi_read_num. rewrite Hsk.
  destruct (pdfi_read_num_loop_wellformed sel rest (b :: bs) [] (put_stream sel stm0 c) 257)
    as (c1 & Hloop & Hfr & Herr & Hout);
    rewrite ?get_put_stream; auto; try (cbn [length app] in *; lia).
  change (has_point []) with false in Hloop. cbn [app] in Hloop.
  rewrite Hpt in Hloop. rewrite Hloop. cbn [Z.ltb Z.compare].
  rewrite <- Hrun.
  destruct (pdfi_read_num_object_int c1 (sign ++ ds) (signed_value sign ds))
    as (c' & ob & Hobj & Hst & Hg & Hty & Hval & Hrc & Her & Hms & Hcs).
  { apply sscanf_d_signed; auto. }
  rewrite Hobj. exists c', (length (heap c1)), ob.
  split; [reflexivity|].
  destruct Hfr as (Hh & Hst1 & _). rewrite stack_put_stream in Hst1.
  split; [rewrite Hst, Hst1; reflexivity|].
  split; [exact Hg|]. split; [exact Hty|]. split; [exact Hval|]. split; [exact Hrc|].
  split; [rewrite Her, Herr; apply pdf_errors_put_stream|].
  rewrite (get_stream_eq sel c1 c' Hms Hcs). exact Hout.
Qed.


Lemma pdfi_read_num_integer_witness :
  exists c' p ob,
    pdfi_read_num MAIN_STREAM (new_context true (bytes_of_string "-42]")) = (0, c')
    /\ stack c' = p :: []
    /\ get_obj c' p = Some ob /\ type ob = PDF_INT
    /\ value_i ob = -42 /\ refcnt ob = 1
    /\ pdf_errors c' = 0
    /\ stream_rest (get_stream MAIN_STREAM c') = [ch "]"].
Proof.
  apply (pdfi_read_num_integer MAIN_STREAM (new_context true (bytes_of_string "-42]"))
           [ch "-"] [ch "4"; ch "2"] [ch "]"]);
    try reflexivity; try (simpl; lia); try discriminate.
  vm_compute. split; [discriminate|reflexivity].
Defined.
(** ** Names *)

Lemma ishex_fromhex_range c : ishex c = true -> 0 <= fromhex c < 16.
Proof.
  unfold ishex, fromhex.
  change (ch "F") with 70. change (ch "a") with 97. change (ch "A") with 65.
  change (ch "f") with 102.
  destruct (Z.ltb_spec c 48); [discriminate|].
  destruct (Z.gtb_spec c 57); [|lia].
  destruct (Z.gtb_spec c 70).
  - destruct (Z.ltb_spec c 97); [discriminate|].
    destruct (Z.gtb_spec c 102); [discriminate|]. lia.
  - destruct (Z.ltb_spec c 65); [discriminate|]. lia.
Qed.

Lemma hex_pair_byte h0 h1 :
  ishex h0 = true -> ishex h1 = true ->
  to_byte (Z.shiftl (fromhex h0) 4 + fromhex h1) = 16 * fromhex h0 + fromhex h1.
Proof.
  intros H0 H1. apply ishex_fromhex_range in H0, H1.
  rewrite Z.shiftl_mul_pow2 by lia. unfold to_byte.
  change (2 ^ 4) with 16. rewrite Z.mod_small; lia.
Qed.

Lemma buffer_inv_nil : buffer_inv [] [].
Proof. split; [reflexivity|simpl; lia]. Qed.

Lemma buffer_inv_store buf out b :
  buffer_inv buf out ->
  buffer_inv (buf_store buf (Z.of_nat (length out)) b) (out ++ [b]).
Proof.
  intros [Ht Hl]. destruct (buf_store_inv buf out b Ht Hl) as (_ & H2 & H3).
  split.
  - rewrite length_app. cbn [length]. rewrite Nat.add_1_r. exact H2.
  - rewrite H3, length_app. simpl. lia.
Qed.

Lemma buffer_inv_end buf out b :
  buffer_inv buf out ->
  take (length out) (buf_store buf (Z.of_nat (length out)) b) = out.
Proof. intros [Ht Hl]. apply (buf_store_inv buf out b Ht Hl). Qed.

(** pdfi_read_bytes(ctx, buf, 1, 2, s) with two bytes to read. *)
Lemma pdfi_read_bytes2_cons sel c b0 b1 bs :
  0 <= s_pos (get_stream sel c) ->
  stream_rest (get_stream sel c) = b0 :: b1 :: bs ->
  exists stm,
    pdfi_read_bytes2 sel c = (2, b0, b1, put_stream sel stm c)
    /\ stream_rest stm = bs /\ 0 <= s_pos stm.
Proof.
  intros Hp Hr.
  destruct (pdfi_read_byte_cons sel c b0 (b1 :: bs) Hp Hr) as (stm & Hrb & Hrest & _ & Hpos).
  destruct (pdfi_read_byte_cons sel (put_stream sel stm c) b1 bs)
    as (stm' & Hrb' & Hrest' & _ & Hpos'); rewrite ?get_put_stream; auto.
  unfold pdfi_read_bytes2. rewrite Hrb. cbn [Z.leb Z.compare]. rewrite Hrb'.
  cbn [Z.leb Z.compare]. rewrite put_put_stream. eauto.
Qed.

(** ... and with fewer than two. *)
Lemma pdfi_read_bytes2_short sel c tl :
  0 <= s_pos (get_stream sel c) ->
  stream_rest (get_stream sel c) = tl ->
  (length tl < 2)%nat ->
  exists n b0 b1 stm,
    pdfi_read_bytes2 sel c = (n, b0, b1, put_stream sel stm c) /\ n < 2.
Proof.
  intros Hp Hr Hl. destruct tl as [|b0 [|b1 tl]]; [| |simpl in Hl; lia].
  - destruct (pdfi_read_byte_nil sel c Hr) as (stm & Hrb & _).
    unfold pdfi_read_bytes2. rewrite Hrb. cbn [Z.leb Z.compare].
    do 4 eexists. split; [reflexivity|lia].
  - destruct (pdfi_read_byte_cons sel c b0 [] Hp Hr) as (stm & Hrb & Hrest & _ & Hpos).
    destruct (pdfi_read_byte_nil sel (put_stream sel stm c)) as (stm' & Hrb' & _);
      [rewrite get_put_stream; exact Hrest|].
    unfold pdfi_read_bytes2. rewrite Hrb. cbn [Z.leb Z.compare]. rewrite Hrb'.
    cbn [Z.leb Z.compare]. rewrite put_put_stream.
    do 4 eexists. split; [reflexivity|lia].
Qed.

(** The iteration of pdfi_read_name that meets the end of the name. *)
Lemma pdfi_read_name_loop_end sel c fuel buf out rest :
  0 <= s_pos (get_stream sel c) ->
  stream_rest (get_stream sel c) = rest ->
  ends_token rest = true ->
  buffer_inv buf out ->
  exists stm B,
    pdfi_read_name_loop (S fuel) sel c buf (Z.of_nat (length out))
      = (0, put_stream sel stm c, B, Z.of_nat (length out))
    /\ take (length out) B = out
    /\ stream_rest stm = after_number rest.
Proof.
  intros Hp Hr He Hinv.
  destruct rest as [|b bs].
  - destruct (pdfi_read_byte_nil _ _ Hr) as (stm & Hrb & Hrest & Heof & Hpos).
    exists stm, buf.
    cbn [pdfi_read_name_loop]. rewrite Hrb.
    cbn [Z.eqb andb]. rewrite get_put_stream, Heof. cbn [Z.eqb andb].
    split; [reflexivity|]. split; [apply Hinv|exact Hrest].
  - destruct (pdfi_read_byte_cons _ _ _ _ Hp Hr) as (stm & Hrb & Hrest & Heof & Hpos).
    cbn [ends_token] in He.
    cbn [pdfi_read_name_loop]. rewrite Hrb.
    cbn [Z.eqb Z.leb Z.compare andb after_number].
    destruct (iswhite b) eqn:Hw.
    + exists stm. eexists. split; [reflexivity|].
      split; [apply buffer_inv_end; exact Hinv|exact Hrest].
    + cbn [orb] in He. rewrite He.
      unfold pdfi_unread. rewrite put_put_stream, !get_put_stream.
      eexists. eexists. split; [reflexivity|].
      split; [apply buffer_inv_end; exact Hinv|].
      unfold stream_rest in *. cbn. rewrite Hrest. reflexivity.
Qed.

(** The items of a well-formed name are read to the end of the name. *)
Lemma pdfi_read_name_loop_items sel rest :
  forall items buf out c fuel,
    0 <= s_pos (get_stream sel c) ->
    stream_rest (get_stream sel c) = name_text items ++ rest ->
    forallb name_item_ok items = true ->
    ends_token rest = true ->
    buffer_inv buf out ->
    Z.of_nat (length out) + Z.of_nat (length items) < 65536 ->
    (length items < fuel)%nat ->
    exists stm B,
      pdfi_read_name_loop fuel sel c buf (Z.of_nat (length out))
        = (0, put_stream sel stm c, B, Z.of_nat (length (out ++ name_bytes items)))
      /\ take (length (out ++ name_bytes items)) B = out ++ name_bytes items
      /\ stream_rest stm = after_number rest.
Proof.
  induction items as [|it items IH]; intros buf out c fuel Hp Hr Hok He Hinv Hlen Hfuel.
  - destruct fuel as [|fuel]; [simpl in Hfuel; lia|].
    cbn [name_bytes map]. rewrite app_nil_r. simpl in Hr.
    apply pdfi_read_name_loop_end; auto.
  - destruct fuel as [|fuel]; [simpl in Hfuel; lia|].
    simpl in Hok. apply andb_true_iff in Hok. destruct Hok as [Hit Hok].
    simpl in Hlen, Hfuel.
    assert (Hinc : ushort_incr (Z.of_nat (length out)) = Z.of_nat (length (out ++ [name_item_byte it]))).
    { rewrite length_app. cbn [length]. rewrite Nat.add_1_r.
      apply ushort_incr_small. lia. }
    assert (Happ : out ++ name_bytes (it :: items)
                   = (out ++ [name_item_byte it]) ++ name_bytes items).
    { rewrite <- app_assoc. reflexivity. }
    rewrite Happ.
    destruct it as [b|h0 h1].
    + cbn [name_item_ok] in Hit. unfold regular_byte in Hit.
      rewrite !andb_true_iff, !negb_true_iff in Hit. destruct Hit as [[Hw Hd] Hs].
      cbn [name_text map concat name_item_text app] in Hr.
      destruct (pdfi_read_byte_cons _ _ _ _ Hp Hr) as (stm & Hrb & Hrest & Heof & Hpos).
      cbn [pdfi_read_name_loop]. rewrite Hrb.
      cbn [Z.eqb Z.leb Z.compare andb]. rewrite Hw, Hd, Hs, Hinc.
      destruct (IH (buf_store buf (Z.of_nat (length out)) b) (out ++ [b])
                  (put_stream sel stm c) fuel)
        as (stm' & B & Hloop & Htake & Hout);
        rewrite ?get_put_stream; auto; try lia.
      { apply buffer_inv_store. exact Hinv. }
      { rewrite length_app. simpl. lia. }
      cbn [name_item_byte].
      exists stm', B. rewrite Hloop, put_put_stream. auto.
    + cbn [name_item_ok] in Hit. apply andb_true_iff in Hit. destruct Hit as [H0 H1].
      cbn [name_text map concat name_item_text app] in Hr.
      destruct (pdfi_read_byte_cons _ _ _ _ Hp Hr) as (stm & Hrb & Hrest & Heof & Hpos).
      destruct (pdfi_read_bytes2_cons sel (put_stream sel stm c) h0 h1
                  (concat (map name_item_text items) ++ rest))
        as (stm2 & Hrb2 & Hrest2 & Hpos2); rewrite ?get_put_stream; auto.
      cbn [pdfi_read_name_loop]. rewrite Hrb.
      change (iswhite (ch "#")) with false. change (isdelimiter (ch "#")) with false.
      cbn [Z.eqb Z.leb Z.compare andb Pos.eqb ch].
      change (ch "#" =? ch "#") with true. cbv iota.
      rewrite Hrb2. cbn [Z.ltb Z.compare]. rewrite H0, H1. cbn [negb orb].
      rewrite hex_pair_byte by assumption. rewrite Hinc.
      destruct (IH (buf_store buf (Z.of_nat (length out)) (16 * fromhex h0 + fromhex h1))
                  (out ++ [16 * fromhex h0 + fromhex h1])
                  (put_stream sel stm2 (put_stream sel stm c)) fuel)
        as (stm' & B & Hloop & Htake & Hout);
        rewrite ?get_put_stream; auto; try lia.
      { apply buffer_inv_store. exact Hinv. }
      { rewrite length_app. simpl. lia. }
      cbn [name_item_byte].
      exists stm', B. rewrite Hloop, !put_put_stream. auto.
Qed.

(** A number sign that is not followed by two hexadecimal digits. *)
Lemma pdfi_read_name_loop_bad_escape sel tl :
  forall items buf (out : list Z) c fuel,
    0 <= s_pos (get_stream sel c) ->
    stream_rest (get_stream sel c) = name_text items ++ ch "#" :: tl ->
    forallb name_item_ok items = true ->
    bad_escape tl = true ->
    Z.of_nat (length out) + Z.of_nat (length items) < 65536 ->
    (length items < fuel)%nat ->
    exists stm B i,
      pdfi_read_name_loop fuel sel c buf (Z.of_nat (length out))
        = (gs_error_ioerror, put_stream sel stm c, B, i).
Proof.
  induction items as [|it items IH]; intros buf out c fuel Hp Hr Hok Hbad Hlen Hfuel.
  - destruct fuel as [|fuel]; [simpl in Hfuel; lia|].
    cbn [name_text map concat app] in Hr.
    destruct (pdfi_read_byte_cons _ _ _ _ Hp Hr) as (stm & Hrb & Hrest & Heof & Hpos).
    cbn [pdfi_read_name_loop]. rewrite Hrb.
    change (iswhite (ch "#")) with false. change (isdelimiter (ch "#")) with false.
    cbn [Z.eqb Z.leb Z.compare andb].
    change (ch "#" =? ch "#") with true. cbv iota.
    destruct tl as [|h0 [|h1 tl']].
    + destruct (pdfi_read_bytes2_short sel (put_stream sel stm c) [])
        as (n & b0 & b1 & stm2 & Hrb2 & Hn); rewrite ?get_put_stream; auto.
      rewrite Hrb2. apply Z.ltb_lt in Hn. rewrite Hn, put_put_stream. eauto.
    + destruct (pdfi_read_bytes2_short sel (put_stream sel stm c) [h0])
        as (n & b0 & b1 & stm2 & Hrb2 & Hn); rewrite ?get_put_stream; auto.
      rewrite Hrb2. apply Z.ltb_lt in Hn. rewrite Hn, put_put_stream. eauto.
    + destruct (pdfi_read_bytes2_cons sel (put_stream sel stm c) h0 h1 tl')
        as (stm2 & Hrb2 & Hrest2 & Hpos2); rewrite ?get_put_stream; auto.
      rewrite Hrb2. cbn [Z.ltb Z.compare].
      cbn [bad_escape] in Hbad. rewrite negb_andb in Hbad. rewrite Hbad.
      rewrite put_put_stream. eauto.
  - destruct fuel as [|fuel]; [simpl in Hfuel; lia|].
    simpl in Hok. apply andb_true_iff in Hok. destruct Hok as [Hit Hok].
    simpl in Hlen, Hfuel.
    assert (Hinc : forall v, ushort_incr (Z.of_nat (length out))
                             = Z.of_nat (length (out ++ [v]))).
    { intros v. rewrite length_app. cbn [length]. rewrite Nat.add_1_r.
      apply ushort_incr_small. lia. }
    destruct it as [b|h0 h1].
    + cbn [name_item_ok] in Hit. unfold regular_byte in Hit.
      rewrite !andb_true_iff, !negb_true_iff in Hit. destruct Hit as [[Hw Hd] Hs].
      cbn [name_text map concat name_item_text app] in Hr.
      destruct (pdfi_read_byte_cons _ _ _ _ Hp Hr) as (stm & Hrb & Hrest & Heof & Hpos).
      cbn [pdfi_read_name_loop]. rewrite Hrb.
      cbn [Z.eqb Z.leb Z.compare andb]. rewrite Hw, Hd, Hs, (Hinc b).
      destruct (IH (buf_store buf (Z.of_nat (length out)) b) (out ++ [b])
                  (put_stream sel stm c) fuel)
        as (stm' & B & i & Hloop);
        rewrite ?get_put_stream; auto; try lia.
      { rewrite length_app. simpl. lia. }
      exists stm', B, i. rewrite Hloop, put_put_stream. auto.
    + cbn [name_item_ok] in Hit. apply andb_true_iff in Hit. destruct Hit as [H0 H1].
      cbn [name_text map concat name_item_text app] in Hr.
      destruct (pdfi_read_byte_cons _ _ _ _ Hp Hr) as (stm & Hrb & Hrest & Heof & Hpos).
      destruct (pdfi_read_bytes2_cons sel (put_stream sel stm c) h0 h1
                  (concat (map name_item_text items) ++ ch "#" :: tl))
        as (stm2 & Hrb2 & Hrest2 & Hpos2); rewrite ?get_put_stream; auto.
      cbn [pdfi_read_name_loop]. rewrite Hrb.
      change (iswhite (ch "#")) with false. change (isdelimiter (ch "#")) with false.
      cbn [Z.eqb Z.leb Z.compare andb].
      change (ch "#" =? ch "#") with true. cbv iota.
      rewrite Hrb2. cbn [Z.ltb Z.compare]. rewrite H0, H1. cbn [negb orb].
      rewrite (Hinc (to_byte (Z.shiftl (fromhex h0) 4 + fromhex h1))).
      destruct (IH (buf_store buf (Z.of_nat (length out))
                      (to_byte (Z.shiftl (fromhex h0) 4 + fromhex h1)))
                  (out ++ [to_byte (Z.shiftl (fromhex h0) 4 + fromhex h1)])
                  (put_stream sel stm2 (put_stream sel stm c)) fuel)
        as (stm' & B & i & Hloop);
        rewrite ?get_put_stream; auto; try lia.
      { rewrite length_app. simpl. lia. }
      exists stm', B, i. rewrite Hloop, !put_put_stream. auto.
Qed.

(** The tail of pdfi_read_name and pdfi_read_hexstring: the object is
    created from the first [index] bytes of [Buffer] and pushed. *)
Lemma token_object_pushed c t index (Buffer : list Z) :
  t = PDF_NAME \/ t = PDF_STRING ->
  exists c' ob,
    (let '(code, c2, str) := pdfi_alloc_object c t index in
     if code <? 0 then (code, c2)
     else
       match get_obj c2 str with
       | None => (model_undefined_behaviour, c2)
       | Some ob =>
           let c3 := put_obj str (set_data (take (Z.to_nat index) Buffer) ob) c2 in
           let '(code, c4) := pdfi_push str c3 in
           if code <? 0 then (code, pdfi_free_object str c4) else (code, c4)
       end) = (0, c')
    /\ stack c' = length (heap c) :: stack c
    /\ get_obj c' (length (heap c)) = Some ob
    /\ type ob = t /\ refcnt ob = 1
    /\ data ob = take (Z.to_nat index) Buffer
    /\ main_stream c' = main_stream c
    /\ compressed_stream c' = compressed_stream c
    /\ pdf_errors c' = pdf_errors c.
Proof.
  intros Ht0.
  destruct (pdfi_alloc_object_fresh c t index) as (ob0 & Ha & Ht & Hrc & _).
  rewrite Ha. cbn [Z.ltb Z.compare].
  rewrite get_obj_set_heap_app.
  set (c2 := set_heap (heap c ++ [Some ob0]) c).
  set (ob1 := set_data _ ob0).
  destruct (pdfi_push_spec (put_obj (length (heap c)) ob1 c2) (length (heap c)) ob1)
    as (c4 & Hpush & Hst & Hg & Hm & Hc & He).
  { eapply get_obj_put_obj_eq. apply get_obj_set_heap_app. }
  cbv zeta. rewrite Hpush. cbn [Z.ltb Z.compare].
  exists c4, (set_refcnt (refcnt ob1 + 1) ob1).
  split; [reflexivity|]. split; [exact Hst|]. split; [exact Hg|].
  subst ob1. cbn. rewrite Ht, Hrc. auto 10.
Qed.

(** pdfi_read_name reads the bytes of a name up to white space, a delimiter
    or the end of the data: a regular byte stands for itself and a number
    sign followed by two hexadecimal digits for the byte they write.  The
    name, of fewer than 65536 bytes, is pushed with reference count 1, and
    the terminating byte is consumed only if it is white space.  A number
    sign followed by anything else, or by fewer than two bytes, makes the
    read fail with gs_error_ioerror and pushes nothing. *)
Theorem pdfi_read_name_decodes (sel : stream_sel) (c : pdf_context)
    (items : list name_item) :
  0 <= s_pos (get_stream sel c) ->
  forallb name_item_ok items = true ->
  Z.of_nat (length items) < 65536 ->
  (forall rest,
      stream_rest (get_stream sel c) = name_text items ++ rest ->
      ends_token rest = true ->
      exists c' p ob,
        pdfi_read_name sel c = (0, c') /\ stack c' = p :: stack c
        /\ get_obj c' p = Some ob /\ type ob = PDF_NAME /\ refcnt ob = 1
        /\ data ob = name_bytes items
        /\ pdf_errors c' = pdf_errors c
        /\ stream_rest (get_stream sel c') = after_number rest)
  /\ (forall tl,
      stream_rest (get_stream sel c) = name_text items ++ ch "#" :: tl ->
      bad_escape tl = true ->
      exists c',
        pdfi_read_name sel c = (gs_error_ioerror, c') /\ stack c' = stack c
        /\ heap c' = heap c).
Proof.
  intros Hp Hok Hlen.
  assert (Hfuel : forall tl, stream_rest (get_stream sel c) = name_text items ++ tl ->
                             (length items < stream_fuel sel c)%nat).
  { intros tl Hr. unfold stream_fuel. rewrite Hr, length_app.
    assert (length items <= length (name_text items))%nat; [|lia].
    clear. induction items as [|it items IH]; [simpl; lia|].
    change (name_text (it :: items)) with (name_item_text it ++ name_text items).
    rewrite length_app. destruct it; simpl; lia. }
  split.
  - intros rest Hr He.
    destruct (pdfi_read_name_loop_items sel rest items [] [] c (stream_fuel sel c))
      as (stm & B & Hloop & Htake & Hout); auto using buffer_inv_nil;
      try (cbn [length]; lia); try (eapply Hfuel; eauto; fail).
    cbn [app length] in Hloop, Htake.
    change (Z.of_nat 0) with 0 in Hloop.
    destruct (token_object_pushed (put_stream sel stm c) PDF_NAME
                (Z.of_nat (length (name_bytes items))) B)
      as (c' & ob & Heq & Hst & Hg & Hty & Hrc & Hd & Hm & Hcs & He'); [auto|].
    exists c', (length (heap (put_stream sel stm c))), ob.
    split; [unfold pdfi_read_name; cbv zeta; rewrite Hloop; exact Heq|].
    rewrite stack_put_stream in Hst.
    split; [exact Hst|]. split; [exact Hg|]. split; [exact Hty|]. split; [exact Hrc|].
    split; [rewrite Hd, Nat2Z.id; exact Htake|].
    split; [rewrite He'; apply pdf_errors_put_stream|].
    rewrite (get_stream_eq sel (put_stream sel stm c) c' Hm Hcs), get_put_stream.
    exact Hout.
  - intros tl Hr Hbad.
    destruct (pdfi_read_name_loop_bad_escape sel tl items [] [] c (stream_fuel sel c))
      as (stm & B & i & Hloop); auto;
      try (cbn [length]; lia); try (eapply Hfuel; eauto; fail).
    unfold pdfi_read_name. change (Z.of_nat (length [])) with 0 in Hloop. rewrite Hloop.
    cbn [Z.ltb Z.compare gs_error_ioerror].
    eexists. split; [reflexivity|].
    split; [apply stack_put_stream|apply heap_put_stream].
Qed.

Lemma pdfi_read_name_decodes_witness :
  (exists c' p ob,
      pdfi_read_name MAIN_STREAM (new_context false (bytes_of_string "A#20B/C")) = (0, c')
      /\ stack c' = p :: []
      /\ get_obj c' p = Some ob /\ type ob = PDF_NAME /\ refcnt ob = 1
      /\ data ob = bytes_of_string "A B"
      /\ pdf_errors c' = 0
      /\ stream_rest (get_stream MAIN_STREAM c') = bytes_of_string "/C")
  /\ (exists c',
      pdfi_read_name MAIN_STREAM (new_context false (bytes_of_string "A#2")) 
        = (gs_error_ioerror, c') /\ stack c' = [] /\ heap c' = []).
Proof.
  split.
  - destruct (pdfi_read_name_decodes MAIN_STREAM
                (new_context false (bytes_of_string "A#20B/C"))
                [NPlain (ch "A"); NEscape (ch "2") (ch "0"); NPlain (ch "B")])
      as [A _]; [simpl; lia | reflexivity | simpl; lia |].
    apply (A (bytes_of_string "/C")); reflexivity.
  - destruct (pdfi_read_name_decodes MAIN_STREAM
                (new_context false (bytes_of_string "A#2"))
                [NPlain (ch "A")])
      as [_ B]; [simpl; lia | reflexivity | simpl; lia |].
    apply (B [ch "2"]); reflexivity.
Defined.
(** ** Hexadecimal strings *)

Lemma ishex_not_white h : ishex h = true -> iswhite h = false.
Proof.
  unfold ishex, iswhite.
  destruct (Z.ltb_spec h 48); [discriminate|]. intros _.
  repeat (apply orb_false_iff; split); apply Z.eqb_neq; lia.
Qed.

Lemma ishex_not_close h : ishex h = true -> (h =? ch ">") = false.
Proof.
  unfold ishex. change (ch ">") with 62.
  change (ch "F") with 70. change (ch "a") with 97. change (ch "A") with 65.
  change (ch "f") with 102.
  destruct (Z.ltb_spec h 48); [discriminate|].
  destruct (Z.gtb_spec h 57); [|intros _; apply Z.eqb_neq; lia].
  destruct (Z.gtb_spec h 70); [intros _; apply Z.eqb_neq; lia|].
  destruct (Z.ltb_spec h 65); [discriminate|]. intros _; apply Z.eqb_neq; lia.
Qed.

(** The inner loops of pdfi_read_hexstring: white space is passed over and
    the first other byte is delivered. *)
Lemma read_nonwhite_byte sel b rest :
  forall w c fuel,
    0 <= s_pos (get_stream sel c) ->
    stream_rest (get_stream sel c) = w ++ b :: rest ->
    forallb iswhite w = true -> iswhite b = false ->
    (length w < fuel)%nat ->
    exists stm,
      read_nonwhite fuel sel c = (0, Some b, put_stream sel stm c)
      /\ stream_rest stm = rest /\ 0 <= s_pos stm.
Proof.
  induction w as [|x w IH]; intros c fuel Hp Hr Hw Hb Hf.
  - destruct fuel as [|fuel]; [simpl in Hf; lia|].
    simpl in Hr.
    destruct (pdfi_read_byte_cons _ _ _ _ Hp Hr) as (stm & Hrb & Hrest & Heof & Hpos).
    cbn [read_nonwhite]. rewrite Hrb. cbn [Z.eqb Z.leb Z.compare andb]. rewrite Hb.
    eauto.
  - destruct fuel as [|fuel]; [simpl in Hf; lia|].
    simpl in Hr, Hw, Hf. apply andb_true_iff in Hw. destruct Hw as [Hx Hw].
    destruct (pdfi_read_byte_cons _ _ _ _ Hp Hr) as (stm & Hrb & Hrest & Heof & Hpos).
    cbn [read_nonwhite]. rewrite Hrb. cbn [Z.eqb Z.leb Z.compare andb]. rewrite Hx.
    destruct (IH (put_stream sel stm c) fuel) as (stm' & Hl & Hrest' & Hpos');
      rewrite ?get_put_stream; auto; try lia.
    exists stm'. rewrite Hl, put_put_stream. auto.
Qed.

Lemma read_nonwhite_end sel :
  forall w c fuel,
    0 <= s_pos (get_stream sel c) ->
    stream_rest (get_stream sel c) = w ->
    forallb iswhite w = true ->
    (length w < fuel)%nat ->
    exists stm,
      read_nonwhite fuel sel c = (0, None, put_stream sel stm c)
      /\ stream_rest stm = [] /\ 0 <= s_pos stm.
Proof.
  induction w as [|x w IH]; intros c fuel Hp Hr Hw Hf.
  - destruct fuel as [|fuel]; [simpl in Hf; lia|].
    destruct (pdfi_read_byte_nil _ _ Hr) as (stm & Hrb & Hrest & Heof & Hpos).
    cbn [read_nonwhite]. rewrite Hrb. cbn [Z.eqb andb].
    rewrite get_put_stream, Heof. exists stm. split; [reflexivity|]. split; [auto|lia].
  - destruct fuel as [|fuel]; [simpl in Hf; lia|].
    simpl in Hw, Hf. apply andb_true_iff in Hw. destruct Hw as [Hx Hw].
    destruct (pdfi_read_byte_cons _ _ _ _ Hp Hr) as (stm & Hrb & Hrest & Heof & Hpos).
    cbn [read_nonwhite]. rewrite Hrb. cbn [Z.eqb Z.leb Z.compare andb]. rewrite Hx.
    destruct (IH (put_stream sel stm c) fuel) as (stm' & Hl & Hrest' & Hpos');
      rewrite ?get_put_stream; auto; try lia.
    exists stm'. rewrite Hl, put_put_stream. auto.
Qed.

(** The loop of pdfi_read_hexstring over well-formed pairs of digits. *)
Lemma pdfi_read_hexstring_loop_items sel tl :
  forall items buf out c fuel,
    0 <= s_pos (get_stream sel c) ->
    stream_rest (get_stream sel c) = hex_text items ++ tl ->
    forallb hex_item_ok items = true ->
    buffer_inv buf out ->
    Z.of_nat (length out) + Z.of_nat (length items) < 65536 ->
    exists stm buf',
      stream_rest stm = tl /\ 0 <= s_pos stm
      /\ buffer_inv buf' (out ++ hex_bytes items)
      /\ pdfi_read_hexstring_loop (length items + fuel) sel c buf (Z.of_nat (length out))
         = pdfi_read_hexstring_loop fuel sel (put_stream sel stm c) buf'
             (Z.of_nat (length (out ++ hex_bytes items))).
Proof.
  induction items as [|it items IH]; intros buf out c fuel Hp Hr Hok Hinv Hlen.
  - simpl in Hr. exists (get_stream sel c), buf.
    cbn [hex_bytes map length Nat.add]. rewrite app_nil_r, put_get_stream. auto.
  - simpl in Hok. apply andb_true_iff in Hok. destruct Hok as [Hit Hok].
    destruct it as [[[w0 h0] w1] h1]. cbn [hex_item_ok] in Hit.
    rewrite !andb_true_iff in Hit. destruct Hit as [[[Hw0 H0] Hw1] H1].
    cbn [length] in Hlen.
    change (hex_text ((w0, h0, w1, h1) :: items))
      with ((w0 ++ h0 :: w1 ++ [h1]) ++ hex_text items) in Hr.
    rewrite <- !app_assoc in Hr. cbn [app] in Hr. rewrite <- !app_assoc in Hr.
    cbn [app] in Hr.
    destruct (read_nonwhite_byte sel h0 (w1 ++ h1 :: hex_text items ++ tl) w0 c
                (stream_fuel sel c)) as (stm0 & Hr0 & Hrest0 & Hpos0); auto.
    { apply ishex_not_white. exact H0. }
    { unfold stream_fuel. rewrite Hr, length_app. lia. }
    destruct (read_nonwhite_byte sel h1 (hex_text items ++ tl) w1 (put_stream sel stm0 c)
                (stream_fuel sel (put_stream sel stm0 c)))
      as (stm1 & Hr1 & Hrest1 & Hpos1); rewrite ?get_put_stream; auto.
    { apply ishex_not_white. exact H1. }
    { unfold stream_fuel. rewrite get_put_stream, Hrest0, length_app. lia. }
    cbn [length Nat.add pdfi_read_hexstring_loop].
    rewrite Hr0. cbn [Z.ltb Z.compare]. rewrite (ishex_not_close _ H0).
    rewrite Hr1. cbn [Z.ltb Z.compare]. rewrite H0, H1. cbn [negb orb].
    rewrite hex_pair_byte by assumption.
    assert (Hinc : ushort_incr (Z.of_nat (length out))
                   = Z.of_nat (length (out ++ [16 * fromhex h0 + fromhex h1]))).
    { rewrite length_app. cbn [length]. rewrite Nat.add_1_r.
      apply ushort_incr_small. lia. }
    rewrite Hinc, put_put_stream.
    destruct (IH (buf_store buf (Z.of_nat (length out)) (16 * fromhex h0 + fromhex h1))
                (out ++ [16 * fromhex h0 + fromhex h1]) (put_stream sel stm1 c) fuel)
      as (stm & buf' & Hrest & Hpos & Hinv' & Hloop);
      rewrite ?get_put_stream; auto.
    { apply buffer_inv_store. exact Hinv. }
    { rewrite length_app. cbn [length]. lia. }
    exists stm, buf'. rewrite put_put_stream in Hloop.
    cbn [hex_bytes map hex_item_byte].
    replace (out ++ (16 * fromhex h0 + fromhex h1) :: map hex_item_byte items)
      with ((out ++ [16 * fromhex h0 + fromhex h1]) ++ hex_bytes items)
      by (rewrite <- app_assoc; reflexivity).
    auto.
Qed.

Lemma hex_text_length items :
  forallb hex_item_ok items = true -> (2 * length items <= length (hex_text items))%nat.
Proof.
  induction items as [|[[[w0 h0] w1] h1] items IH]; intros H; [simpl; lia|].
  simpl in H. apply andb_true_iff in H. destruct H as [_ H].
  change (hex_text ((w0, h0, w1, h1) :: items))
    with ((w0 ++ h0 :: w1 ++ [h1]) ++ hex_text items).
  rewrite !length_app. cbn [length]. rewrite length_app. cbn [length].
  specialize (IH H). lia.
Qed.

(** pdfi_read_hexstring reads pairs of hexadecimal digits, with white space
    allowed in front of any digit, up to the closing [>]: the string made
    of the bytes they write, fewer than 65536 of them, is pushed with
    reference count 1 and the stream is left after the [>].  The end of the
    data in place of the [>] is accepted in the same way.  A pair whose
    characters are not both hexadecimal digits - as is the last digit of an
    odd number of digits together with the [>] - makes the read fail with
    gs_error_syntaxerror. *)
Theorem pdfi_read_hexstring_decodes (sel : stream_sel) (c : pdf_context)
    (items : list hex_item) (w : list Z) :
  0 <= s_pos (get_stream sel c) ->
  forallb hex_item_ok items = true ->
  Z.of_nat (length items) < 65536 ->
  forallb iswhite w = true ->
  (forall rest,
      stream_rest (get_stream sel c) = hex_text items ++ w ++ ch ">" :: rest
      \/ (stream_rest (get_stream sel c) = hex_text items ++ w /\ rest = []) ->
      exists c' p ob,
        pdfi_read_hexstring sel c = (0, c') /\ stack c' = p :: stack c
        /\ get_obj c' p = Some ob /\ type ob = PDF_STRING /\ refcnt ob = 1
        /\ data ob = hex_bytes items
        /\ stream_rest (get_stream sel c') = rest)
  /\ (forall x0 w1 x1 rest,
      stream_rest (get_stream sel c) = hex_text items ++ w ++ x0 :: w1 ++ x1 :: rest ->
      iswhite x0 = false -> x0 <> ch ">" ->
      forallb iswhite w1 = true -> iswhite x1 = false ->
      ishex x0 && ishex x1 = false ->
      exists c',
        pdfi_read_hexstring sel c = (gs_error_syntaxerror, c')
        /\ stack c' = stack c /\ heap c' = heap c).
Proof.
  intros Hp Hok Hlen Hw.
  assert (Hfuel : forall tl, stream_rest (get_stream sel c) = hex_text items ++ tl ->
            exists k, stream_fuel sel c = (length items + S k)%nat).
  { intros tl Hr. unfold stream_fuel. rewrite Hr, length_app.
    pose proof (hex_text_length items Hok).
    exists (length (hex_text items) + length tl + 1 - length items)%nat. lia. }
  assert (Hitems : forall tl, stream_rest (get_stream sel c) = hex_text items ++ tl ->
            exists k stm buf',
              stream_rest stm = tl /\ 0 <= s_pos stm
              /\ buffer_inv buf' (hex_bytes items)
              /\ pdfi_read_hexstring_loop (stream_fuel sel c) sel c [] 0
                 = pdfi_read_hexstring_loop (S k) sel (put_stream sel stm c) buf'
                     (Z.of_nat (length (hex_bytes items)))).
  { intros tl Hr. destruct (Hfuel tl Hr) as (k & ->).
    destruct (pdfi_read_hexstring_loop_items sel tl items [] [] c (S k))
      as (stm & buf' & H1 & H2 & H3 & H4); auto using buffer_inv_nil.
    exists k, stm, buf'. auto. }
  split.
  - intros rest Hr.
    assert (exists stm B,
               pdfi_read_hexstring_loop (stream_fuel sel c) sel c [] 0
               = (0, put_stream sel stm c, B, Z.of_nat (length (hex_bytes items)))
               /\ take (length (hex_bytes items)) B = hex_bytes items
               /\ stream_rest stm = rest) as (stm & B & Hloop & Htake & Hout).
    { destruct Hr as [Hr|[Hr ->]].
      - destruct (Hitems _ Hr) as (k & stm & buf' & Hrest & Hpos & Hinv & Hloop).
        destruct (read_nonwhite_byte sel (ch ">") rest w (put_stream sel stm c)
                    (stream_fuel sel (put_stream sel stm c)))
          as (stm0 & Hr0 & Hrest0 & Hpos0); rewrite ?get_put_stream; auto.
        { unfold stream_fuel. rewrite get_put_stream, Hrest, length_app. lia. }
        rewrite Hloop. cbn [pdfi_read_hexstring_loop]. rewrite Hr0.
        cbn [Z.ltb Z.compare]. change (ch ">" =? ch ">") with true. cbv iota.
        rewrite put_put_stream. exists stm0, buf'.
        split; [reflexivity|]. split; [apply Hinv|exact Hrest0].
      - destruct (Hitems _ Hr) as (k & stm & buf' & Hrest & Hpos & Hinv & Hloop).
        destruct (read_nonwhite_end sel w (put_stream sel stm c)
                    (stream_fuel sel (put_stream sel stm c)))
          as (stm0 & Hr0 & Hrest0 & Hpos0); rewrite ?get_put_stream; auto.
        { unfold stream_fuel. rewrite get_put_stream, Hrest. lia. }
        rewrite Hloop. cbn [pdfi_read_hexstring_loop]. rewrite Hr0.
        cbn [Z.ltb Z.compare]. rewrite put_put_stream. exists stm0, buf'.
        split; [reflexivity|]. split; [apply Hinv|exact Hrest0]. }
    destruct (token_object_pushed (put_stream sel stm c) PDF_STRING
                (Z.of_nat (length (hex_bytes items))) B)
      as (c' & ob & Heq & Hst & Hg & Hty & Hrc & Hd & Hm & Hcs & He'); [auto|].
    exists c', (length (heap (put_stream sel stm c))), ob.
    split; [unfold pdfi_read_hexstring; cbv zeta; rewrite Hloop; exact Heq|].
    rewrite stack_put_stream in Hst.
    split; [exact Hst|]. split; [exact Hg|]. split; [exact Hty|]. split; [exact Hrc|].
    split; [rewrite Hd, Nat2Z.id; exact Htake|].
    rewrite (get_stream_eq sel (put_stream sel stm c) c' Hm Hcs), get_put_stream.
    exact Hout.
  - intros x0 w1 x1 rest Hr Hx0 Hne Hw1 Hx1 Hbad.
    destruct (Hitems _ Hr) as (k & stm & buf' & Hrest & Hpos & Hinv & Hloop).
    destruct (read_nonwhite_byte sel x0 (w1 ++ x1 :: rest) w (put_stream sel stm c)
                (stream_fuel sel (put_stream sel stm c)))
      as (stm0 & Hr0 & Hrest0 & Hpos0); rewrite ?get_put_stream; auto.
    { unfold stream_fuel. rewrite get_put_stream, Hrest, length_app. lia. }
    rewrite put_put_stream in Hr0.
    destruct (read_nonwhite_byte sel x1 rest w1 (put_stream sel stm0 c)
                (stream_fuel sel (put_stream sel stm0 c)))
      as (stm1 & Hr1 & Hrest1 & Hpos1); rewrite ?get_put_stream; auto.
    { unfold stream_fuel. rewrite get_put_stream, Hrest0, length_app. lia. }
    rewrite put_put_stream in Hr1.
    unfold pdfi_read_hexstring. rewrite Hloop. cbn [pdfi_read_hexstring_loop].
    rewrite Hr0. cbn [Z.ltb Z.compare].
    apply Z.eqb_neq in Hne. rewrite Hne.
    rewrite Hr1. cbn [Z.ltb Z.compare].
    rewrite <- negb_andb, Hbad. cbn [negb].
    cbn [Z.ltb Z.compare gs_error_syntaxerror].
    eexists. split; [reflexivity|].
    split; [apply stack_put_stream|apply heap_put_stream].
Qed.

Lemma pdfi_read_hexstring_decodes_witness :
  (exists c' p ob,
      pdfi_read_hexstring MAIN_STREAM (new_context false (bytes_of_string "4a 6F>x")) = (0, c')
      /\ stack c' = p :: []
      /\ get_obj c' p = Some ob /\ type ob = PDF_STRING /\ refcnt ob = 1
      /\ data ob = bytes_of_string "Jo"
      /\ stream_rest (get_stream MAIN_STREAM c') = bytes_of_string "x")
  /\ (exists c',
      pdfi_read_hexstring MAIN_STREAM (new_context false (bytes_of_string "4a6>"))
        = (gs_error_syntaxerror, c') /\ stack c' = [] /\ heap c' = []).
Proof.
  split.
  - destruct (pdfi_read_hexstring_decodes MAIN_STREAM
                (new_context false (bytes_of_string "4a 6F>x"))
                [([], ch "4", [], ch "a"); ([ch " "], ch "6", [], ch "F")] [])
      as [A _]; [simpl; lia | reflexivity | simpl; lia | reflexivity |].
    apply (A (bytes_of_string "x")). left. reflexivity.
  - destruct (pdfi_read_hexstring_decodes MAIN_STREAM
                (new_context false (bytes_of_string "4a6>"))
                [([], ch "4", [], ch "a")] [])
      as [_ B]; [simpl; lia | reflexivity | simpl; lia | reflexivity |].
    apply (B (ch "6") [] (ch ">") []); try reflexivity. discriminate.
Defined.
(** ** Literal strings: parentheses, ends of line and octal escapes *)

(** The end of pdfi_read_string once its loop has left [out] in the buffer,
    whatever the loop did to the context. *)
Lemma pdfi_read_string_finish_gen sel c c1 st out :
  pdfi_read_string_loop (3 * stream_fuel sel c) sel c string_state0 = (0, c1, st) ->
  string_inv st out ->
  exists c' p ob,
    pdfi_read_string sel c = (0, c') /\ stack c' = p :: stack c1
    /\ get_obj c' p = Some ob /\ type ob = PDF_STRING /\ refcnt ob = 1
    /\ data ob = out /\ get_stream sel c' = get_stream sel c1
    /\ pdf_errors c' = pdf_errors c1.
Proof.
  intros Hloop (Hi & Ht & Hl).
  destruct (string_object_pushed c1 (rs_index st) (rs_Buffer st))
    as (c' & ob & Heq & Hst & Hg & Hty & Hrc & Hd & Hm & Hcs & He).
  exists c', (length (heap c1)), ob.
  split; [unfold pdfi_read_string; cbv zeta; rewrite Hloop; exact Heq|].
  split; [exact Hst|]. split; [exact Hg|]. split; [exact Hty|]. split; [exact Hrc|].
  split; [rewrite Hd, Hi, Nat2Z.id; exact Ht|].
  split; [apply (get_stream_eq sel c1 c' Hm Hcs)|exact He].
Qed.

Lemma get_stream_set_pdf_errors sel e c :
  get_stream sel (set_pdf_errors e c) = get_stream sel c.
Proof. destruct sel; reflexivity. Qed.

(** An opening parenthesis is copied, counted and flagged. *)
Lemma string_body_open sel c st out bs :
  0 <= s_pos (get_stream sel c) ->
  stream_rest (get_stream sel c) = 40 :: bs ->
  string_inv st out -> rs_escape st = false -> rs_octal_index st = 0 ->
  Z.of_nat (length out) < 65535 ->
  exists st' stm,
    pdfi_read_string_body sel c st
      = (Continue st',
         set_pdf_errors (Z.lor (pdf_errors c) E_PDF_UNESCAPEDSTRING) (put_stream sel stm c))
    /\ stream_rest stm = bs /\ 0 <= s_pos stm
    /\ string_inv st' (out ++ [40])
    /\ rs_escape st' = false /\ rs_octal_index st' = 0
    /\ rs_nesting st' = rs_nesting st + 1.
Proof.
  intros Hp Hr Hinv Hesc Hoct Hlen.
  string_step Hp Hr.
  destruct (string_inv_store st out 40 Hinv ltac:(lia)) as (Hi1 & Ht1 & Hl1).
  change (is_eol 40) with false. rewrite andb_false_r.
  autorewrite with rs. rewrite Hesc.
  change (ch ")") with 41. change (ch "\") with 92. change (ch "(") with 40.
  cbn [Z.eqb Pos.eqb negb]. rewrite pdf_errors_put_stream.
  eexists _, stm. split; [reflexivity|].
  split; [exact Hrest|]. split; [exact Hpos|].
  split; [|autorewrite with rs; auto].
  apply string_inv_advance; auto.
  cbn [rs_set_nesting rs_set_flags rs_Buffer]. rewrite Hl1. lia.
Qed.

(** A closing parenthesis that matches an opening one inside the string is
    copied. *)
Lemma string_body_close_nested sel c st out bs :
  0 <= s_pos (get_stream sel c) ->
  stream_rest (get_stream sel c) = 41 :: bs ->
  string_inv st out -> rs_escape st = false -> rs_octal_index st = 0 ->
  rs_nesting st <> 0 ->
  Z.of_nat (length out) < 65535 ->
  exists st' stm,
    pdfi_read_string_body sel c st = (Continue st', put_stream sel stm c)
    /\ stream_rest stm = bs /\ 0 <= s_pos stm
    /\ string_inv st' (out ++ [41])
    /\ rs_escape st' = false /\ rs_octal_index st' = 0
    /\ rs_nesting st' = rs_nesting st - 1.
Proof.
  intros Hp Hr Hinv Hesc Hoct Hnest Hlen.
  string_step Hp Hr.
  destruct (string_inv_store st out 41 Hinv ltac:(lia)) as (Hi1 & Ht1 & Hl1).
  change (is_eol 41) with false. rewrite andb_false_r.
  autorewrite with rs. rewrite Hesc, Hoct.
  change (ch ")") with 41.
  cbn [Z.eqb Pos.eqb negb].
  apply Z.eqb_neq in Hnest. rewrite Hnest.
  eexists _, stm. split; [reflexivity|].
  split; [exact Hrest|]. split; [exact Hpos|].
  split; [|autorewrite with rs; auto].
  apply string_inv_advance; auto.
  cbn [rs_set_nesting rs_set_flags rs_Buffer]. rewrite Hl1. lia.
Qed.

Lemma string_errors_flagged body e :
  string_errors body (Z.lor e E_PDF_UNESCAPEDSTRING) = Z.lor e E_PDF_UNESCAPEDSTRING.
Proof.
  unfold string_errors. destruct (existsb _ body); [|reflexivity].
  rewrite <- Z.lor_assoc, Z.lor_diag. reflexivity.
Qed.

(** The loop of pdfi_read_string over plain bytes and matching parentheses,
    up to the parenthesis that closes the string. *)
Lemma string_loop_balanced sel rest fuel :
  forall body depth st out c,
    0 <= s_pos (get_stream sel c) ->
    stream_rest (get_stream sel c) = body ++ 41 :: rest ->
    forallb string_byte body = true ->
    balanced depth body = true ->
    string_inv st out -> rs_escape st = false -> rs_octal_index st = 0 ->
    rs_nesting st = Z.of_nat depth ->
    Z.of_nat (length out) + Z.of_nat (length body) < 65536 ->
    exists st' c',
      pdfi_read_string_loop (length body + S fuel) sel c st = (0, c', st')
      /\ string_inv st' (out ++ body)
      /\ heap c' = heap c /\ stack c' = stack c
      /\ pdf_errors c' = string_errors body (pdf_errors c)
      /\ stream_rest (get_stream sel c') = rest.
Proof.
  induction body as [|b body IH]; intros depth st out c Hp Hr Hsb Hbal Hinv Hesc Hoct Hn Hlen.
  - cbn [balanced] in Hbal. apply Nat.eqb_eq in Hbal. subst depth.
    simpl in Hr.
    destruct (string_body_close sel c st out rest)
      as (st' & stm & Hb & Hr' & Hp' & Hi'); auto.
    cbn [length Nat.add]. rewrite (string_loop_break _ _ _ _ _ _ Hb).
    exists st', (put_stream sel stm c). split; [reflexivity|].
    rewrite app_nil_r, heap_put_stream, stack_put_stream, pdf_errors_put_stream,
      get_put_stream.
    auto 10.
  - simpl in Hsb. apply andb_true_iff in Hsb. destruct Hsb as [Hb Hsb].
    simpl in Hr, Hlen. cbn [balanced] in Hbal.
    change (ch ")") with 41 in *. change (ch "(") with 40 in *.
    assert (Hcons : out ++ b :: body = (out ++ [b]) ++ body)
      by (rewrite <- app_assoc; reflexivity).
    rewrite Hcons.
    destruct (Z.eqb_spec b 41) as [->|Hn41].
    + destruct depth as [|d]; [discriminate|].
      destruct (string_body_close_nested sel c st out (body ++ 41 :: rest))
        as (st1 & stm1 & Hb1 & Hr1 & Hp1 & Hi1 & He1 & Ho1 & Hn1); auto; try lia.
      destruct (IH d st1 (out ++ [41]) (put_stream sel stm1 c))
        as (st2 & c2 & Hl2 & Hi2 & Hh2 & Hs2 & Her2 & Hr2);
        rewrite ?get_put_stream; auto; try lia.
      { rewrite length_app. simpl. lia. }
      cbn [length Nat.add]. rewrite (string_loop_continue _ _ _ _ _ _ Hb1).
      exists st2, c2. split; [exact Hl2|]. split; [exact Hi2|].
      rewrite Hh2, Hs2, Her2, heap_put_stream, stack_put_stream, pdf_errors_put_stream.
      unfold string_errors. cbn [existsb]. change (ch "(") with 40. change (41 =? 40) with false. auto.
    + destruct (Z.eqb_spec b 40) as [->|Hn40].
      * destruct (string_body_open sel c st out (body ++ 41 :: rest))
          as (st1 & stm1 & Hb1 & Hr1 & Hp1 & Hi1 & He1 & Ho1 & Hn1); auto; try lia.
        destruct (IH (S depth) st1 (out ++ [40])
                    (set_pdf_errors (Z.lor (pdf_errors c) E_PDF_UNESCAPEDSTRING)
                       (put_stream sel stm1 c)))
          as (st2 & c2 & Hl2 & Hi2 & Hh2 & Hs2 & Her2 & Hr2);
          rewrite ?get_stream_set_pdf_errors, ?get_put_stream; auto; try lia.
        { rewrite length_app. simpl. lia. }
        cbn [length Nat.add]. rewrite (string_loop_continue _ _ _ _ _ _ Hb1).
        exists st2, c2. split; [exact Hl2|]. split; [exact Hi2|].
        rewrite Hh2, Hs2, Her2.
        cbn [heap stack pdf_errors set_pdf_errors].
        rewrite heap_put_stream, stack_put_stream, string_errors_flagged.
        unfold string_errors. cbn [existsb]. change (ch "(") with 40. change (40 =? 40) with true. auto.
      * assert (Hpl : plain_byte b = true).
        { unfold string_byte in Hb. rewrite !orb_true_iff in Hb.
          destruct Hb as [[H|H]|H]; [exact H| |]; apply Z.eqb_eq in H; contradiction. }
        destruct (string_body_plain sel c st out b (body ++ 41 :: rest))
          as (st1 & stm1 & Hb1 & Hr1 & Hp1 & Hi1 & He1 & Hs1 & Ho1 & Hn1); auto; try lia.
        destruct (IH depth st1 (out ++ [b]) (put_stream sel stm1 c))
          as (st2 & c2 & Hl2 & Hi2 & Hh2 & Hs2 & Her2 & Hr2);
          rewrite ?get_put_stream; auto; try lia.
        { rewrite length_app. simpl. lia. }
        cbn [length Nat.add]. rewrite (string_loop_continue _ _ _ _ _ _ Hb1).
        exists st2, c2. split; [exact Hl2|]. split; [exact Hi2|].
        rewrite Hh2, Hs2, Her2, heap_put_stream, stack_put_stream, pdf_errors_put_stream.
        unfold string_errors. cbn [existsb]. change (ch "(") with 40.
        apply Z.eqb_neq in Hn40. rewrite Hn40. auto.
Qed.

(** pdfi_read_string keeps parentheses that match inside a literal string
    as bytes of the string and ends the string at the first parenthesis
    that closes more than was opened; an opening parenthesis sets
    E_PDF_UNESCAPEDSTRING, and no other error flag changes.  The string, of
    fewer than 65536 bytes, is pushed with reference count 1. *)
Theorem pdfi_read_string_balanced (sel : stream_sel) (c : pdf_context)
    (body rest : list Z) :
  0 <= s_pos (get_stream sel c) ->
  stream_rest (get_stream sel c) = body ++ ch ")" :: rest ->
  forallb string_byte body = true ->
  balanced 0 body = true ->
  Z.of_nat (length body) < 65536 ->
  exists c' p ob,
    pdfi_read_string sel c = (0, c') /\ stack c' = p :: stack c
    /\ get_obj c' p = Some ob /\ type ob = PDF_STRING /\ refcnt ob = 1
    /\ data ob = body
    /\ pdf_errors c' = string_errors body (pdf_errors c)
    /\ stream_rest (get_stream sel c') = rest.
Proof.
  intros Hp Hr Hsb Hbal Hlen. change (ch ")") with 41 in Hr.
  assert (Hfuel : exists k, (3 * stream_fuel sel c = length body + S k)%nat).
  { unfold stream_fuel. rewrite Hr, length_app. simpl.
    exists (3 * S (S (length body + S (length rest))) - length body - 1)%nat. lia. }
  destruct Hfuel as [k Hfuel].
  destruct (string_loop_balanced sel rest k body 0%nat string_state0 [] c)
    as (st' & c1 & Hloop & Hinv & Hh & Hs & He & Hrest);
    auto using string_inv0.
  rewrite <- Hfuel in Hloop. cbn [app] in Hinv.
  destruct (pdfi_read_string_finish_gen sel c c1 st' body Hloop Hinv)
    as (c' & p & ob & H1 & H2 & H3 & H4 & H5 & H6 & H7 & H8).
  exists c', p, ob. rewrite H7, H8, H2, Hs, He. auto 10.
Qed.

Lemma pdfi_read_string_balanced_witness :
  exists c' p ob,
    pdfi_read_string MAIN_STREAM (new_context false (bytes_of_string "a(b)c)d")) = (0, c')
    /\ stack c' = p :: []
    /\ get_obj c' p = Some ob /\ type ob = PDF_STRING /\ refcnt ob = 1
    /\ data ob = bytes_of_string "a(b)c"
    /\ pdf_errors c' = E_PDF_UNESCAPEDSTRING
    /\ stream_rest (get_stream MAIN_STREAM c') = bytes_of_string "d".
Proof.
  apply (pdfi_read_string_balanced MAIN_STREAM
           (new_context false (bytes_of_string "a(b)c)d"))
           (bytes_of_string "a(b)c") (bytes_of_string "d"));
    try reflexivity; simpl; lia.
Defined.

(** A run of plain bytes is copied; the skipping of ends of line stays off. *)
Lemma string_loop_plain_noskip sel c0 fuel pre :
  forall stm st out bs,
    0 <= s_pos stm ->
    stream_rest stm = pre ++ bs ->
    forallb plain_byte pre = true ->
    string_inv st out -> rs_escape st = false -> rs_octal_index st = 0 ->
    rs_skip_eol st = false ->
    Z.of_nat (length out) + Z.of_nat (length pre) < 65536 ->
    exists st' stm',
      pdfi_read_string_loop (length pre + fuel) sel (put_stream sel stm c0) st
      = pdfi_read_string_loop fuel sel (put_stream sel stm' c0) st'
      /\ stream_rest stm' = bs /\ 0 <= s_pos stm'
      /\ string_inv st' (out ++ pre)
      /\ rs_escape st' = false /\ rs_octal_index st' = 0
      /\ rs_skip_eol st' = false
      /\ rs_nesting st' = rs_nesting st.
Proof.
  induction pre as [|b pre IH]; intros stm st out bs Hp Hr Hpl Hinv Hesc Hoct Hsk Hlen.
  - exists st, stm. rewrite app_nil_r. simpl in Hr. auto 10.
  - simpl in Hpl. apply andb_true_iff in Hpl. destruct Hpl as [Hb Hpl].
    simpl in Hr, Hlen.
    destruct (string_body_plain sel (put_stream sel stm c0) st out b (pre ++ bs))
      as (st1 & stm1 & Hbody & Hr1 & Hp1 & Hi1 & He1 & Hs1 & Ho1 & Hn1);
      rewrite ?get_put_stream; auto; try lia.
    rewrite put_put_stream in Hbody.
    destruct (IH stm1 st1 (out ++ [b]) bs)
      as (st2 & stm2 & Hloop & Hr2 & Hp2 & Hi2 & He2 & Ho2 & Hs2 & Hn2); auto.
    { rewrite length_app. simpl. lia. }
    exists st2, stm2. split.
    + cbn [length Nat.add]. rewrite (string_loop_continue _ _ _ _ _ _ Hbody). exact Hloop.
    + rewrite <- app_assoc in Hi2. simpl in Hi2. rewrite Hn2, Hn1. auto 10.
Qed.

(** An end of line in the string is stored as a line feed and starts the
    skipping of the ends of line that follow. *)
Lemma string_body_eol sel c st out b bs :
  0 <= s_pos (get_stream sel c) ->
  stream_rest (get_stream sel c) = b :: bs ->
  is_eol b = true ->
  string_inv st out -> rs_escape st = false -> rs_octal_index st = 0 ->
  rs_skip_eol st = false ->
  Z.of_nat (length out) < 65535 ->
  exists st' stm,
    pdfi_read_string_body sel c st = (Continue st', put_stream sel stm c)
    /\ stream_rest stm = bs /\ 0 <= s_pos stm
    /\ string_inv st' (out ++ [10])
    /\ rs_escape st' = false /\ rs_skip_eol st' = true
    /\ rs_octal_index st' = 0 /\ rs_nesting st' = rs_nesting st.
Proof.
  intros Hp Hr He Hinv Hesc Hoct Hskip Hlen.
  string_step Hp Hr.
  assert (Hb : 0 <= b < 256).
  { unfold is_eol in He. apply orb_true_iff in He. destruct He as [E|E];
      apply Z.eqb_eq in E; lia. }
  destruct (string_inv_store st out b Hinv Hb) as (Hi1 & Ht1 & Hl1).
  destruct (string_inv_store _ out 10
              (string_inv_set_flags _ _ false false Hi1) ltac:(lia)) as (Hi2 & Ht2 & Hl2).
  autorewrite with rs. rewrite Hskip, Hesc, He, Hoct. cbn [andb negb Z.eqb].
  eexists _, stm. split; [reflexivity|].
  split; [exact Hrest|]. split; [exact Hpos|].
  split; [|autorewrite with rs; auto].
  apply string_inv_advance.
  - exact Hi2.
  - exact Ht2.
  - cbn [rs_set_flags rs_Buffer]. rewrite Hl2. lia.
  - exact Hlen.
Qed.

(** pdfi_read_string stores a run of ends of line inside a literal string
    as a single line feed, whatever the bytes of the run and however many
    they are. *)
Theorem pdfi_read_string_eol_run (sel : stream_sel) (c : pdf_context)
    (pre eols post rest : list Z) (e : Z) :
  0 <= s_pos (get_stream sel c) ->
  stream_rest (get_stream sel c) = pre ++ e :: eols ++ post ++ ch ")" :: rest ->
  forallb plain_byte pre = true ->
  is_eol e = true -> forallb is_eol eols = true ->
  forallb plain_byte post = true ->
  Z.of_nat (length pre) + 1 + Z.of_nat (length post) < 65536 ->
  exists c' p ob,
    pdfi_read_string sel c = (0, c') /\ stack c' = p :: stack c
    /\ get_obj c' p = Some ob /\ type ob = PDF_STRING /\ refcnt ob = 1
    /\ data ob = pre ++ 0x0A :: post
    /\ stream_rest (get_stream sel c') = rest.
Proof.
  intros Hp Hr Hpre He Heols Hpost Hlen. change (ch ")") with 41 in Hr.
  assert (Hfuel : exists k,
    (3 * stream_fuel sel c
     = length pre + S (length eols + (length post + S k)))%nat).
  { unfold stream_fuel. rewrite Hr. rewrite !length_app. simpl.
    rewrite !length_app. simpl.
    eexists (3 * S (S (length pre + S (length eols + (length post + S (length rest)))))
             - length pre - length eols - length post - 2)%nat. lia. }
  destruct Hfuel as [k Hfuel].
  destruct (string_loop_plain_noskip sel c (S (length eols + (length post + S k))) pre
              (get_stream sel c) string_state0 []
              (e :: eols ++ post ++ 41 :: rest))
    as (st1 & stm1 & Hl1 & Hr1 & Hp1 & Hi1 & He1 & Ho1 & Hs1 & Hn1);
    auto using string_inv0; [simpl; lia|].
  rewrite put_get_stream in Hl1. simpl in Hi1.
  destruct (string_body_eol sel (put_stream sel stm1 c) st1 pre e
              (eols ++ post ++ 41 :: rest))
    as (st2 & stm2 & Hb2 & Hr2 & Hp2 & Hi2 & He2 & Hs2 & Ho2 & Hn2);
    rewrite ?get_put_stream; auto; try lia.
  rewrite put_put_stream in Hb2.
  destruct (string_loop_skip_eols sel c (length post + S k) eols stm2 st2 (pre ++ [10])
              (post ++ 41 :: rest))
    as (st4 & stm4 & Hl4 & Hr4 & Hp4 & Hi4 & He4 & Ho4 & Hn4); auto.
  destruct (string_loop_plain sel c (S k) post stm4 st4 (pre ++ [10]) (41 :: rest))
    as (st5 & stm5 & Hl5 & Hr5 & Hp5 & Hi5 & He5 & Ho5 & Hn5); auto; try congruence.
  { rewrite length_app. simpl. lia. }
  destruct (string_body_close sel (put_stream sel stm5 c) st5 ((pre ++ [10]) ++ post) rest)
    as (st6 & stm6 & Hb6 & Hr6 & Hp6 & Hi6);
    rewrite ?get_put_stream; auto.
  { rewrite Hn5, Hn4, Hn2, Hn1. reflexivity. }
  rewrite put_put_stream in Hb6.
  destruct (pdfi_read_string_finish sel c stm6 st6 ((pre ++ [10]) ++ post))
    as (c' & p & ob & H1 & H2 & H3 & H4 & H5 & H6 & H7); auto.
  { rewrite Hfuel, Hl1.
    rewrite (string_loop_continue _ _ _ _ _ _ Hb2).
    rewrite Hl4, Hl5.
    apply (string_loop_break _ _ _ _ _ _ Hb6). }
  exists c', p, ob. rewrite H7. rewrite <- app_assoc in H6. auto 10.
Qed.

Lemma pdfi_read_string_eol_run_witness :
  exists c' p ob,
    pdfi_read_string MAIN_STREAM (new_context false [97; 13; 10; 10; 98; 41; 120]) = (0, c')
    /\ stack c' = p :: []
    /\ get_obj c' p = Some ob /\ type ob = PDF_STRING /\ refcnt ob = 1
    /\ data ob = [97; 10; 98]
    /\ stream_rest (get_stream MAIN_STREAM c') = [120].
Proof.
  apply (pdfi_read_string_eol_run MAIN_STREAM
           (new_context false [97; 13; 10; 10; 98; 41; 120]) [97] [10; 10] [98] [120] 13);
    try reflexivity; simpl; lia.
Defined.

(** *** Octal escapes *)


Lemma string_inv_push_octal d st out :
  string_inv st out -> string_inv (rs_push_octal d st) out.
Proof. intros H. exact H. Qed.













(** ** Keywords *)

(** Releasing a reference to an object that owns no other object. *)
Lemma pdfi_countdown_leaf c p ob :
  get_obj c p = Some ob ->
  type ob <> PDF_ARRAY -> type ob <> PDF_DICT ->
  pdfi_countdown p c
  = if refcnt ob - 1 =? 0 then pdfi_free_object p c
    else put_obj p (set_refcnt (refcnt ob - 1) ob) c.
Proof.
  intros Hg Ha Hd. unfold pdfi_countdown, pdfi_free_object, put_obj.
  unfold get_obj in Hg. cbn [countdown_heap].
  destruct (heap c !! p) as [[x|]|] eqn:E; try discriminate.
  injection Hg as ->.
  destruct (refcnt ob - 1 =? 0); [|reflexivity].
  destruct (type ob); try reflexivity; contradiction.
Qed.

(** Releasing a reference through a pointer to a freed object changes
    nothing. *)
Lemma pdfi_countdown_freed c p :
  get_obj c p = None -> (p < length (heap c))%nat -> heap (pdfi_countdown p c) = heap c.
Proof.
  intros Hg Hl. unfold pdfi_countdown. cbn [heap set_heap countdown_heap].
  unfold get_obj in Hg.
  destruct (heap c !! p) as [[x|]|] eqn:E; try discriminate; reflexivity.
Qed.

(** The loop of pdfi_read_keyword on the bytes of a keyword. *)
Lemma pdfi_read_keyword_loop_run sel rest :
  forall kw pfx c fuel,
    0 <= s_pos (get_stream sel c) ->
    stream_rest (get_stream sel c) = kw ++ rest ->
    forallb regular_byte kw = true ->
    ends_token rest = true ->
    Z.of_nat (length pfx) + Z.of_nat (length kw) < 255 ->
    (length kw < fuel)%nat ->
    exists stm,
      pdfi_read_keyword_loop fuel sel c pfx = (0, put_stream sel stm c, pfx ++ kw)
      /\ stream_rest stm = after_number rest /\ 0 <= s_pos stm.
Proof.
  induction kw as [|b kw IH]; intros pfx c fuel Hp Hr Hk He Hlen Hfuel.
  - destruct fuel as [|fuel]; [simpl in Hfuel; lia|].
    rewrite app_nil_r. simpl in Hr.
    destruct rest as [|x rest'].
    + destruct (pdfi_read_byte_nil _ _ Hr) as (stm & Hrb & Hrest & Heof & Hpos).
      cbn [pdfi_read_keyword_loop]. rewrite Hrb. cbn [Z.ltb Z.gtb Z.compare].
      exists stm. split; [reflexivity|]. split; [exact Hrest|lia].
    + destruct (pdfi_read_byte_cons _ _ _ _ Hp Hr) as (stm & Hrb & Hrest & Heof & Hpos).
      cbn [pdfi_read_keyword_loop]. rewrite Hrb. cbn [Z.ltb Z.gtb Z.compare after_number].
      cbn [ends_token] in He.
      destruct (iswhite x) eqn:Hw.
      * exists stm. auto.
      * cbn [orb] in He. rewrite He.
        unfold pdfi_unread. rewrite get_put_stream, put_put_stream.
        eexists. split; [reflexivity|]. split; [|exact Hpos].
        unfold stream_rest in *. cbn. rewrite Hrest. reflexivity.
  - destruct fuel as [|fuel]; [simpl in Hfuel; lia|].
    simpl in Hk. apply andb_true_iff in Hk. destruct Hk as [Hb Hk].
    unfold regular_byte in Hb. apply andb_true_iff in Hb.
    rewrite !negb_true_iff in Hb. destruct Hb as [Hw Hd].
    simpl in Hr, Hlen, Hfuel.
    destruct (pdfi_read_byte_cons _ _ _ _ Hp Hr) as (stm & Hrb & Hrest & Heof & Hpos).
    cbn [pdfi_read_keyword_loop]. rewrite Hrb. cbn [Z.ltb Z.gtb Z.compare].
    rewrite Hw, Hd.
    assert (Hfit : (Z.of_nat (length (pfx ++ [b])) <? 255) = true).
    { apply Z.ltb_lt. rewrite length_app. simpl. lia. }
    rewrite Hfit.
    destruct (IH (pfx ++ [b]) (put_stream sel stm c) fuel) as (stm' & Hl & Hr' & Hp');
      rewrite ?get_put_stream; auto; try lia.
    { rewrite length_app. simpl. lia. }
    exists stm'. rewrite Hl, put_put_stream, <- app_assoc. auto.
Qed.

(** pdfi_read_keyword up to the point where the keyword is examined: the
    keyword object is new, holds the text and has reference count 1. *)
Lemma pdfi_read_keyword_start sel c kw rest :
  0 <= s_pos (get_stream sel c) ->
  stream_rest (get_stream sel c) = kw ++ rest ->
  kw <> [] -> forallb regular_byte kw = true ->
  ends_token rest = true ->
  Z.of_nat (length kw) < 255 ->
  exists stm ob,
    stream_rest stm = after_number rest /\ 0 <= s_pos stm
    /\ type ob = PDF_KEYWORD /\ refcnt ob = 1 /\ data ob = kw
    /\ key ob = PDF_NOT_A_KEYWORD
    /\ forall c1 keyword c3,
        c1 = put_stream sel stm c ->
        keyword = length (heap c) ->
        c3 = set_heap (heap c ++ [Some ob]) c1 ->
        pdfi_read_keyword sel c
        = (let is_kw := fun (str : string) => bytes_eqb kw (bytes_of_string str) in
           let finish := fun (c' : pdf_context) =>
             let '(code, c'') := pdfi_push keyword c' in
             (code, pdfi_countdown keyword c'') in
           if is_kw "KEYWORD_TOO_LONG"%string
           then finish (set_keyword_key keyword PDF_INVALID_KEY c3)
           else if is_kw "R"%string then pdfi_read_keyword_R keyword c3
           else if is_kw "endstream"%string
           then finish (set_keyword_key keyword PDF_ENDSTREAM c3)
           else if is_kw "endobj"%string then finish (set_keyword_key keyword PDF_ENDOBJ c3)
           else if is_kw "obj"%string then finish (set_keyword_key keyword PDF_OBJ c3)
           else if is_kw "stream"%string then
             let c4 := set_keyword_key keyword PDF_STREAM c3 in
             let '(code, c5) := skip_eol sel c4 in
             if code <? 0 then (code, pdfi_countdown keyword c5) else finish c5
           else if is_kw "startxref"%string
           then finish (set_keyword_key keyword PDF_STARTXREF c3)
           else if is_kw "true"%string then pdfi_read_keyword_const keyword PDF_BOOL 1 c3
           else if is_kw "trailer"%string
           then finish (set_keyword_key keyword PDF_TRAILER c3)
           else if is_kw "false"%string then pdfi_read_keyword_const keyword PDF_BOOL 0 c3
           else if is_kw "null"%string then pdfi_read_keyword_const keyword PDF_NULL 0 c3
           else if is_kw "xref"%string then finish (set_keyword_key keyword PDF_XREF c3)
           else finish c3).
Proof.
  intros Hp Hr Hne Hk He Hlen.
  destruct kw as [|b kw']; [congruence|]. clear Hne.
  assert (Hw : iswhite b = false).
  { simpl in Hk. apply andb_true_iff in Hk. destruct Hk as [Hb _].
    unfold regular_byte in Hb. apply andb_true_iff in Hb.
    rewrite !negb_true_iff in Hb. tauto. }
  destruct (skip_white_not_white sel c b (kw' ++ rest)) as (stm0 & Hsk & Hr0 & Hp0); auto.
  assert (Hl1 : Z.of_nat (length (@nil Z)) + Z.of_nat (length (b :: kw')) < 255)
    by (cbn [length] in *; lia).
  assert (Hl2 : (length (b :: kw') < 256)%nat) by (cbn [length] in *; lia).
  destruct (pdfi_read_keyword_loop_run sel rest (b :: kw') [] (put_stream sel stm0 c) 256)
    as (stm & Hloop & Hrest & Hpos); rewrite ?get_put_stream; auto.
  rewrite put_put_stream in Hloop. cbn [app] in Hloop.
  set (kw := b :: kw') in *.
  destruct (pdfi_alloc_object_fresh (put_stream sel stm c) PDF_KEYWORD (Z.of_nat (length kw)))
    as (ob0 & Ha & Ht & Hrc & _).
  rewrite heap_put_stream in Ha.
  exists stm, (set_refcnt 1 (set_data kw ob0)).
  split; [exact Hrest|]. split; [exact Hpos|].
  cbn [type refcnt data key set_refcnt set_data].
  split; [exact Ht|]. split; [reflexivity|]. split; [reflexivity|].
  split.
  { revert Ha. unfold pdfi_alloc_object. intros Ha. injection Ha as Ha.
    apply app_inj_tail in Ha. destruct Ha as [_ Ha]. injection Ha as <-. reflexivity. }
  intros c1 keyword c3 -> -> ->.
  unfold pdfi_read_keyword. rewrite Hsk, Hloop. cbn [Z.ltb Z.compare].
  assert (Hlong : (Z.of_nat (length kw) >=? 255) || (Z.of_nat (length kw) =? 0) = false).
  { apply orb_false_iff. split.
    - rewrite Z.geb_leb. apply Z.leb_gt. lia.
    - apply Z.eqb_neq. unfold kw. cbn [length]. lia. }
  rewrite Hlong. cbn [andb]. rewrite Ha. cbn [Z.ltb Z.compare].
  set (c2 := set_heap (heap c ++ [Some ob0]) (put_stream sel stm c)).
  assert (Hg2 : get_obj c2 (length (heap c)) = Some ob0).
  { unfold c2, get_obj. cbn [heap set_heap].
    rewrite lookup_app_r by lia. rewrite Nat.sub_diag. reflexivity. }
  rewrite Hg2.
  assert (Hc3 : pdfi_countup (length (heap c))
                  (put_obj (length (heap c)) (set_data kw ob0) c2)
                = set_heap (heap c ++ [Some (set_refcnt 1 (set_data kw ob0))])
                    (put_stream sel stm c)).
  { rewrite (pdfi_countup_get _ _ (set_data kw ob0))
      by (apply (get_obj_put_obj_eq _ _ _ _ Hg2)).
    unfold put_obj, c2. cbn [heap set_heap set_data refcnt].
    rewrite Hrc. cbn [Z.add].
    rewrite !insert_app_r_alt by lia. rewrite Nat.sub_diag. cbn [insert list_insert].
    reflexivity. }
  rewrite Hc3. reflexivity.
Qed.

(** Releasing a reference to an object that owns no other object rewrites
    its slot of the heap and nothing else. *)
Lemma pdfi_countdown_shape c p :
  (forall ob, get_obj c p = Some ob -> type ob <> PDF_ARRAY /\ type ob <> PDF_DICT) ->
  exists x,
    pdfi_countdown p c = set_heap (<[p := x]> (heap c)) c
    /\ (x = None
        \/ exists ob, get_obj c p = Some ob /\ x = Some (set_refcnt (refcnt ob - 1) ob)).
Proof.
  intros H. destruct (get_obj c p) as [ob|] eqn:Hg.
  - destruct (H ob eq_refl) as [Ha Hd].
    rewrite (pdfi_countdown_leaf c p ob Hg Ha Hd).
    destruct (refcnt ob - 1 =? 0).
    + exists None. split; [reflexivity|]. left. reflexivity.
    + exists (Some (set_refcnt (refcnt ob - 1) ob)). split; [reflexivity|eauto].
  - exists None. split; [|left; reflexivity].
    unfold pdfi_countdown. cbn [countdown_heap]. unfold get_obj in Hg.
    destruct (heap c !! p) as [[x|]|] eqn:E; try discriminate.
    + rewrite list_insert_id by exact E. reflexivity.
    + rewrite list_insert_ge; [reflexivity|]. apply lookup_ge_None. exact E.
Qed.

Lemma is_int_obj_true ob : type ob = PDF_INT -> is_int_obj (Some ob) = true.
Proof. intros H. unfold is_int_obj. rewrite H. reflexivity. Qed.

Lemma is_int_obj_false ob : type ob <> PDF_INT -> is_int_obj (Some ob) = false.
Proof.
  intros H. unfold is_int_obj. destruct (type ob); try reflexivity. contradiction.
Qed.

(** The tail of pdfi_read_keyword for [R], from the point where the keyword
    object holds the only reference to itself.  The first pdfi_countdown
    frees the keyword; the two error exits count it down once more. *)
Lemma pdfi_read_keyword_R_spec k c3 kwob :
  get_obj c3 k = Some kwob -> type kwob = PDF_KEYWORD -> refcnt kwob = 1 ->
  (stack_depth c3 < 2 ->
   exists c', pdfi_read_keyword_R k c3 = (model_undefined_behaviour, c')
              /\ stack c' = stack c3
              /\ heap c' = <[k := None]> (heap c3)
              /\ main_stream c' = main_stream c3
              /\ compressed_stream c' = compressed_stream c3)
  /\ (forall g n tl og on,
        stack c3 = g :: n :: tl -> g <> k -> n <> k ->
        get_obj c3 g = Some og -> get_obj c3 n = Some on ->
        (type og <> PDF_INT \/ type on <> PDF_INT ->
         exists c', pdfi_read_keyword_R k c3 = (model_undefined_behaviour, c')
                    /\ stack c' = stack c3
                    /\ heap c' = <[k := None]> (heap c3)
                    /\ main_stream c' = main_stream c3
                    /\ compressed_stream c' = compressed_stream c3)
        /\ (type og = PDF_INT -> type on = PDF_INT ->
            exists c' ob,
              pdfi_read_keyword_R k c3 = (0, c')
              /\ stack c' = length (heap c3) :: tl
              /\ get_obj c' (length (heap c3)) = Some ob
              /\ type ob = PDF_INDIRECT /\ refcnt ob = 1
              /\ ref_object_num ob = value_i on mod 2 ^ 64
              /\ ref_generation_num ob = value_i og mod 2 ^ 32
              /\ main_stream c' = main_stream c3
              /\ compressed_stream c' = compressed_stream c3
              /\ pdf_errors c' = pdf_errors c3
              /\ (forall q, q <> g -> q <> n -> q <> k -> (q < length (heap c3))%nat ->
                            heap c' !! q = heap c3 !! q))).
Proof.
  intros Hk Hty Hrc.
  assert (Hkw : type kwob <> PDF_ARRAY /\ type kwob <> PDF_DICT)
    by (rewrite Hty; split; discriminate).
  assert (Hc1 : pdfi_countdown k c3 = pdfi_free_object k c3).
  { rewrite (pdfi_countdown_leaf c3 k kwob Hk (proj1 Hkw) (proj2 Hkw)).
    rewrite Hrc. reflexivity. }
  assert (Hklt : (k < length (heap c3))%nat) by (eapply get_obj_lt; eauto).
  set (c1 := pdfi_free_object k c3) in *.
  assert (Hh1 : heap c1 = <[k := None]> (heap c3)) by reflexivity.
  assert (Hs1 : stack c1 = stack c3) by reflexivity.
  assert (Hm1 : main_stream c1 = main_stream c3) by reflexivity.
  assert (Hcs1 : compressed_stream c1 = compressed_stream c3) by reflexivity.
  assert (He1 : pdf_errors c1 = pdf_errors c3) by reflexivity.
  assert (Hg1 : forall q, q <> k -> get_obj c1 q = get_obj c3 q).
  { intros q Hq. unfold get_obj. rewrite Hh1.
    rewrite list_lookup_insert_ne by auto. reflexivity. }
  assert (Hk1 : get_obj c1 k = None).
  { unfold get_obj. rewrite Hh1, list_lookup_insert_eq by exact Hklt. reflexivity. }
  clearbody c1.
  unfold pdfi_read_keyword_R. rewrite Hc1. cbv zeta.
  split.
  - intros Hdepth. unfold stack_depth in *. rewrite Hs1.
    apply Z.ltb_lt in Hdepth. rewrite Hdepth.
    unfold countdown_return. rewrite Hk1.
    exists c1. split; [reflexivity|]. auto.
  - intros g n tl og on Hst Hgk Hnk Hg Hn.
    assert (Hdepth : (stack_depth c1 <? 2) = false).
    { unfold stack_depth. rewrite Hs1, Hst. cbn [length]. apply Z.ltb_ge. lia. }
    rewrite Hdepth.
    assert (Ht1 : stack_top_obj c1 1 = Some og).
    { unfold stack_top_obj, stack_top. rewrite Hs1, Hst. cbn. rewrite (Hg1 g Hgk). exact Hg. }
    assert (Ht2 : stack_top_obj c1 2 = Some on).
    { unfold stack_top_obj, stack_top. rewrite Hs1, Hst. cbn. rewrite (Hg1 n Hnk). exact Hn. }
    rewrite Ht1, Ht2.
    split.
    + intros Hbad.
      assert (Hb : negb (is_int_obj (Some og)) || negb (is_int_obj (Some on)) = true).
      { destruct Hbad as [H|H]; rewrite (is_int_obj_false _ H); cbn [negb orb];
          [reflexivity|apply orb_true_r]. }
      rewrite Hb. unfold countdown_return. rewrite Hk1.
      exists c1. split; [reflexivity|]. auto.
    + intros Hog Hon.
      rewrite (is_int_obj_true _ Hog), (is_int_obj_true _ Hon). cbn [negb orb].
      (* the two integers are popped *)
      assert (Hp1 : pdfi_pop 1 c1 = pdfi_countdown g (set_stack (n :: tl) c1)).
      { cbn [pdfi_pop]. rewrite Hs1, Hst. reflexivity. }
      destruct (pdfi_countdown_shape (set_stack (n :: tl) c1) g) as (x & Hx & Hxs).
      { intros ob Hob. change (get_obj c1 g = Some ob) in Hob.
        rewrite (Hg1 g Hgk), Hg in Hob. injection Hob as <-.
        rewrite Hog. split; discriminate. }
      rewrite Hx in Hp1. cbn [heap set_stack] in Hp1.
      set (c2 := set_heap (<[g := x]> (heap c1)) (set_stack (n :: tl) c1)) in *.
      assert (Hp2 : pdfi_pop 1 c2 = pdfi_countdown n (set_stack tl c2)) by reflexivity.
      destruct (pdfi_countdown_shape (set_stack tl c2) n) as (y & Hy & _).
      { intros ob Hob. change (get_obj c2 n = Some ob) in Hob.
        unfold get_obj, c2 in Hob. cbn [heap set_heap] in Hob.
        destruct (Nat.eq_dec n g) as [->|Hng].
        - assert (Hgl : (g < length (heap c1))%nat).
          { rewrite Hh1, length_insert. eapply get_obj_lt; eauto. }
          rewrite list_lookup_insert_eq in Hob by exact Hgl.
          destruct Hxs as [->|(ob1 & Hob1 & ->)]; [discriminate|].
          injection Hob as <-. cbn [type set_refcnt].
          change (get_obj c1 g = Some ob1) in Hob1.
          rewrite (Hg1 g Hgk), Hg in Hob1. injection Hob1 as <-.
          rewrite Hog. split; discriminate.
        - rewrite list_lookup_insert_ne in Hob by auto.
          change (get_obj c1 n = Some ob) in Hob.
          rewrite (Hg1 n Hnk), Hn in Hob. injection Hob as <-.
          rewrite Hon. split; discriminate. }
      rewrite Hp1, Hp2, Hy.
      cbn [heap set_stack].
      set (c2' := set_heap (<[n := y]> (heap c2)) (set_stack tl c2)).
      assert (Hlen2 : length (heap c2') = length (heap c3)).
      { unfold c2', c2. cbn [heap set_heap]. rewrite !length_insert, Hh1, length_insert.
        reflexivity. }
      destruct (pdfi_alloc_object_fresh c2' PDF_INDIRECT 0) as (ob0 & Ha & Ht0 & Hrc0 & _).
      rewrite Ha. cbn [Z.ltb Z.compare]. rewrite get_obj_set_heap_app.
      set (c3' := set_heap (heap c2' ++ [Some ob0]) c2').
      set (ob1 := set_ref (value_i on mod 2 ^ 64) (value_i og mod 2 ^ 32) ob0).
      destruct (pdfi_push_spec (put_obj (length (heap c2')) ob1 c3') (length (heap c2')) ob1)
        as (c5 & Hpush & Hst5 & Hg5 & Hm5 & Hc5 & He5).
      { eapply get_obj_put_obj_eq. apply get_obj_set_heap_app. }
      rewrite Hpush. cbn [Z.ltb Z.compare].
      exists c5, (set_refcnt (refcnt ob1 + 1) ob1).
      split; [reflexivity|].
      rewrite <- Hlen2.
      split; [rewrite Hst5; reflexivity|].
      split; [exact Hg5|].
      unfold ob1. cbn [type refcnt ref_object_num ref_generation_num set_refcnt set_ref].
      rewrite Ht0, Hrc0.
      split; [reflexivity|]. split; [reflexivity|].
      split; [reflexivity|]. split; [reflexivity|].
      rewrite Hm5, Hc5, He5.
      split; [exact Hm1|]. split; [exact Hcs1|]. split; [exact He1|].
      intros q Hqg Hqn Hqk Hql.
      assert (Hh5 : heap c5 = <[length (heap c2') := Some (set_refcnt (refcnt ob1 + 1) ob1)]>
                                (<[length (heap c2') := Some ob1]> (heap c2' ++ [Some ob0]))).
      { revert Hpush. unfold pdfi_push. intros Hpush. injection Hpush as <-.
        cbn [heap set_stack].
        rewrite (pdfi_countup_get _ _ ob1)
          by (eapply get_obj_put_obj_eq; apply get_obj_set_heap_app).
        reflexivity. }
      rewrite Hh5.
      rewrite !list_lookup_insert_ne by lia.
      rewrite lookup_app_l by lia.
      unfold c2', c2. cbn [heap set_heap].
      rewrite !list_lookup_insert_ne by auto.
      rewrite Hh1. rewrite list_lookup_insert_ne by auto. reflexivity.
Qed.

(** pdfi_read_keyword on the keyword [R]: with two integers on top of the
    stack, the generation number above the object number, both are popped
    and an indirect reference with reference count 1 is pushed in their
    place, its object number the lower integer as a 64-bit unsigned value
    and its generation the upper one as a 32-bit unsigned value; no other
    object that was there changes.  With fewer than two objects on the
    stack, or with two objects that are not both integers, the exits for
    gs_error_stackunderflow and gs_error_typecheck count the keyword object
    down after the count-down before them has freed it: the call is not
    defined there, and the model stops with the stack as it was. *)
Theorem pdfi_read_keyword_R_reference (sel : stream_sel) (c : pdf_context)
    (rest : list Z) :
  0 <= s_pos (get_stream sel c) ->
  stream_rest (get_stream sel c) = ch "R" :: rest ->
  ends_token rest = true ->
  (stack_depth c < 2 ->
   exists c', pdfi_read_keyword sel c = (model_undefined_behaviour, c')
              /\ stack c' = stack c
              /\ get_obj c' (length (heap c)) = None)
  /\ (forall g n tl og on,
        stack c = g :: n :: tl ->
        get_obj c g = Some og -> get_obj c n = Some on ->
        (type og <> PDF_INT \/ type on <> PDF_INT ->
         exists c', pdfi_read_keyword sel c = (model_undefined_behaviour, c')
                    /\ stack c' = stack c
                    /\ get_obj c' (length (heap c)) = None)
        /\ (type og = PDF_INT -> type on = PDF_INT ->
            exists c' r ob,
              pdfi_read_keyword sel c = (0, c')
              /\ stack c' = r :: tl
              /\ get_obj c' r = Some ob
              /\ type ob = PDF_INDIRECT /\ refcnt ob = 1
              /\ ref_object_num ob = value_i on mod 2 ^ 64
              /\ ref_generation_num ob = value_i og mod 2 ^ 32
              /\ pdf_errors c' = pdf_errors c
              /\ stream_rest (get_stream sel c') = after_number rest
              /\ (forall q ob', q <> g -> q <> n -> get_obj c q = Some ob' ->
                                get_obj c' q = Some ob'))).
Proof.
  intros Hp Hr He. change (ch "R") with 82 in Hr.
  destruct (pdfi_read_keyword_start sel c [82] rest Hp Hr)
    as (stm & kwob & Hrest & Hpos & Hty & Hrc & Hdata & Hkey & Heq);
    [discriminate | reflexivity | exact He | simpl; lia |].
  specialize (Heq _ _ _ eq_refl eq_refl eq_refl).
  change (bytes_eqb [82] (bytes_of_string "KEYWORD_TOO_LONG")) with false in Heq.
  change (bytes_eqb [82] (bytes_of_string "R")) with true in Heq.
  cbv zeta iota in Heq.
  set (c3 := set_heap (heap c ++ [Some kwob]) (put_stream sel stm c)) in *.
  assert (Hk : get_obj c3 (length (heap c)) = Some kwob).
  { unfold get_obj, c3. cbn [heap set_heap].
    rewrite lookup_app_r by lia. rewrite Nat.sub_diag. reflexivity. }
  assert (Hst3 : stack c3 = stack c) by apply stack_put_stream.
  assert (Hg3 : forall q ob, get_obj c q = Some ob -> get_obj c3 q = Some ob).
  { intros q ob Hq. pose proof (get_obj_lt _ _ _ Hq).
    unfold get_obj, c3 in *. cbn [heap set_heap].
    rewrite lookup_app_l by lia. exact Hq. }
  assert (Hlen3 : length (heap c3) = S (length (heap c))).
  { unfold c3. cbn [heap set_heap]. rewrite length_app. simpl. lia. }
  destruct (pdfi_read_keyword_R_spec (length (heap c)) c3 kwob Hk Hty Hrc) as [Hunder Htwo].
  rewrite Heq. clear Heq.
  split.
  - intros Hd. destruct Hunder as (c' & H1 & H2 & H3 & _).
    { unfold stack_depth in *. rewrite Hst3. exact Hd. }
    exists c'. rewrite H2, Hst3. split; [exact H1|]. split; [reflexivity|].
    unfold get_obj. rewrite H3, list_lookup_insert_eq by lia. reflexivity.
  - intros g n tl og on Hst Hg Hn.
    pose proof (get_obj_lt _ _ _ Hg) as Hgl. pose proof (get_obj_lt _ _ _ Hn) as Hnl.
    destruct (Htwo g n tl og on) as [Hbad Hgood]; auto; try lia.
    { rewrite Hst3. exact Hst. }
    split.
    + intros Hb. destruct (Hbad Hb) as (c' & H1 & H2 & H3 & _).
      exists c'. rewrite H2, Hst3. split; [exact H1|]. split; [reflexivity|].
      unfold get_obj. rewrite H3, list_lookup_insert_eq by lia. reflexivity.
    + intros Hog Hon.
      destruct (Hgood Hog Hon)
        as (c' & ob & H1 & H2 & H3 & H4 & H5 & H6 & H7 & H8 & H9 & H10 & H11).
      exists c', (length (heap c3)), ob.
      split; [exact H1|]. split; [exact H2|]. split; [exact H3|].
      split; [exact H4|]. split; [exact H5|]. split; [exact H6|]. split; [exact H7|].
      split; [rewrite H10; apply pdf_errors_put_stream|].
      split.
      * rewrite (get_stream_eq sel c3 c' H8 H9).
        unfold c3. replace (get_stream sel (set_heap _ (put_stream sel stm c)))
          with (get_stream sel (put_stream sel stm c)) by (destruct sel; reflexivity).
        rewrite get_put_stream. exact Hrest.
      * intros q ob' Hqg Hqn Hq.
        pose proof (get_obj_lt _ _ _ Hq) as Hql.
        specialize (Hg3 q ob' Hq).
        unfold get_obj in *. rewrite H11 by lia. exact Hg3.
Qed.

Lemma pdfi_read_keyword_R_reference_witness :
  (exists c',
      pdfi_read_keyword MAIN_STREAM (new_context false (bytes_of_string "R "))
      = (model_undefined_behaviour, c') /\ stack c' = []
      /\ get_obj c' 0 = None)
  /\ (exists c' r ob,
        pdfi_read_keyword MAIN_STREAM reference_context = (0, c')
        /\ stack c' = [r] /\ get_obj c' r = Some ob
        /\ type ob = PDF_INDIRECT /\ refcnt ob = 1
        /\ ref_object_num ob = 12 /\ ref_generation_num ob = 0).
Proof.
  split.
  - apply (proj1 (pdfi_read_keyword_R_reference MAIN_STREAM
                    (new_context false (bytes_of_string "R ")) [32]
                    ltac:(simpl; lia) eq_refl eq_refl)).
    vm_compute. reflexivity.
  - destruct (proj2 (pdfi_read_keyword_R_reference MAIN_STREAM reference_context [32]
                       ltac:(vm_compute; discriminate) eq_refl eq_refl)
                1%nat 0%nat [] _ _ eq_refl eq_refl eq_refl) as [_ H].
    destruct (H eq_refl eq_refl) as (c' & r & ob & H1 & H2 & H3 & H4 & H5 & H6 & H7 & _).
    exists c', r, ob. repeat split; assumption.
Defined.

Lemma bytes_eqb_eq a : forall b, bytes_eqb a b = true -> a = b.
Proof.
  induction a as [|x a IH]; intros [|y b] H; try discriminate; [reflexivity|].
  simpl in H. apply andb_true_iff in H. destruct H as [H1 H2].
  apply Z.eqb_eq in H1. subst. f_equal. auto.
Qed.

(** The end of pdfi_read_keyword for a keyword that stays a keyword: it is
    pushed, and the reference taken when it was made is released. *)
Lemma pdfi_read_keyword_finish k c4 ob :
  get_obj c4 k = Some ob -> type ob = PDF_KEYWORD -> refcnt ob = 1 ->
  exists c',
    (let '(code, c'') := pdfi_push k c4 in (code, pdfi_countdown k c'')) = (0, c')
    /\ stack c' = k :: stack c4
    /\ get_obj c' k = Some ob
    /\ main_stream c' = main_stream c4
    /\ compressed_stream c' = compressed_stream c4
    /\ pdf_errors c' = pdf_errors c4.
Proof.
  intros Hg Hty Hrc.
  destruct (pdfi_push_spec c4 k ob Hg) as (c5 & Hpush & Hst & Hg5 & Hm & Hc & He).
  rewrite Hpush.
  rewrite (pdfi_countdown_leaf c5 k _ Hg5)
    by (cbn [type set_refcnt]; rewrite Hty; discriminate).
  cbn [refcnt set_refcnt]. rewrite Hrc.
  change (1 + 1 - 1 =? 0) with false. cbv iota. change (1 + 1 - 1) with 1.
  eexists. split; [reflexivity|].
  split; [exact Hst|].
  split.
  - rewrite (get_obj_put_obj_eq _ _ _ _ Hg5). f_equal.
    destruct ob. cbn in *. subst. reflexivity.
  - auto.
Qed.

Lemma get_obj_set_keyword_key k K c ob :
  get_obj c k = Some ob -> get_obj (set_keyword_key k K c) k = Some (set_key K ob).
Proof.
  intros H. unfold set_keyword_key. rewrite H. apply (get_obj_put_obj_eq _ _ _ _ H).
Qed.

Lemma set_keyword_key_frame k K c :
  stack (set_keyword_key k K c) = stack c
  /\ main_stream (set_keyword_key k K c) = main_stream c
  /\ compressed_stream (set_keyword_key k K c) = compressed_stream c
  /\ pdf_errors (set_keyword_key k K c) = pdf_errors c.
Proof. unfold set_keyword_key. destruct (get_obj c k); repeat split. Qed.

Lemma set_key_same ob : set_key (key ob) ob = ob.
Proof. destruct ob. reflexivity. Qed.

(** pdfi_read_keyword reads a word of fewer than 255 regular bytes that is
    followed by white space, a delimiter or the end of the data, and, unless
    the word is R, true, false, null or stream, pushes it as a keyword
    object with reference count 1 that holds the word and the key of the
    word: the keys of obj, endobj, endstream, xref, startxref and trailer,
    the invalid key for KEYWORD_TOO_LONG, and no key for any other word.
    After the word stream the keyword is pushed in the same way with the
    key of stream, once every line feed and carriage return that follows
    the word has been consumed; this is stated for fewer than 2^32 - 1 of
    them, the range in which the uint32_t count of skip_eol does not come
    back to 0. *)
Theorem pdfi_read_keyword_key (sel : stream_sel) (c : pdf_context)
    (kw rest : list Z) :
  0 <= s_pos (get_stream sel c) ->
  stream_rest (get_stream sel c) = kw ++ rest ->
  kw <> [] -> forallb regular_byte kw = true ->
  Z.of_nat (length kw) < 255 ->
  ends_token rest = true ->
  (object_keyword kw = false ->
   exists c' p ob,
     pdfi_read_keyword sel c = (0, c') /\ stack c' = p :: stack c
     /\ get_obj c' p = Some ob /\ type ob = PDF_KEYWORD /\ refcnt ob = 1
     /\ data ob = kw /\ key ob = keyword_key kw
     /\ pdf_errors c' = pdf_errors c
     /\ stream_rest (get_stream sel c') = after_number rest)
  /\ (kw = bytes_of_string "stream" ->
      Z.of_nat (leading_run is_eol (after_number rest)) < 2 ^ 32 - 1 ->
      exists c' p ob,
        pdfi_read_keyword sel c = (0, c') /\ stack c' = p :: stack c
        /\ get_obj c' p = Some ob /\ type ob = PDF_KEYWORD /\ refcnt ob = 1
        /\ data ob = kw /\ key ob = PDF_STREAM
        /\ pdf_errors c' = pdf_errors c
        /\ stream_rest (get_stream sel c') = drop_leading is_eol (after_number rest)).
Proof.
  intros Hp Hr Hne Hk Hlen He.
  destruct (pdfi_read_keyword_start sel c kw rest Hp Hr Hne Hk He Hlen)
    as (stm & kwob & Hrest & Hpos & Hty & Hrc & Hdata & Hkey & Heq).
  specialize (Heq _ _ _ eq_refl eq_refl eq_refl). cbv beta zeta in Heq.
  set (k := length (heap c)) in *.
  set (c3 := set_heap (heap c ++ [Some kwob]) (put_stream sel stm c)) in *.
  assert (Hg3 : get_obj c3 k = Some kwob).
  { unfold get_obj, c3, k. cbn [heap set_heap].
    rewrite lookup_app_r by lia. rewrite Nat.sub_diag. reflexivity. }
  assert (Hs3 : stack c3 = stack c) by apply stack_put_stream.
  assert (He3 : pdf_errors c3 = pdf_errors c) by apply pdf_errors_put_stream.
  assert (Hstm3 : get_stream sel c3 = stm).
  { unfold c3. transitivity (get_stream sel (put_stream sel stm c));
      [destruct sel; reflexivity|apply get_put_stream]. }
  assert (Hpushed : forall K c4,
    get_obj c4 k = Some (set_key K kwob) ->
    stack c4 = stack c -> pdf_errors c4 = pdf_errors c ->
    forall tail, stream_rest (get_stream sel c4) = tail ->
    pdfi_read_keyword sel c
      = (let '(code, c'') := pdfi_push k c4 in (code, pdfi_countdown k c'')) ->
    exists c' p ob,
      pdfi_read_keyword sel c = (0, c') /\ stack c' = p :: stack c
      /\ get_obj c' p = Some ob /\ type ob = PDF_KEYWORD /\ refcnt ob = 1
      /\ data ob = kw /\ key ob = K
      /\ pdf_errors c' = pdf_errors c
      /\ stream_rest (get_stream sel c') = tail).
  { intros K c4 Hg4 Hs4 He4 tail Htail Hrk.
    destruct (pdfi_read_keyword_finish k c4 (set_key K kwob) Hg4 Hty Hrc)
      as (c' & Hfin & Hst & Hg & Hm & Hcs & Her).
    exists c', k, (set_key K kwob). rewrite Hrk, Hfin.
    split; [reflexivity|]. split; [rewrite Hst, Hs4; reflexivity|].
    split; [exact Hg|]. cbn [type refcnt data key set_key].
    split; [exact Hty|]. split; [exact Hrc|]. split; [exact Hdata|].
    split; [reflexivity|]. split; [rewrite Her; exact He4|].
    rewrite (get_stream_eq sel c4 c' Hm Hcs). exact Htail. }
  assert (Hkeyed : forall K,
    pdfi_read_keyword sel c
      = (let '(code, c'') := pdfi_push k (set_keyword_key k K c3) in
         (code, pdfi_countdown k c'')) ->
    exists c' p ob,
      pdfi_read_keyword sel c = (0, c') /\ stack c' = p :: stack c
      /\ get_obj c' p = Some ob /\ type ob = PDF_KEYWORD /\ refcnt ob = 1
      /\ data ob = kw /\ key ob = K
      /\ pdf_errors c' = pdf_errors c
      /\ stream_rest (get_stream sel c') = after_number rest).
  { intros K Hrk.
    destruct (set_keyword_key_frame k K c3) as (F1 & F2 & F3 & F4).
    apply (Hpushed K (set_keyword_key k K c3)); auto.
    - apply get_obj_set_keyword_key. exact Hg3.
    - congruence.
    - congruence.
    - rewrite (get_stream_eq sel c3 _ F2 F3), Hstm3. exact Hrest. }
  assert (Hkeyed_at : forall str K,
    kw = bytes_of_string str ->
    pdfi_read_keyword sel c
      = (let '(code, c'') := pdfi_push k (set_keyword_key k K c3) in
         (code, pdfi_countdown k c'')) ->
    keyword_key (bytes_of_string str) = K ->
    exists c' p ob,
      pdfi_read_keyword sel c = (0, c') /\ stack c' = p :: stack c
      /\ get_obj c' p = Some ob /\ type ob = PDF_KEYWORD /\ refcnt ob = 1
      /\ data ob = kw /\ key ob = keyword_key kw
      /\ pdf_errors c' = pdf_errors c
      /\ stream_rest (get_stream sel c') = after_number rest).
  { intros str K Hkw Hrk Hkk.
    assert (Hkey' : keyword_key kw = K) by (rewrite Hkw; exact Hkk).
    rewrite Hkey'. apply Hkeyed. exact Hrk. }
  split.
  - intros Hobj. unfold object_keyword in Hobj. cbn [existsb] in Hobj.
    rewrite !orb_false_iff in Hobj.
    destruct Hobj as (HR & Htrue & Hfalse & Hnull & Hstream & _).
    rewrite HR, Htrue, Hfalse, Hnull, Hstream in Heq.
    destruct (bytes_eqb kw (bytes_of_string "KEYWORD_TOO_LONG")) eqn:E1.
    { apply bytes_eqb_eq in E1. eapply Hkeyed_at; [exact E1|exact Heq|reflexivity]. }
    destruct (bytes_eqb kw (bytes_of_string "endstream")) eqn:E2.
    { apply bytes_eqb_eq in E2. eapply Hkeyed_at; [exact E2|exact Heq|reflexivity]. }
    destruct (bytes_eqb kw (bytes_of_string "endobj")) eqn:E3.
    { apply bytes_eqb_eq in E3. eapply Hkeyed_at; [exact E3|exact Heq|reflexivity]. }
    destruct (bytes_eqb kw (bytes_of_string "obj")) eqn:E4.
    { apply bytes_eqb_eq in E4. eapply Hkeyed_at; [exact E4|exact Heq|reflexivity]. }
    destruct (bytes_eqb kw (bytes_of_string "startxref")) eqn:E5.
    { apply bytes_eqb_eq in E5. eapply Hkeyed_at; [exact E5|exact Heq|reflexivity]. }
    destruct (bytes_eqb kw (bytes_of_string "trailer")) eqn:E6.
    { apply bytes_eqb_eq in E6. eapply Hkeyed_at; [exact E6|exact Heq|reflexivity]. }
    destruct (bytes_eqb kw (bytes_of_string "xref")) eqn:E7.
    { apply bytes_eqb_eq in E7. eapply Hkeyed_at; [exact E7|exact Heq|reflexivity]. }
    assert (Hkk : keyword_key kw = PDF_NOT_A_KEYWORD).
    { unfold keyword_key, keyword_table. cbn [find fst snd].
      rewrite E1, E2, E3, E4, E5, E6, E7. reflexivity. }
    rewrite Hkk.
    apply (Hpushed PDF_NOT_A_KEYWORD c3); auto.
    + rewrite <- Hkey, set_key_same. exact Hg3.
    + rewrite Hstm3. exact Hrest.
  - intros Hkw Hrun.
    assert (Hchain : pdfi_read_keyword sel c
              = (let c4 := set_keyword_key k PDF_STREAM c3 in
                 let '(code, c5) := skip_eol sel c4 in
                 if code <? 0 then (code, pdfi_countdown k c5)
                 else let '(code, c'') := pdfi_push k c5 in (code, pdfi_countdown k c''))).
    { rewrite Heq. rewrite Hkw. reflexivity. }
    cbv zeta in Hchain.
    destruct (set_keyword_key_frame k PDF_STREAM c3) as (F1 & F2 & F3 & F4).
    set (c4 := set_keyword_key k PDF_STREAM c3) in *.
    assert (Hstm4 : get_stream sel c4 = stm).
    { rewrite (get_stream_eq sel c3 c4 F2 F3). exact Hstm3. }
    destruct (skip_eol_loop_spec sel (after_number rest) c4 (stream_fuel sel c4) 0)
      as (stm' & Hsk & Hrest' & Hpos').
    { rewrite Hstm4. exact Hpos. }
    { rewrite Hstm4. exact Hrest. }
    { unfold stream_fuel. rewrite Hstm4, Hrest. lia. }
    fold (skip_eol sel c4) in Hsk. rewrite Hsk in Hchain.
    cbn [Z.ltb Z.compare] in Hchain.
    apply (Hpushed PDF_STREAM (put_stream sel stm' c4)); auto.
    + unfold get_obj. rewrite heap_put_stream.
      apply (get_obj_set_keyword_key k PDF_STREAM c3 kwob Hg3).
    + rewrite stack_put_stream. congruence.
    + rewrite pdf_errors_put_stream. congruence.
    + rewrite get_put_stream, Hrest'. apply skip_rest_short. exact Hrun.
Qed.

Lemma pdfi_read_keyword_key_witness :
  (exists c' p ob,
      pdfi_read_keyword MAIN_STREAM (new_context false (bytes_of_string "endobj 7")) = (0, c')
      /\ stack c' = p :: []
      /\ get_obj c' p = Some ob /\ type ob = PDF_KEYWORD /\ refcnt ob = 1
      /\ data ob = bytes_of_string "endobj" /\ key ob = PDF_ENDOBJ
      /\ pdf_errors c' = 0
      /\ stream_rest (get_stream MAIN_STREAM c') = bytes_of_string "7")
  /\ (exists c' p ob,
      pdfi_read_keyword MAIN_STREAM (new_context false [115; 116; 114; 101; 97; 109; 13; 10; 10; 65])
        = (0, c')
      /\ stack c' = p :: []
      /\ get_obj c' p = Some ob /\ type ob = PDF_KEYWORD /\ refcnt ob = 1
      /\ data ob = bytes_of_string "stream" /\ key ob = PDF_STREAM
      /\ pdf_errors c' = 0
      /\ stream_rest (get_stream MAIN_STREAM c') = [65]).
Proof.
  split.
  - apply (proj1 (pdfi_read_keyword_key MAIN_STREAM
                    (new_context false (bytes_of_string "endobj 7"))
                    (bytes_of_string "endobj") (bytes_of_string " 7")
                    ltac:(simpl; lia) eq_refl ltac:(discriminate) eq_refl
                    ltac:(simpl; lia) eq_refl)).
    reflexivity.
  - apply (proj2 (pdfi_read_keyword_key MAIN_STREAM
                    (new_context false [115; 116; 114; 101; 97; 109; 13; 10; 10; 65])
                    (bytes_of_string "stream") [13; 10; 10; 65]
                    ltac:(simpl; lia) eq_refl ltac:(discriminate) eq_refl
                    ltac:(simpl; lia) eq_refl)).
    + reflexivity.
    + simpl. lia.
Defined.

(** The tail of pdfi_read_keyword for [true], [false] and [null]. *)
Lemma pdfi_read_keyword_const_spec k c3 kwob t v :
  get_obj c3 k = Some kwob -> type kwob = PDF_KEYWORD -> refcnt kwob = 1 ->
  exists c' ob,
    pdfi_read_keyword_const k t v c3 = (0, c')
    /\ stack c' = length (heap c3) :: stack c3
    /\ get_obj c' (length (heap c3)) = Some ob
    /\ type ob = t /\ value_i ob = v /\ refcnt ob = 1
    /\ get_obj c' k = None
    /\ (forall q, q <> k -> (q < length (heap c3))%nat -> heap c' !! q = heap c3 !! q)
    /\ main_stream c' = main_stream c3
    /\ compressed_stream c' = compressed_stream c3
    /\ pdf_errors c' = pdf_errors c3.
Proof.
  intros Hk Hty Hrc.
  assert (Hc1 : pdfi_countdown k c3 = pdfi_free_object k c3).
  { rewrite (pdfi_countdown_leaf c3 k kwob Hk)
      by (rewrite Hty; discriminate).
    rewrite Hrc. reflexivity. }
  assert (Hklt : (k < length (heap c3))%nat) by (eapply get_obj_lt; eauto).
  unfold pdfi_read_keyword_const. rewrite Hc1. cbv zeta.
  set (c1 := pdfi_free_object k c3).
  assert (Hlen1 : length (heap c1) = length (heap c3)).
  { unfold c1, pdfi_free_object. cbn [heap set_heap]. apply length_insert. }
  destruct (pdfi_alloc_object_fresh c1 t 0) as (ob0 & Ha & Ht0 & Hrc0 & _).
  rewrite Ha. cbn [Z.ltb Z.compare]. rewrite get_obj_set_heap_app.
  set (c2 := set_heap (heap c1 ++ [Some ob0]) c1).
  set (ob1 := set_value_i v ob0).
  destruct (pdfi_push_spec (put_obj (length (heap c1)) ob1 c2) (length (heap c1)) ob1)
    as (c5 & Hpush & Hst5 & Hg5 & Hm5 & Hc5 & He5).
  { eapply get_obj_put_obj_eq. apply get_obj_set_heap_app. }
  rewrite Hpush. cbn [Z.ltb Z.compare].
  assert (Hh5 : heap c5 = <[length (heap c1) := Some (set_refcnt (refcnt ob1 + 1) ob1)]>
                            (<[length (heap c1) := Some ob1]> (heap c1 ++ [Some ob0]))).
  { revert Hpush. unfold pdfi_push. intros Hpush. injection Hpush as <-.
    cbn [heap set_stack].
    rewrite (pdfi_countup_get _ _ ob1)
      by (eapply get_obj_put_obj_eq; apply get_obj_set_heap_app).
    reflexivity. }
  exists c5, (set_refcnt (refcnt ob1 + 1) ob1).
  split; [reflexivity|]. rewrite <- Hlen1.
  split; [exact Hst5|]. split; [exact Hg5|].
  unfold ob1. cbn [type value_i refcnt set_refcnt set_value_i]. rewrite Hrc0.
  split; [exact Ht0|]. split; [reflexivity|]. split; [reflexivity|].
  split.
  - unfold get_obj. rewrite Hh5. rewrite !list_lookup_insert_ne by lia.
    rewrite lookup_app_l by lia.
    unfold c1, pdfi_free_object. cbn [heap set_heap].
    rewrite list_lookup_insert_eq by exact Hklt. reflexivity.
  - split; [|rewrite Hm5, Hc5, He5; auto].
    intros q Hq Hql. rewrite Hh5. rewrite !list_lookup_insert_ne by lia.
    rewrite lookup_app_l by lia.
    unfold c1, pdfi_free_object. cbn [heap set_heap].
    rewrite list_lookup_insert_ne by auto. reflexivity.
Qed.

(** pdfi_read_keyword replaces the words true, false and null by an object:
    a boolean of value 1 or 0, or the null object, pushed with reference
    count 1.  The keyword object made for the word is released, and no
    object that was there before changes. *)
Theorem pdfi_read_keyword_constant (sel : stream_sel) (c : pdf_context)
    (word : string) (t : pdf_obj_type) (v : Z) (rest : list Z) :
  0 <= s_pos (get_stream sel c) ->
  In (word, t, v) [("true"%string, PDF_BOOL, 1); ("false"%string, PDF_BOOL, 0);
                   ("null"%string, PDF_NULL, 0)] ->
  stream_rest (get_stream sel c) = bytes_of_string word ++ rest ->
  ends_token rest = true ->
  exists c' p ob,
    pdfi_read_keyword sel c = (0, c') /\ stack c' = p :: stack c
    /\ get_obj c' p = Some ob /\ type ob = t /\ value_i ob = v /\ refcnt ob = 1
    /\ get_obj c' (length (heap c)) = None
    /\ (forall q ob', get_obj c q = Some ob' -> get_obj c' q = Some ob')
    /\ pdf_errors c' = pdf_errors c
    /\ stream_rest (get_stream sel c') = after_number rest.
Proof.
  intros Hp Hin Hr He.
  assert (Hkw : bytes_of_string word <> []
                /\ forallb regular_byte (bytes_of_string word) = true
                /\ Z.of_nat (length (bytes_of_string word)) < 255).
  { simpl in Hin.
    repeat (destruct Hin as [Hin|Hin];
            [injection Hin as <- <- <-;
             split; [discriminate|split; [reflexivity|simpl; lia]]|]).
    contradiction. }
  destruct Hkw as (Hne & Hk & Hlen).
  destruct (pdfi_read_keyword_start sel c (bytes_of_string word) rest Hp Hr Hne Hk He Hlen)
    as (stm & kwob & Hrest & Hpos & Hty & Hrc & Hdata & Hkey & Heq).
  specialize (Heq _ _ _ eq_refl eq_refl eq_refl). cbv beta zeta in Heq.
  set (k := length (heap c)) in *.
  set (c3 := set_heap (heap c ++ [Some kwob]) (put_stream sel stm c)) in *.
  assert (Hg3 : get_obj c3 k = Some kwob).
  { unfold get_obj, c3, k. cbn [heap set_heap].
    rewrite lookup_app_r by lia. rewrite Nat.sub_diag. reflexivity. }
  assert (Hconst : pdfi_read_keyword sel c = pdfi_read_keyword_const k t v c3).
  { rewrite Heq. clear Heq. simpl in Hin.
    repeat (destruct Hin as [Hin|Hin];
            [injection Hin as <- <- <-; reflexivity|]).
    contradiction. }
  destruct (pdfi_read_keyword_const_spec k c3 kwob t v Hg3 Hty Hrc)
    as (c' & ob & H1 & H2 & H3 & H4 & H5 & H6 & H7 & H8 & H9 & H10 & H11).
  exists c', (length (heap c3)), ob.
  split; [rewrite Hconst; exact H1|].
  split; [rewrite H2; unfold c3; cbn [stack set_heap]; rewrite stack_put_stream; reflexivity|].
  split; [exact H3|]. split; [exact H4|]. split; [exact H5|]. split; [exact H6|].
  split; [exact H7|].
  split.
  - intros q ob' Hq. pose proof (get_obj_lt _ _ _ Hq) as Hql.
    unfold get_obj in *. rewrite H8.
    + unfold c3. cbn [heap set_heap]. rewrite lookup_app_l by lia. exact Hq.
    + unfold k. lia.
    + unfold c3. cbn [heap set_heap]. rewrite length_app. lia.
  - split.
    + rewrite H11. unfold c3. cbn [pdf_errors set_heap]. apply pdf_errors_put_stream.
    + rewrite (get_stream_eq sel c3 c' H9 H10).
      unfold c3. replace (get_stream sel (set_heap _ (put_stream sel stm c)))
        with (get_stream sel (put_stream sel stm c)) by (destruct sel; reflexivity).
      rewrite get_put_stream. exact Hrest.
Qed.

Lemma pdfi_read_keyword_constant_witness :
  exists c' p ob,
    pdfi_read_keyword MAIN_STREAM (new_context false (bytes_of_string "true]")) = (0, c')
    /\ stack c' = p :: []
    /\ get_obj c' p = Some ob /\ type ob = PDF_BOOL /\ value_i ob = 1 /\ refcnt ob = 1.
Proof.
  destruct (pdfi_read_keyword_constant MAIN_STREAM
              (new_context false (bytes_of_string "true]")) "true" PDF_BOOL 1
              (bytes_of_string "]"))
    as (c' & p & ob & H1 & H2 & H3 & H4 & H5 & H6 & _);
    [simpl; lia | simpl; tauto | reflexivity | reflexivity |].
  exists c', p, ob. repeat split; assumption.
Defined.
(** ** Arrays *)

Lemma set_heap_same c : set_heap (heap c) c = c.
Proof. destruct c. reflexivity. Qed.

Lemma set_refcnt_back ob : set_refcnt (refcnt ob + 1 - 1) (set_refcnt (refcnt ob + 1) ob) = ob.
Proof.
  destruct ob as [t r n g v d k s e ks vs so rn rg]. unfold set_refcnt. cbn.
  replace (r + 1 - 1) with r by lia. reflexivity.
Qed.

(** Taking a reference to a live object and releasing it again changes
    nothing. *)
Lemma pdfi_countdown_countup c p ob :
  get_obj c p = Some ob -> refcnt ob <> 0 ->
  pdfi_countdown p (pdfi_countup p c) = c.
Proof.
  intros Hg Hrc. rewrite (pdfi_countup_get _ _ _ Hg).
  unfold pdfi_countdown, put_obj. cbn [heap set_heap countdown_heap].
  assert (Hl : (p < length (heap c))%nat) by (eapply get_obj_lt; eauto).
  rewrite list_lookup_insert_eq by exact Hl.
  cbn [refcnt set_refcnt].
  destruct (Z.eqb_spec (refcnt ob + 1 - 1) 0); [lia|].
  rewrite list_insert_insert_eq, set_refcnt_back.
  rewrite list_insert_id.
  - destruct c. reflexivity.
  - unfold get_obj in Hg. destruct (heap c !! p) as [[x|]|]; congruence.
Qed.

Lemma pdfi_countdown_set_stack p s c :
  pdfi_countdown p (set_stack s c) = set_stack s (pdfi_countdown p c).
Proof. reflexivity. Qed.

Lemma pdfi_countup_set_stack p s c :
  pdfi_countup p (set_stack s c) = set_stack s (pdfi_countup p c).
Proof.
  unfold pdfi_countup. change (get_obj (set_stack s c) p) with (get_obj c p).
  destruct (get_obj c p); reflexivity.
Qed.

Lemma put_obj_put_obj a X Y c : put_obj a X (put_obj a Y c) = put_obj a X c.
Proof.
  unfold put_obj. cbn [heap set_heap]. rewrite list_insert_insert_eq. reflexivity.
Qed.

(** The objects above the topmost mark are counted. *)
Lemma count_to_mark_list_items c m tl :
  (exists mob, get_obj c m = Some mob /\ is_mark (type mob) = true) ->
  forall items,
    Forall (fun p => exists ob, get_obj c p = Some ob /\ is_mark (type ob) = false) items ->
    count_to_mark_list c (items ++ m :: tl) = Some (length items).
Proof.
  intros (mob & Hm & Hmt). induction 1 as [|p items (ob & Hp & Hpt) _ IH].
  - cbn [app count_to_mark_list length]. unfold obj_type. rewrite Hm. cbn [option_map].
    rewrite Hmt. reflexivity.
  - cbn [app count_to_mark_list length]. unfold obj_type at 1. rewrite Hp. cbn [option_map].
    rewrite Hpt, IH. reflexivity.
Qed.

(** The loop of pdfi_array_from_stack moves the objects above the mark
    into the slots of the array, the topmost into the last slot, and leaves
    their reference counts as they were. *)
Lemma array_fill_from_stack_spec a rest :
  forall items c arr,
    stack c = items ++ rest ->
    get_obj c a = Some arr ->
    (length items <= length (values arr))%nat ->
    Forall (fun p => p <> a /\ exists ob, get_obj c p = Some ob /\ refcnt ob <> 0) items ->
    array_fill_from_stack (length items) a c
    = set_stack rest
        (put_obj a
           (set_slots (size arr) (entries arr) (keys arr)
              (map Some (rev items) ++ drop (length items) (values arr)) arr) c).
Proof.
  induction items as [|p items IH]; intros c arr Hst Ha Hlen Hall.
  - cbn [length array_fill_from_stack rev map app]. rewrite drop_0.
    cbn [app] in Hst. rewrite <- Hst.
    assert (Hsame : set_slots (size arr) (entries arr) (keys arr) (values arr) arr = arr)
      by (destruct arr; reflexivity).
    rewrite Hsame. unfold put_obj.
    rewrite list_insert_id.
    + destruct c. reflexivity.
    + unfold get_obj in Ha. destruct (heap c !! a) as [[x|]|]; congruence.
  - inversion Hall as [|? ? (Hpa & ob & Hp & Hrc) Hall']; subst.
    cbn [length] in Hlen.
    cbn [length array_fill_from_stack]. rewrite Hst. cbn [app].
    unfold set_array_value at 1. rewrite Ha.
    set (arr' := set_slots (size arr) (entries arr) (keys arr)
                   (<[length items := Some p]> (values arr)) arr).
    assert (Hp' : get_obj (put_obj a arr' c) p = Some ob).
    { rewrite get_obj_put_obj_ne by auto. exact Hp. }
    assert (Hpop : pdfi_pop 1 (pdfi_countup p (put_obj a arr' c))
                   = set_stack (items ++ rest) (put_obj a arr' c)).
    { cbn [pdfi_pop].
      assert (Hs : stack (pdfi_countup p (put_obj a arr' c)) = p :: items ++ rest).
      { rewrite (pdfi_countup_get _ _ _ Hp'). cbn [stack put_obj set_heap]. exact Hst. }
      rewrite Hs. rewrite pdfi_countdown_set_stack.
      rewrite (pdfi_countdown_countup _ _ _ Hp' Hrc). reflexivity. }
    rewrite Hpop.
    rewrite (IH (set_stack (items ++ rest) (put_obj a arr' c)) arr').
    + change (put_obj a ?X (set_stack ?s ?c0)) with (set_stack s (put_obj a X c0)).
      rewrite put_obj_put_obj.
      change (set_stack rest (set_stack ?s ?c0)) with (set_stack rest c0).
      f_equal. f_equal. unfold arr'. cbn [size entries keys values set_slots].
      unfold set_slots. cbn [type refcnt object_num generation_num value_i data key
                               stream_offset ref_object_num ref_generation_num].
      f_equal.
      cbn [rev]. rewrite map_app. cbn [map]. rewrite <- app_assoc. cbn [app].
      f_equal.
      rewrite drop_insert_ge by lia. rewrite Nat.sub_diag.
      assert (Hlt : (length items < length (values arr))%nat) by lia.
      destruct (drop (length items) (values arr)) as [|x l] eqn:Hd.
      { apply (f_equal length) in Hd. rewrite length_drop in Hd. simpl in Hd. lia. }
      cbn [insert list_insert]. f_equal.
      replace (S (length items)) with (length items + 1)%nat by lia.
      rewrite <- drop_drop, Hd. reflexivity.
    + reflexivity.
    + apply (get_obj_put_obj_eq _ _ _ _ Ha).
    + unfold arr'. cbn [values set_slots]. rewrite length_insert. lia.
    + eapply Forall_impl; [exact Hall'|]. cbn beta.
      intros q (Hqa & obq & Hq & Hrq). split; [exact Hqa|].
      exists obq. split; [|exact Hrq].
      change (get_obj (put_obj a arr' c) q = Some obq).
      rewrite get_obj_put_obj_ne by auto. exact Hq.
Qed.

(** What pdfi_array_from_stack makes of the objects above the topmost mark;
    the streams and the error flags are as before. *)
Lemma pdfi_array_from_stack_spec (c : pdf_context) (items tl : list nat)
    (m : nat) (mob : pdf_obj) :
  stack c = items ++ m :: tl ->
  get_obj c m = Some mob -> is_mark (type mob) = true ->
  Forall (fun p => exists ob, get_obj c p = Some ob /\ is_mark (type ob) = false
                              /\ refcnt ob <> 0) items ->
  Z.of_nat (length items) < 2 ^ 32 ->
  exists c' arr,
    pdfi_array_from_stack c = (0, c')
    /\ stack c' = length (heap c) :: tl
    /\ get_obj c' (length (heap c)) = Some arr
    /\ type arr = PDF_ARRAY /\ refcnt arr = 1
    /\ size arr = Z.of_nat (length items) /\ entries arr = Z.of_nat (length items)
    /\ values arr = map Some (rev items)
    /\ (forall q, q <> m -> (q < length (heap c))%nat -> heap c' !! q = heap c !! q)
    /\ (get_obj c' m = None
        \/ get_obj c' m = Some (set_refcnt (refcnt mob - 1) mob))
    /\ main_stream c' = main_stream c
    /\ compressed_stream c' = compressed_stream c
    /\ pdf_errors c' = pdf_errors c.
Proof.
  intros Hst Hm Hmt Hall Hn.
  set (a := length (heap c)).
  assert (Hcount : pdfi_count_to_mark c = (0, (length items))).
  { unfold pdfi_count_to_mark. rewrite Hst.
    rewrite (count_to_mark_list_items c m tl); [reflexivity|eauto|].
    eapply Forall_impl; [exact Hall|]. cbn beta. intros p (ob & H1 & H2 & _). eauto. }
  unfold pdfi_array_from_stack. rewrite Hcount. cbn [Z.ltb Z.compare].
  set (arr0 := set_slots (Z.of_nat (length items)) 0 [] (repeat None (length items)) (zero_obj PDF_ARRAY)).
  assert (Ha : pdfi_alloc_object c PDF_ARRAY (Z.of_nat (length items))
               = (0, set_heap (heap c ++ [Some arr0]) c, a)).
  { unfold pdfi_alloc_object. rewrite Z.mod_small by lia. rewrite Nat2Z.id. reflexivity. }
  rewrite Ha. cbn [Z.ltb Z.compare].
  set (c1 := set_heap (heap c ++ [Some arr0]) c).
  assert (Hg1 : get_obj c1 a = Some arr0) by apply get_obj_set_heap_app.
  assert (Hold : forall q ob, get_obj c q = Some ob -> q <> a /\ get_obj c1 q = Some ob).
  { intros q ob Hq. pose proof (get_obj_lt _ _ _ Hq) as Hl.
    split; [unfold a; lia|].
    unfold get_obj, c1 in *. cbn [heap set_heap]. rewrite lookup_app_l by lia. exact Hq. }
  unfold set_entries. rewrite Hg1.
  set (arr1 := set_slots (size arr0) (Z.of_nat (length items)) (keys arr0) (values arr0) arr0).
  set (c2 := put_obj a arr1 c1).
  assert (Hg2 : get_obj c2 a = Some arr1) by apply (get_obj_put_obj_eq _ _ _ _ Hg1).
  assert (Hold2 : forall q ob, get_obj c q = Some ob -> q <> a /\ get_obj c2 q = Some ob).
  { intros q ob Hq. destruct (Hold q ob Hq) as [Hqa Hq1]. split; [exact Hqa|].
    unfold c2. rewrite get_obj_put_obj_ne by auto. exact Hq1. }
  rewrite (array_fill_from_stack_spec a (m :: tl) items c2 arr1); auto.
  2:{ unfold arr1, arr0. cbn [values set_slots]. rewrite repeat_length. lia. }
  2:{ eapply Forall_impl; [exact Hall|]. cbn beta.
      intros p (ob & H1 & _ & H3). destruct (Hold2 p ob H1). eauto. }
  set (arrF := set_slots (size arr1) (entries arr1) (keys arr1)
                 (map Some (rev items) ++ drop (length items) (values arr1)) arr1).
  assert (HvF : values arrF = map Some (rev items)).
  { unfold arrF, arr1, arr0. cbn [values set_slots].
    rewrite drop_ge by (rewrite repeat_length; lia). apply app_nil_r. }
  set (c3 := set_stack (m :: tl) (put_obj a arrF c2)).
  assert (Hm3 : get_obj c3 m = Some mob).
  { destruct (Hold2 m mob Hm) as [Hma Hm2].
    change (get_obj (put_obj a arrF c2) m = Some mob).
    rewrite get_obj_put_obj_ne by auto. exact Hm2. }
  assert (Hclear : pdfi_clear_to_mark c3 = (0, pdfi_countdown m (set_stack tl c3))).
  { unfold pdfi_clear_to_mark, pdfi_count_to_mark.
    change (stack c3) with (m :: tl). cbn [count_to_mark_list].
    unfold obj_type. rewrite Hm3. cbn [option_map]. rewrite Hmt.
    cbn [Z.ltb Z.compare pdfi_pop]. change (stack c3) with (m :: tl). reflexivity. }
  rewrite Hclear. cbn [Z.ltb Z.compare].
  assert (Hleaf : type mob <> PDF_ARRAY /\ type mob <> PDF_DICT).
  { destruct (type mob); try discriminate; split; discriminate. }
  rewrite (pdfi_countdown_leaf (set_stack tl c3) m mob Hm3 (proj1 Hleaf) (proj2 Hleaf)).
  set (c4 := if refcnt mob - 1 =? 0 then pdfi_free_object m (set_stack tl c3)
             else put_obj m (set_refcnt (refcnt mob - 1) mob) (set_stack tl c3)).
  assert (Hma : m <> a) by (apply (Hold m mob Hm)).
  assert (Hmlt : (m < length (heap c))%nat) by (eapply get_obj_lt; eauto).
  assert (Hh3 : heap c3 = <[a := Some arrF]> (<[a := Some arr1]> (heap c ++ [Some arr0])))
    by reflexivity.
  assert (H4 : stack c4 = tl /\ get_obj c4 a = Some arrF
               /\ (forall q, q <> m -> heap c4 !! q = heap c3 !! q)
               /\ (get_obj c4 m = None
                   \/ get_obj c4 m = Some (set_refcnt (refcnt mob - 1) mob))
               /\ main_stream c4 = main_stream c
               /\ compressed_stream c4 = compressed_stream c
               /\ pdf_errors c4 = pdf_errors c).
  { assert (Ha3 : get_obj c3 a = Some arrF) by apply (get_obj_put_obj_eq _ _ _ _ Hg2).
    assert (Hml3 : (m < length (heap c3))%nat).
    { rewrite Hh3, !length_insert, length_app. lia. }
    unfold c4. destruct (refcnt mob - 1 =? 0).
    - split; [reflexivity|]. split.
      + unfold get_obj, pdfi_free_object. cbn [heap set_heap set_stack].
        rewrite list_lookup_insert_ne by auto. exact Ha3.
      + split.
        * intros q Hq. unfold pdfi_free_object. cbn [heap set_heap set_stack].
          rewrite list_lookup_insert_ne by auto. reflexivity.
        * split; [|repeat split].
          left. unfold get_obj, pdfi_free_object. cbn [heap set_heap set_stack].
          rewrite list_lookup_insert_eq by exact Hml3. reflexivity.
    - split; [reflexivity|]. split.
      + rewrite get_obj_put_obj_ne by auto. exact Ha3.
      + split.
        * intros q Hq. unfold put_obj. cbn [heap set_heap set_stack].
          rewrite list_lookup_insert_ne by auto. reflexivity.
        * split; [|repeat split].
          right. apply (get_obj_put_obj_eq _ _ _ _ Hm3). }
  clearbody c4. destruct H4 as (Hs4 & Ha4 & Hf4 & Hm4 & Hms4 & Hcs4 & Her4).
  destruct (pdfi_push_spec c4 a arrF Ha4) as (c5 & Hpush & Hst5 & Hg5 & Hms5 & Hcs5 & Her5).
  rewrite Hpush. cbn [Z.ltb Z.compare].
  assert (Hh5 : heap c5 = <[a := Some (set_refcnt (refcnt arrF + 1) arrF)]> (heap c4)).
  { revert Hpush. unfold pdfi_push. intros Hpush. injection Hpush as <-.
    cbn [heap set_stack]. rewrite (pdfi_countup_get _ _ _ Ha4). reflexivity. }
  exists c5, (set_refcnt (refcnt arrF + 1) arrF).
  split; [reflexivity|]. split; [rewrite Hst5, Hs4; reflexivity|].
  split; [exact Hg5|].
  cbn [type refcnt size entries values set_refcnt].
  split; [reflexivity|]. split; [reflexivity|]. split; [reflexivity|].
  split; [reflexivity|]. split; [exact HvF|].
  split.
  - intros q Hqm Hql. rewrite Hh5.
    rewrite list_lookup_insert_ne by (unfold a; lia). rewrite (Hf4 q Hqm), Hh3.
    rewrite !list_lookup_insert_ne by (unfold a; lia).
    apply lookup_app_l. exact Hql.
  - split; [|rewrite Hms5, Hcs5, Her5; auto].
    unfold get_obj in *. rewrite Hh5. rewrite list_lookup_insert_ne by auto. exact Hm4.
Qed.

(** pdfi_array_from_stack, called at a closing bracket, makes an array of
    the objects above the topmost mark: the array has as many slots and
    entries as there are such objects, holds them bottom first, and is
    pushed with reference count 1 in place of the mark and the objects.
    The reference that the stack held to each object passes to the array,
    so their reference counts are as before; the mark loses its reference. *)
Theorem pdfi_array_from_stack_collects (c : pdf_context) (items tl : list nat)
    (m : nat) (mob : pdf_obj) :
  stack c = items ++ m :: tl ->
  get_obj c m = Some mob -> is_mark (type mob) = true ->
  Forall (fun p => exists ob, get_obj c p = Some ob /\ is_mark (type ob) = false
                              /\ refcnt ob <> 0) items ->
  Z.of_nat (length items) < 2 ^ 32 ->
  exists c' arr,
    pdfi_array_from_stack c = (0, c')
    /\ stack c' = length (heap c) :: tl
    /\ get_obj c' (length (heap c)) = Some arr
    /\ type arr = PDF_ARRAY /\ refcnt arr = 1
    /\ size arr = Z.of_nat (length items) /\ entries arr = Z.of_nat (length items)
    /\ values arr = map Some (rev items)
    /\ (forall q, q <> m -> (q < length (heap c))%nat -> heap c' !! q = heap c !! q)
    /\ (get_obj c' m = None
        \/ get_obj c' m = Some (set_refcnt (refcnt mob - 1) mob)).
Proof.
  intros Hst Hm Hmt Hall Hn.
  destruct (pdfi_array_from_stack_spec c items tl m mob Hst Hm Hmt Hall Hn)
    as (c' & arr & H1 & H2 & H3 & H4 & H5 & H6 & H7 & H8 & H9 & H10 & _).
  exists c', arr.
  split; [exact H1|]. split; [exact H2|]. split; [exact H3|]. split; [exact H4|].
  split; [exact H5|]. split; [exact H6|]. split; [exact H7|]. split; [exact H8|].
  split; [exact H9|exact H10].
Qed.

Lemma pdfi_array_from_stack_collects_witness :
  exists c' arr,
    pdfi_array_from_stack bracket_context = (0, c')
    /\ stack c' = [3%nat]
    /\ get_obj c' 3 = Some arr
    /\ type arr = PDF_ARRAY /\ refcnt arr = 1
    /\ size arr = 2 /\ entries arr = 2
    /\ values arr = [Some 1%nat; Some 2%nat].
Proof.
  assert (Hitems : Forall (fun p => exists ob, get_obj bracket_context p = Some ob
                                     /\ is_mark (type ob) = false /\ refcnt ob <> 0)
                     [2%nat; 1%nat]).
  { constructor;
      [eexists; (split; [reflexivity|]); split; [reflexivity|vm_compute; discriminate]|].
    constructor;
      [eexists; (split; [reflexivity|]); split; [reflexivity|vm_compute; discriminate]|].
    constructor. }
  destruct (pdfi_array_from_stack_collects bracket_context [2%nat; 1%nat] [] 0%nat _
              eq_refl eq_refl eq_refl Hitems ltac:(simpl; lia))
    as (c' & arr & H1 & H2 & H3 & H4 & H5 & H6 & H7 & H8 & _).
  exists c', arr. repeat split; assumption.
Defined.

(** *** pdf_array.c *)

(** Releasing a reference to an object that is shared, or that owns no
    other object. *)
Lemma pdfi_countdown_simple c p ob :
  get_obj c p = Some ob ->
  refcnt ob <> 1 \/ (type ob <> PDF_ARRAY /\ type ob <> PDF_DICT) ->
  pdfi_countdown p c
  = if refcnt ob - 1 =? 0 then pdfi_free_object p c
    else put_obj p (set_refcnt (refcnt ob - 1) ob) c.
Proof.
  intros Hg [Hrc|[Ha Hd]]; [|apply pdfi_countdown_leaf; auto].
  unfold pdfi_countdown, pdfi_free_object, put_obj.
  unfold get_obj in Hg. cbn [countdown_heap].
  destruct (heap c !! p) as [[x|]|] eqn:E; try discriminate.
  injection Hg as ->.
  destruct (Z.eqb_spec (refcnt ob - 1) 0); [lia|reflexivity].
Qed.

Lemma pdf_obj_type_eqb_refl t : pdf_obj_type_eqb t t = true.
Proof. destruct t; reflexivity. Qed.

Lemma pdf_obj_type_eqb_neq t u : t <> u -> pdf_obj_type_eqb t u = false.
Proof. destruct t, u; try reflexivity; congruence. Qed.

Section ArrayProperties.

Variable deref : deref_fn.

(** pdfi_array_fetch on a slot that holds a direct object. *)
Lemma pdfi_array_fetch_direct c a index setref aob p pob :
  get_obj c a = Some aob -> type aob = PDF_ARRAY ->
  0 <= index < size aob ->
  values aob !! Z.to_nat index = Some (Some p) ->
  get_obj c p = Some pob -> type pob <> PDF_INDIRECT ->
  pdfi_array_fetch deref c a index setref = (0, pdfi_countup p c, Some p).
Proof.
  intros Ha Hta Hi Hv Hp Htp. unfold pdfi_array_fetch.
  rewrite Ha, Hta. cbn [pdf_obj_type_eqb negb].
  rewrite Z.geb_leb. destruct (Z.leb_spec (size aob) index); [lia|].
  rewrite Hv, Hp. rewrite (pdf_obj_type_eqb_neq _ _ Htp). reflexivity.
Qed.

End ArrayProperties.

(** What pdfi_array_put does to the array, to the object put and to the
    object replaced. *)
Lemma pdfi_array_put_spec (c : pdf_context) (a : nat) (index : Z) (obj old : nat)
    (aob oldob oob : pdf_obj) :
  get_obj c a = Some aob -> type aob = PDF_ARRAY ->
  0 <= index < size aob ->
  values aob !! Z.to_nat index = Some (Some old) ->
  get_obj c old = Some oldob -> old <> a ->
  refcnt oldob <> 1 \/ (type oldob <> PDF_ARRAY /\ type oldob <> PDF_DICT) ->
  get_obj c obj = Some oob -> obj <> a -> obj <> old ->
  exists c1 aob1,
    pdfi_array_put c a index obj = (0, c1)
    /\ get_obj c1 a = Some aob1
    /\ values aob1 = <[Z.to_nat index := Some obj]> (values aob)
    /\ size aob1 = size aob /\ type aob1 = PDF_ARRAY /\ refcnt aob1 = refcnt aob
    /\ get_obj c1 obj = Some (set_refcnt (refcnt oob + 1) oob)
    /\ get_obj c1 old = (if refcnt oldob =? 1 then None
                         else Some (set_refcnt (refcnt oldob - 1) oldob))
    /\ (forall q, q <> a -> q <> obj -> q <> old -> get_obj c1 q = get_obj c q)
    /\ stack c1 = stack c.
Proof.
  intros Ha Hta Hi Hv Hold Hoa Hsimple Hobj Hna Hno.
  assert (Hge : (index >=? size aob) = false).
  { rewrite Z.geb_leb. apply Z.leb_gt. lia. }
  unfold pdfi_array_put. rewrite Ha, Hta. cbn [pdf_obj_type_eqb negb].
  rewrite Hge, Hv.
  rewrite (pdfi_countdown_simple c old oldob Hold Hsimple).
  set (c0 := if refcnt oldob - 1 =? 0 then pdfi_free_object old c
             else put_obj old (set_refcnt (refcnt oldob - 1) oldob) c).
  assert (Hlold : (old < length (heap c))%nat) by (eapply get_obj_lt; eauto).
  assert (H0 : (forall q, q <> old -> get_obj c0 q = get_obj c q)
               /\ get_obj c0 old = (if refcnt oldob =? 1 then None
                                    else Some (set_refcnt (refcnt oldob - 1) oldob))
               /\ stack c0 = stack c).
  { unfold c0. destruct (Z.eqb_spec (refcnt oldob - 1) 0) as [E|E].
    - split; [|split; [|reflexivity]].
      + intros q Hq. unfold get_obj, pdfi_free_object. cbn [heap set_heap].
        rewrite list_lookup_insert_ne by auto. reflexivity.
      + destruct (Z.eqb_spec (refcnt oldob) 1); [|lia].
        unfold get_obj, pdfi_free_object. cbn [heap set_heap].
        rewrite list_lookup_insert_eq by exact Hlold. reflexivity.
    - split; [|split; [|reflexivity]].
      + intros q Hq. apply get_obj_put_obj_ne. auto.
      + destruct (Z.eqb_spec (refcnt oldob) 1); [lia|].
        apply (get_obj_put_obj_eq _ _ _ _ Hold). }
  clearbody c0. destruct H0 as (Hf0 & Ho0 & Hs0).
  assert (Ha0 : get_obj c0 a = Some aob) by (rewrite Hf0 by auto; exact Ha).
  assert (Hobj0 : get_obj c0 obj = Some oob) by (rewrite Hf0 by auto; exact Hobj).
  rewrite Ha0, Hobj0. unfold set_array_value. rewrite Ha0.
  set (aob1 := set_slots (size aob) (entries aob) (keys aob)
                 (<[Z.to_nat index := Some obj]> (values aob)) aob).
  assert (Hobj1 : get_obj (put_obj a aob1 c0) obj = Some oob).
  { rewrite get_obj_put_obj_ne by auto. rewrite Hf0 by auto. exact Hobj. }
  rewrite (pdfi_countup_get _ _ _ Hobj1).
  set (c1 := put_obj obj (set_refcnt (refcnt oob + 1) oob) (put_obj a aob1 c0)).
  assert (Ha1 : get_obj c1 a = Some aob1).
  { unfold c1. rewrite get_obj_put_obj_ne by auto. apply (get_obj_put_obj_eq _ _ _ _ Ha0). }
  assert (Ho1 : get_obj c1 obj = Some (set_refcnt (refcnt oob + 1) oob)).
  { apply (get_obj_put_obj_eq _ _ _ _ Hobj1). }
  assert (Hv1 : values aob1 !! Z.to_nat index = Some (Some obj)).
  { unfold aob1. cbn [values set_slots]. apply list_lookup_insert_eq.
    eapply lookup_lt_Some; eauto. }
  exists c1, aob1.
  split; [reflexivity|]. split; [exact Ha1|].
  split; [reflexivity|]. split; [reflexivity|]. split; [exact Hta|].
  split; [reflexivity|]. split; [exact Ho1|].
  split.
  { unfold c1. rewrite !get_obj_put_obj_ne by auto. exact Ho0. }
  split.
  { intros q Hqa Hqo Hqold. unfold c1. rewrite !get_obj_put_obj_ne by auto.
    apply Hf0. exact Hqold. }
  exact Hs0.
Qed.


(** pdfi_array_put stores an object into a slot of an array: the object
    gains the reference of the array, the object that was in the slot loses
    it (and is freed when that was its last reference), and nothing else
    changes.  pdfi_array_get_no_deref then returns the object that was put
    and adds the reference of the caller. *)
Theorem pdfi_array_put_get (c : pdf_context) (a : nat) (index : Z) (obj old : nat)
    (aob oldob oob : pdf_obj) :
  get_obj c a = Some aob -> type aob = PDF_ARRAY ->
  0 <= index < size aob ->
  values aob !! Z.to_nat index = Some (Some old) ->
  get_obj c old = Some oldob -> old <> a ->
  refcnt oldob <> 1 \/ (type oldob <> PDF_ARRAY /\ type oldob <> PDF_DICT) ->
  get_obj c obj = Some oob -> obj <> a -> obj <> old ->
  exists c1 c2 aob1,
    pdfi_array_put c a index obj = (0, c1)
    /\ get_obj c1 a = Some aob1
    /\ values aob1 = <[Z.to_nat index := Some obj]> (values aob)
    /\ size aob1 = size aob /\ type aob1 = PDF_ARRAY /\ refcnt aob1 = refcnt aob
    /\ get_obj c1 obj = Some (set_refcnt (refcnt oob + 1) oob)
    /\ get_obj c1 old = (if refcnt oldob =? 1 then None
                         else Some (set_refcnt (refcnt oldob - 1) oldob))
    /\ (forall q, q <> a -> q <> obj -> q <> old -> get_obj c1 q = get_obj c q)
    /\ stack c1 = stack c
    /\ pdfi_array_get_no_deref c1 a index = (0, c2, Some obj)
    /\ get_obj c2 obj = Some (set_refcnt (refcnt oob + 2) oob).
Proof.
  intros Ha Hta Hi Hv Hold Hoa Hsimple Hobj Hna Hno.
  destruct (pdfi_array_put_spec c a index obj old aob oldob oob
              Ha Hta Hi Hv Hold Hoa Hsimple Hobj Hna Hno)
    as (c1 & aob1 & H1 & H2 & H3 & H4 & H5 & H6 & H7 & H8 & H9 & H10).
  exists c1, (pdfi_countup obj c1), aob1.
  split; [exact H1|]. split; [exact H2|]. split; [exact H3|]. split; [exact H4|].
  split; [exact H5|]. split; [exact H6|]. split; [exact H7|]. split; [exact H8|].
  split; [exact H9|]. split; [exact H10|].
  split.
  - unfold pdfi_array_get_no_deref. rewrite H2, H5. cbn [pdf_obj_type_eqb negb].
    rewrite H4, H3. rewrite Z.geb_leb. destruct (Z.leb_spec (size aob) index); [lia|].
    rewrite list_lookup_insert_eq by (eapply lookup_lt_Some; eauto). reflexivity.
  - rewrite (pdfi_countup_get _ _ _ H7).
    rewrite (get_obj_put_obj_eq _ _ _ _ H7). cbn [refcnt set_refcnt].
    f_equal. unfold set_refcnt. cbn. f_equal. lia.
Qed.

(** pdfi_array_put releases the object of the slot before it takes the
    reference to the new one.  Putting into a slot the object it already
    holds leaves the reference count of a shared object as it was; when the
    array has the only reference to the object, the release frees it and the
    count-up that follows is applied to the freed object: the call is not
    defined there, and the model stops with the object freed. *)
Theorem pdfi_array_put_same_object (c : pdf_context) (a : nat) (index : Z) (obj : nat)
    (aob oob : pdf_obj) :
  get_obj c a = Some aob -> type aob = PDF_ARRAY ->
  0 <= index < size aob ->
  values aob !! Z.to_nat index = Some (Some obj) ->
  get_obj c obj = Some oob -> obj <> a ->
  (refcnt oob <> 1 ->
   exists c1 aob1,
     pdfi_array_put c a index obj = (0, c1)
     /\ get_obj c1 a = Some aob1
     /\ values aob1 = values aob
     /\ get_obj c1 obj = Some oob
     /\ (forall q, q <> a -> get_obj c1 q = get_obj c q))
  /\ (refcnt oob = 1 -> type oob <> PDF_ARRAY -> type oob <> PDF_DICT ->
      exists c1,
        pdfi_array_put c a index obj = (model_undefined_behaviour, c1)
        /\ get_obj c1 obj = None
        /\ get_obj c1 a = Some aob).
Proof.
  intros Ha Hta Hi Hv Hobj Hna.
  assert (Hge : (index >=? size aob) = false).
  { rewrite Z.geb_leb. apply Z.leb_gt. lia. }
  assert (Hl : (obj < length (heap c))%nat) by (eapply get_obj_lt; eauto).
  split.
  - intros Hshared.
    unfold pdfi_array_put. rewrite Ha, Hta. cbn [pdf_obj_type_eqb negb].
    rewrite Hge, Hv.
    rewrite (pdfi_countdown_simple c obj oob Hobj (or_introl Hshared)).
    destruct (Z.eqb_spec (refcnt oob - 1) 0) as [E|E]; [lia|].
    set (c0 := put_obj obj (set_refcnt (refcnt oob - 1) oob) c).
    assert (Ha0 : get_obj c0 a = Some aob).
    { unfold c0. rewrite get_obj_put_obj_ne by auto. exact Ha. }
    assert (Ho0 : get_obj c0 obj = Some (set_refcnt (refcnt oob - 1) oob)).
    { apply (get_obj_put_obj_eq _ _ _ _ Hobj). }
    rewrite Ha0, Ho0. unfold set_array_value. rewrite Ha0.
    set (aob1 := set_slots (size aob) (entries aob) (keys aob)
                   (<[Z.to_nat index := Some obj]> (values aob)) aob).
    assert (Ho1 : get_obj (put_obj a aob1 c0) obj
                  = Some (set_refcnt (refcnt oob - 1) oob)).
    { rewrite get_obj_put_obj_ne by auto. exact Ho0. }
    rewrite (pdfi_countup_get _ _ _ Ho1).
    eexists _, aob1. split; [reflexivity|].
    split.
    { rewrite get_obj_put_obj_ne by auto. apply (get_obj_put_obj_eq _ _ _ _ Ha0). }
    split.
    { unfold aob1. cbn [values set_slots]. apply list_insert_id. exact Hv. }
    split.
    { rewrite (get_obj_put_obj_eq _ _ _ _ Ho1).
      f_equal. destruct oob as [t0 r0 n0 g0 v0 d0 k0 s0 e0 ks0 vs0 so0 rn0 rg0].
      unfold set_refcnt. cbn. f_equal. lia. }
    intros q Hqa.
    destruct (Nat.eq_dec q obj) as [->|Hqo].
    + rewrite (get_obj_put_obj_eq _ _ _ _ Ho1), Hobj.
      f_equal. destruct oob as [t0 r0 n0 g0 v0 d0 k0 s0 e0 ks0 vs0 so0 rn0 rg0].
      unfold set_refcnt. cbn. f_equal. lia.
    + rewrite !get_obj_put_obj_ne by auto. unfold c0.
      rewrite get_obj_put_obj_ne by auto. reflexivity.
  - intros Hsole Hnarr Hndict.
    unfold pdfi_array_put. rewrite Ha, Hta. cbn [pdf_obj_type_eqb negb].
    rewrite Hge, Hv.
    rewrite (pdfi_countdown_simple c obj oob Hobj (or_intror (conj Hnarr Hndict))).
    destruct (Z.eqb_spec (refcnt oob - 1) 0) as [E|E]; [|lia].
    assert (Ha0 : get_obj (pdfi_free_object obj c) a = Some aob).
    { unfold get_obj, pdfi_free_object. cbn [heap set_heap].
      rewrite list_lookup_insert_ne by auto. exact Ha. }
    assert (Ho0 : get_obj (pdfi_free_object obj c) obj = None).
    { unfold get_obj, pdfi_free_object. cbn [heap set_heap].
      rewrite list_lookup_insert_eq by exact Hl. reflexivity. }
    rewrite Ha0, Ho0.
    exists (pdfi_free_object obj c). auto.
Qed.

Ltac eval_obj c p H :=
  let v := eval vm_compute in (get_obj c p) in
  assert (H : get_obj c p = v) by (vm_compute; reflexivity).

Ltac differ := let X := fresh in intro X; discriminate X.

Lemma pdfi_array_put_get_witness :
  exists c1 c2,
    pdfi_array_put array_context 3 0 2 = (0, c1)
    /\ get_obj c1 1 = None
    /\ pdfi_array_get_no_deref c1 3 0 = (0, c2, Some 2%nat)
    /\ option_map refcnt (get_obj c2 2) = Some 3.
Proof.
  eval_obj array_context 3%nat Ha.
  eval_obj array_context 1%nat Hold.
  eval_obj array_context 2%nat Hobj.
  destruct (pdfi_array_put_get array_context 3 0 2 1 _ _ _
              Ha eq_refl ltac:(cbn; lia) eq_refl Hold
              ltac:(lia) ltac:(right; split; differ) Hobj
              ltac:(lia) ltac:(lia))
    as (c1 & c2 & aob1 & H1 & _ & _ & _ & _ & _ & _ & H2 & _ & _ & H3 & H4).
  exists c1, c2. split; [exact H1|]. split; [exact H2|]. split; [exact H3|].
  rewrite H4. reflexivity.
Defined.

Lemma pdfi_array_put_same_object_witness :
  exists c1,
    pdfi_array_put array_context 3 0 1 = (model_undefined_behaviour, c1)
    /\ get_obj c1 1 = None.
Proof.
  eval_obj array_context 3%nat Ha.
  eval_obj array_context 1%nat Hobj.
  destruct (proj2 (pdfi_array_put_same_object array_context 3 0 1 _ _
                     Ha eq_refl ltac:(cbn; lia) eq_refl Hobj ltac:(lia))
              eq_refl ltac:(differ) ltac:(differ)) as (c1 & H1 & H2 & _).
  exists c1. split; [exact H1|exact H2].
Defined.

Section ArrayReads.

Variable deref : deref_fn.

(** pdfi_array_get_type on a slot that holds a direct object: an object of
    the type asked for is returned with one more reference; for an object
    of another type the result is gs_error_typecheck, no object is
    returned, and the reference taken for the caller has been released, so
    that nothing has changed. *)
Theorem pdfi_array_get_type_direct (c : pdf_context) (a : nat) (index : Z)
    (t : pdf_obj_type) (aob pob : pdf_obj) (p : nat) :
  get_obj c a = Some aob -> type aob = PDF_ARRAY ->
  0 <= index < size aob ->
  values aob !! Z.to_nat index = Some (Some p) ->
  get_obj c p = Some pob -> type pob <> PDF_INDIRECT -> refcnt pob <> 0 ->
  (type pob = t ->
   pdfi_array_get_type deref c a index t = (0, pdfi_countup p c, Some p)
   /\ get_obj (pdfi_countup p c) p = Some (set_refcnt (refcnt pob + 1) pob))
  /\ (type pob <> t ->
      pdfi_array_get_type deref c a index t = (gs_error_typecheck, c, None)).
Proof.
  intros Ha Hta Hi Hv Hp Htp Hrc.
  assert (Hp1 : get_obj (pdfi_countup p c) p = Some (set_refcnt (refcnt pob + 1) pob)).
  { rewrite (pdfi_countup_get _ _ _ Hp). apply (get_obj_put_obj_eq _ _ _ _ Hp). }
  unfold pdfi_array_get_type, pdfi_array_get.
  rewrite (pdfi_array_fetch_direct deref c a index true aob p pob Ha Hta Hi Hv Hp Htp).
  cbn [Z.ltb Z.compare]. rewrite Hp1. cbn [type set_refcnt].
  split.
  - intros <-. rewrite pdf_obj_type_eqb_refl. cbn [negb]. auto.
  - intros Hne. rewrite (pdf_obj_type_eqb_neq _ _ Hne). cbn [negb].
    rewrite (pdfi_countdown_countup c p pob Hp Hrc). reflexivity.
Qed.

(** pdfi_array_known visits the slots of an array from the first and
    compares object numbers only: for an array of direct objects it returns
    true and the index of the first element whose object number is that of
    the object looked for, and false if there is none, and it leaves every
    reference count as it was.  For an object that is not an array it
    returns the error code gs_error_typecheck, which is not 0. *)
Theorem pdfi_array_known_first (c : pdf_context) (a o : nat) (aob oob : pdf_obj)
    (ps : list nat) :
  get_obj c a = Some aob -> get_obj c o = Some oob ->
  (type aob <> PDF_ARRAY ->
   pdfi_array_known deref c a o = (gs_error_typecheck, None, c))
  /\ (type aob = PDF_ARRAY ->
      values aob = map Some ps -> size aob = Z.of_nat (length ps) ->
      size aob < 2 ^ 31 ->
      Forall (fun p => exists ob, get_obj c p = Some ob /\ type ob <> PDF_INDIRECT
                                  /\ refcnt ob <> 0) ps ->
      pdfi_array_known deref c a o
      = match first_numbered c (object_num oob) 0 ps with
        | Some i => (1, Some i, c)
        | None => (0, None, c)
        end).
Proof.
  intros Ha Ho. unfold pdfi_array_known. rewrite Ha, Ho.
  split.
  - intros Hne. rewrite (pdf_obj_type_eqb_neq _ _ Hne). reflexivity.
  - intros Hta Hvals Hsize Hint Hall.
    rewrite Hta. cbn [pdf_obj_type_eqb negb].
    rewrite Hsize, Nat2Z.id.
    assert (Hloop : forall rest pre,
      ps = pre ++ rest ->
      pdfi_array_known_loop deref (length rest) (Z.of_nat (length pre)) c a (object_num oob)
      = match first_numbered c (object_num oob) (Z.of_nat (length pre)) rest with
        | Some i => (1, Some i, c)
        | None => (0, None, c)
        end).
    { induction rest as [|p rest IH]; intros pre Hps; [reflexivity|].
      assert (Hp : exists ob, get_obj c p = Some ob /\ type ob <> PDF_INDIRECT
                              /\ refcnt ob <> 0).
      { rewrite Forall_forall in Hall. apply Hall. rewrite Hps.
        apply list_elem_of_In, in_or_app. right. left. reflexivity. }
      destruct Hp as (ob & Hp & Htp & Hrc).
      assert (Hidx : 0 <= Z.of_nat (length pre) < size aob).
      { rewrite Hsize, Hps, length_app. cbn [length]. lia. }
      assert (Hv : values aob !! Z.to_nat (Z.of_nat (length pre)) = Some (Some p)).
      { rewrite Nat2Z.id, Hvals, Hps, map_app.
        rewrite lookup_app_r by (rewrite length_map; lia).
        rewrite length_map, Nat.sub_diag. reflexivity. }
      cbn [length pdfi_array_known_loop first_numbered].
      destruct (Z.gtb_spec (Z.of_nat (length pre)) (2 ^ 31 - 1)); [lia|].
      rewrite (pdfi_array_fetch_direct deref c a _ true aob p ob Ha Hta Hidx Hv Hp Htp).
      cbn [Z.eqb Z.ltb Z.compare orb model_undefined_behaviour model_out_of_fuel].
      rewrite (pdfi_countup_get _ _ _ Hp), (get_obj_put_obj_eq _ _ _ _ Hp).
      cbn [object_num set_refcnt]. rewrite Hp.
      rewrite <- (pdfi_countup_get _ _ _ Hp).
      rewrite (pdfi_countdown_countup c p ob Hp Hrc).
      destruct (object_num ob =? object_num oob); [reflexivity|].
      specialize (IH (pre ++ [p])).
      rewrite length_app in IH. cbn [length] in IH.
      replace (Z.of_nat (length pre + 1)) with (Z.of_nat (length pre) + 1) in IH by lia.
      apply IH. rewrite <- app_assoc. exact Hps. }
    apply (Hloop ps []). reflexivity.
Qed.

End ArrayReads.

Lemma pdfi_array_get_type_direct_witness :
  pdfi_array_get_type (fun c _ _ => (gs_error_undefined, c, None)) array_context 3 0 PDF_NAME
  = (gs_error_typecheck, array_context, None).
Proof.
  eval_obj array_context 3%nat Ha.
  eval_obj array_context 1%nat Hp.
  apply (proj2 (pdfi_array_get_type_direct (fun c _ _ => (gs_error_undefined, c, None))
                  array_context 3 0 PDF_NAME _ _ 1
                  Ha eq_refl ltac:(cbn; lia) eq_refl Hp ltac:(differ) ltac:(cbn; lia))).
  differ.
Defined.

Lemma pdfi_array_known_first_witness :
  pdfi_array_known (fun c _ _ => (gs_error_undefined, c, None)) array_context 3 2
  = (1, Some 0, array_context).
Proof.
  eval_obj array_context 3%nat Ha.
  eval_obj array_context 1%nat H1.
  eval_obj array_context 2%nat H2.
  assert (Hall : Forall (fun p => exists ob, get_obj array_context p = Some ob
                                   /\ type ob <> PDF_INDIRECT /\ refcnt ob <> 0)
                   [1%nat; 2%nat]).
  { constructor; [eexists; split; [exact H1|split; [differ|cbn; lia]]|].
    constructor; [eexists; split; [exact H2|split; [differ|cbn; lia]]|].
    constructor. }
  pose proof (proj2 (pdfi_array_known_first (fun c _ _ => (gs_error_undefined, c, None))
                       array_context 3 2 _ _ [1%nat; 2%nat] Ha H2)
                eq_refl eq_refl eq_refl ltac:(cbn; lia) Hall) as H.
  cbn [first_numbered] in H. rewrite H1 in H. exact H.
Defined.

Section ArrayIntegers.

Variable deref : deref_fn.

(** pdfi_array_put_int followed by pdfi_array_get_int at the same index
    gives the integer back.  The integer object made by pdfi_array_put_int
    is held by the array alone, with reference count 1, and
    pdfi_array_get_int leaves every reference count as it found it. *)
Theorem pdfi_array_put_int_get_int (c : pdf_context) (a : nat) (index val : Z)
    (old : nat) (aob oldob : pdf_obj) :
  get_obj c a = Some aob -> type aob = PDF_ARRAY ->
  0 <= index < size aob ->
  values aob !! Z.to_nat index = Some (Some old) ->
  get_obj c old = Some oldob -> old <> a ->
  refcnt oldob <> 1 \/ (type oldob <> PDF_ARRAY /\ type oldob <> PDF_DICT) ->
  exists c1 ob,
    pdfi_array_put_int c a index val = (0, c1)
    /\ get_obj c1 (length (heap c)) = Some ob
    /\ type ob = PDF_INT /\ value_i ob = val /\ refcnt ob = 1
    /\ pdfi_array_get_int deref c1 a index = (0, c1, Some val).
Proof.
  intros Ha Hta Hi Hv Hold Hoa Hsimple.
  pose proof (get_obj_lt _ _ _ Ha) as Hal.
  pose proof (get_obj_lt _ _ _ Hold) as Holdl.
  unfold pdfi_array_put_int. rewrite Ha, Hta. cbn [pdf_obj_type_eqb negb].
  destruct (pdfi_alloc_object_fresh c PDF_INT 0) as (ob0 & Halloc & Ht0 & Hrc0 & _).
  rewrite Halloc.
  set (p := length (heap c)) in *.
  set (c1 := set_heap (heap c ++ [Some ob0]) c).
  assert (Hg1 : get_obj c1 p = Some ob0) by apply get_obj_set_heap_app.
  rewrite Hg1. cbn [Z.ltb Z.compare].
  set (ob1 := set_value_i val ob0).
  set (c2 := put_obj p ob1 c1).
  assert (Hkeep : forall q ob, get_obj c q = Some ob -> get_obj c2 q = Some ob).
  { intros q ob Hq. pose proof (get_obj_lt _ _ _ Hq) as Hl.
    unfold c2. rewrite get_obj_put_obj_ne by (unfold p; lia).
    unfold get_obj, c1 in *. cbn [heap set_heap]. rewrite lookup_app_l by lia. exact Hq. }
  destruct (pdfi_array_put_spec c2 a index p old aob oldob ob1)
    as (c3 & aob1 & H1 & H2 & H3 & H4 & H5 & H6 & H7 & H8 & H9 & H10);
    auto; try (unfold p; lia).
  { apply (get_obj_put_obj_eq _ _ _ _ Hg1). }
  rewrite H1. exists c3, (set_refcnt (refcnt ob1 + 1) ob1).
  split; [reflexivity|]. split; [exact H7|].
  unfold ob1. cbn [type value_i refcnt set_refcnt set_value_i]. rewrite Hrc0.
  split; [exact Ht0|]. split; [reflexivity|]. split; [reflexivity|].
  assert (Hidx : 0 <= index < size aob1) by (rewrite H4; exact Hi).
  assert (Hv1 : values aob1 !! Z.to_nat index = Some (Some p)).
  { rewrite H3. apply list_lookup_insert_eq. eapply lookup_lt_Some; eauto. }
  assert (Htp : type (set_refcnt (refcnt ob1 + 1) ob1) <> PDF_INDIRECT).
  { unfold ob1. cbn [type set_refcnt set_value_i]. rewrite Ht0. discriminate. }
  unfold pdfi_array_get_int, pdfi_array_get_type, pdfi_array_get.
  rewrite (pdfi_array_fetch_direct deref c3 a index true aob1 p _ H2 H5 Hidx Hv1 H7 Htp).
  cbn [Z.ltb Z.compare].
  rewrite (pdfi_countup_get _ _ _ H7), (get_obj_put_obj_eq _ _ _ _ H7).
  cbn [type set_refcnt]. unfold ob1 at 1. cbn [type set_value_i]. rewrite Ht0.
  cbn [pdf_obj_type_eqb negb Z.ltb Z.compare].
  rewrite (get_obj_put_obj_eq _ _ _ _ H7).
  rewrite <- (pdfi_countup_get _ _ _ H7).
  rewrite (pdfi_countdown_countup c3 p _ H7).
  - reflexivity.
  - cbn [refcnt set_refcnt]. unfold ob1. cbn [refcnt set_value_i]. rewrite Hrc0. lia.
Qed.

End ArrayIntegers.

Lemma pdfi_array_put_int_get_int_witness :
  exists c1,
    pdfi_array_put_int array_context 3 1 (-7) = (0, c1)
    /\ pdfi_array_get_int (fun c _ _ => (gs_error_undefined, c, None)) c1 3 1
       = (0, c1, Some (-7)).
Proof.
  eval_obj array_context 3%nat Ha.
  eval_obj array_context 2%nat Hold.
  destruct (pdfi_array_put_int_get_int (fun c _ _ => (gs_error_undefined, c, None))
              array_context 3 1 (-7) 2 _ _
              Ha eq_refl ltac:(cbn; lia) eq_refl Hold ltac:(lia)
              ltac:(right; split; differ))
    as (c1 & ob & H1 & _ & _ & _ & _ & H2).
  exists c1. split; assumption.
Defined.

(** *** Words that do not fit *)

(** The loop of pdfi_read_keyword stops after the byte that fills the
    buffer. *)
Lemma pdfi_read_keyword_loop_full sel :
  forall kw pfx c fuel rest,
    0 <= s_pos (get_stream sel c) ->
    stream_rest (get_stream sel c) = kw ++ rest ->
    forallb regular_byte kw = true ->
    kw <> [] ->
    (length pfx + length kw = 255)%nat ->
    (length kw <= fuel)%nat ->
    exists stm,
      pdfi_read_keyword_loop fuel sel c pfx = (0, put_stream sel stm c, pfx ++ kw)
      /\ stream_rest stm = rest /\ 0 <= s_pos stm.
Proof.
  induction kw as [|b kw IH]; intros pfx c fuel rest Hp Hr Hk Hne Hlen Hfuel;
    [congruence|].
  destruct fuel as [|fuel]; [simpl in Hfuel; lia|].
  simpl in Hk. apply andb_true_iff in Hk. destruct Hk as [Hb Hk].
  unfold regular_byte in Hb. apply andb_true_iff in Hb.
  rewrite !negb_true_iff in Hb. destruct Hb as [Hw Hd].
  simpl in Hr, Hlen, Hfuel.
  destruct (pdfi_read_byte_cons _ _ _ _ Hp Hr) as (stm & Hrb & Hrest & Heof & Hpos).
  cbn [pdfi_read_keyword_loop]. rewrite Hrb. cbn [Z.ltb Z.gtb Z.compare].
  rewrite Hw, Hd.
  destruct kw as [|b' kw'].
  - assert (Hfit : (Z.of_nat (length (pfx ++ [b])) <? 255) = false).
    { apply Z.ltb_ge. rewrite length_app. simpl in *. lia. }
    rewrite Hfit. exists stm. auto.
  - assert (Hfit : (Z.of_nat (length (pfx ++ [b])) <? 255) = true).
    { apply Z.ltb_lt. rewrite length_app. simpl in *. lia. }
    rewrite Hfit.
    destruct (IH (pfx ++ [b]) (put_stream sel stm c) fuel rest) as (stm' & Hl & Hr' & Hp');
      rewrite ?get_put_stream; auto; try discriminate.
    { rewrite length_app. simpl in *. lia. }
    { simpl in *. lia. }
    exists stm'. rewrite Hl, put_put_stream, <- app_assoc. auto.
Qed.

(** The end of pdfi_read_keyword on a word of no byte or of 255 bytes. *)
Lemma pdfi_read_keyword_invalid sel c stm0 stm Buffer :
  skip_white sel c = (0, put_stream sel stm0 c) ->
  pdfi_read_keyword_loop 256 sel (put_stream sel stm0 c) []
    = (0, put_stream sel stm c, Buffer) ->
  length Buffer = 0%nat \/ length Buffer = 255%nat ->
  (pdfstoponerror c = true ->
   pdfi_read_keyword sel c = (gs_error_syntaxerror, put_stream sel stm c))
  /\ (pdfstoponerror c = false ->
      exists c' p ob,
        pdfi_read_keyword sel c = (0, c') /\ stack c' = p :: stack c
        /\ get_obj c' p = Some ob /\ type ob = PDF_KEYWORD /\ refcnt ob = 1
        /\ data ob = bytes_of_string "KEYWORD_TOO_LONG" /\ key ob = PDF_INVALID_KEY
        /\ get_stream sel c' = stm).
Proof.
  intros Hsk Hloop Hlen.
  assert (Hlong : (Z.of_nat (length Buffer) >=? 255) || (Z.of_nat (length Buffer) =? 0) = true).
  { destruct Hlen as [-> | ->]; reflexivity. }
  unfold pdfi_read_keyword. rewrite Hsk, Hloop. cbn [Z.ltb Z.compare].
  rewrite Hlong, pdfstoponerror_put_stream. cbn [andb].
  split.
  - intros ->. reflexivity.
  - intros ->.
    set (ktl := bytes_of_string "KEYWORD_TOO_LONG").
    destruct (pdfi_alloc_object_fresh (put_stream sel stm c) PDF_KEYWORD (Z.of_nat (length ktl)))
      as (ob0 & Ha & Ht & Hrc & _).
    rewrite Ha. cbn [Z.ltb Z.compare]. rewrite get_obj_set_heap_app.
    set (k := length (heap (put_stream sel stm c))).
    set (c2 := set_heap (heap (put_stream sel stm c) ++ [Some ob0]) (put_stream sel stm c)).
    assert (Hg2 : get_obj c2 k = Some ob0) by apply get_obj_set_heap_app.
    assert (Hg2' : get_obj (put_obj k (set_data ktl ob0) c2) k = Some (set_data ktl ob0))
      by apply (get_obj_put_obj_eq _ _ _ _ Hg2).
    rewrite (pdfi_countup_get _ _ _ Hg2').
    change (bytes_eqb ktl (bytes_of_string "KEYWORD_TOO_LONG")) with true. cbv iota.
    set (c3 := put_obj k (set_refcnt (refcnt (set_data ktl ob0) + 1) (set_data ktl ob0))
                 (put_obj k (set_data ktl ob0) c2)).
    assert (Hg3 : get_obj c3 k = Some (set_refcnt (refcnt (set_data ktl ob0) + 1)
                                         (set_data ktl ob0)))
      by apply (get_obj_put_obj_eq _ _ _ _ Hg2').
    set (kwob := set_key PDF_INVALID_KEY
                   (set_refcnt (refcnt (set_data ktl ob0) + 1) (set_data ktl ob0))).
    assert (Hkt : type kwob = PDF_KEYWORD) by exact Ht.
    assert (Hkr : refcnt kwob = 1).
    { unfold kwob. cbn [refcnt set_key set_refcnt set_data]. rewrite Hrc. reflexivity. }
    destruct (pdfi_read_keyword_finish k (set_keyword_key k PDF_INVALID_KEY c3) kwob
                (get_obj_set_keyword_key k PDF_INVALID_KEY c3 _ Hg3) Hkt Hkr)
      as (c' & Hfin & Hst & Hg & Hm & Hcs & Her).
    rewrite Hfin. eexists c', k, _.
    split; [reflexivity|].
    destruct (set_keyword_key_frame k PDF_INVALID_KEY c3) as (F1 & F2 & F3 & F4).
    split.
    { rewrite Hst, F1. unfold c3, c2. cbn [stack put_obj set_heap].
      rewrite stack_put_stream. reflexivity. }
    split; [exact Hg|].
    split; [exact Hkt|]. split; [exact Hkr|].
    split; [reflexivity|]. split; [reflexivity|].
    rewrite (get_stream_eq sel _ c' Hm Hcs).
    rewrite (get_stream_eq sel c3 _ F2 F3).
    unfold c3, c2.
    transitivity (get_stream sel (put_stream sel stm c));
      [destruct sel; reflexivity|apply get_put_stream].
Qed.

(** pdfi_read_keyword reads at most 255 bytes of a word.  On a word of 255
    regular bytes or more it stops after the 255th, whatever follows: with
    stop-on-error set the result is gs_error_syntaxerror and nothing is
    pushed; otherwise the keyword pushed holds the text KEYWORD_TOO_LONG
    and the invalid key, not the bytes read.  In both cases the stream is
    left at the 256th byte of the word. *)
Theorem pdfi_read_keyword_overflow (sel : stream_sel) (c : pdf_context)
    (kw rest : list Z) :
  0 <= s_pos (get_stream sel c) ->
  stream_rest (get_stream sel c) = kw ++ rest ->
  forallb regular_byte kw = true ->
  length kw = 255%nat ->
  (pdfstoponerror c = true ->
   exists c', pdfi_read_keyword sel c = (gs_error_syntaxerror, c')
              /\ stack c' = stack c /\ heap c' = heap c
              /\ stream_rest (get_stream sel c') = rest)
  /\ (pdfstoponerror c = false ->
      exists c' p ob,
        pdfi_read_keyword sel c = (0, c') /\ stack c' = p :: stack c
        /\ get_obj c' p = Some ob /\ type ob = PDF_KEYWORD /\ refcnt ob = 1
        /\ data ob = bytes_of_string "KEYWORD_TOO_LONG" /\ key ob = PDF_INVALID_KEY
        /\ stream_rest (get_stream sel c') = rest).
Proof.
  intros Hp Hr Hk Hlen.
  destruct kw as [|b kw'] eqn:Ekw; [discriminate|].
  assert (Hw : iswhite b = false).
  { simpl in Hk. apply andb_true_iff in Hk. destruct Hk as [Hb _].
    unfold regular_byte in Hb. apply andb_true_iff in Hb.
    rewrite !negb_true_iff in Hb. tauto. }
  destruct (skip_white_not_white sel c b (kw' ++ rest)) as (stm0 & Hsk & Hr0 & Hp0); auto.
  destruct (pdfi_read_keyword_loop_full sel (b :: kw') [] (put_stream sel stm0 c) 256 rest)
    as (stm & Hloop & Hrest & Hpos); rewrite ?get_put_stream; auto;
    try discriminate; try (cbn [length] in *; lia).
  rewrite put_put_stream in Hloop. cbn [app] in Hloop.
  destruct (pdfi_read_keyword_invalid sel c stm0 stm (b :: kw') Hsk Hloop) as [Hstop Hgo];
    [right; exact Hlen|].
  split.
  - intros Hs. exists (put_stream sel stm c). split; [apply Hstop; exact Hs|].
    rewrite stack_put_stream, heap_put_stream, get_put_stream. auto.
  - intros Hs. destruct (Hgo Hs) as (c' & p & ob & H1 & H2 & H3 & H4 & H5 & H6 & H7 & H8).
    exists c', p, ob. rewrite H8. auto 10.
Qed.

Lemma pdfi_read_keyword_overflow_witness :
  exists c' p ob,
    pdfi_read_keyword MAIN_STREAM (new_context false (repeat (ch "a") 255 ++ [ch "b"]))
    = (0, c')
    /\ stack c' = p :: []
    /\ get_obj c' p = Some ob /\ type ob = PDF_KEYWORD /\ refcnt ob = 1
    /\ data ob = bytes_of_string "KEYWORD_TOO_LONG" /\ key ob = PDF_INVALID_KEY
    /\ stream_rest (get_stream MAIN_STREAM c') = [ch "b"].
Proof.
  apply (proj2 (pdfi_read_keyword_overflow MAIN_STREAM
                  (new_context false (repeat (ch "a") 255 ++ [ch "b"]))
                  (repeat (ch "a") 255) [ch "b"]
                  ltac:(simpl; lia) ltac:(vm_compute; reflexivity)
                  ltac:(vm_compute; reflexivity) ltac:(vm_compute; reflexivity))).
  reflexivity.
Defined.

(** *** A number with no white space after it *)

(** The loop of pdfi_read_num over the bytes of a number that is not
    malformed. *)
Lemma pdfi_read_num_loop_prefix sel rest sfx :
  forall pfx c fuel,
    0 <= s_pos (get_stream sel c) ->
    stream_rest (get_stream sel c) = sfx ++ rest ->
    forallb starts_number sfx = true ->
    malformed_number (pfx ++ sfx) = false ->
    Z.of_nat (length pfx) + Z.of_nat (length sfx) <= 255 ->
    exists stm,
      stream_rest stm = rest /\ 0 <= s_pos stm
      /\ pdfi_read_num_loop (length sfx + fuel) sel c pfx (has_point pfx) false
         = pdfi_read_num_loop fuel sel (put_stream sel stm c) (pfx ++ sfx)
             (has_point (pfx ++ sfx)) false.
Proof.
  induction sfx as [|b sfx IH]; intros pfx c fuel Hp Hr Hn Hm Hlen.
  - exists (get_stream sel c). rewrite app_nil_r, put_get_stream. auto.
  - simpl in Hn. apply andb_true_iff in Hn. destruct Hn as [Hb Hn].
    simpl in Hr, Hlen.
    destruct (pdfi_read_num_loop_step sel c (length sfx + fuel) pfx (has_point pfx) false
                b (sfx ++ rest) Hp Hr Hb)
      as (stm & Hrest & Hpos & Hstep).
    assert (Hm1 : malformed_number (pfx ++ [b]) = false).
    { destruct (malformed_number (pfx ++ [b])) eqn:E; [|reflexivity].
      exfalso. revert Hm. change (b :: sfx) with ([b] ++ sfx). rewrite app_assoc.
      clear - E. revert E. generalize (pfx ++ [b]). intros l E.
      induction sfx as [|x sfx IHs] using rev_ind.
      - rewrite app_nil_r. congruence.
      - rewrite app_assoc, malformed_number_app.
        destruct (malformed_number (l ++ sfx)); [discriminate|]. tauto. }
    rewrite malformed_number_app in Hm1. apply orb_false_iff in Hm1.
    destruct Hm1 as [_ Hm1].
    cbn [length Nat.add]. rewrite Hstep, Hm1. cbn [andb orb].
    assert (Hfit : (Z.of_nat (length pfx) + 1 >? 255) = false).
    { rewrite Z.gtb_ltb. apply Z.ltb_ge. lia. }
    rewrite Hfit.
    rewrite <- has_point_app.
    destruct (IH (pfx ++ [b]) (put_stream sel stm c) fuel)
      as (stm' & Hrest' & Hpos' & Hloop);
      rewrite ?get_put_stream; auto.
    { rewrite <- app_assoc. exact Hm. }
    { rewrite length_app. simpl. lia. }
    exists stm'. rewrite Hloop, put_put_stream, <- app_assoc. auto.
Qed.

(** The iteration of pdfi_read_num that meets a byte which neither
    continues nor properly ends the number. *)
Lemma pdfi_read_num_loop_other sel c fuel Buffer real malformed b rest :
  0 <= s_pos (get_stream sel c) ->
  stream_rest (get_stream sel c) = b :: rest ->
  starts_number b = false -> iswhite b = false -> isdelimiter b = false ->
  exists stm,
    stream_rest stm = rest
    /\ pdfi_read_num_loop (S fuel) sel c Buffer real malformed
       = if pdfstoponerror c
         then (gs_error_syntaxerror, put_stream sel stm c, Buffer, real, malformed)
         else (0, snd (pdfi_unread sel [b]
                         (set_pdf_errors (Z.lor (pdf_errors c) E_PDF_MISSINGWHITESPACE)
                            (put_stream sel stm c))),
               Buffer, real, malformed).
Proof.
  intros Hp Hr Hn Hw Hd.
  destruct (pdfi_read_byte_cons _ _ _ _ Hp Hr) as (stm & Hrb & Hrest & Heof & Hpos).
  exists stm. split; [exact Hrest|].
  cbn [pdfi_read_num_loop]. rewrite Hrb.
  cbn [Z.eqb Z.leb Z.compare andb]. rewrite Hw, Hd.
  unfold starts_number, is_digit in Hn.
  change (ch "+") with 43 in *. change (ch "-") with 45 in *. change (ch ".") with 46 in *.
  rewrite !orb_false_iff in Hn. destruct Hn as [[[Hdig H43] H45] H46].
  rewrite H46, H45, H43. cbn [orb].
  assert (Hout : (b <? 48) || (b >? 57) = true).
  { apply andb_false_iff in Hdig. rewrite Z.gtb_ltb.
    destruct Hdig as [H|H]; [apply orb_true_iff; left; apply Z.ltb_lt
                            |apply orb_true_iff; right; apply Z.ltb_lt];
      apply Z.leb_gt in H; lia. }
  rewrite Hout, pdfstoponerror_put_stream, pdf_errors_put_stream.
  destruct (pdfstoponerror c); [reflexivity|].
  destruct (pdfi_unread sel [b] _) as [code cu]. reflexivity.
Qed.

(** pdfi_read_num on an integer that is followed at once by a byte that
    cannot be part of a number and is neither white space nor a delimiter:
    with stop-on-error set the result is gs_error_syntaxerror and nothing is
    pushed; otherwise the integer is pushed, E_PDF_MISSINGWHITESPACE is set
    and the byte is left in the stream. *)
Theorem pdfi_read_num_missing_whitespace (sel : stream_sel) (c : pdf_context)
    (sign ds rest : list Z) (b : Z) :
  0 <= s_pos (get_stream sel c) ->
  stream_rest (get_stream sel c) = sign ++ ds ++ b :: rest ->
  is_sign_prefix sign = true ->
  ds <> [] -> forallb is_digit ds = true ->
  starts_number b = false -> iswhite b = false -> isdelimiter b = false ->
  Z.of_nat (length (sign ++ ds)) <= 255 ->
  - 2 ^ 31 <= signed_value sign ds < 2 ^ 31 ->
  (pdfstoponerror c = true ->
   exists c', pdfi_read_num sel c = (gs_error_syntaxerror, c')
              /\ stack c' = stack c /\ heap c' = heap c)
  /\ (pdfstoponerror c = false ->
      exists c' p ob,
        pdfi_read_num sel c = (0, c') /\ stack c' = p :: stack c
        /\ get_obj c' p = Some ob /\ type ob = PDF_INT
        /\ value_i ob = signed_value sign ds /\ refcnt ob = 1
        /\ pdf_errors c' = Z.lor (pdf_errors c) E_PDF_MISSINGWHITESPACE
        /\ stream_rest (get_stream sel c') = b :: rest).
Proof.
  intros Hp Hr Hs Hne Hd Hb Hw Hdl Hlen Hv.
  destruct (signed_run_wellformed sign ds Hs Hd) as (Hn & Hm & Hpt).
  rewrite app_assoc in Hr.
  destruct (sign ++ ds) as [|x xs] eqn:Hrun.
  { destruct sign; [|discriminate]. simpl in Hrun. congruence. }
  assert (Hx : starts_number x = true).
  { simpl in Hn. apply andb_true_iff in Hn. tauto. }
  destruct (skip_white_not_white sel c x (xs ++ b :: rest)) as (stm0 & Hsk & Hr0 & Hp0); auto.
  { apply starts_number_not_white. exact Hx. }
  assert (Hfuel : exists k, (257 = length (x :: xs) + S k)%nat).
  { exists (256 - length (x :: xs))%nat. clear - Hlen. lia. }
  destruct Hfuel as [k Hfuel].
  destruct (pdfi_read_num_loop_prefix sel (b :: rest) (x :: xs) [] (put_stream sel stm0 c) (S k))
    as (stm1 & Hr1 & Hp1 & Hloop1); rewrite ?get_put_stream; auto;
    try (change (Z.of_nat (length (@nil Z))) with 0; lia).
  rewrite put_put_stream in Hloop1. rewrite <- Hfuel in Hloop1.
  change (has_point []) with false in Hloop1. cbn [app] in Hloop1.
  destruct (pdfi_read_num_loop_other sel (put_stream sel stm1 c) k (x :: xs)
              (has_point (x :: xs)) false b rest)
    as (stm2 & Hr2 & Hloop2); rewrite ?get_put_stream; auto.
  rewrite pdfstoponerror_put_stream, pdf_errors_put_stream, put_put_stream in Hloop2.
  unfold pdfi_read_num. rewrite Hsk, Hloop1, Hloop2.
  split.
  - intros ->. cbn [Z.ltb Z.compare gs_error_syntaxerror].
    eexists. split; [reflexivity|].
    rewrite stack_put_stream, heap_put_stream. auto.
  - intros ->. cbn [Z.ltb Z.compare]. rewrite Hpt.
    set (c1 := snd (pdfi_unread sel [b] _)).
    assert (Hc1 : stack c1 = stack c /\ pdf_errors c1 = Z.lor (pdf_errors c) E_PDF_MISSINGWHITESPACE
                  /\ stream_rest (get_stream sel c1) = b :: rest).
    { unfold c1, pdfi_unread. cbn [snd].
      rewrite get_stream_set_pdf_errors, get_put_stream, get_put_stream.
      split; [destruct sel; reflexivity|]. split; [destruct sel; reflexivity|].
      unfold stream_rest in *. cbn. rewrite Hr2. reflexivity. }
    destruct Hc1 as (Hst1 & Her1 & Hrs1). clearbody c1.
    rewrite <- Hrun.
    destruct (pdfi_read_num_object_int c1 (sign ++ ds) (signed_value sign ds))
      as (c' & ob & Hobj & Hst & Hg & Hty & Hval & Hrc & Her & Hms & Hcs).
    { apply sscanf_d_signed; auto. }
    rewrite Hobj. exists c', (length (heap c1)), ob.
    split; [reflexivity|]. split; [rewrite Hst, Hst1; reflexivity|].
    split; [exact Hg|]. split; [exact Hty|]. split; [exact Hval|]. split; [exact Hrc|].
    split; [rewrite Her; exact Her1|].
    rewrite (get_stream_eq sel c1 c' Hms Hcs). exact Hrs1.
Qed.

Lemma pdfi_read_num_missing_whitespace_witness :
  (exists c', pdfi_read_num MAIN_STREAM (new_context true (bytes_of_string "12obj"))
              = (gs_error_syntaxerror, c') /\ stack c' = [] /\ heap c' = [])
  /\ (exists c' p ob,
        pdfi_read_num MAIN_STREAM (new_context false (bytes_of_string "12obj")) = (0, c')
        /\ stack c' = p :: []
        /\ get_obj c' p = Some ob /\ type ob = PDF_INT
        /\ value_i ob = 12 /\ refcnt ob = 1
        /\ pdf_errors c' = E_PDF_MISSINGWHITESPACE
        /\ stream_rest (get_stream MAIN_STREAM c') = bytes_of_string "obj").
Proof.
  split.
  - apply (proj1 (pdfi_read_num_missing_whitespace MAIN_STREAM
                    (new_context true (bytes_of_string "12obj"))
                    [] (bytes_of_string "12") (bytes_of_string "bj") (ch "o")
                    ltac:(simpl; lia) eq_refl eq_refl ltac:(intro X; discriminate X)
                    eq_refl eq_refl eq_refl eq_refl ltac:(simpl; lia)
                    ltac:(vm_compute; split; [intro X; discriminate X|reflexivity]))).
    reflexivity.
  - apply (proj2 (pdfi_read_num_missing_whitespace MAIN_STREAM
                    (new_context false (bytes_of_string "12obj"))
                    [] (bytes_of_string "12") (bytes_of_string "bj") (ch "o")
                    ltac:(simpl; lia) eq_refl eq_refl ltac:(intro X; discriminate X)
                    eq_refl eq_refl eq_refl eq_refl ltac:(simpl; lia)
                    ltac:(vm_compute; split; [intro X; discriminate X|reflexivity]))).
    reflexivity.
Defined.

(** ** Tokens that produce no object *)

Lemma count_to_mark_list_put_stream sel stm c l :
  count_to_mark_list (put_stream sel stm c) l = count_to_mark_list c l.
Proof.
  induction l as [|p l IH]; [reflexivity|].
  cbn [count_to_mark_list]. rewrite IH.
  replace (obj_type (put_stream sel stm c) p) with (obj_type c p)
    by (destruct sel; reflexivity).
  reflexivity.
Qed.

(** pdfi_read_token up to its first byte that is not white space. *)
Lemma pdfi_read_token_first sel c w b rest :
  0 <= s_pos (get_stream sel c) ->
  stream_rest (get_stream sel c) = w ++ b :: rest ->
  forallb iswhite w = true -> iswhite b = false ->
  Z.of_nat (length w) < 2 ^ 32 - 1 ->
  exists stm0 stm,
    skip_white sel c = (0, put_stream sel stm0 c)
    /\ pdfi_read_byte sel (put_stream sel stm0 c) = (1, b, put_stream sel stm c)
    /\ stream_rest stm = rest /\ 0 <= s_pos stm.
Proof.
  intros Hp Hr Hw Hb Hlen.
  destruct (leading_run_app iswhite w b rest Hw Hb) as [Hrun Hdrop].
  destruct (skip_white_short sel c Hp) as (stm0 & Hsk & Hr0 & Hp0).
  { rewrite Hr, Hrun. exact Hlen. }
  rewrite Hr, Hdrop in Hr0.
  destruct (pdfi_read_byte_cons sel (put_stream sel stm0 c) b rest)
    as (stm & Hrb & Hrest & _ & Hpos); rewrite ?get_put_stream; auto.
  rewrite put_put_stream in Hrb.
  exists stm0, stm. auto.
Qed.

(** One pass of pdfi_read_token over a byte that stands for no object. *)
Lemma pdfi_read_token_fuel_step (sel : stream_sel) (c : pdf_context)
    (w rest : list Z) (b : Z) (fuel : nat) :
  0 <= s_pos (get_stream sel c) ->
  stream_rest (get_stream sel c) = w ++ b :: rest ->
  forallb iswhite w = true -> iswhite b = false ->
  Z.of_nat (length w) < 2 ^ 32 - 1 ->
  exists stm,
    stream_rest stm = rest /\ 0 <= s_pos stm
    /\ (b = ch "%" ->
        exists stm',
          stream_rest stm' = tail (drop_leading (fun x => negb (is_eol x)) rest)
          /\ pdfi_read_token_fuel (S fuel) sel c
             = pdfi_read_token_fuel fuel sel (put_stream sel stm' c)
          /\ 0 <= s_pos stm')
    /\ (b = ch "}" ->
        pdfi_read_token_fuel (S fuel) sel c
        = pdfi_read_token_fuel fuel sel (snd (pdfi_clear_to_mark (put_stream sel stm c))))
    /\ (b = ch ")" ->
        pdfi_read_token_fuel (S fuel) sel c
        = if pdfstoponerror c then (gs_error_syntaxerror, put_stream sel stm c)
          else pdfi_read_token_fuel fuel sel (put_stream sel stm c))
    /\ (b = ch "]" -> count_to_mark_list c (stack c) = None ->
        pdfi_read_token_fuel (S fuel) sel c
        = if pdfstoponerror c then (gs_error_unmatchedmark, put_stream sel stm c)
          else pdfi_read_token_fuel fuel sel (pdfi_clearstack (put_stream sel stm c))).
Proof.
  intros Hp Hr Hw Hb Hlen.
  destruct (pdfi_read_token_first sel c w b rest Hp Hr Hw Hb Hlen)
    as (stm0 & stm & Hsk & Hrb & Hrest & Hpos).
  exists stm. split; [exact Hrest|]. split; [exact Hpos|].
  split; [|split; [|split]].
  - intros ->.
    destruct (pdfi_skip_comment_loop_spec sel rest (put_stream sel stm c)
                (stream_fuel sel (put_stream sel stm c)))
      as (stm' & Hcm & Hrest' & Hpos'); rewrite ?get_put_stream; auto.
    { unfold stream_fuel. rewrite get_put_stream, Hrest. lia. }
    fold (pdfi_skip_comment sel (put_stream sel stm c)) in Hcm.
    rewrite put_put_stream in Hcm.
    exists stm'. split; [exact Hrest'|]. split; [|exact Hpos'].
    cbn [pdfi_read_token_fuel]. rewrite Hsk, Hrb, Hcm. reflexivity.
  - intros ->. cbn [pdfi_read_token_fuel]. rewrite Hsk, Hrb.
    destruct (pdfi_clear_to_mark (put_stream sel stm c)) as [code c2]. reflexivity.
  - intros ->. cbn [pdfi_read_token_fuel]. rewrite Hsk, Hrb.
    rewrite pdfstoponerror_put_stream. reflexivity.
  - intros -> Hno. cbn [pdfi_read_token_fuel]. rewrite Hsk, Hrb.
    assert (Harr : pdfi_array_from_stack (put_stream sel stm c)
                   = (gs_error_unmatchedmark, put_stream sel stm c)).
    { unfold pdfi_array_from_stack, pdfi_count_to_mark.
      rewrite stack_put_stream, count_to_mark_list_put_stream, Hno. reflexivity. }
    change (starts_number (ch "]")) with false.
    cbn [Z.ltb Z.eqb Z.compare andb].
    change (ch "]" =? ch "/") with false. change (ch "]" =? ch "<") with false.
    change (ch "]" =? ch ">") with false. change (ch "]" =? ch "(") with false.
    change (ch "]" =? ch "[") with false. change (ch "]" =? ch "]") with true.
    cbv iota. rewrite Harr. rewrite pdfstoponerror_put_stream.
    destruct (pdfstoponerror c); reflexivity.
Qed.

(** *** The stream after operations on the stack *)

Lemma drop_leading_length f l : (length (drop_leading f l) <= length l)%nat.
Proof.
  induction l as [|x l IH]; cbn [drop_leading length]; [lia|].
  destruct (f x); cbn [length]; lia.
Qed.

Lemma get_stream_set_heap sel h c : get_stream sel (set_heap h c) = get_stream sel c.
Proof. destruct sel; reflexivity. Qed.

Lemma get_stream_set_stack sel s c : get_stream sel (set_stack s c) = get_stream sel c.
Proof. destruct sel; reflexivity. Qed.

Lemma get_stream_pdfi_countup sel p c :
  get_stream sel (pdfi_countup p c) = get_stream sel c.
Proof.
  unfold pdfi_countup. destruct (get_obj c p); [apply get_stream_set_heap|reflexivity].
Qed.

Lemma get_stream_pdfi_pop sel n :
  forall c, get_stream sel (pdfi_pop n c) = get_stream sel c.
Proof.
  induction n as [|n IH]; intros c; cbn [pdfi_pop]; [reflexivity|].
  destruct (stack c) as [|p tl]; [reflexivity|].
  rewrite IH. unfold pdfi_countdown.
  rewrite get_stream_set_heap. apply get_stream_set_stack.
Qed.

Lemma get_stream_set_array_value sel a i p c :
  get_stream sel (set_array_value a i p c) = get_stream sel c.
Proof.
  unfold set_array_value. destruct (get_obj c a); [apply get_stream_set_heap|reflexivity].
Qed.

Lemma get_stream_array_fill_from_stack sel a n :
  forall c, get_stream sel (array_fill_from_stack n a c) = get_stream sel c.
Proof.
  induction n as [|n IH]; intros c; cbn [array_fill_from_stack]; [reflexivity|].
  destruct (stack c) as [|p tl]; [reflexivity|].
  rewrite IH, get_stream_pdfi_pop, get_stream_pdfi_countup.
  apply get_stream_set_array_value.
Qed.

Lemma get_stream_pdfi_clear_to_mark sel c :
  get_stream sel (snd (pdfi_clear_to_mark c)) = get_stream sel c.
Proof.
  unfold pdfi_clear_to_mark. destruct (pdfi_count_to_mark c) as [code n].
  destruct (code <? 0); cbn [snd]; [reflexivity|apply get_stream_pdfi_pop].
Qed.

Lemma get_stream_pdfi_clearstack sel c :
  get_stream sel (pdfi_clearstack c) = get_stream sel c.
Proof. apply get_stream_pdfi_pop. Qed.

Lemma get_stream_pdfi_array_from_stack sel c :
  get_stream sel (snd (pdfi_array_from_stack c)) = get_stream sel c.
Proof.
  unfold pdfi_array_from_stack. destruct (pdfi_count_to_mark c) as [code n].
  destruct (code <? 0); [reflexivity|].
  unfold pdfi_alloc_object. cbn [Z.ltb Z.compare].
  set (c1 := set_heap _ c).
  set (c3 := array_fill_from_stack n _ _).
  assert (H3 : get_stream sel c3 = get_stream sel c).
  { unfold c3. rewrite get_stream_array_fill_from_stack.
    unfold set_entries. destruct (get_obj c1 _);
      [unfold put_obj; rewrite get_stream_set_heap|]; apply get_stream_set_heap. }
  pose proof (get_stream_pdfi_clear_to_mark sel c3) as H4.
  destruct (pdfi_clear_to_mark c3) as [code4 c4]. cbn [snd] in H4.
  destruct (code4 <? 0); cbn [snd]; [congruence|].
  unfold pdfi_push. cbn [Z.ltb Z.compare snd].
  rewrite get_stream_set_stack, get_stream_pdfi_countup. congruence.
Qed.

(** *** The depth of the recursion of pdfi_read_token *)

(** Every nested call of pdfi_read_token has consumed a byte, so one call
    more than the stream has bytes is as good as any larger number. *)
Lemma pdfi_read_token_fuel_enough sel :
  forall n m c,
    0 <= s_pos (get_stream sel c) ->
    (length (stream_rest (get_stream sel c)) < n)%nat ->
    (length (stream_rest (get_stream sel c)) < m)%nat ->
    pdfi_read_token_fuel n sel c = pdfi_read_token_fuel m sel c.
Proof.
  induction n as [|n IH]; intros m c Hp Hn Hm; [lia|].
  destruct m as [|m]; [lia|].
  cbn [pdfi_read_token_fuel].
  destruct (skip_white_loop_spec sel _ c (stream_fuel sel c) 0 Hp eq_refl)
    as (stm0 & Hsk & Hr0 & Hp0); [unfold stream_fuel; lia|].
  fold (skip_white sel c) in Hsk. rewrite Hsk.
  pose proof (skip_rest_length iswhite 0 (stream_rest (get_stream sel c))) as Hlen.
  rewrite <- Hr0 in Hlen.
  destruct (stream_rest stm0) as [|b rest] eqn:Erest.
  - destruct (pdfi_read_byte_nil sel (put_stream sel stm0 c)) as (stm & Hrb & _ & Heof & _);
      [rewrite get_put_stream; exact Erest|].
    rewrite Hrb. reflexivity.
  - destruct (pdfi_read_byte_cons sel (put_stream sel stm0 c) b rest)
      as (stm & Hrb & Hrest & _ & Hpos); rewrite ?get_put_stream; auto.
    rewrite put_put_stream in Hrb. rewrite Hrb.
    cbn [Z.ltb Z.eqb Z.compare andb length] in *.
    set (c1 := put_stream sel stm c).
    assert (Hc1 : get_stream sel c1 = stm) by apply get_put_stream.
    assert (Hrec : forall c2, get_stream sel c2 = stm ->
                     pdfi_read_token_fuel n sel c2 = pdfi_read_token_fuel m sel c2).
    { intros c2 H2. apply IH; rewrite H2, ?Hrest; [exact Hpos|lia|lia]. }
    destruct (starts_number b); [reflexivity|].
    destruct (b =? ch "/"); [reflexivity|].
    destruct (b =? ch "<"); [reflexivity|].
    destruct (b =? ch ">"); [reflexivity|].
    destruct (b =? ch "("); [reflexivity|].
    destruct (b =? ch "["); [reflexivity|].
    destruct (b =? ch "]").
    { pose proof (get_stream_pdfi_array_from_stack sel c1) as Ha.
      destruct (pdfi_array_from_stack c1) as [code c2]. cbn [snd] in Ha.
      destruct (code <? 0); [|reflexivity].
      destruct ((code =? gs_error_VMerror) || (code =? gs_error_ioerror) || pdfstoponerror c2);
        [reflexivity|].
      apply Hrec. rewrite get_stream_pdfi_clearstack. congruence. }
    destruct (b =? ch "{"); [reflexivity|].
    destruct (b =? ch "}").
    { pose proof (get_stream_pdfi_clear_to_mark sel c1) as Ha.
      destruct (pdfi_clear_to_mark c1) as [code c2]. cbn [snd] in Ha.
      apply Hrec. congruence. }
    destruct (b =? ch "%").
    { destruct (pdfi_skip_comment_loop_spec sel rest c1 (stream_fuel sel c1))
        as (stm' & Hcm & Hrest' & Hpos'); rewrite ?Hc1; auto.
      { unfold stream_fuel. rewrite Hc1, Hrest. lia. }
      fold (pdfi_skip_comment sel c1) in Hcm. rewrite Hcm.
      assert (Hl : (length (stream_rest stm') <= length rest)%nat).
      { rewrite Hrest'.
        pose proof (drop_leading_length (fun x => negb (is_eol x)) rest) as Hd.
        destruct (drop_leading (fun x => negb (is_eol x)) rest); cbn [tail length] in *; lia. }
      apply IH; rewrite get_put_stream; [exact Hpos'|lia|lia]. }
    destruct (isdelimiter b); [|reflexivity].
    destruct (pdfstoponerror c1); [reflexivity|].
    apply Hrec. exact Hc1.
Qed.

(** The recursive call of pdfi_read_token that follows a consumed byte. *)
Lemma pdfi_read_token_fuel_rest sel c' (n : nat) :
  0 <= s_pos (get_stream sel c') ->
  (length (stream_rest (get_stream sel c')) < n)%nat ->
  pdfi_read_token_fuel n sel c' = pdfi_read_token sel c'.
Proof.
  intros Hp Hn. unfold pdfi_read_token. apply pdfi_read_token_fuel_enough; auto.
  unfold stream_fuel. lia.
Qed.

(** pdfi_read_token passes over what stands for no object and reads the
    next token: after a percent sign, from the byte after the end of the
    line; after a closing brace, with the stack cleared down to the topmost
    mark; after a closing parenthesis outside a string; and after a closing
    bracket with no mark on the stack, with the whole stack cleared.  With
    stop-on-error set the last two end the read with an error instead
    (gs_error_syntaxerror and the error of pdfi_count_to_mark). *)
Theorem pdfi_read_token_continues (sel : stream_sel) (c : pdf_context)
    (w rest : list Z) (b : Z) :
  0 <= s_pos (get_stream sel c) ->
  stream_rest (get_stream sel c) = w ++ b :: rest ->
  forallb iswhite w = true -> iswhite b = false ->
  Z.of_nat (length w) < 2 ^ 32 - 1 ->
  exists stm,
    stream_rest stm = rest
    /\ (b = ch "%" ->
        exists stm',
          stream_rest stm' = tail (drop_leading (fun x => negb (is_eol x)) rest)
          /\ pdfi_read_token sel c = pdfi_read_token sel (put_stream sel stm' c))
    /\ (b = ch "}" ->
        pdfi_read_token sel c
        = pdfi_read_token sel (snd (pdfi_clear_to_mark (put_stream sel stm c))))
    /\ (b = ch ")" ->
        pdfi_read_token sel c
        = if pdfstoponerror c then (gs_error_syntaxerror, put_stream sel stm c)
          else pdfi_read_token sel (put_stream sel stm c))
    /\ (b = ch "]" -> count_to_mark_list c (stack c) = None ->
        pdfi_read_token sel c
        = if pdfstoponerror c then (gs_error_unmatchedmark, put_stream sel stm c)
          else pdfi_read_token sel (pdfi_clearstack (put_stream sel stm c))).
Proof.
  intros Hp Hr Hw Hb Hlen.
  set (n := S (length (stream_rest (get_stream sel c)))).
  destruct (pdfi_read_token_fuel_step sel c w rest b n Hp Hr Hw Hb Hlen)
    as (stm & Hrest & Hpos & Hcomment & Hbrace & Hparen & Hbracket).
  assert (Hn : (length rest < n)%nat).
  { unfold n. rewrite Hr, length_app. cbn [length]. lia. }
  assert (Hstep : forall c', get_stream sel c' = stm ->
                    pdfi_read_token_fuel n sel c' = pdfi_read_token sel c').
  { intros c' H'. apply pdfi_read_token_fuel_rest; rewrite H', ?Hrest; auto. }
  exists stm. split; [exact Hrest|].
  change (pdfi_read_token sel c) with (pdfi_read_token_fuel (S n) sel c).
  split; [|split; [|split]].
  - intros E. destruct (Hcomment E) as (stm' & Hrest' & Heq & Hpos').
    exists stm'. split; [exact Hrest'|]. rewrite Heq.
    apply pdfi_read_token_fuel_rest; rewrite get_put_stream; [exact Hpos'|].
    rewrite Hrest'.
    pose proof (drop_leading_length (fun x => negb (is_eol x)) rest) as Hd.
    destruct (drop_leading (fun x => negb (is_eol x)) rest); cbn [tail length] in *; lia.
  - intros E. rewrite (Hbrace E). apply Hstep.
    rewrite get_stream_pdfi_clear_to_mark. apply get_put_stream.
  - intros E. rewrite (Hparen E). destruct (pdfstoponerror c); [reflexivity|].
    apply Hstep. apply get_put_stream.
  - intros E Hno. rewrite (Hbracket E Hno). destruct (pdfstoponerror c); [reflexivity|].
    apply Hstep. rewrite get_stream_pdfi_clearstack. apply get_put_stream.
Qed.

Lemma pdfi_read_token_continues_witness :
  exists stm,
    stream_rest stm = bytes_of_string " 7"
    /\ pdfi_read_token MAIN_STREAM (new_context false (bytes_of_string " ] 7"))
       = pdfi_read_token MAIN_STREAM
           (pdfi_clearstack
              (put_stream MAIN_STREAM stm (new_context false (bytes_of_string " ] 7")))).
Proof.
  destruct (pdfi_read_token_continues MAIN_STREAM
              (new_context false (bytes_of_string " ] 7")) [32] (bytes_of_string " 7")
              (ch "]") ltac:(simpl; lia) eq_refl eq_refl eq_refl ltac:(simpl; lia))
    as (stm & H1 & _ & _ & _ & H2).
  exists stm. split; [exact H1|]. exact (H2 eq_refl eq_refl).
Defined.

(** ** An array read as a token *)

(** pdfi_read_token at a closing bracket makes an array of the objects
    above the topmost mark of the stack (pdfi_array_from_stack): the array
    has as many slots and entries as there are such objects, holds them
    bottom first, and is pushed with reference count 1 in place of the mark
    and the objects.  The reference that the stack held to each object
    passes to the array, so their reference counts are as before; the mark
    loses its reference.  The stream is left after the bracket. *)
Theorem pdfi_read_token_array (sel : stream_sel) (c : pdf_context)
    (w rest : list Z) (items tl : list nat) (m : nat) (mob : pdf_obj) :
  0 <= s_pos (get_stream sel c) ->
  stream_rest (get_stream sel c) = w ++ ch "]" :: rest ->
  forallb iswhite w = true -> Z.of_nat (length w) < 2 ^ 32 - 1 ->
  stack c = items ++ m :: tl ->
  get_obj c m = Some mob -> is_mark (type mob) = true ->
  Forall (fun p => exists ob, get_obj c p = Some ob /\ is_mark (type ob) = false
                              /\ refcnt ob <> 0) items ->
  Z.of_nat (length items) < 2 ^ 32 ->
  exists c' arr,
    pdfi_read_token sel c = (0, c')
    /\ stack c' = length (heap c) :: tl
    /\ get_obj c' (length (heap c)) = Some arr
    /\ type arr = PDF_ARRAY /\ refcnt arr = 1
    /\ size arr = Z.of_nat (length items) /\ entries arr = Z.of_nat (length items)
    /\ values arr = map Some (rev items)
    /\ (forall q, q <> m -> (q < length (heap c))%nat -> heap c' !! q = heap c !! q)
    /\ (get_obj c' m = None
        \/ get_obj c' m = Some (set_refcnt (refcnt mob - 1) mob))
    /\ stream_rest (get_stream sel c') = rest.
Proof.
  intros Hp Hr Hw Hlen Hst Hm Hmt Hall Hn.
  destruct (pdfi_read_token_first sel c w (ch "]") rest Hp Hr Hw eq_refl Hlen)
    as (stm0 & stm & Hsk & Hrb & Hrest & Hpos).
  set (c1 := put_stream sel stm c).
  assert (Hheap : heap c1 = heap c) by apply heap_put_stream.
  destruct (pdfi_array_from_stack_spec c1 items tl m mob)
    as (c' & arr & H1 & H2 & H3 & H4 & H5 & H6 & H7 & H8 & H9 & H10 & H11 & H12 & H13);
    auto.
  { unfold c1. rewrite stack_put_stream. exact Hst. }
  { unfold get_obj. rewrite Hheap. exact Hm. }
  { eapply Forall_impl; [exact Hall|]. cbn beta. intros p (ob & Hob & Hrest').
    exists ob. split; [|exact Hrest']. unfold get_obj. rewrite Hheap. exact Hob. }
  rewrite Hheap in *.
  exists c', arr.
  split.
  { unfold pdfi_read_token, stream_fuel. cbn [pdfi_read_token_fuel].
    rewrite Hsk, Hrb.
    change (starts_number (ch "]")) with false.
    cbn [Z.ltb Z.eqb Z.compare andb].
    change (ch "]" =? ch "/") with false. change (ch "]" =? ch "<") with false.
    change (ch "]" =? ch ">") with false. change (ch "]" =? ch "(") with false.
    change (ch "]" =? ch "[") with false. change (ch "]" =? ch "]") with true.
    cbv iota. fold c1. rewrite H1. reflexivity. }
  split; [exact H2|]. split; [exact H3|]. split; [exact H4|]. split; [exact H5|].
  split; [exact H6|]. split; [exact H7|]. split; [exact H8|]. split; [exact H9|].
  split; [exact H10|].
  rewrite (get_stream_eq sel c1 c' H11 H12). unfold c1. rewrite get_put_stream.
  exact Hrest.
Qed.

Lemma pdfi_read_token_array_witness :
  exists c' arr,
    pdfi_read_token MAIN_STREAM bracket_context = (0, c')
    /\ stack c' = [3%nat]
    /\ get_obj c' 3 = Some arr
    /\ type arr = PDF_ARRAY /\ refcnt arr = 1
    /\ size arr = 2 /\ entries arr = 2
    /\ values arr = [Some 1%nat; Some 2%nat].
Proof.
  assert (Hitems : Forall (fun p => exists ob, get_obj bracket_context p = Some ob
                                     /\ is_mark (type ob) = false /\ refcnt ob <> 0)
                     [2%nat; 1%nat]).
  { constructor;
      [eexists; (split; [reflexivity|]); split; [reflexivity|vm_compute; intro X; discriminate X]|].
    constructor;
      [eexists; (split; [reflexivity|]); split; [reflexivity|vm_compute; intro X; discriminate X]|].
    constructor. }
  destruct (pdfi_read_token_array MAIN_STREAM bracket_context [] [] [2%nat; 1%nat] [] 0%nat _
              ltac:(vm_compute; intro X; discriminate X) eq_refl eq_refl
              ltac:(simpl; lia) eq_refl eq_refl eq_refl Hitems ltac:(simpl; lia))
    as (c' & arr & H1 & H2 & H3 & H4 & H5 & H6 & H7 & H8 & _).
  exists c', arr. repeat split; assumption.
Defined.

(** ** The end of the stream *)

(** pdfi_read_token on a stream that holds nothing but white space returns
    0 and pushes nothing: the stack and the objects are as before, the
    stream is at its end and its end-of-file flag is set. *)
Theorem pdfi_read_token_end (sel : stream_sel) (c : pdf_context) (w : list Z) :
  0 <= s_pos (get_stream sel c) ->
  stream_rest (get_stream sel c) = w ->
  forallb iswhite w = true ->
  exists c',
    pdfi_read_token sel c = (0, c')
    /\ stack c' = stack c /\ heap c' = heap c
    /\ stream_rest (get_stream sel c') = [] /\ eof (get_stream sel c') = true.
Proof.
  intros Hp Hr Hw.
  destruct (skip_white_loop_spec sel w c (stream_fuel sel c) 0 Hp Hr)
    as (stm0 & Hsk & Hr0 & Hp0); [unfold stream_fuel; rewrite Hr; lia|].
  fold (skip_white sel c) in Hsk.
  assert (Hdrop : skip_rest iswhite 0 w = []).
  { unfold skip_rest. rewrite (leading_run_all iswhite w Hw).
    destruct (_ =? 0); reflexivity. }
  rewrite Hdrop in Hr0.
  destruct (pdfi_read_byte_nil sel (put_stream sel stm0 c)) as (stm & Hrb & Hrest & Heof & _);
    [rewrite get_put_stream; exact Hr0|].
  rewrite put_put_stream in Hrb.
  exists (put_stream sel stm c).
  split.
  - unfold pdfi_read_token, stream_fuel. cbn [pdfi_read_token_fuel].
    rewrite Hsk, Hrb. cbn [Z.ltb Z.eqb Z.compare andb].
    rewrite get_put_stream, Heof. reflexivity.
  - rewrite stack_put_stream, heap_put_stream, get_put_stream. auto.
Qed.

Lemma pdfi_read_token_end_witness :
  exists c',
    pdfi_read_token MAIN_STREAM (new_context false (bytes_of_string "  ")) = (0, c')
    /\ stack c' = [] /\ stream_rest (get_stream MAIN_STREAM c') = [].
Proof.
  destruct (pdfi_read_token_end MAIN_STREAM (new_context false (bytes_of_string "  "))
              (bytes_of_string "  ") ltac:(simpl; lia) eq_refl eq_refl)
    as (c' & H1 & H2 & _ & H3 & _).
  exists c'. split; [exact H1|]. split; [exact H2|exact H3].
Defined.
